(** * Piorun 5.1: a shallow embedding of the document generator's state logic

    The program (src/Piorun5.1.py) is one controller object,
    [GeneratorDokumentow], that owns a list of image paths, a dictionary of
    step descriptions keyed by the step index, a bounded snapshot history
    with a cursor, and a few widgets; a worker, [ImageResizerThread], shrinks
    images.  This file models the state those methods read and write and the
    methods themselves, as functions on that state.

    Conventions.
    - A Python [str] is a [string]; a Python [int] is a [Z]; [None] is the
      [None] of an [option].
    - A [dict] keyed by integers is a [gmap Z _]; the code only looks keys up,
      inserts and deletes, so insertion order plays no role.
    - Widgets are modelled by the part of their state the methods read back:
      the text of a [QLineEdit], the items and current index of a
      [QComboBox], the item count and current row of the step list.
      Display-only widgets (labels, preview, thumbnails, the step editor
      fields) and message boxes are left out. *)

From Stdlib Require Import ZArith Floats Uint63 Strings.Byte Strings.Ascii.
From stdpp Require Import ssreflect gmap strings list pretty sorting.

#[local] Set Warnings "-rewrite-rw".
Local Open Scope Z_scope.

(** ** Data model *)

(** The value stored per step: the dictionary [{'nazwa': ..., 'opis': ...}]. *)
Record krok := Krok { k_nazwa : string; k_opis : string }.

(** One entry of [stan_historia], the dictionary built by [zapisz_stan]. *)
Record stan := Stan {
  s_ilustracje : list string;
  s_opisy_krokow : gmap Z krok;
  s_aktualny_wybrany_krok : option Z;
  s_kod : string;
  s_nazwa : string;
  s_data : string;
  s_autor : string
}.

(** The four [QLineEdit]s of the document data group. *)
Record pola := Pola {
  kod_edit : string;
  nazwa_edit : string;
  data_edit : string;
  autor_edit : string
}.

(** A [QComboBox]: its items and its current index ([-1] when there is
    none).  An item is kept as the one string the methods read back: the
    user data of the layout and language items ([currentData], [findData]),
    the text of the size and font items ([currentText], [setCurrentText]).
    The translated captions of the layout and language items are display
    only. *)
Record combo := Combo {
  items : list string;
  current : Z
}.

(** JSON values, as [json.dump] writes and [json.load] reads them.  A
    [JObj] stands for a Python [dict] with string keys, in insertion order;
    its keys are pairwise distinct. *)
#[local] Unset Elimination Schemes.
Inductive json :=
| JNull
| JBool (b : bool)
| JNum (n : Z)
| JStr (s : string)
| JArr (l : list json)
| JObj (l : list (string * json)).
#[local] Set Elimination Schemes.

(** The document options: the five combo boxes, and the attributes
    [jezyk], [dark_theme] and [tlumaczenia]. *)
Record opcje := Opcje {
  layout_combo : combo;
  size_combo : combo;
  font_combo : combo;
  font_size_combo : combo;
  lang_combo : combo;
  jezyk : string;
  dark_theme : bool;
  tlumaczenia : json
}.

(** The step list widget: number of items and [currentRow()]. *)
Record lista := Lista { count : nat; currentRow : Z }.

(** The controller object. *)
Record app := App {
  dok : pola;
  ilustracje : list string;
  opisy_krokow : gmap Z krok;
  aktualny_wybrany_krok : option Z;
  steps_list : lista;
  stan_historia : list stan;
  aktualny_stan_index : Z;
  opc : opcje;
  temp_dir : string;
  autosave_dir : string;
  autosave_enabled : bool
}.

Definition maks_historia : Z := 20.

(** Attribute assignments on the controller. *)
Definition set_dok (d : pola) (a : app) : app :=
  App d (ilustracje a) (opisy_krokow a) (aktualny_wybrany_krok a) (steps_list a)
      (stan_historia a) (aktualny_stan_index a) (opc a)
      (temp_dir a) (autosave_dir a) (autosave_enabled a).

Definition set_ilustracje (l : list string) (a : app) : app :=
  App (dok a) l (opisy_krokow a) (aktualny_wybrany_krok a) (steps_list a)
      (stan_historia a) (aktualny_stan_index a) (opc a)
      (temp_dir a) (autosave_dir a) (autosave_enabled a).

Definition set_opisy_krokow (m : gmap Z krok) (a : app) : app :=
  App (dok a) (ilustracje a) m (aktualny_wybrany_krok a) (steps_list a)
      (stan_historia a) (aktualny_stan_index a) (opc a)
      (temp_dir a) (autosave_dir a) (autosave_enabled a).

Definition set_aktualny_wybrany_krok (k : option Z) (a : app) : app :=
  App (dok a) (ilustracje a) (opisy_krokow a) k (steps_list a)
      (stan_historia a) (aktualny_stan_index a) (opc a)
      (temp_dir a) (autosave_dir a) (autosave_enabled a).

Definition set_steps_list (w : lista) (a : app) : app :=
  App (dok a) (ilustracje a) (opisy_krokow a) (aktualny_wybrany_krok a) w
      (stan_historia a) (aktualny_stan_index a) (opc a)
      (temp_dir a) (autosave_dir a) (autosave_enabled a).

Definition set_historia (h : list stan) (i : Z) (a : app) : app :=
  App (dok a) (ilustracje a) (opisy_krokow a) (aktualny_wybrany_krok a) (steps_list a)
      h i (opc a)
      (temp_dir a) (autosave_dir a) (autosave_enabled a).

Definition set_opc (o : opcje) (a : app) : app :=
  App (dok a) (ilustracje a) (opisy_krokow a) (aktualny_wybrany_krok a) (steps_list a)
      (stan_historia a) (aktualny_stan_index a) o
      (temp_dir a) (autosave_dir a) (autosave_enabled a).

(** ** The step list widget *)

(** [QListWidget.setCurrentRow]: a row outside the list leaves no current
    item, and [currentRow()] then answers [-1]. *)
Definition setCurrentRow (r : Z) (w : lista) : lista :=
  Lista (count w) (if decide (0 ≤ r < Z.of_nat (count w)) then r else -1).

(** [odswiez_liste]: the list is cleared and refilled, one item per image;
    a refilled list has no current item. *)
Definition odswiez_liste (a : app) : app :=
  set_steps_list (Lista (length (ilustracje a)) (-1)) a.

(** [pokaz_podglad]: when the current row is a valid index into
    [ilustracje], it becomes the selected step. *)
Definition pokaz_podglad (a : app) : app :=
  let current_row := currentRow (steps_list a) in
  if decide (0 ≤ current_row ∧ current_row < Z.of_nat (length (ilustracje a)))
  then set_aktualny_wybrany_krok (Some current_row) a
  else a.

(** ** Snapshot history *)

(** The dictionary [stan] that [zapisz_stan] builds from the live state. *)
Definition biezacy_stan (a : app) : stan :=
  Stan (ilustracje a) (opisy_krokow a) (aktualny_wybrany_krok a)
       (kod_edit (dok a)) (nazwa_edit (dok a)) (data_edit (dok a)) (autor_edit (dok a)).

(** [zapisz_stan]: at capacity the oldest entry is popped (and the cursor
    stepped back when positive); the snapshot is appended and the cursor set
    to the last position. *)
Definition zapisz_stan (a : app) : app :=
  let stan := biezacy_stan a in
  let '(h, i) :=
    if decide (maks_historia ≤ Z.of_nat (length (stan_historia a)))
    then (drop 1 (stan_historia a),
          if decide (0 < aktualny_stan_index a)
          then aktualny_stan_index a - 1 else aktualny_stan_index a)
    else (stan_historia a, aktualny_stan_index a) in
  let h' := h ++ [stan] in
  set_historia h' (Z.of_nat (length h') - 1) a.

(** Python's [lst[i]] for an integer index: negative indices count from the
    end, anything out of range raises [IndexError] (here [None]). *)
Definition py_index {A} (l : list A) (i : Z) : option A :=
  if decide (0 ≤ i) then l !! Z.to_nat i
  else if decide (0 ≤ Z.of_nat (length l) + i) then l !! Z.to_nat (Z.of_nat (length l) + i)
  else None.

(** The common body of [cofnij] and [przywroc]: the live state is
    overwritten from the snapshot, the step list is rebuilt, and the
    selected row is shown again. *)
Definition przywroc_stan (s : stan) (a : app) : app :=
  let a := set_ilustracje (s_ilustracje s) a in
  let a := set_opisy_krokow (s_opisy_krokow s) a in
  let a := set_aktualny_wybrany_krok (s_aktualny_wybrany_krok s) a in
  let a := set_dok (Pola (s_kod s) (s_nazwa s) (s_data s) (s_autor s)) a in
  let a := odswiez_liste a in
  match aktualny_wybrany_krok a with
  | Some k => pokaz_podglad (set_steps_list (setCurrentRow k (steps_list a)) a)
  | None => a
  end.

(** [cofnij].  The result is [None] when the indexing
    [stan_historia[aktualny_stan_index]] raises. *)
Definition cofnij (a : app) : option app :=
  if decide (0 < aktualny_stan_index a) then
    let i := aktualny_stan_index a - 1 in
    let a := set_historia (stan_historia a) i a in
    s ← py_index (stan_historia a) i;
    Some (przywroc_stan s a)
  else Some a.

(** [przywroc]. *)
Definition przywroc (a : app) : option app :=
  if decide (aktualny_stan_index a < Z.of_nat (length (stan_historia a)) - 1) then
    let i := aktualny_stan_index a + 1 in
    let a := set_historia (stan_historia a) i a in
    s ← py_index (stan_historia a) i;
    Some (przywroc_stan s a)
  else Some a.

(** ** Operations on the step list *)

(** [QListWidget.takeItem]: an item in range is removed.  The current row
    the widget picks afterwards is not read before [odswiez_liste] resets
    it, and is left as it was. *)
Definition takeItem (index : Z) (w : lista) : lista :=
  if decide (0 ≤ index < Z.of_nat (count w))
  then Lista (count w - 1) (currentRow w) else w.

(** The loop of [usun_ilustracje] that builds [nowe_opisy]: [n] is
    [len(self.ilustracje)] after the removal and [opisy] the dictionary
    after [del self.opisy_krokow[index]]. *)
Definition przesun_opisy (index : Z) (n : nat) (opisy : gmap Z krok) : gmap Z krok :=
  foldl (λ (nowe_opisy : gmap Z krok) (j : nat),
           let i := Z.of_nat j in
           if decide (index ≤ i) then
             match opisy !! (i + 1) with
             | Some v => <[i := v]> nowe_opisy
             | None => nowe_opisy
             end
           else
             match opisy !! i with
             | Some v => <[i := v]> nowe_opisy
             | None => nowe_opisy
             end)
        ∅ (seq 0 n).

(** [usun_ilustracje], first half: the item, the image path and the
    description at [index] are removed and the later descriptions moved. *)
Definition usun_z_list (index : Z) (a : app) : app :=
  let a := set_steps_list (takeItem index (steps_list a)) a in
  let a := if decide (index < Z.of_nat (length (ilustracje a)))
           then set_ilustracje (delete (Z.to_nat index) (ilustracje a)) a
           else a in
  let a := set_opisy_krokow (delete index (opisy_krokow a)) a in
  set_opisy_krokow
    (przesun_opisy index (length (ilustracje a)) (opisy_krokow a)) a.

(** [usun_ilustracje], second half: the list is rebuilt and the row at
    [index] (or the last one) is selected and shown; on an empty list the
    selection is cleared. *)
Definition pokaz_po_usunieciu (index : Z) (a : app) : app :=
  let a := odswiez_liste a in
  if decide (0 < count (steps_list a))%nat then
    let index := if decide (Z.of_nat (count (steps_list a)) ≤ index)
                 then Z.of_nat (count (steps_list a)) - 1 else index in
    pokaz_podglad (set_steps_list (setCurrentRow index (steps_list a)) a)
  else set_aktualny_wybrany_krok None a.

(** [usun_ilustracje]. *)
Definition usun_ilustracje (a : app) : app :=
  let current_row := currentRow (steps_list a) in
  if decide (current_row < 0) then a else
  let a := zapisz_stan a in
  let index := current_row in
  pokaz_po_usunieciu index (usun_z_list index a).

(** [wyczysc_wszystko]; [dzis] is [datetime.now().strftime("%Y-%m-%d")]. *)
Definition wyczysc_wszystko (dzis : string) (a : app) : app :=
  let a := zapisz_stan a in
  let a := set_ilustracje [] a in
  let a := set_opisy_krokow ∅ a in
  let a := set_steps_list (Lista 0 (-1)) a in
  let a := set_dok (Pola "xxx-xxxx-xxx" "Dokumentacja produktu" dzis "Dorota Zaręba") a in
  set_aktualny_wybrany_krok None a.

(** ** Combo boxes and the language *)

Definition currentData (c : combo) : option string :=
  if decide (0 ≤ current c) then items c !! Z.to_nat (current c) else None.

(** [currentText()] of a combo box that is not editable: the text of the
    current item, or the empty string. *)
Definition currentText (c : combo) : string :=
  default "" (currentData c).

(** [findData] / [findText]: the index of the first matching item or [-1]. *)
Fixpoint find_from (x : string) (l : list string) (i : Z) : Z :=
  match l with
  | [] => -1
  | y :: l' => if decide (x = y) then i else find_from x l' (i + 1)
  end.

Definition findData (x : string) (c : combo) : Z := find_from x (items c) 0.

(** [setCurrentIndex]: an index outside the items clears the selection. *)
Definition setCurrentIndex (i : Z) (c : combo) : combo :=
  Combo (items c) (if decide (0 ≤ i < Z.of_nat (length (items c))) then i else -1).

(** [setCurrentText] of a combo box that is not editable: the item with
    that text becomes current when there is one. *)
Definition setCurrentText (x : string) (c : combo) : combo :=
  let i := findData x c in
  if decide (0 ≤ i) then setCurrentIndex i c else c.

Definition set_lang_combo (c : combo) (o : opcje) : opcje :=
  Opcje (layout_combo o) (size_combo o) (font_combo o) (font_size_combo o) c
        (jezyk o) (dark_theme o) (tlumaczenia o).

Definition set_jezyk (j : string) (o : opcje) : opcje :=
  Opcje (layout_combo o) (size_combo o) (font_combo o) (font_size_combo o)
        (lang_combo o) j (dark_theme o) (tlumaczenia o).

(** [zmien_jezyk], the slot of [lang_combo.currentIndexChanged].  Without a
    current item [currentData()] is [None]; the model's [jezyk] is a string
    and keeps its value then. *)
Definition zmien_jezyk (o : opcje) : opcje :=
  match currentData (lang_combo o) with
  | Some j => set_jezyk j o
  | None => o
  end.

(** [lang_combo.setCurrentIndex(i)] with its signal: the slot runs when the
    index changes. *)
Definition lang_setCurrentIndex (i : Z) (o : opcje) : opcje :=
  let c := setCurrentIndex i (lang_combo o) in
  let o' := set_lang_combo c o in
  if decide (current c = current (lang_combo o)) then o' else zmien_jezyk o'.

(** [zmien_jezyk_combo], the slot of the language menu. *)
Definition zmien_jezyk_combo (j : string) (o : opcje) : opcje :=
  let o := set_jezyk j o in
  let index := findData j (lang_combo o) in
  if decide (0 ≤ index) then lang_setCurrentIndex index o else o.

(** ** The state built by [__init__] *)

(** [dzis] is today's date as [setup_ui] formats it, [tmp] the directory
    [tempfile.mkdtemp] returns, [auto] the autosave directory and [tl] the
    dictionary of [_inicjalizuj_tlumaczenia]. *)
Definition poczatkowy (dzis tmp auto : string) (tl : json) : app :=
  zapisz_stan
    (App (Pola "xxx-xxxx-xxx" "Dokumentacja produktu" dzis "Dorota Zaręba")
         [] ∅ None (Lista 0 (-1)) [] (-1)
         (Opcje (Combo ["lewo_prawo"; "gora"; "dol"] 0)
                (setCurrentText "8" (Combo ["2"; "3"; "5"; "6"; "8"; "10"; "12"] 0))
                (setCurrentText "Arial"
                   (Combo ["Arial"; "Times New Roman"; "Calibri"; "Verdana"] 0))
                (setCurrentText "11" (Combo ["9"; "10"; "11"; "12"; "14"; "16"] 0))
                (Combo ["polski"; "angielski"] 0)
                "polski" false tl)
         tmp auto true).

(** ** Sessions

    A session is a sequence of handler runs.  A handler that records a
    snapshot calls [zapisz_stan] first and then changes live attributes only
    ([Edycja]); typing into a field changes live attributes without a
    snapshot ([Zmiana]); [wczytaj_projekt] replaces the live attributes,
    empties the history and records one snapshot ([Wczytanie]). *)

(** A change of live attributes: whatever [m] does, the history and its
    cursor stay as they were. *)
Definition zmien (m : app → app) (a : app) : app :=
  set_historia (stan_historia a) (aktualny_stan_index a) (m a).

Inductive akcja :=
| Edycja (m : app → app)
| Zmiana (m : app → app)
| Wczytanie (m : app → app)
| Cofnij
| Przywroc.

Definition krok_akcji (x : akcja) (a : app) : option app :=
  match x with
  | Edycja m => Some (zmien m (zapisz_stan a))
  | Zmiana m => Some (zmien m a)
  | Wczytanie m => Some (zapisz_stan (set_historia [] (-1) (m a)))
  | Cofnij => cofnij a
  | Przywroc => przywroc a
  end.

Fixpoint wykonaj (l : list akcja) (a : app) : option app :=
  match l with
  | [] => Some a
  | x :: l' => a' ← krok_akcji x a; wykonaj l' a'
  end.

(** The history invariant: at most [maks_historia] entries, and a cursor
    that is [-1] or an index into the list. *)
Definition hist_inv (a : app) : Prop :=
  Z.of_nat (length (stan_historia a)) ≤ maks_historia ∧
  -1 ≤ aktualny_stan_index a < Z.of_nat (length (stan_historia a)).

(** ** Sample sessions

    Concrete states and sessions on which the properties below are
    evaluated. *)

(** The state right after start-up. *)
Definition a_start : app :=
  poczatkowy "2024-05-06" "/tmp/doc_generator_k3x" "/home/ola/Piorun_autosave" (JObj []).

(** Typing into the product-code field. *)
Definition wpisz_kod (k : string) (a : app) : app :=
  set_dok (Pola k (nazwa_edit (dok a)) (data_edit (dok a)) (autor_edit (dok a))) a.

(** Twenty-five recorded edits with two undos and a redo in between. *)
Definition sesja_dluga : list akcja :=
  replicate 12 (Edycja (wpisz_kod "A-1"))
    ++ [Cofnij; Cofnij; Przywroc]
    ++ replicate 13 (Edycja (set_ilustracje ["/home/ola/krok.png"])).

(** The code is typed and the project cleared, twice. *)
Definition a_dwa_razy : app :=
  wyczysc_wszystko "2024-05-06"
    (wpisz_kod "K-2" (wyczysc_wszystko "2024-05-06" (wpisz_kod "K-1" a_start))).

(** ** Re-indexing after a deletion *)

(** Position [j] of the shortened list is position [j] of the old list
    before the deleted index and position [j + 1] from it on. *)
Definition zrodlo (k j : Z) : Z := if decide (k ≤ j) then j + 1 else j.

(** Three steps with their descriptions, the second one selected. *)
Definition a_trzy : app :=
  set_steps_list (Lista 3 1)
    (set_aktualny_wybrany_krok (Some 1)
       (set_opisy_krokow
          (<[0 := Krok "Start" "Wlacz maszyne"]>
             (<[1 := Krok "Pomiar" "Zmierz detal"]>
                (<[2 := Krok "Koniec" "Wylacz maszyne"]> ∅)))
          (set_ilustracje ["/home/ola/a.png"; "/home/ola/b.png"; "/home/ola/c.png"]
             a_start))).

(** The state after the two clearings and one undo. *)
Definition a_po_cofnieciu : app := default a_start (cofnij a_dwa_razy).

(** ** Files, paths and the libraries around the program *)

(** A file system maps a path to a node.  A file written with [json.dump]
    is kept as the document it holds: [json.load] of such a file gives the
    document back.  Every other file is a sequence of bytes. *)
Inductive wezel :=
| Plik (zawartosc : list byte)
| Dokument (j : json)
| Katalog.

Abbreviation pliki := (gmap string wezel).

(** Lines printed to the console. *)
Inductive wpis :=
| BladResize (input_path : string)
| BladPrzetwarzania (path : string)
| Autozapisano (sciezka : string)
| BladAutozapisu
| InnyWpis (s : string).

(** A decoded [PIL.Image]. *)
Record obraz := Obraz {
  mode : string;
  width : Z;
  height : Z;
  piksele : list byte
}.

(** What the program takes from its libraries and from the platform.  The
    image codec, the resampling filter, the digest, the JSON text format,
    the Unicode character classes and Python's [repr] are not part of the
    program; the functions below are stated for any implementation of
    them.  An answer [None] stands for a raised exception. *)
Class Biblioteki := {
  (** [Image.open] on the content of a file *)
  Image_open : list byte → option obraz;
  (** [img.convert('RGB')] *)
  convert_RGB : obraz → option obraz;
  (** the pixels [img.resize(size, LANCZOS)] computes for a valid size *)
  resample : obraz → Z → Z → option (list byte);
  (** the bytes [img.save(_, 'JPEG', quality=85, optimize=True)] writes *)
  save_JPEG : obraz → option (list byte);
  (** [hashlib.md5(s.encode()).hexdigest()[:8]] *)
  md5_hex8 : string → string;
  (** the text [json.dump(_, ensure_ascii=False, indent=2)] writes *)
  json_dumps : json → list byte;
  (** [json.load] on a file that [json.dump] did not write *)
  json_loads : list byte → option json;
  (** [c.isalnum()] and membership in the white space [str.strip] removes *)
  isalnum : ascii → bool;
  isspace : ascii → bool;
  (** [str(v)] for a JSON value that is not a string *)
  py_repr : json → string;
  (** whether [odswiez_interfejs] raises, which depends on captions that
      are not modelled *)
  odswiez_interfejs_raises : app → bool;
  (** [oczysc_stare_autozapisy]: the pruned directory and what it prints *)
  oczysc_stare_autozapisy : string → pliki → pliki * list wpis
}.

(** [open(path, 'rb').read()]: the bytes of a file; a missing path or a
    directory raises. *)
Definition read_bytes `{Biblioteki} (f : pliki) (path : string) : option (list byte) :=
  match f !! path with
  | Some (Plik b) => Some b
  | Some (Dokument j) => Some (json_dumps j)
  | Some Katalog | None => None
  end.

(** [open(path, 'wb').write(b)]: writing to a directory raises. *)
Definition write_bytes (f : pliki) (path : string) (b : list byte) : option pliki :=
  match f !! path with
  | Some Katalog => None
  | _ => Some (<[path := Plik b]> f)
  end.

(** [json.dump(j, open(path, 'w'))]. *)
Definition write_json (f : pliki) (path : string) (j : json) : option pliki :=
  match f !! path with
  | Some Katalog => None
  | _ => Some (<[path := Dokument j]> f)
  end.

(** [json.load(open(path))]. *)
Definition read_json `{Biblioteki} (f : pliki) (path : string) : option json :=
  match f !! path with
  | Some (Dokument j) => Some j
  | Some (Plik b) => json_loads b
  | Some Katalog | None => None
  end.

(** [os.path.exists]. *)
Definition exists_path (f : pliki) (path : string) : bool :=
  bool_decide (is_Some (f !! path)).

(** [os.path] is [posixpath]. *)

(** The text after the last [sep], when [sep] occurs. *)
Fixpoint po_ostatnim (sep : ascii) (p : string) : option string :=
  match p with
  | EmptyString => None
  | String c p' =>
      match po_ostatnim sep p' with
      | Some r => Some r
      | None => if decide (c = sep) then Some p' else None
      end
  end.

(** [os.path.basename]. *)
Definition basename (p : string) : string := default p (po_ostatnim "/" p).

Fixpoint ends_with_slash (p : string) : bool :=
  match p with
  | EmptyString => false
  | String c EmptyString => bool_decide (c = "/"%char)
  | String _ p' => ends_with_slash p'
  end.

(** [os.path.join] of two components. *)
Definition join (a b : string) : string :=
  match b with
  | String "/" _ => b
  | _ => if decide (a = "") then b
         else if ends_with_slash a then a +:+ b
         else a +:+ "/" +:+ b
  end.

(** [str(i)] of an integer. *)
Definition py_str (i : Z) : string := pretty i.

(** ** Image resizing *)

(** [float(n)] of an integer; exact below 2^53. *)
Definition py_float (n : Z) : float := PrimFloat.of_uint63 (Uint63.of_Z n).

(** [int(x)] of a float: truncation towards zero; infinities and NaN raise. *)
Definition py_int (x : float) : option Z :=
  match Prim2SF x with
  | S754_zero _ => Some 0
  | S754_finite s m e =>
      let v := if decide (0 ≤ e) then Z.shiftl (Z.pos m) e
               else Z.shiftr (Z.pos m) (- e) in
      Some (if s then - v else v)
  | S754_infinity _ | S754_nan => None
  end.

(** The literal [0.8]. *)
Definition f0_8 : float := 0x1.999999999999ap-1%float.

(** [min(0.8, (800 * 1024) / file_size)]: the quotient when it is smaller
    than [0.8]. *)
Definition ratio (file_size : Z) : float :=
  let q := PrimFloat.div (py_float (800 * 1024)) (py_float file_size) in
  if PrimFloat.ltb q f0_8 then q else f0_8.

(** [int(n * ratio)]. *)
Definition skaluj (n : Z) (r : float) : option Z :=
  py_int (PrimFloat.mul (py_float n) r).

(** [Image.resize]: a size with a side below 1 raises [ValueError]. *)
Definition Image_resize `{Biblioteki} (img : obraz) (w h : Z) : option obraz :=
  if decide (w < 1 ∨ h < 1) then None
  else p ← resample img w h; Some (Obraz (mode img) w h p).

(** The mode conversion at the head of [resize_image]. *)
Definition po_konwersji `{Biblioteki} (img : obraz) : option obraz :=
  if decide (mode img = "RGBA" ∨ mode img = "LA" ∨ mode img = "P")
  then convert_RGB img else Some img.

(** The path of the file [resize_image] writes; [teraz_ms] is
    [int(datetime.now().timestamp() * 1000)]. *)
Definition output_path `{Biblioteki} (tmp : string) (teraz_ms : Z)
    (input_path : string) : string :=
  let unique_id := py_str teraz_ms +:+ "_" +:+ md5_hex8 input_path in
  join tmp (unique_id +:+ ".jpg").

(** The body of the [try] in [resize_image]: the path returned and the
    file system afterwards, or [None] when an exception is raised. *)
Definition resize_image_try `{Biblioteki} (tmp : string) (teraz_ms : Z)
    (input_path : string) (f : pliki) : option (string * pliki) :=
  b ← read_bytes f input_path;
  img ← Image_open b;
  img ← po_konwersji img;
  let file_size := Z.of_nat (length b) in
  if decide (file_size ≤ 800 * 1024) then Some (input_path, f) else
  let ratio := ratio file_size in
  new_width ← skaluj (width img) ratio;
  new_height ← skaluj (height img) ratio;
  img ← Image_resize img new_width new_height;
  out ← save_JPEG img;
  f' ← write_bytes f (output_path tmp teraz_ms input_path) out;
  Some (output_path tmp teraz_ms input_path, f').

(** The outcome of a call: the value returned, the file system and the
    console lines printed. *)
Record wynik := Wynik {
  zwrot : string;
  w_pliki : pliki;
  w_konsola : list wpis
}.

(** [ImageResizerThread.resize_image]: any exception is caught, reported
    and answered with the input path.  [GeneratorDokumentow.resize_image]
    has the same body and shows a message box instead of printing. *)
Definition resize_image `{Biblioteki} (tmp : string) (teraz_ms : Z)
    (input_path : string) (f : pliki) : wynik :=
  match resize_image_try tmp teraz_ms input_path f with
  | Some (p, f') => Wynik p f' []
  | None => Wynik input_path f [BladResize input_path]
  end.

(** ** The worker thread *)

(** The signals of [ImageResizerThread]. *)
Inductive sygnal :=
| Progress (current total : Z) (filename : string)
| Finished (processed_paths : list string).

(** The state of the loop in [run]. *)
Record przebieg := Przebieg {
  processed_paths : list string;
  p_pliki : pliki;
  p_konsola : list wpis;
  p_sygnaly : list sygnal
}.

(** One iteration of the loop in [run] for the [i]-th path.  [resize] is
    the method called inside the [try]; it answers [None] when it raises. *)
Definition run_krok (resize : nat → string → pliki → option wynik) (total : Z)
    (s : przebieg) (ip : nat * string) : przebieg :=
  let '(i, path) := ip in
  let s :=
    match resize i path (p_pliki s) with
    | Some r =>
        Przebieg (processed_paths s ++ [zwrot r]) (w_pliki r)
                 (p_konsola s ++ w_konsola r) (p_sygnaly s)
    | None =>
        Przebieg (processed_paths s ++ [path]) (p_pliki s)
                 (p_konsola s ++ [BladPrzetwarzania path]) (p_sygnaly s)
    end in
  Przebieg (processed_paths s) (p_pliki s) (p_konsola s)
           (p_sygnaly s ++ [Progress (Z.of_nat i + 1) total (basename path)]).

(** The loop of [run]. *)
Definition petla (resize : nat → string → pliki → option wynik) (total : Z)
    (image_paths : list string) (f : pliki) : przebieg :=
  foldl (run_krok resize total) (Przebieg [] f [] [])
        (imap (λ i p, (i, p)) image_paths).

(** [run] with the resizing method as a parameter. *)
Definition run_z (resize : nat → string → pliki → option wynik)
    (image_paths : list string) (f : pliki) : przebieg :=
  let total := Z.of_nat (length image_paths) in
  let s := petla resize total image_paths f in
  Przebieg (processed_paths s) (p_pliki s) (p_konsola s)
           (p_sygnaly s ++ [Finished (processed_paths s)]).

(** What the [i]-th iteration appends to [processed_paths]. *)
Definition element (resize : nat → string → pliki → option wynik)
    (i : nat) (path : string) (f : pliki) : string :=
  match resize i path f with
  | Some r => zwrot r
  | None => path
  end.

(** [ImageResizerThread.run]; [zegar i] is the clock reading in the [i]-th
    call of [resize_image]. *)
Definition run `{Biblioteki} (tmp : string) (zegar : nat → Z)
    (image_paths : list string) (f : pliki) : przebieg :=
  run_z (λ i path f, Some (resize_image tmp (zegar i) path f)) image_paths f.

(** ** Base64

    [base64.b64encode] and [base64.b64decode] as the program calls them:
    the standard alphabet, padding with [=], no line breaks; the decoder in
    its default mode, which skips characters outside the alphabet. *)

Definition alfabet : string :=
  "ABCDEFGHIJKLMNOPQRSTUVWXYZabcdefghijklmnopqrstuvwxyz0123456789+/".

(** The character for a 6-bit group. *)
Definition b2a (s : N) : ascii :=
  default "A"%char (String.list_ascii_of_string alfabet !! N.to_nat s).

Fixpoint pozycja (c : ascii) (l : list ascii) (i : N) : option N :=
  match l with
  | [] => None
  | d :: l' => if decide (c = d) then Some i else pozycja c l' (i + 1)%N
  end.

(** The 6-bit group of a character of the alphabet. *)
Definition a2b (c : ascii) : option N := pozycja c (String.list_ascii_of_string alfabet) 0.

(** The byte stored by an assignment to an [unsigned char]. *)
Definition bajt (n : N) : byte := default x00 (Byte.of_N (n mod 256)%N).

(** The four 6-bit groups of three bytes. *)
Definition grupa0 (x : N) : N := N.shiftr x 2.
Definition grupa1 (x y : N) : N := N.lor (N.shiftl (N.land x 3) 4) (N.shiftr y 4).
Definition grupa2 (y z : N) : N := N.lor (N.shiftl (N.land y 15) 2) (N.shiftr z 6).
Definition grupa3 (z : N) : N := N.land z 63.

(** [base64.b64encode(b).decode('utf-8')]. *)
Fixpoint b64encode (b : list byte) : string :=
  match b with
  | [] => ""
  | [x] =>
      let x := Byte.to_N x in
      String (b2a (grupa0 x)) (String (b2a (grupa1 x 0)) "==")
  | [x; y] =>
      let x := Byte.to_N x in
      let y := Byte.to_N y in
      String (b2a (grupa0 x)) (String (b2a (grupa1 x y)) (String (b2a (grupa2 y 0)) "="))
  | x :: y :: z :: b' =>
      let x := Byte.to_N x in
      let y := Byte.to_N y in
      let z := Byte.to_N z in
      String (b2a (grupa0 x)) (String (b2a (grupa1 x y))
        (String (b2a (grupa2 y z)) (String (b2a (grupa3 z)) (b64encode b'))))
  end.

(** The decoding loop of [binascii.a2b_base64]: [quad_pos] is the position
    in the group of four, [leftchar] the bits not yet written, [pads] the
    count of padding characters seen in a row, [out] the bytes written.
    Padding that completes a group ends the decoding; at the end of the
    input an incomplete group raises. *)
Fixpoint a2b_base64 (s : string) (quad_pos : nat) (leftchar : N) (pads : nat)
    (out : list byte) : option (list byte) :=
  match s with
  | EmptyString => if decide (quad_pos = 0%nat) then Some out else None
  | String c s' =>
      if decide (c = "="%char) then
        if decide (2 ≤ quad_pos)%nat then
          if decide (4 ≤ quad_pos + (pads + 1))%nat then Some out
          else a2b_base64 s' quad_pos leftchar (pads + 1) out
        else a2b_base64 s' quad_pos leftchar pads out
      else
        match a2b c with
        | None => a2b_base64 s' quad_pos leftchar pads out
        | Some this_ch =>
            match quad_pos with
            | 0%nat => a2b_base64 s' 1 this_ch 0 out
            | 1%nat =>
                a2b_base64 s' 2 (N.land this_ch 15) 0
                  (out ++ [bajt (N.lor (N.shiftl leftchar 2) (N.shiftr this_ch 4))])
            | 2%nat =>
                a2b_base64 s' 3 (N.land this_ch 3) 0
                  (out ++ [bajt (N.lor (N.shiftl leftchar 4) (N.shiftr this_ch 2))])
            | _ =>
                a2b_base64 s' 0 0 0
                  (out ++ [bajt (N.lor (N.shiftl leftchar 6) this_ch)])
            end
        end
  end.

(** Whether every character is ASCII, as [s.encode('ascii')] demands. *)
Fixpoint czy_ascii (s : string) : bool :=
  match s with
  | EmptyString => true
  | String c s' => bool_decide (N_of_ascii c < 128)%N && czy_ascii s'
  end.

(** [base64.b64decode(s)] for a [str]. *)
Definition b64decode (s : string) : option (list byte) :=
  if czy_ascii s then a2b_base64 s 0 0 0 [] else None.

(** ** Integers as text *)

Definition cyfra (c : ascii) : option Z :=
  let n := Z.of_N (N_of_ascii c) in
  if decide (48 ≤ n ≤ 57) then Some (n - 48) else None.

Fixpoint int_cyfry (s : string) (acc : Z) : option Z :=
  match s with
  | EmptyString => Some acc
  | String c s' => d ← cyfra c; int_cyfry s' (10 * acc + d)
  end.

(** [int(s)] for a string: an optional sign and decimal digits.  Python
    also accepts surrounding white space and underscores between digits;
    the keys written by [zapisz_projekt] have neither, and the model raises
    on them. *)
Definition int_str (s : string) : option Z :=
  match s with
  | EmptyString => None
  | String "-" s' => if decide (s' = "") then None else Z.opp <$> int_cyfry s' 0
  | String "+" s' => if decide (s' = "") then None else int_cyfry s' 0
  | _ => int_cyfry s 0
  end.

(** ** Project documents *)

(** [d.get(k)] / [k in d] on the key-value pairs of a JSON object. *)
Fixpoint jget (k : string) (l : list (string * json)) : option json :=
  match l with
  | [] => None
  | (k', v) :: l' => if decide (k = k') then Some v else jget k l'
  end.

(** The step dictionary as JSON. *)
Definition krok_json (k : krok) : json :=
  JObj [("nazwa", JStr (k_nazwa k)); ("opis", JStr (k_opis k))].

(** [opisy_krokow_str_keys]: the descriptions under [str(key)]. *)
Definition opisy_krokow_str_keys (m : gmap Z krok) : list (string * json) :=
  (λ kv, (py_str kv.1, krok_json kv.2)) <$> map_to_list m.

(** The entry of one image in [obrazy_base64]. *)
Definition obraz_json (sciezka_img : string) (obraz_data : list byte) : json :=
  JObj [("nazwa", JStr (basename sciezka_img)); ("dane", JStr (b64encode obraz_data))].

(** The loop that fills [obrazy_base64]: an image that cannot be read
    leaves no entry.  [zapisz_projekt] shows a warning for it;
    [autozapisz_projekt] tests [os.path.exists] first and passes over any
    exception. *)
Definition obrazy_base64 `{Biblioteki} (f : pliki) (ilustracje : list string)
    : list (string * json) :=
  omap id (imap (λ i sciezka_img,
                   obraz_data ← read_bytes f sciezka_img;
                   Some (py_str (Z.of_nat i), obraz_json sciezka_img obraz_data))
                ilustracje).

(** [currentData()] as a JSON value. *)
Definition data_json (d : option string) : json :=
  match d with Some s => JStr s | None => JNull end.

(** The dictionary under ['ustawienia']. *)
Definition ustawienia_json (o : opcje) : json :=
  JObj [("uklad", data_json (currentData (layout_combo o)));
        ("rozmiar", JStr (currentText (size_combo o)));
        ("czcionka", JStr (currentText (font_combo o)));
        ("rozmiar_czcionki", JStr (currentText (font_size_combo o)));
        ("jezyk", JStr (jezyk o));
        ("dark_theme", JBool (dark_theme o))].

(** The key-value pairs of the dictionary [projekt]. *)
Definition projekt_pola `{Biblioteki} (a : app) (f : pliki) : list (string * json) :=
  [("kod", JStr (kod_edit (dok a)));
   ("nazwa", JStr (nazwa_edit (dok a)));
   ("data", JStr (data_edit (dok a)));
   ("autor", JStr (autor_edit (dok a)));
   ("obrazy", JObj (obrazy_base64 f (ilustracje a)));
   ("opisy_krokow", JObj (opisy_krokow_str_keys (opisy_krokow a)));
   ("ustawienia", ustawienia_json (opc a));
   ("tlumaczenia", tlumaczenia (opc a))].

(** ** Saving *)

(** [zapisz_projekt]; [sciezka] is the answer of the file dialog, empty
    when the dialog is cancelled.  A failed write leaves the files as they
    were. *)
Definition zapisz_projekt `{Biblioteki} (sciezka : string) (a : app) (f : pliki) : pliki :=
  if decide (ilustracje a = []) then f
  else if decide (sciezka = "") then f
  else default f (write_json f sciezka (JObj (projekt_pola a f))).

(** [s.strip()]. *)
Fixpoint lstrip `{Biblioteki} (s : string) : string :=
  match s with
  | String c s' => if isspace c then lstrip s' else s
  | EmptyString => EmptyString
  end.

Definition strip `{Biblioteki} (s : string) : string :=
  String.rev (lstrip (String.rev (lstrip s))).

(** ["".join(c for c in kod if c.isalnum() or c in ('-', '_'))]. *)
Fixpoint bezpieczne_znaki `{Biblioteki} (s : string) : string :=
  match s with
  | String c s' =>
      if isalnum c || bool_decide (c = "-"%char) || bool_decide (c = "_"%char)
      then String c (bezpieczne_znaki s') else bezpieczne_znaki s'
  | EmptyString => EmptyString
  end.

(** The path of the autosave file; [znacznik] is
    [datetime.now().strftime("%Y%m%d_%H%M%S")]. *)
Definition sciezka_autozapisu `{Biblioteki} (znacznik : string) (a : app) : string :=
  let kod := strip (kod_edit (dok a)) in
  let kod := if decide (kod = "" ∨ kod = "xxx-xxxx-xxx") then "bez_kodu"
             else bezpieczne_znaki kod in
  join (autosave_dir a) (kod +:+ "_" +:+ znacznik +:+ ".json").

(** [autozapisz_projekt]: the files afterwards and the lines printed;
    [iso] is [datetime.now().isoformat()]. *)
Definition autozapisz_projekt `{Biblioteki} (znacznik iso : string) (a : app)
    (f : pliki) : pliki * list wpis :=
  if bool_decide (ilustracje a = []) || negb (autosave_enabled a) then (f, [])
  else
    let sciezka := sciezka_autozapisu znacznik a in
    let projekt := JObj (projekt_pola a f ++ [("timestamp_autosave", JStr iso)]) in
    match write_json f sciezka projekt with
    | Some f' =>
        let '(f'', wypisane) := oczysc_stare_autozapisy (autosave_dir a) f' in
        (f'', wypisane ++ [Autozapisano sciezka])
    | None => (f, [BladAutozapisu])
    end.

(** ** Loading *)

(** A method body that may raise: it runs on the controller and the files
    and leaves both as they are at the point of the exception. *)
Definition M (A : Type) : Type := app * pliki → app * pliki * option A.

#[export] Instance M_ret : MRet M := λ A x s, (s, Some x).
#[export] Instance M_bind : MBind M := λ A B k c s,
  match c s with
  | (s', Some x) => k x s'
  | (s', None) => (s', None)
  end.

Definition raise {A} : M A := λ s, (s, None).
Definition lift {A} (o : option A) : M A := λ s, (s, o).
Definition zmiana (g : app → app) : M () := λ s, (g s.1, s.2, Some ()).
Definition odczyt {A} (g : app → pliki → A) : M A := λ s, (s, Some (g s.1 s.2)).

(** [json.load(open(sciezka))] inside a method. *)
Definition wczytaj_json `{Biblioteki} (sciezka : string) : M json :=
  λ s, (s, read_json s.2 sciezka).

(** [open(sciezka, 'wb').write(b)] inside a method. *)
Definition zapisz_plik (sciezka : string) (b : list byte) : M () :=
  λ s, match write_bytes s.2 sciezka b with
       | Some f' => (s.1, f', Some ())
       | None => (s, None)
       end.

(** [odswiez_interfejs] inside a method. *)
Definition odswiez_interfejs `{Biblioteki} : M () :=
  λ s, (s, if odswiez_interfejs_raises s.1 then None else Some ()).

(** [projekt.get(k, d)]: only a dictionary has [get]. *)
Definition py_get (k : string) (d : json) (j : json) : option json :=
  match j with
  | JObj l => Some (default d (jget k l))
  | _ => None
  end.

(** A value passed where Qt wants a [str]. *)
Definition jako_str (j : json) : option string :=
  match j with JStr s => Some s | _ => None end.

(** A value formatted inside an f-string. *)
Definition format_json `{Biblioteki} (j : json) : string :=
  match j with JStr s => s | _ => py_repr j end.

(** [len(obrazy_base64)]. *)
Definition py_len (j : json) : option nat :=
  match j with
  | JObj l => Some (length l)
  | JArr l => Some (length l)
  | JStr s => Some (String.length s)
  | _ => None
  end.

Definition jest_napisem (s : string) (j : json) : bool :=
  match j with JStr t => bool_decide (s = t) | _ => false end.

(** [str_i in obrazy_base64] followed by [obrazy_base64[str_i]]: the entry
    when there is one, [None] inside [Some] when the key is absent, and
    [None] when the subscript raises (a list or a string that contains
    [str_i]). *)
Definition py_wpis (str_i : string) (j : json) : option (option json) :=
  match j with
  | JObj l => Some (jget str_i l)
  | JArr l => if existsb (jest_napisem str_i) l then None else Some None
  | JStr s => match String.index 0 str_i s with
              | Some _ => None
              | None => Some None
              end
  | _ => Some None
  end.

(** [obraz_data[k]]. *)
Definition py_item (k : string) (j : json) : option json :=
  match j with JObj l => jget k l | _ => None end.

(** [os.path.join(self.temp_dir, f"loaded_{i}_{nazwa_pliku}")]. *)
Definition sciezka_wczytana (tmp : string) (i : nat) (nazwa_pliku : string) : string :=
  join tmp ("loaded_" +:+ py_str (Z.of_nat i) +:+ "_" +:+ nazwa_pliku).

(** One pass of the loop over the images in [wczytaj_projekt]. *)
Definition wczytaj_obraz `{Biblioteki} (obrazy : json) (i : nat) : M () :=
  let str_i := py_str (Z.of_nat i) in
  wpis ← lift (py_wpis str_i obrazy);
  match wpis with
  | None => mret ()
  | Some obraz_data =>
      nazwa_pliku ← lift (py_item "nazwa" obraz_data);
      dane_base64 ← lift (py_item "dane" obraz_data);
      dane ← lift (jako_str dane_base64);
      obraz_binary ← lift (b64decode dane);
      tmp ← odczyt (λ a _, temp_dir a);
      let sciezka_obrazu := sciezka_wczytana tmp i (format_json nazwa_pliku) in
      _ ← zapisz_plik sciezka_obrazu obraz_binary;
      zmiana (λ a, set_ilustracje (ilustracje a ++ [sciezka_obrazu]) a)
  end.

Fixpoint dla_kazdego {A} (g : A → M ()) (l : list A) : M () :=
  match l with
  | [] => mret ()
  | x :: l' => _ ← g x; dla_kazdego g l'
  end.

(** A step dictionary read from JSON.  The state of the model holds step
    records only: a value of another shape, which Python would store and
    trip over later, raises here. *)
Definition krok_z_json (j : json) : option krok :=
  match j with
  | JObj l =>
      match jget "nazwa" l, jget "opis" l with
      | Some (JStr n), Some (JStr o) => Some (Krok n o)
      | _, _ => None
      end
  | _ => None
  end.

(** The loop that builds [opisy_krokow_int_keys]. *)
Fixpoint opisy_krokow_int_keys (l : list (string * json)) (m : gmap Z krok)
    : option (gmap Z krok) :=
  match l with
  | [] => Some m
  | (key, value) :: l' =>
      k ← int_str key;
      v ← krok_z_json value;
      opisy_krokow_int_keys l' (<[k := v]> m)
  end.

(** [projekt.get('opisy_krokow', {}).items()]. *)
Definition py_items (j : json) : option (list (string * json)) :=
  match j with JObj l => Some l | _ => None end.

Definition set_combo (which : nat) (c : combo) (o : opcje) : opcje :=
  match which with
  | 0%nat => Opcje c (size_combo o) (font_combo o) (font_size_combo o) (lang_combo o)
                   (jezyk o) (dark_theme o) (tlumaczenia o)
  | 1%nat => Opcje (layout_combo o) c (font_combo o) (font_size_combo o) (lang_combo o)
                   (jezyk o) (dark_theme o) (tlumaczenia o)
  | 2%nat => Opcje (layout_combo o) (size_combo o) c (font_size_combo o) (lang_combo o)
                   (jezyk o) (dark_theme o) (tlumaczenia o)
  | _ => Opcje (layout_combo o) (size_combo o) (font_combo o) c (lang_combo o)
               (jezyk o) (dark_theme o) (tlumaczenia o)
  end.

Definition set_dark_theme (d : bool) (o : opcje) : opcje :=
  Opcje (layout_combo o) (size_combo o) (font_combo o) (font_size_combo o)
        (lang_combo o) (jezyk o) d (tlumaczenia o).

Definition set_tlumaczenia (t : json) (o : opcje) : opcje :=
  Opcje (layout_combo o) (size_combo o) (font_combo o) (font_size_combo o)
        (lang_combo o) (jezyk o) (dark_theme o) t.

(** [findData(v)] for any JSON value: only a string can match an item. *)
Definition findData_json (v : json) (c : combo) : Z :=
  match v with JStr s => findData s c | _ => -1 end.

Definition jako_bool (j : json) : option bool :=
  match j with JBool b => Some b | _ => None end.

(** A change of the options inside a method. *)
Definition zmiana_opc (g : opcje → opcje) : M () :=
  zmiana (λ a, set_opc (g (opc a)) a).

(** [index = layout_combo.findData(layout_value)] and, when the index is
    not negative, [setCurrentIndex(index)]. *)
Definition ustaw_uklad (layout_value : json) (o : opcje) : opcje :=
  let index := findData_json layout_value (layout_combo o) in
  if decide (0 ≤ index)
  then set_combo 0 (setCurrentIndex index (layout_combo o)) o
  else o.

(** [size_combo.setCurrentText], [font_combo.setCurrentText] and
    [font_size_combo.setCurrentText]. *)
Definition ustaw_rozmiar (t : string) (o : opcje) : opcje :=
  set_combo 1 (setCurrentText t (size_combo o)) o.
Definition ustaw_czcionke (t : string) (o : opcje) : opcje :=
  set_combo 2 (setCurrentText t (font_combo o)) o.
Definition ustaw_rozmiar_czcionki (t : string) (o : opcje) : opcje :=
  set_combo 3 (setCurrentText t (font_size_combo o)) o.

(** [self.jezyk = j], then the item with that data is selected in
    [lang_combo] when there is one. *)
Definition ustaw_jezyk (j : string) (o : opcje) : opcje :=
  let o := set_jezyk j o in
  let index := findData j (lang_combo o) in
  if decide (0 ≤ index) then lang_setCurrentIndex index o else o.

(** The part of [wczytaj_projekt] that reads ['ustawienia'] and
    ['tlumaczenia'].  The model keeps [jezyk] as a string and [dark_theme]
    as a boolean: a value of another type, which Python would store as it
    is, raises here. *)
Definition wczytaj_ustawienia (projekt : json) : M () :=
  ustawienia ← lift (py_get "ustawienia" (JObj []) projekt);
  layout_value ← lift (py_get "uklad" (JStr "lewo_prawo") ustawienia);
  _ ← zmiana_opc (ustaw_uklad layout_value);
  rozmiar ← lift (py_get "rozmiar" (JStr "8") ustawienia ≫= jako_str);
  _ ← zmiana_opc (ustaw_rozmiar rozmiar);
  czcionka ← lift (py_get "czcionka" (JStr "Arial") ustawienia ≫= jako_str);
  _ ← zmiana_opc (ustaw_czcionke czcionka);
  rozmiar_czcionki ← lift (py_get "rozmiar_czcionki" (JStr "11") ustawienia ≫= jako_str);
  _ ← zmiana_opc (ustaw_rozmiar_czcionki rozmiar_czcionki);
  jez ← lift (py_get "jezyk" (JStr "polski") ustawienia ≫= jako_str);
  _ ← zmiana_opc (ustaw_jezyk jez);
  dark ← lift (py_get "dark_theme" (JBool false) ustawienia ≫= jako_bool);
  _ ← zmiana_opc (set_dark_theme dark);
  match projekt with
  | JObj l =>
      match jget "tlumaczenia" l with
      | Some t => zmiana_opc (set_tlumaczenia t)
      | None => mret ()
      end
  | _ => mret ()
  end.

(** The part of [wczytaj_projekt] that fills the four fields. *)
Definition wczytaj_pola (projekt : json) : M () :=
  kod ← lift (py_get "kod" (JStr "") projekt ≫= jako_str);
  _ ← zmiana (λ a, set_dok (Pola kod (nazwa_edit (dok a)) (data_edit (dok a))
                                  (autor_edit (dok a))) a);
  nazwa ← lift (py_get "nazwa" (JStr "") projekt ≫= jako_str);
  _ ← zmiana (λ a, set_dok (Pola (kod_edit (dok a)) nazwa (data_edit (dok a))
                                  (autor_edit (dok a))) a);
  data ← lift (py_get "data" (JStr "") projekt ≫= jako_str);
  _ ← zmiana (λ a, set_dok (Pola (kod_edit (dok a)) (nazwa_edit (dok a)) data
                                  (autor_edit (dok a))) a);
  autor ← lift (py_get "autor" (JStr "") projekt ≫= jako_str);
  zmiana (λ a, set_dok (Pola (kod_edit (dok a)) (nazwa_edit (dok a))
                             (data_edit (dok a)) autor) a).

(** The part that writes the images out and rebuilds [ilustracje]. *)
Definition wczytaj_obrazy `{Biblioteki} (projekt : json) : M () :=
  _ ← zmiana (set_ilustracje []);
  obrazy ← lift (py_get "obrazy" (JObj []) projekt);
  n ← lift (py_len obrazy);
  dla_kazdego (wczytaj_obraz obrazy) (seq 0 n).

(** The part that rebuilds [opisy_krokow]. *)
Definition wczytaj_opisy (projekt : json) : M () :=
  opisy_str ← lift (py_get "opisy_krokow" (JObj []) projekt ≫= py_items);
  opisy ← lift (opisy_krokow_int_keys opisy_str ∅);
  zmiana (set_opisy_krokow opisy).

(** The body of the [try] in [wczytaj_projekt]. *)
Definition wczytaj_projekt_try `{Biblioteki} (sciezka : string) : M () :=
  projekt ← wczytaj_json sciezka;
  _ ← wczytaj_pola projekt;
  _ ← wczytaj_obrazy projekt;
  _ ← wczytaj_opisy projekt;
  _ ← wczytaj_ustawienia projekt;
  _ ← zmiana odswiez_liste;
  _ ← odswiez_interfejs;
  zmiana (λ a, zapisz_stan (set_historia [] (-1) a)).

(** [wczytaj_projekt]; [sciezka] is the answer of the file dialog.  An
    exception ends the method with a message box and leaves the controller
    and the files as they are at that point. *)
Definition wczytaj_projekt `{Biblioteki} (sciezka : string) (a : app) (f : pliki)
    : app * pliki :=
  if decide (sciezka = "") then (a, f)
  else (wczytaj_projekt_try sciezka (a, f)).1.

(** ** Vocabulary of the round trip *)

(** Strings of decimal digits. *)
Fixpoint same_cyfry (s : string) : Prop :=
  match s with
  | EmptyString => True
  | String c s' => is_Some (cyfra c) ∧ same_cyfry s'
  end.

(** The paths [wczytaj_projekt] writes for the images [il] of a saved
    project. *)
Definition sciezki_wczytane (tmp : string) (il : list string) : list string :=
  imap (λ i p, sciezka_wczytana tmp i (basename p)) il.

(** The entries of [obrazy_base64] when counting starts at [k]. *)
Definition wpisy `{Biblioteki} (f : pliki) (k : nat) (il : list string)
    : list (string * json) :=
  omap id (imap (λ j p, b ← read_bytes f p;
                        Some (py_str (Z.of_nat (k + j)), obraz_json p b)) il).

(** The files after the first [k] passes of the loading loop over the
    images [il], which were read from [f] when the project was saved; [f1]
    are the files before the loop.  The path of every image loaded so far
    holds the bytes of that image, every other path is as before. *)
Definition po_k_obrazach `{Biblioteki} (f f1 : pliki) (il : list string)
    (tmp : string) (k : nat) (fs : pliki) : Prop :=
  (∀ i p, (i < k)%nat → il !! i = Some p →
          fs !! sciezka_wczytana tmp i (basename p)
            = (λ b, Plik b) <$> read_bytes f p) ∧
  (∀ q, (∀ i p, (i < k)%nat → il !! i = Some p →
                q ≠ sciezka_wczytana tmp i (basename p)) →
        fs !! q = f1 !! q).

(** The options after the settings phase of [wczytaj_projekt], as a
    function of the options that were saved and of the options before. *)
Definition opcje_po_wczytaniu (zapisane o : opcje) : opcje :=
  set_tlumaczenia (tlumaczenia zapisane)
    (set_dark_theme (dark_theme zapisane)
       (ustaw_jezyk (jezyk zapisane)
          (ustaw_rozmiar_czcionki (currentText (font_size_combo zapisane))
             (ustaw_czcionke (currentText (font_combo zapisane))
                (ustaw_rozmiar (currentText (size_combo zapisane))
                   (ustaw_uklad (data_json (currentData (layout_combo zapisane)))
                      o)))))).

(** A combo box with a current item. *)
Definition ma_biezacy (c : combo) : Prop := is_Some (currentData c).

(** The layout, size and font combo boxes of [o] have a current item. *)
Definition opcje_wybrane (o : opcje) : Prop :=
  ma_biezacy (layout_combo o) ∧ ma_biezacy (size_combo o) ∧
  ma_biezacy (font_combo o) ∧ ma_biezacy (font_size_combo o).

(** Two controllers offer the same items in these combo boxes. *)
Definition te_same_pozycje (o1 o2 : opcje) : Prop :=
  items (layout_combo o1) = items (layout_combo o2) ∧
  items (size_combo o1) = items (size_combo o2) ∧
  items (font_combo o1) = items (font_combo o2) ∧
  items (font_size_combo o1) = items (font_size_combo o2).

(** ** Sample libraries and files

    A stand-in for the libraries, on which the statements below are
    evaluated: an image file is two bytes, the width and the height,
    followed by the pixels; resizing crops the pixels; the encoder writes
    the pixels as they are. *)
Definition bib_probna : Biblioteki := {|
  Image_open b :=
    match b with
    | w :: h :: px => Some (Obraz "RGB" (Z.of_N (Byte.to_N w)) (Z.of_N (Byte.to_N h)) px)
    | _ => None
    end;
  convert_RGB img := Some (Obraz "RGB" (width img) (height img) (piksele img));
  resample img w h := Some (take (Z.to_nat (w * h)) (piksele img));
  save_JPEG img := Some (piksele img);
  md5_hex8 _ := "d41d8cd9";
  json_dumps _ := [];
  json_loads _ := None;
  isalnum c := bool_decide (48 ≤ Z.of_N (N_of_ascii c) ≤ 57
                            ∨ 65 ≤ Z.of_N (N_of_ascii c) ≤ 90
                            ∨ 97 ≤ Z.of_N (N_of_ascii c) ≤ 122);
  isspace c := bool_decide (c = " "%char);
  py_repr _ := "";
  odswiez_interfejs_raises _ := false;
  oczysc_stare_autozapisy _ f := (f, [])
|}.

(** A small image, a 100 x 100 image of 900002 bytes, and an image one
    pixel wide of 900002 bytes. *)
Definition plik_maly : list byte := x64 :: x40 :: replicate 4000 x7f.
Definition plik_duzy : list byte := x64 :: x64 :: replicate (Z.to_nat 900000) x7f.
Definition plik_waski : list byte := x01 :: xc8 :: replicate (Z.to_nat 900000) x7f.

Definition pliki_probne : pliki :=
  <["/home/ola/maly.png" := Plik plik_maly]>
    (<["/home/ola/duzy.png" := Plik plik_duzy]> ∅).

Definition pliki_waskie : pliki := {[ "/home/ola/waski.bmp" := Plik plik_waski ]}.

(** The claim that the file [resize_image] returns fits the budget whenever
    the input file exceeds it. *)
Definition budzet_dotrzymany `{Biblioteki} (tmp : string) (teraz_ms : Z)
    (input_path : string) (f : pliki) : Prop :=
  ∀ b, read_bytes f input_path = Some b →
       800 * 1024 < Z.of_nat (length b) →
       let r := resize_image tmp teraz_ms input_path f in
       ∃ b', read_bytes (w_pliki r) (zwrot r) = Some b' ∧
             Z.of_nat (length b') ≤ 800 * 1024.

(** A resizing method that raises on one path and keeps the others. *)
Definition resize_zawodny (i : nat) (path : string) (f : pliki) : option wynik :=
  if decide (path = "/home/ola/zly.png") then None else Some (Wynik path f []).

(** ** Sample project files *)

Definition pliki_trzy : pliki :=
  <["/home/ola/a.png" := Plik [x64; x40; x01; x02; x03]]>
    (<["/home/ola/b.png" := Plik [x64; x40; x04; x05]]>
       (<["/home/ola/c.png" := Plik [x64; x40; x06]]> ∅)).

(** The same files without the first image. *)
Definition pliki_bez_a : pliki := delete "/home/ola/a.png" pliki_trzy.

(** The same files with a directory in the place of the first image:
    [os.path.exists] holds and [open] raises. *)
Definition pliki_a_katalog : pliki := <["/home/ola/a.png" := Katalog]> pliki_trzy.

(** The claim that saving [a] and loading the file into [b] brings every
    image back, at its position and with its bytes. *)
Definition obrazy_odtworzone `{Biblioteki} (a b : app) (f : pliki)
    (sciezka : string) : Prop :=
  let w := wczytaj_projekt sciezka b (zapisz_projekt sciezka a f) in
  ∀ i p, ilustracje a !! i = Some p →
         ∃ p', ilustracje w.1 !! i = Some p' ∧
               read_bytes w.2 p' = read_bytes f p.

(** Console lines that report an error. *)
Definition jest_bledem (w : wpis) : Prop :=
  match w with
  | BladResize _ | BladPrzetwarzania _ | BladAutozapisu => True
  | Autozapisano _ | InnyWpis _ => False
  end.

(** The claim that an autosave reports, on the console, the images it
    could not read. *)
Definition bledy_zgloszone `{Biblioteki} (znacznik iso : string) (a : app)
    (f : pliki) : Prop :=
  (∃ p, p ∈ ilustracje a ∧ read_bytes f p = None) →
  ∃ w, w ∈ (autozapisz_projekt znacznik iso a f).2 ∧ jest_bledem w.

(** * Objects and references

    [ilustracje] is a Python list and [opisy_krokow] a dictionary of
    dictionaries: mutable objects that handlers change in place.  This
    second model keeps them in a store and lets the controller and the
    snapshots hold references, so that sharing between the live state and
    the history can be expressed.  Strings, integers and [None] are
    immutable and stay values. *)
Module Obiekty.

Definition adres : Type := positive.

Inductive obiekt :=
| OLista (l : list string)        (* a list of paths *)
| OSlownik (d : gmap Z adres)     (* [opisy_krokow]: key to step dictionary *)
| OKrok (k : krok).               (* a step dictionary [{'nazwa': .., 'opis': ..}] *)

Abbreviation sterta := (gmap adres obiekt).

(** The dictionary [stan] of [zapisz_stan], with its two references. *)
Record migawka := Migawka {
  m_ilustracje : adres;
  m_opisy_krokow : adres;
  m_aktualny_wybrany_krok : option Z;
  m_kod : string;
  m_nazwa : string;
  m_data : string;
  m_autor : string
}.

(** The controller with its objects. *)
Record okno := Okno {
  pamiec : sterta;
  o_dok : pola;
  o_ilustracje : adres;
  o_opisy_krokow : adres;
  o_aktualny_wybrany_krok : option Z;
  o_steps_list : lista;
  o_stan_historia : list migawka;
  o_aktualny_stan_index : Z;
  o_opc : opcje
}.

(** ** Reading through references *)

Definition czytaj_liste (h : sterta) (l : adres) : list string :=
  match h !! l with Some (OLista xs) => xs | _ => [] end.

Definition czytaj_krok (h : sterta) (l : adres) : option krok :=
  match h !! l with Some (OKrok k) => Some k | _ => None end.

Definition slownik (h : sterta) (l : adres) : gmap Z adres :=
  match h !! l with Some (OSlownik d) => d | _ => ∅ end.

Definition czytaj_opisy (h : sterta) (l : adres) : gmap Z krok :=
  omap (czytaj_krok h) (slownik h l).

(** The value of a snapshot and of the history. *)
Definition wartosc_migawki (h : sterta) (s : migawka) : stan :=
  Stan (czytaj_liste h (m_ilustracje s)) (czytaj_opisy h (m_opisy_krokow s))
       (m_aktualny_wybrany_krok s) (m_kod s) (m_nazwa s) (m_data s) (m_autor s).

Definition wartosci_historii (c : okno) : list stan :=
  wartosc_migawki (pamiec c) <$> o_stan_historia c.

(** The controller of the first model that [c] stands for; the three
    directories and flags that play no part here come from [reszta]. *)
Definition wartosc (reszta : app) (c : okno) : app :=
  App (o_dok c) (czytaj_liste (pamiec c) (o_ilustracje c))
      (czytaj_opisy (pamiec c) (o_opisy_krokow c))
      (o_aktualny_wybrany_krok c) (o_steps_list c)
      (wartosci_historii c) (o_aktualny_stan_index c) (o_opc c)
      (temp_dir reszta) (autosave_dir reszta) (autosave_enabled reszta).

(** ** Copies *)

(** A new object: any address not in use. *)
Definition przydziel (o : obiekt) (h : sterta) : sterta * adres :=
  let l := fresh (dom h) in (<[l := o]> h, l).

(** [lst.copy()]: a new list with the same items. *)
Definition list_copy (h : sterta) (l : adres) : option (sterta * adres) :=
  match h !! l with
  | Some (OLista xs) => Some (przydziel (OLista xs) h)
  | _ => None
  end.

(** The item loop of [copy.deepcopy] on a dictionary: every step dictionary
    is copied once, and a step dictionary met again is answered from the
    memo. *)
Fixpoint kopiuj_wpisy (memo : gmap adres adres) (h : sterta)
    (wpisy : list (Z * adres)) : option (sterta * list (Z * adres)) :=
  match wpisy with
  | [] => Some (h, [])
  | (k, l) :: reszta =>
      match memo !! l with
      | Some l' =>
          match kopiuj_wpisy memo h reszta with
          | Some (h', w) => Some (h', (k, l') :: w)
          | None => None
          end
      | None =>
          match h !! l with
          | Some (OKrok v) =>
              let '(h1, l') := przydziel (OKrok v) h in
              match kopiuj_wpisy (<[l := l']> memo) h1 reszta with
              | Some (h', w) => Some (h', (k, l') :: w)
              | None => None
              end
          | _ => None
          end
      end
  end.

(** [copy.deepcopy(d)] for a dictionary of step dictionaries. *)
Definition deepcopy (h : sterta) (l : adres) : option (sterta * adres) :=
  match h !! l with
  | Some (OSlownik d) =>
      match kopiuj_wpisy ∅ h (map_to_list d) with
      | Some (h', w) => Some (przydziel (OSlownik (list_to_map w)) h')
      | None => None
      end
  | _ => None
  end.

(** ** Snapshots *)

Definition set_pamiec (h : sterta) (c : okno) : okno :=
  Okno h (o_dok c) (o_ilustracje c) (o_opisy_krokow c) (o_aktualny_wybrany_krok c)
       (o_steps_list c) (o_stan_historia c) (o_aktualny_stan_index c) (o_opc c).

Definition set_historia (hist : list migawka) (i : Z) (c : okno) : okno :=
  Okno (pamiec c) (o_dok c) (o_ilustracje c) (o_opisy_krokow c)
       (o_aktualny_wybrany_krok c) (o_steps_list c) hist i (o_opc c).

(** [zapisz_stan]. *)
Definition zapisz_stan (c : okno) : option okno :=
  '(h1, il) ← list_copy (pamiec c) (o_ilustracje c);
  '(h2, op) ← deepcopy h1 (o_opisy_krokow c);
  let stan := Migawka il op (o_aktualny_wybrany_krok c)
                (kod_edit (o_dok c)) (nazwa_edit (o_dok c))
                (data_edit (o_dok c)) (autor_edit (o_dok c)) in
  let '(hist, i) :=
    if decide (maks_historia ≤ Z.of_nat (length (o_stan_historia c)))
    then (drop 1 (o_stan_historia c),
          if decide (0 < o_aktualny_stan_index c)
          then o_aktualny_stan_index c - 1 else o_aktualny_stan_index c)
    else (o_stan_historia c, o_aktualny_stan_index c) in
  let hist' := hist ++ [stan] in
  Some (set_historia hist' (Z.of_nat (length hist') - 1) (set_pamiec h2 c)).

(** The common body of [cofnij] and [przywroc]. *)
Definition przywroc_stan (s : migawka) (c : okno) : option okno :=
  '(h1, il) ← list_copy (pamiec c) (m_ilustracje s);
  '(h2, op) ← deepcopy h1 (m_opisy_krokow s);
  let n := length (czytaj_liste h2 il) in
  let w := Lista n (-1) in
  let dok := Pola (m_kod s) (m_nazwa s) (m_data s) (m_autor s) in
  let c' := Okno h2 dok il op (m_aktualny_wybrany_krok s) w
                 (o_stan_historia c) (o_aktualny_stan_index c) (o_opc c) in
  match m_aktualny_wybrany_krok s with
  | Some k =>
      let w' := setCurrentRow k w in
      let current_row := currentRow w' in
      Some (Okno h2 dok il op
                 (if decide (0 ≤ current_row ∧ current_row < Z.of_nat n)
                  then Some current_row else Some k)
                 w' (o_stan_historia c) (o_aktualny_stan_index c) (o_opc c))
  | None => Some c'
  end.

(** [cofnij]. *)
Definition cofnij (c : okno) : option okno :=
  if decide (0 < o_aktualny_stan_index c) then
    let i := o_aktualny_stan_index c - 1 in
    s ← py_index (o_stan_historia c) i;
    przywroc_stan s (set_historia (o_stan_historia c) i c)
  else Some c.

(** [przywroc]. *)
Definition przywroc (c : okno) : option okno :=
  if decide (o_aktualny_stan_index c < Z.of_nat (length (o_stan_historia c)) - 1) then
    let i := o_aktualny_stan_index c + 1 in
    s ← py_index (o_stan_historia c) i;
    przywroc_stan s (set_historia (o_stan_historia c) i c)
  else Some c.

(** ** Changes of the live state

    The statements by which the handlers change the live objects and
    attributes.  [None] is a raised [IndexError] or [KeyError]. *)

(** The position [lst[i]] names: negative indices count from the end. *)
Definition py_pozycja (n : nat) (i : Z) : option nat :=
  if decide (0 ≤ i < Z.of_nat n) then Some (Z.to_nat i)
  else if decide (- Z.of_nat n ≤ i < 0) then Some (Z.to_nat (Z.of_nat n + i))
  else None.

Inductive zmiana :=
| Append (x : string)                 (* [self.ilustracje.append(x)] *)
| SetItem (i : Z) (x : string)        (* [self.ilustracje[i] = x] *)
| Pop (i : Z)                         (* [self.ilustracje.pop(i)] *)
| ClearLista                          (* [self.ilustracje.clear()] *)
| NowaLista                           (* [self.ilustracje = []] *)
| SetKrok (k : Z) (v : krok)          (* [self.opisy_krokow[k] = {'nazwa': .., 'opis': ..}] *)
| SetNazwa (k : Z) (n : string)       (* [self.opisy_krokow[k]['nazwa'] = n] *)
| Del (k : Z)                         (* [del self.opisy_krokow[k]] *)
| Zamien (k k' : Z)                   (* [d[k], d[k'] = d[k'], d[k]] *)
| ClearSlownik                        (* [self.opisy_krokow.clear()] *)
| NowySlownik (zr : gmap Z Z)         (* [self.opisy_krokow = nowe_opisy], where
                                         [nowe_opisy[i] = self.opisy_krokow[zr[i]]] *)
| SetPola (d : pola)                  (* [setText] on the four fields *)
| SetWybrany (k : option Z)           (* [self.aktualny_wybrany_krok = k] *)
| SetLista (w : lista)                (* the step list widget *)
| SetOpcje (o : opcje).               (* layout, size, font, language, theme *)

Definition set_ilustracje (l : adres) (c : okno) : okno :=
  Okno (pamiec c) (o_dok c) l (o_opisy_krokow c) (o_aktualny_wybrany_krok c)
       (o_steps_list c) (o_stan_historia c) (o_aktualny_stan_index c) (o_opc c).

Definition set_opisy_krokow (l : adres) (c : okno) : okno :=
  Okno (pamiec c) (o_dok c) (o_ilustracje c) l (o_aktualny_wybrany_krok c)
       (o_steps_list c) (o_stan_historia c) (o_aktualny_stan_index c) (o_opc c).

(** The object at [l] is replaced. *)
Definition zapisz (l : adres) (o : obiekt) (c : okno) : okno :=
  set_pamiec (<[l := o]> (pamiec c)) c.

Definition zmien_liste (f : list string → option (list string)) (c : okno)
    : option okno :=
  match pamiec c !! o_ilustracje c with
  | Some (OLista xs) => xs' ← f xs; Some (zapisz (o_ilustracje c) (OLista xs') c)
  | _ => None
  end.

Definition zmien_slownik (f : gmap Z adres → option (gmap Z adres)) (c : okno)
    : option okno :=
  match pamiec c !! o_opisy_krokow c with
  | Some (OSlownik d) => d' ← f d; Some (zapisz (o_opisy_krokow c) (OSlownik d') c)
  | _ => None
  end.

Definition wykonaj_zmiane (z : zmiana) (c : okno) : option okno :=
  match z with
  | Append x => zmien_liste (λ xs, Some (xs ++ [x])) c
  | SetItem i x =>
      zmien_liste (λ xs, p ← py_pozycja (length xs) i; Some (<[p := x]> xs)) c
  | Pop i =>
      zmien_liste (λ xs, p ← py_pozycja (length xs) i; Some (delete p xs)) c
  | ClearLista => zmien_liste (λ _, Some []) c
  | NowaLista =>
      let '(h, l) := przydziel (OLista []) (pamiec c) in
      Some (set_ilustracje l (set_pamiec h c))
  | SetKrok k v =>
      let '(h, l) := przydziel (OKrok v) (pamiec c) in
      zmien_slownik (λ d, Some (<[k := l]> d)) (set_pamiec h c)
  | SetNazwa k n =>
      l ← slownik (pamiec c) (o_opisy_krokow c) !! k;
      v ← czytaj_krok (pamiec c) l;
      Some (zapisz l (OKrok (Krok n (k_opis v))) c)
  | Del k =>
      zmien_slownik (λ d, _ ← d !! k; Some (delete k d)) c
  | Zamien k k' =>
      zmien_slownik (λ d, l ← d !! k; l' ← d !! k';
                          Some (<[k' := l]> (<[k := l']> d))) c
  | ClearSlownik => zmien_slownik (λ _, Some ∅) c
  | NowySlownik zr =>
      let d := slownik (pamiec c) (o_opisy_krokow c) in
      let '(h, l) := przydziel (OSlownik (omap (λ j, d !! j) zr)) (pamiec c) in
      Some (set_opisy_krokow l (set_pamiec h c))
  | SetPola d =>
      Some (Okno (pamiec c) d (o_ilustracje c) (o_opisy_krokow c)
                 (o_aktualny_wybrany_krok c) (o_steps_list c)
                 (o_stan_historia c) (o_aktualny_stan_index c) (o_opc c))
  | SetWybrany k =>
      Some (Okno (pamiec c) (o_dok c) (o_ilustracje c) (o_opisy_krokow c)
                 k (o_steps_list c)
                 (o_stan_historia c) (o_aktualny_stan_index c) (o_opc c))
  | SetLista w =>
      Some (Okno (pamiec c) (o_dok c) (o_ilustracje c) (o_opisy_krokow c)
                 (o_aktualny_wybrany_krok c) w
                 (o_stan_historia c) (o_aktualny_stan_index c) (o_opc c))
  | SetOpcje o =>
      Some (Okno (pamiec c) (o_dok c) (o_ilustracje c) (o_opisy_krokow c)
                 (o_aktualny_wybrany_krok c) (o_steps_list c)
                 (o_stan_historia c) (o_aktualny_stan_index c) o)
  end.

(** What happens after a snapshot was taken: changes of the live state,
    undo and redo. *)
Inductive zdarzenie :=
| Zmien (z : zmiana)
| Cofnij
| Przywroc.

Definition krok_zdarzenia (z : zdarzenie) (c : okno) : option okno :=
  match z with
  | Zmien z => wykonaj_zmiane z c
  | Cofnij => cofnij c
  | Przywroc => przywroc c
  end.

Fixpoint wykonaj (l : list zdarzenie) (c : okno) : option okno :=
  match l with
  | [] => Some c
  | z :: l' => c' ← krok_zdarzenia z c; wykonaj l' c'
  end.

(** ** Well-formed stores *)

Definition jest_lista (h : sterta) (l : adres) : Prop :=
  ∃ xs, h !! l = Some (OLista xs).

Definition jest_slownikiem (h : sterta) (l : adres) : Prop :=
  ∃ d, h !! l = Some (OSlownik d) ∧
       ∀ k l', d !! k = Some l' → ∃ v, h !! l' = Some (OKrok v).

(** The objects reached from a list reference and a dictionary
    reference. *)
Definition zasieg (h : sterta) (il op : adres) : gset adres :=
  {[il; op]} ∪ map_img (slownik h op).

Definition zasieg_zywy (c : okno) : gset adres :=
  zasieg (pamiec c) (o_ilustracje c) (o_opisy_krokow c).

Definition zasieg_migawki (h : sterta) (s : migawka) : gset adres :=
  zasieg h (m_ilustracje s) (m_opisy_krokow s).

(** The references of the live state and of every snapshot lead to objects
    of the right kind, no object of a snapshot is reached from the live
    state, and the cursor is [-1] or an index into the history. *)
Definition dobre (c : okno) : Prop :=
  jest_lista (pamiec c) (o_ilustracje c) ∧
  jest_slownikiem (pamiec c) (o_opisy_krokow c) ∧
  Forall (λ s, jest_lista (pamiec c) (m_ilustracje s) ∧
               jest_slownikiem (pamiec c) (m_opisy_krokow s) ∧
               zasieg_migawki (pamiec c) s ## zasieg_zywy c)
         (o_stan_historia c) ∧
  -1 ≤ o_aktualny_stan_index c < Z.of_nat (length (o_stan_historia c)).

(** One step of the live state, as the history sees it: the history holds
    the same references, the objects outside the reach of the live state
    are as before, and what the live state reaches now it reached before
    or is new. *)
Definition nastepuje (c c' : okno) : Prop :=
  o_stan_historia c' = o_stan_historia c ∧
  (∀ l, l ∈ dom (pamiec c) → l ∉ zasieg_zywy c → pamiec c' !! l = pamiec c !! l) ∧
  zasieg_zywy c' ⊆ zasieg_zywy c ∪ (dom (pamiec c') ∖ dom (pamiec c)) ∧
  jest_lista (pamiec c') (o_ilustracje c') ∧
  jest_slownikiem (pamiec c') (o_opisy_krokow c') ∧
  -1 ≤ o_aktualny_stan_index c' < Z.of_nat (length (o_stan_historia c')).

(** ** Sample windows *)

(** The window at start-up: an empty list, an empty dictionary and no
    snapshot yet. *)
Definition o_puste : okno :=
  Okno (<[1%positive := OLista []]> (<[2%positive := OSlownik ∅]> ∅))
       (dok a_start) 1%positive 2%positive None (Lista 0 (-1)) [] (-1)
       (opc a_start).

(** Three steps are added. *)
Definition dodaj_trzy : list zmiana :=
  [Append "/home/ola/a.png"; SetKrok 0 (Krok "Start" "Wlacz maszyne");
   Append "/home/ola/b.png"; SetKrok 1 (Krok "Pomiar" "Zmierz detal");
   Append "/home/ola/c.png"; SetKrok 2 (Krok "Koniec" "Wylacz maszyne");
   SetWybrany (Some 1); SetLista (Lista 3 1)].

(** The window with the three steps. *)
Definition o_trzy : okno := default o_puste (wykonaj (Zmien <$> dodaj_trzy) o_puste).

(** One snapshot is taken; then the second step is renamed in place, the
    first image is replaced and the third step is removed. *)
Definition po_migawce : list zdarzenie :=
  [Zmien (SetNazwa 1 "Kontrola"); Zmien (SetItem 0 "/home/ola/nowy.png");
   Zmien (Pop 2); Zmien (Del 2)].

End Obiekty.

(** The claim that undoing in [a] goes back to the state [a0] in which the
    snapshot before the cursor was taken, options and language included. *)
Definition cofniecie_do (a0 a : app) : Prop :=
  ∃ a', cofnij a = Some a' ∧
        py_index (stan_historia a') (aktualny_stan_index a')
          = Some (biezacy_stan a0) ∧
        dok a' = dok a0 ∧ ilustracje a' = ilustracje a0 ∧
        opisy_krokow a' = opisy_krokow a0 ∧
        aktualny_wybrany_krok a' = aktualny_wybrany_krok a0 ∧
        opc a' = opc a0.

(** After start-up the language is switched to English, an operation
    records a snapshot, and the code is typed. *)
Definition a_po_angielsku : app :=
  default a_start
    (wykonaj [Zmiana (λ a, set_opc (zmien_jezyk_combo "angielski" (opc a)) a);
              Edycja (wpisz_kod "K-1")] a_start).

(** ** What loading leaves alone *)

(** The trace of [wczytaj_projekt] between two states of the controller and
    the files: the directories, the autosave switch and the selected step
    are the same, and so is every file that is not a
    [loaded_<i>_<name>] of the temporary directory. *)
Definition slad_wczytania (s s' : app * pliki) : Prop :=
  temp_dir s'.1 = temp_dir s.1 ∧
  autosave_dir s'.1 = autosave_dir s.1 ∧
  autosave_enabled s'.1 = autosave_enabled s.1 ∧
  aktualny_wybrany_krok s'.1 = aktualny_wybrany_krok s.1 ∧
  ∀ q, (∀ i n, q ≠ sciezka_wczytana (temp_dir s.1) i n) → s'.2 !! q = s.2 !! q.

(** ** Translations *)

(** [t]: the text for [klucz] in the current language, or the key in
    brackets.  [self.tlumaczenia.get(self.jezyk, {})] raises when
    [tlumaczenia] is not a dictionary, and the second [get] when the entry
    of the language is not one. *)
Definition t (klucz : string) (o : opcje) : option json :=
  tlumaczenia_jezyka ← py_get (jezyk o) (JObj []) (tlumaczenia o);
  py_get klucz (JStr ("[" +:+ klucz +:+ "]")) tlumaczenia_jezyka.

(** ** Characters of a name *)

(** [s] has no character [c]. *)
Fixpoint bez_znaku (c : ascii) (s : string) : Prop :=
  match s with
  | EmptyString => True
  | String x s' => x ≠ c ∧ bez_znaku c s'
  end.

(** * Handlers of the step list *)

(** ** Lists and paths *)

(** [p.rfind(c)], counted from position [i]: the index of the last [c], or
    [-1]. *)
Fixpoint rfind_od (c : ascii) (p : string) (i : Z) : Z :=
  match p with
  | EmptyString => -1
  | String x p' =>
      let r := rfind_od c p' (i + 1) in
      if decide (0 ≤ r) then r else if decide (x = c) then i else -1
  end.

Definition rfind (c : ascii) (p : string) : Z := rfind_od c p 0.

Fixpoint same_kropki (s : string) : bool :=
  match s with
  | EmptyString => true
  | String x s' => bool_decide (x = "."%char) && same_kropki s'
  end.

(** [os.path.splitext]: the extension starts at the last dot of the last
    component, unless only dots come before it there. *)
Definition splitext (p : string) : string * string :=
  let sepIndex := rfind "/" p in
  let dotIndex := rfind "." p in
  if decide (sepIndex < dotIndex) then
    if same_kropki (String.substring (Z.to_nat (sepIndex + 1))
                      (Z.to_nat (dotIndex - sepIndex - 1)) p)
    then (p, "")
    else (String.substring 0 (Z.to_nat dotIndex) p,
          String.substring (Z.to_nat dotIndex)
            (String.length p - Z.to_nat dotIndex) p)
  else (p, "").

(** [lst[i] = x]: an index out of range raises [IndexError]. *)
Definition py_setitem {A} (l : list A) (i : Z) (x : A) : option (list A) :=
  if decide (0 ≤ i) then
    if decide (i < Z.of_nat (length l)) then Some (<[Z.to_nat i := x]> l) else None
  else if decide (0 ≤ Z.of_nat (length l) + i)
       then Some (<[Z.to_nat (Z.of_nat (length l) + i) := x]> l)
       else None.

(** [lst[i], lst[j] = lst[j], lst[i]]: the right-hand side is read first. *)
Definition py_zamien {A} (l : list A) (i j : Z) : option (list A) :=
  x ← py_index l j;
  y ← py_index l i;
  l ← py_setitem l i x;
  py_setitem l j y.

(** [if i in d and j in d: d[i], d[j] = d[j], d[i]]. *)
Definition zamien_opisy (i j : Z) (opisy : gmap Z krok) : gmap Z krok :=
  match opisy !! i, opisy !! j with
  | Some vi, Some vj => <[j := vi]> (<[i := vj]> opisy)
  | _, _ => opisy
  end.

(** ** Adding steps *)

(** [ThumbnailListWidget.add_image_item]: one more item; the current row
    stays. *)
Definition add_image_item (w : lista) : lista :=
  Lista (S (count w)) (currentRow w).

(** One pass of the loop of [on_images_processed].  The description
    template is the text [t] gives; the model holds step records with
    string fields, and a template of another type, which Python would
    store, raises here. *)
Definition dodaj_krok (plik : string) (a : app) : option app :=
  let a := set_ilustracje (ilustracje a ++ [plik]) a in
  let nazwa_pliku := basename plik in
  let nazwa_kroku := (splitext nazwa_pliku).1 in
  let index := Z.of_nat (length (ilustracje a)) - 1 in
  opis ← t "domyslny_szablon" (opc a) ≫= jako_str;
  let a := set_opisy_krokow (<[index := Krok nazwa_kroku opis]> (opisy_krokow a)) a in
  Some (set_steps_list (add_image_item (steps_list a)) a).

Fixpoint dodaj_kroki (processed_paths : list string) (a : app) : option app :=
  match processed_paths with
  | [] => Some a
  | plik :: reszta => a' ← dodaj_krok plik a; dodaj_kroki reszta a'
  end.

(** [on_images_processed], the slot of the thread's [finished]. *)
Definition on_images_processed (processed_paths : list string) (a : app)
    : option app :=
  a ← dodaj_kroki processed_paths a;
  if decide (processed_paths = []) then Some a
  else Some (pokaz_podglad
               (set_steps_list
                  (setCurrentRow (Z.of_nat (length (ilustracje a)) - 1) (steps_list a))
                  a)).

(** ** Moving a step *)

(** The common body of [przenies_w_gore] and [przenies_w_dol] after the
    snapshot: the step at [index] changes places with the step at [nowy],
    which is [index - 1] or [index + 1]. *)
Definition przenies (index nowy : Z) (a : app) : option app :=
  il ← py_zamien (ilustracje a) index nowy;
  let a := set_ilustracje il a in
  let a := set_opisy_krokow (zamien_opisy index nowy (opisy_krokow a)) a in
  let a := odswiez_liste a in
  Some (pokaz_podglad (set_steps_list (setCurrentRow nowy (steps_list a)) a)).

(** [przenies_w_gore]. *)
Definition przenies_w_gore (a : app) : option app :=
  let current_row := currentRow (steps_list a) in
  if decide (current_row ≤ 0) then Some a
  else przenies current_row (current_row - 1) (zapisz_stan a).

(** [przenies_w_dol]. *)
Definition przenies_w_dol (a : app) : option app :=
  let current_row := currentRow (steps_list a) in
  if decide (current_row < 0 ∨ Z.of_nat (length (ilustracje a)) - 1 ≤ current_row)
  then Some a
  else przenies current_row (current_row + 1) (zapisz_stan a).

(** ** The description of a step *)

(** [zapisz_opis_kroku]; [step_name] and [step_desc] are the texts of the
    two editors.  The list item is updated inside the guard
    [0 <= index < self.steps_list.count()], where [self.ilustracje[index]]
    is read. *)
Definition zapisz_opis_kroku `{Biblioteki} (step_name step_desc : string) (a : app)
    : option app :=
  match aktualny_wybrany_krok a with
  | None => Some a
  | Some index =>
      let a := zapisz_stan a in
      let nazwa := strip step_name in
      let opis := strip step_desc in
      let nazwa := if decide (nazwa = "") then "Krok " +:+ py_str (index + 1)
                   else nazwa in
      let a := set_opisy_krokow (<[index := Krok nazwa opis]> (opisy_krokow a)) a in
      if decide (0 ≤ index < Z.of_nat (count (steps_list a))) then
        _ ← py_index (ilustracje a) index; Some a
      else Some a
  end.

(** [wymien_ilustracje]; [plik] is the answer of the file dialog.  The
    name of the step is kept when it has one, and is the file name without
    its extension otherwise. *)
Definition wymien_ilustracje `{Biblioteki} (teraz_ms : Z) (plik : string)
    (a : app) (f : pliki) : option (app * pliki) :=
  let current_row := currentRow (steps_list a) in
  if decide (current_row < 0) then Some (a, f)
  else if decide (plik = "") then Some (a, f)
  else
    let a := zapisz_stan a in
    let index := current_row in
    let r := resize_image (temp_dir a) teraz_ms plik f in
    il ← py_setitem (ilustracje a) index (zwrot r);
    let a := set_ilustracje il a in
    let zachowana_nazwa :=
      match opisy_krokow a !! index with
      | Some v => if decide (k_nazwa v = "") then (splitext (basename plik)).1
                  else k_nazwa v
      | None => (splitext (basename plik)).1
      end in
    opisy ← match opisy_krokow a !! index with
            | None =>
                opis ← t "domyslny_szablon" (opc a) ≫= jako_str;
                Some (<[index := Krok zachowana_nazwa opis]> (opisy_krokow a))
            | Some v =>
                Some (<[index := Krok zachowana_nazwa (k_opis v)]> (opisy_krokow a))
            end;
    let a := set_opisy_krokow opisy a in
    Some (pokaz_podglad (set_steps_list (setCurrentRow index (steps_list a)) a),
          w_pliki r).

(** A click on row [r] of the step list: Qt makes the row current and
    [itemClicked] runs [pokaz_podglad]. *)
Definition wybierz_krok (r : Z) (a : app) : app :=
  pokaz_podglad (set_steps_list (setCurrentRow r (steps_list a)) a).

(** ** Sessions of handlers *)

Inductive obsluga :=
| Dodaj (processed_paths : list string)   (* [dodaj_ilustracje]: snapshot, thread, slot *)
| Usun                                    (* [usun_ilustracje] *)
| WGore                                   (* [przenies_w_gore] *)
| WDol                                    (* [przenies_w_dol] *)
| ZapiszOpis (step_name step_desc : string)   (* [zapisz_opis_kroku] *)
| Wyczysc (dzis : string)                 (* [wyczysc_wszystko] *)
| Wybierz (r : Z)                         (* a click on the list *)
| Cofniecie                               (* [cofnij] *)
| Przywrocenie.                           (* [przywroc] *)

(** [dodaj_ilustracje] as the controller sees it: nothing happens without
    files; otherwise a snapshot is taken and the slot runs on the paths the
    thread hands over. *)
Definition dodaj_ilustracje (processed_paths : list string) (a : app) : option app :=
  if decide (processed_paths = []) then Some a
  else on_images_processed processed_paths (zapisz_stan a).

Definition obsluz `{Biblioteki} (o : obsluga) (a : app) : option app :=
  match o with
  | Dodaj processed_paths => dodaj_ilustracje processed_paths a
  | Usun => Some (usun_ilustracje a)
  | WGore => przenies_w_gore a
  | WDol => przenies_w_dol a
  | ZapiszOpis step_name step_desc => zapisz_opis_kroku step_name step_desc a
  | Wyczysc dzis => Some (wyczysc_wszystko dzis a)
  | Wybierz r => Some (wybierz_krok r a)
  | Cofniecie => cofnij a
  | Przywrocenie => przywroc a
  end.

Fixpoint obsluz_wszystkie `{Biblioteki} (l : list obsluga) (a : app) : option app :=
  match l with
  | [] => Some a
  | o :: l' => a' ← obsluz o a; obsluz_wszystkie l' a'
  end.

(** ** Alignment of the list, the descriptions and the widget *)

(** The keys of the descriptions and the selected step of a snapshot are
    indices into its list of images. *)
Definition spojna_migawka (s : stan) : Prop :=
  (∀ k, is_Some (s_opisy_krokow s !! k) →
        0 ≤ k < Z.of_nat (length (s_ilustracje s))) ∧
  (∀ k, s_aktualny_wybrany_krok s = Some k →
        0 ≤ k < Z.of_nat (length (s_ilustracje s))).

(** The widget shows one item per image and its current row is [-1] or an
    item; the live state and every snapshot are aligned; the history is
    within its bounds. *)
Definition spojny (a : app) : Prop :=
  count (steps_list a) = length (ilustracje a) ∧
  -1 ≤ currentRow (steps_list a) < Z.of_nat (count (steps_list a)) ∧
  spojna_migawka (biezacy_stan a) ∧
  Forall spojna_migawka (stan_historia a) ∧
  hist_inv a.

(** The template the added steps get as their description. *)
Definition jest_szablon (a : app) : Prop :=
  ∃ s, t "domyslny_szablon" (opc a) = Some (JStr s).

(** * Pruning the autosave directory

    [oczysc_stare_autozapisy] on the listing of the autosave directory.
    Modification times are only compared with one another, so any totally
    ordered stamps stand for the floats of [os.path.getmtime]; they are
    integers here. *)
Module Katalog.

(** One name of [os.listdir(self.autosave_dir)], with what the file system
    answers for it. *)
Record pozycja := Pozycja {
  p_nazwa : string;
  p_mtime : Z;          (* [os.path.getmtime] *)
  p_isfile : bool;      (* [os.path.isfile] *)
  p_usuwalny : bool     (* whether [os.remove] succeeds *)
}.

(** The lines the method prints. *)
Inductive linia :=
| Usunieto (stary_plik : string)   (* "Usunięto stary autozapis: ..." *)
| BladCzyszczenia.                 (* "Błąd czyszczenia starych autozapisów: ..." *)

(** [s.startswith(pre)], [s.endswith(suf)] and [c in s] for one
    character. *)
Definition startswith (pre s : string) : bool := String.prefix pre s.

Definition endswith (suf s : string) : bool :=
  String.prefix (String.rev suf) (String.rev s).

Fixpoint zawiera (c : ascii) (s : string) : bool :=
  match s with
  | EmptyString => false
  | String x s' => bool_decide (x = c) || zawiera c s'
  end.

(** The test on a name in the first loop. *)
Definition pasuje (plik : string) : bool :=
  endswith ".json" plik
  && (startswith "bez_kodu_" plik || startswith "xxx-xxxx-xxx_" plik
      || zawiera "_" plik).

(** The list [pliki] after the first loop, in the order of the listing. *)
Definition kandydaci (l : list pozycja) : list pozycja :=
  filter (λ p, pasuje (p_nazwa p) && p_isfile p = true) l.

(** [pliki.sort(key=lambda x: x[1])]: the sort is stable. *)
Fixpoint wstaw (x : pozycja) (l : list pozycja) : list pozycja :=
  match l with
  | [] => [x]
  | y :: l' => if decide (p_mtime x ≤ p_mtime y) then x :: y :: l'
               else y :: wstaw x l'
  end.

Definition sortuj (l : list pozycja) : list pozycja := foldr wstaw [] l.

(** The files that [pliki.pop(0)] takes while more than ten are left, and
    the ones that stay in the list. *)
Definition stare (l : list pozycja) : list pozycja :=
  take (length (kandydaci l) - 10) (sortuj (kandydaci l)).

Definition najnowsze (l : list pozycja) : list pozycja :=
  drop (length (kandydaci l) - 10) (sortuj (kandydaci l)).

(** [oczysc_stare_autozapisy]: the paths removed and the lines printed;
    [listing] is [None] when [os.listdir] raises.  A file that cannot be
    removed is passed over without a line. *)
Definition oczysc_stare_autozapisy (autosave_dir : string)
    (listing : option (list pozycja)) : list string * list linia :=
  match listing with
  | None => ([], [BladCzyszczenia])
  | Some l =>
      let usuniete :=
        (λ p, join autosave_dir (p_nazwa p)) <$> filter (λ p, p_usuwalny p = true) (stare l) in
      (usuniete, Usunieto <$> usuniete)
  end.

(** A listing with twelve autosaves, a file of another kind and a
    directory. *)
Definition katalog_probny : list pozycja :=
  [Pozycja "K-1_20240506_101500.json" 1500 true true;
   Pozycja "notatki.txt" 10 true true;
   Pozycja "K-1_20240506_100000.json" 1000 true true;
   Pozycja "bez_kodu_20240506_100500.json" 1050 true true;
   Pozycja "K-1_20240506_101000.json" 1100 true false;
   Pozycja "stare_kopie.json" 5 false true;
   Pozycja "K-1_20240506_102000.json" 1200 true true;
   Pozycja "K-1_20240506_102500.json" 1250 true true;
   Pozycja "K-1_20240506_103000.json" 1300 true true;
   Pozycja "K-1_20240506_103500.json" 1350 true true;
   Pozycja "K-1_20240506_104000.json" 1400 true true;
   Pozycja "K-1_20240506_104500.json" 1450 true true;
   Pozycja "moje_dane.json" 1 true true;
   Pozycja "K-1_20240506_105500.json" 1550 true true;
   Pozycja "ustawienia.json" 2 true true].

End Katalog.

(** * Backup copies *)

(** [os.makedirs(path, exist_ok=True)]: a directory at the path is kept as
    it is, a file there raises. *)
Definition makedirs (path : string) (f : pliki) : option pliki :=
  match f !! path with
  | None => Some (<[path := Katalog]> f)
  | Some Katalog => Some f
  | Some _ => None
  end.

(** [shutil.copy2(src, dst)]: a directory as [dst] stands for the file of
    the same name inside it; copying a file onto itself, a source that is
    missing or a directory, and a directory in the place of the copy
    raise. *)
Definition copy2 (src dst : string) (f : pliki) : option pliki :=
  let dst := match f !! dst with
             | Some Katalog => join dst (basename src)
             | _ => dst
             end in
  if decide (src = dst) then None
  else match f !! src with
       | None | Some Katalog => None
       | Some w =>
           match f !! dst with
           | Some Katalog => None
           | _ => Some (<[dst := w]> f)
           end
       end.

(** The message box that ends [utworz_kopie_zapasowa]. *)
Inductive okienko :=
| BrakDanych                          (* warning: "Brak danych do kopii zapasowej!" *)
| KopiaUtworzona (backup_dir : string)  (* information, with the directory *)
| BladKopii.                          (* critical: "Błąd tworzenia kopii zapasowej: ..." *)

(** [f"krok_{i+1}_{nazwa_pliku}"]. *)
Definition nazwa_kopii (i : nat) (sciezka : string) : string :=
  "krok_" +:+ py_str (Z.of_nat i + 1) +:+ "_" +:+ basename sciezka.

(** The loop that copies the images, from index [i] on: the files
    afterwards, and whether the loop ran to its end.  An image that does
    not exist is passed over. *)
Fixpoint kopiuj_obrazy (backup_dir : string) (i : nat) (il : list string)
    (f : pliki) : pliki * bool :=
  match il with
  | [] => (f, true)
  | sciezka :: il' =>
      if exists_path f sciezka then
        match copy2 sciezka (join backup_dir (nazwa_kopii i sciezka)) f with
        | Some f' => kopiuj_obrazy backup_dir (S i) il' f'
        | None => (f, false)
        end
      else kopiuj_obrazy backup_dir (S i) il' f
  end.

(** The dictionary [dane_projektu]; [json.dump] writes the integer keys of
    [opisy_krokow] as strings. *)
Definition dane_projektu (iso : string) (a : app) : json :=
  JObj [("kod", JStr (kod_edit (dok a)));
        ("nazwa", JStr (nazwa_edit (dok a)));
        ("data", JStr (data_edit (dok a)));
        ("autor", JStr (autor_edit (dok a)));
        ("opisy_krokow", JObj (opisy_krokow_str_keys (opisy_krokow a)));
        ("data_utworzenia_kopii", JStr iso)].

(** [utworz_kopie_zapasowa]: the files afterwards and the message box, if
    any; [katalog] is the answer of the directory dialog, [znacznik] is
    [datetime.now().strftime("%Y%m%d_%H%M%S")] and [iso] is
    [datetime.now().isoformat()].  An exception leaves the files as they
    are at that point. *)
Definition utworz_kopie_zapasowa (katalog znacznik iso : string) (a : app)
    (f : pliki) : pliki * option okienko :=
  if decide (ilustracje a = []) then (f, Some BrakDanych)
  else if decide (katalog = "") then (f, None)
  else
    let backup_dir := join katalog ("backup_dokumentacji_" +:+ znacznik) in
    match makedirs backup_dir f with
    | None => (f, Some BladKopii)
    | Some f1 =>
        match kopiuj_obrazy backup_dir 0 (ilustracje a) f1 with
        | (f2, false) => (f2, Some BladKopii)
        | (f2, true) =>
            match write_json f2 (join backup_dir "dane_projektu.json")
                    (dane_projektu iso a) with
            | Some f3 => (f3, Some (KopiaUtworzona backup_dir))
            | None => (f2, Some BladKopii)
            end
        end
    end.

(** The path [q] is the directory [d] or a name directly in it. *)
Definition w_katalogu (d q : string) : Prop :=
  q = d ∨ ∃ n, bez_znaku "/" n ∧ q = join d n.

(** * A packed image format *)

(** The four pixels of two bits that a byte of a palette image packs. *)
Definition rozpakuj (b : byte) : list byte :=
  (λ k, bajt (N.land (N.shiftr (Byte.to_N b) k) 3)) <$> [6; 4; 2; 0]%N.

(** A number in two bytes, the high one first. *)
Definition dwa_bajty (hi lo : byte) : Z :=
  256 * Z.of_N (Byte.to_N hi) + Z.of_N (Byte.to_N lo).

(** A second stand-in for the libraries, with an input format that is more
    compact than the encoder's output: an image file is the width and the
    height in two bytes each, followed by the pixels of a palette image,
    four to a byte; the conversion to RGB unpacks them; resizing crops; the
    encoder writes one byte for each pixel. *)
Definition bib_gesta : Biblioteki := {|
  Image_open b :=
    match b with
    | w1 :: w0 :: h1 :: h0 :: px => Some (Obraz "P" (dwa_bajty w1 w0) (dwa_bajty h1 h0) px)
    | _ => None
    end;
  convert_RGB img :=
    Some (Obraz "RGB" (width img) (height img) (piksele img ≫= rozpakuj));
  resample img w h := Some (take (Z.to_nat (w * h)) (piksele img));
  save_JPEG img := Some (piksele img);
  md5_hex8 _ := "d41d8cd9";
  json_dumps _ := [];
  json_loads _ := None;
  isalnum := @isalnum bib_probna;
  isspace := @isspace bib_probna;
  py_repr _ := "";
  odswiez_interfejs_raises _ := false;
  oczysc_stare_autozapisy _ f := (f, [])
|}.

(** A palette image of 2000 x 1800 pixels in a file of 900004 bytes. *)
Definition plik_gesty : list byte :=
  x07 :: xd0 :: x07 :: x08 :: replicate (Z.to_nat 900000) x1b.

Definition pliki_geste : pliki := {[ "/home/ola/plan.png" := Plik plik_gesty ]}.

(** * Names of the images in a project file *)

(** The names under which a project file stores its images: the ['nazwa']
    of every entry of ['obrazy'], as the f-string of [wczytaj_projekt]
    formats it. *)
Definition nazwy_obrazow `{Biblioteki} (projekt : json) : list string :=
  match py_get "obrazy" (JObj []) projekt with
  | Some (JObj l) => omap (λ kv, format_json <$> py_item "nazwa" kv.2) l
  | _ => []
  end.

(** A name without a path separator, [/] or [\]. *)
Definition nazwa_prosta (n : string) : Prop :=
  bez_znaku "/" n ∧ bez_znaku "\" n.

(** What loading leaves alone when the names it meets satisfy [P]. *)
Definition slad_nazw (P : string → Prop) (s s' : app * pliki) : Prop :=
  temp_dir s'.1 = temp_dir s.1 ∧
  ∀ q, (∀ i n, P n → q ≠ sciezka_wczytana (temp_dir s.1) i n) →
       s'.2 !! q = s.2 !! q.

(** A project file that stores the image under a name with [/]. *)
Definition projekt_z_ukosnikiem : json :=
  JObj [("kod", JStr "K-9");
        ("obrazy",
         JObj [("0", JObj [("nazwa", JStr "x/../../../home/ola/.profile");
                           ("dane", JStr "ZWNobyBoZWo=")])])].

(** * Properties *)

(** ** The snapshot history *)

Lemma zapisz_stan_historia (a : app) :
  stan_historia (zapisz_stan a) =
    (if decide (maks_historia ≤ Z.of_nat (length (stan_historia a)))
     then drop 1 (stan_historia a) else stan_historia a) ++ [biezacy_stan a].
Proof. unfold zapisz_stan. by case_decide. Qed.

Lemma zapisz_stan_index (a : app) :
  aktualny_stan_index (zapisz_stan a) =
    Z.of_nat (length (stan_historia (zapisz_stan a))) - 1.
Proof. unfold zapisz_stan. by case_decide. Qed.

Lemma zapisz_stan_length (a : app) :
  Z.of_nat (length (stan_historia a)) ≤ maks_historia →
  Z.of_nat (length (stan_historia (zapisz_stan a))) ≤ maks_historia.
Proof.
  intros Hle. rewrite zapisz_stan_historia.
  unfold maks_historia in *.
  case_decide; rewrite length_app ?length_drop /=; lia.
Qed.

Lemma zapisz_stan_last (a : app) :
  last (stan_historia (zapisz_stan a)) = Some (biezacy_stan a).
Proof. rewrite zapisz_stan_historia. apply last_snoc. Qed.

Lemma last_lookup_Z {A} (l : list A) :
  last l = l !! Z.to_nat (Z.of_nat (length l) - 1).
Proof.
  rewrite last_lookup. f_equal. lia.
Qed.

Lemma zapisz_stan_inv (a : app) : hist_inv a → hist_inv (zapisz_stan a).
Proof.
  intros [Hle _]. split; [by apply zapisz_stan_length|].
  rewrite zapisz_stan_index zapisz_stan_historia length_app /=. lia.
Qed.

Lemma pokaz_podglad_historia (a : app) :
  stan_historia (pokaz_podglad a) = stan_historia a ∧
  aktualny_stan_index (pokaz_podglad a) = aktualny_stan_index a.
Proof. unfold pokaz_podglad. cbv zeta. case_decide; split; reflexivity. Qed.

Lemma przywroc_stan_historia (s : stan) (a : app) :
  stan_historia (przywroc_stan s a) = stan_historia a ∧
  aktualny_stan_index (przywroc_stan s a) = aktualny_stan_index a.
Proof.
  unfold przywroc_stan. cbn [aktualny_wybrany_krok odswiez_liste set_steps_list].
  destruct (s_aktualny_wybrany_krok s) as [k|]; [|done].
  destruct (pokaz_podglad_historia
    (set_steps_list (setCurrentRow k (steps_list (odswiez_liste
       (set_dok (Pola (s_kod s) (s_nazwa s) (s_data s) (s_autor s))
          (set_aktualny_wybrany_krok (Some k)
             (set_opisy_krokow (s_opisy_krokow s)
                (set_ilustracje (s_ilustracje s) a)))))))
       (odswiez_liste
       (set_dok (Pola (s_kod s) (s_nazwa s) (s_data s) (s_autor s))
          (set_aktualny_wybrany_krok (Some k)
             (set_opisy_krokow (s_opisy_krokow s)
                (set_ilustracje (s_ilustracje s) a))))))) as [H1 H2].
  split; [exact H1 | exact H2].
Qed.

Lemma py_index_is_Some {A} (l : list A) (i : Z) :
  0 ≤ i < Z.of_nat (length l) → is_Some (py_index l i).
Proof.
  intros Hi. unfold py_index. rewrite decide_True; [|lia].
  apply lookup_lt_is_Some. lia.
Qed.

Lemma cofnij_inv (a : app) :
  hist_inv a → ∃ a', cofnij a = Some a' ∧ hist_inv a'.
Proof.
  intros [Hle Hi]. unfold cofnij. case_decide; [|by exists a].
  destruct (py_index_is_Some (stan_historia a) (aktualny_stan_index a - 1))
    as [s Hs]; [lia|].
  simpl. rewrite Hs. simpl. eexists; split; [done|].
  unfold hist_inv.
  destruct (przywroc_stan_historia s
              (set_historia (stan_historia a) (aktualny_stan_index a - 1) a))
    as [-> ->].
  simpl. lia.
Qed.

Lemma przywroc_inv (a : app) :
  hist_inv a → ∃ a', przywroc a = Some a' ∧ hist_inv a'.
Proof.
  intros [Hle Hi]. unfold przywroc. case_decide; [|by exists a].
  destruct (py_index_is_Some (stan_historia a) (aktualny_stan_index a + 1))
    as [s Hs]; [lia|].
  simpl. rewrite Hs. simpl. eexists; split; [done|].
  unfold hist_inv.
  destruct (przywroc_stan_historia s
              (set_historia (stan_historia a) (aktualny_stan_index a + 1) a))
    as [-> ->].
  simpl. lia.
Qed.

Lemma krok_akcji_inv (x : akcja) (a : app) :
  hist_inv a → ∃ a', krok_akcji x a = Some a' ∧ hist_inv a'.
Proof.
  intros Ha. destruct x as [m|m|m| |]; simpl.
  - eexists; split; [done|].
    apply zapisz_stan_inv in Ha. destruct Ha. by split.
  - eexists; split; [done|]. destruct Ha. by split.
  - eexists; split; [done|]. apply zapisz_stan_inv.
    split; simpl; unfold maks_historia; lia.
  - by apply cofnij_inv.
  - by apply przywroc_inv.
Qed.

Lemma wykonaj_inv (l : list akcja) (a : app) :
  hist_inv a → ∃ a', wykonaj l a = Some a' ∧ hist_inv a'.
Proof.
  revert a. induction l as [|x l IH]; intros a Ha; simpl.
  - by exists a.
  - destruct (krok_akcji_inv x a Ha) as (a1 & -> & Ha1). simpl. by apply IH.
Qed.

(** C3.  From any state that satisfies the history invariant (the state
    built by [__init__] does), every session runs to a state whose history
    holds at most 20 snapshots.  In that state a call of [zapisz_stan] with
    20 entries recorded drops the oldest entry and appends the snapshot of
    the live state; after the call the history again holds at most 20
    entries and the cursor is the index of the last entry, which is the
    snapshot just taken. *)
Theorem historia_ograniczona (a0 : app) (l : list akcja) :
  hist_inv a0 →
  ∃ a, wykonaj l a0 = Some a ∧
       Z.of_nat (length (stan_historia a)) ≤ 20 ∧
       (Z.of_nat (length (stan_historia a)) = 20 →
        stan_historia (zapisz_stan a) = drop 1 (stan_historia a) ++ [biezacy_stan a]) ∧
       Z.of_nat (length (stan_historia (zapisz_stan a))) ≤ 20 ∧
       aktualny_stan_index (zapisz_stan a) =
         Z.of_nat (length (stan_historia (zapisz_stan a))) - 1 ∧
       py_index (stan_historia (zapisz_stan a)) (aktualny_stan_index (zapisz_stan a))
         = Some (biezacy_stan a).
Proof.
  intros H0. destruct (wykonaj_inv l a0 H0) as (a & Hrun & Ha).
  exists a. split; [done|]. destruct Ha as [Hle Hi].
  split; [done|]. split.
  { intros Hfull. rewrite zapisz_stan_historia decide_True; [done|].
    unfold maks_historia. lia. }
  split; [by apply zapisz_stan_length|].
  split; [apply zapisz_stan_index|].
  rewrite zapisz_stan_index. unfold py_index.
  rewrite decide_True.
  - rewrite -last_lookup_Z. apply zapisz_stan_last.
  - rewrite zapisz_stan_historia length_app /=. lia.
Qed.

(** C10.  Whatever the cursor position, [zapisz_stan] keeps every recorded
    snapshot except the oldest one when 20 are recorded, appends the new
    snapshot at the end and moves the cursor there.  In particular the
    snapshots that lay after the cursor stay in the history, right before
    the appended entry and after the entries up to the old cursor. *)
Theorem zapisz_stan_zachowuje_ogon (a : app) :
  0 ≤ aktualny_stan_index a →
  let h := stan_historia a in
  let i := Z.to_nat (aktualny_stan_index a) in
  let pelna := bool_decide (20 ≤ Z.of_nat (length h)) in
  stan_historia (zapisz_stan a)
    = (if pelna then drop 1 h else h) ++ [biezacy_stan a] ∧
  stan_historia (zapisz_stan a)
    = (if pelna then drop 1 (take (S i) h) else take (S i) h)
        ++ drop (S i) h ++ [biezacy_stan a] ∧
  aktualny_stan_index (zapisz_stan a)
    = Z.of_nat (length (stan_historia (zapisz_stan a))) - 1.
Proof.
  intros Hi h i pelna.
  assert (Hh : stan_historia (zapisz_stan a)
                 = (if pelna then drop 1 h else h) ++ [biezacy_stan a]).
  { rewrite zapisz_stan_historia. unfold pelna, maks_historia, h.
    by rewrite -(decide_bool_decide (20 ≤ _)). }
  split; [done|]. split; [|apply zapisz_stan_index].
  rewrite Hh app_assoc. f_equal.
  destruct pelna eqn:Hp.
  - apply bool_decide_eq_true in Hp.
    rewrite -{1}(take_drop (S i) h). apply drop_app_le.
    rewrite length_take. lia.
  - by rewrite take_drop.
Qed.

Lemma a_start_inv : hist_inv a_start.
Proof. vm_compute. split; [|split]; by intros. Qed.

Lemma historia_ograniczona_witness :
  hist_inv a_start ∧
  ∃ a, wykonaj sesja_dluga a_start = Some a ∧
       Z.of_nat (length (stan_historia a)) ≤ 20 ∧
       (Z.of_nat (length (stan_historia a)) = 20 →
        stan_historia (zapisz_stan a) = drop 1 (stan_historia a) ++ [biezacy_stan a]) ∧
       Z.of_nat (length (stan_historia (zapisz_stan a))) ≤ 20 ∧
       aktualny_stan_index (zapisz_stan a) =
         Z.of_nat (length (stan_historia (zapisz_stan a))) - 1 ∧
       py_index (stan_historia (zapisz_stan a)) (aktualny_stan_index (zapisz_stan a))
         = Some (biezacy_stan a).
Proof.
  split.
  - vm_compute. split; [|split]; by intros.
  - apply (historia_ograniczona a_start sesja_dluga).
    vm_compute; split; [|split]; by intros.
Defined.

Lemma zapisz_stan_zachowuje_ogon_witness :
  0 ≤ aktualny_stan_index a_po_cofnieciu ∧
  let h := stan_historia a_po_cofnieciu in
  let i := Z.to_nat (aktualny_stan_index a_po_cofnieciu) in
  let pelna := bool_decide (20 ≤ Z.of_nat (length h)) in
  stan_historia (zapisz_stan a_po_cofnieciu)
    = (if pelna then drop 1 h else h) ++ [biezacy_stan a_po_cofnieciu] ∧
  stan_historia (zapisz_stan a_po_cofnieciu)
    = (if pelna then drop 1 (take (S i) h) else take (S i) h)
        ++ drop (S i) h ++ [biezacy_stan a_po_cofnieciu] ∧
  aktualny_stan_index (zapisz_stan a_po_cofnieciu)
    = Z.of_nat (length (stan_historia (zapisz_stan a_po_cofnieciu))) - 1.
Proof.
  split.
  - vm_compute; by intros.
  - apply (zapisz_stan_zachowuje_ogon a_po_cofnieciu). vm_compute; by intros.
Defined.

(** C2, evaluated.  The product code is typed ("K-1"), the project is
    cleared, the code is typed again ("K-2") and the project is cleared
    again.  Before the second clearing the code field held "K-2".
    [cofnij] moves the cursor back by one and puts "K-1" into the field, the
    value recorded before the first clearing; [przywroc] then moves the
    cursor forward by one and puts "K-2" there, although the field held
    "xxx-xxxx-xxx" when [cofnij] was called. *)
Lemma cofnij_przywroc_po_dwoch_operacjach :
  kod_edit (dok a_dwa_razy) = "xxx-xxxx-xxx" ∧
  aktualny_stan_index a_dwa_razy = 2 ∧
  (s_kod <$> stan_historia a_dwa_razy) = ["xxx-xxxx-xxx"; "K-1"; "K-2"] ∧
  ∃ a5 a6,
    cofnij a_dwa_razy = Some a5 ∧
    aktualny_stan_index a5 = 1 ∧
    kod_edit (dok a5) = "K-1" ∧
    przywroc a5 = Some a6 ∧
    aktualny_stan_index a6 = 2 ∧
    kod_edit (dok a6) = "K-2".
Proof.
  split; [by vm_compute|]. split; [by vm_compute|]. split; [by vm_compute|].
  destruct (cofnij a_dwa_razy) as [a5|] eqn:H5; [|by vm_compute in H5].
  exists a5.
  vm_compute in H5. injection H5 as <-.
  destruct (przywroc _) as [a6|] eqn:H6; [|by vm_compute in H6].
  exists a6. 
  vm_compute in H6. injection H6 as <-.
  repeat split; by vm_compute.
Qed.

(** ** Deleting a step *)

(** The dictionary built by the re-indexing loop, key by key. *)
Lemma przesun_opisy_lookup (index : Z) (n : nat) (opisy : gmap Z krok) (i : Z) :
  przesun_opisy index n opisy !! i =
    if decide (0 ≤ i < Z.of_nat n)
    then (if decide (index ≤ i) then opisy !! (i + 1) else opisy !! i)
    else None.
Proof.
  unfold przesun_opisy. induction n as [|n IH].
  - simpl. rewrite lookup_empty. case_decide; [lia|done].
  - rewrite seq_S foldl_app /=.
    set (m := foldl _ ∅ (seq 0 n)) in *.
    destruct (decide (i = Z.of_nat n)) as [->|Hne].
    + rewrite (decide_True (P := 0 ≤ Z.of_nat n < Z.of_nat (S n))); [|lia].
      rewrite (decide_False (P := 0 ≤ Z.of_nat n < Z.of_nat n)) in IH; [|lia].
      destruct (decide (index ≤ Z.of_nat n)).
      * destruct (opisy !! (Z.of_nat n + 1)) as [v|]; [|done].
        by rewrite lookup_insert_eq.
      * destruct (opisy !! Z.of_nat n) as [v|]; [|done].
        by rewrite lookup_insert_eq.
    + assert (Hm : (if decide (index ≤ Z.of_nat n)
                    then match opisy !! (Z.of_nat n + 1) with
                         | Some v => <[Z.of_nat n := v]> m | None => m end
                    else match opisy !! Z.of_nat n with
                         | Some v => <[Z.of_nat n := v]> m | None => m end) !! i
                   = m !! i).
      { destruct (decide (index ≤ Z.of_nat n));
          [destruct (opisy !! (Z.of_nat n + 1)) | destruct (opisy !! Z.of_nat n)];
          try done; (rewrite lookup_insert_ne; [done|congruence]). }
      rewrite Hm IH.
      destruct (decide (0 ≤ i < Z.of_nat n)), (decide (0 ≤ i < Z.of_nat (S n)));
        try done; lia.
Qed.

Lemma zapisz_stan_zywe (a : app) :
  ilustracje (zapisz_stan a) = ilustracje a ∧
  opisy_krokow (zapisz_stan a) = opisy_krokow a ∧
  steps_list (zapisz_stan a) = steps_list a ∧
  dok (zapisz_stan a) = dok a ∧
  aktualny_wybrany_krok (zapisz_stan a) = aktualny_wybrany_krok a ∧
  opc (zapisz_stan a) = opc a.
Proof. unfold zapisz_stan. by case_decide. Qed.

Lemma usun_z_list_eq (k : Z) (a : app) :
  0 ≤ k < Z.of_nat (length (ilustracje a)) →
  ilustracje (usun_z_list k a) = delete (Z.to_nat k) (ilustracje a) ∧
  opisy_krokow (usun_z_list k a) =
    przesun_opisy k (length (ilustracje a) - 1) (delete k (opisy_krokow a)) ∧
  stan_historia (usun_z_list k a) = stan_historia a.
Proof.
  intros Hk. unfold usun_z_list. cbn [ilustracje set_steps_list].
  rewrite (decide_True (P := k < Z.of_nat (length (ilustracje a)))); [|lia].
  cbn. rewrite length_delete; [done|].
  apply lookup_lt_is_Some. lia.
Qed.

Lemma pokaz_po_usunieciu_eq (k : Z) (a : app) :
  ilustracje (pokaz_po_usunieciu k a) = ilustracje a ∧
  opisy_krokow (pokaz_po_usunieciu k a) = opisy_krokow a ∧
  stan_historia (pokaz_po_usunieciu k a) = stan_historia a.
Proof.
  unfold pokaz_po_usunieciu. cbv zeta.
  destruct (decide (0 < count (steps_list (odswiez_liste a)))%nat); [|done].
  unfold pokaz_podglad. cbv zeta. by case_decide.
Qed.

Lemma usun_ilustracje_eq (a : app) :
  let k := currentRow (steps_list a) in
  0 ≤ k < Z.of_nat (length (ilustracje a)) →
  ilustracje (usun_ilustracje a) = delete (Z.to_nat k) (ilustracje a) ∧
  opisy_krokow (usun_ilustracje a) =
    przesun_opisy k (length (ilustracje a) - 1) (delete k (opisy_krokow a)) ∧
  stan_historia (usun_ilustracje a) = stan_historia (zapisz_stan a).
Proof.
  intros k Hk. unfold usun_ilustracje. fold k. cbv zeta.
  rewrite decide_False; [|lia].
  destruct (zapisz_stan_zywe a) as (Hil & Hop & _).
  destruct (pokaz_po_usunieciu_eq k (usun_z_list k (zapisz_stan a))) as (-> & -> & ->).
  destruct (usun_z_list_eq k (zapisz_stan a)) as (-> & -> & ->); [by rewrite Hil|].
  by rewrite Hil Hop.
Qed.

(** C8.  Deleting the selected step [k] of [n] steps removes the [k]-th
    image path, so that [n - 1] remain; afterwards position [j] of the list
    and key [j] of the descriptions both hold what step [zrodlo k j] held
    before (step [j] before [k], step [j + 1] from [k] on).  Hence the
    description of step [k] is gone, the descriptions of the steps before
    [k] keep their keys, the description of every later step [i] moved to
    key [i - 1], and every key that is left is an index into the list. *)
Theorem usun_ilustracje_przenumerowuje (a : app) :
  let k := currentRow (steps_list a) in
  let n := Z.of_nat (length (ilustracje a)) in
  let a' := usun_ilustracje a in
  0 ≤ k < n →
  ilustracje a' = delete (Z.to_nat k) (ilustracje a) ∧
  Z.of_nat (length (ilustracje a')) = n - 1 ∧
  (∀ j, 0 ≤ j < n - 1 →
        py_index (ilustracje a') j = py_index (ilustracje a) (zrodlo k j) ∧
        opisy_krokow a' !! j = opisy_krokow a !! zrodlo k j) ∧
  (∀ j, zrodlo k j ≠ k) ∧
  (∀ i, 0 ≤ i < k → opisy_krokow a' !! i = opisy_krokow a !! i) ∧
  (∀ i, k < i < n → opisy_krokow a' !! (i - 1) = opisy_krokow a !! i) ∧
  (∀ i, is_Some (opisy_krokow a' !! i) → 0 ≤ i < Z.of_nat (length (ilustracje a'))).
Proof.
  intros k n a' Hk.
  destruct (usun_ilustracje_eq a Hk) as (Hil & Hop & _). fold k a' in Hil, Hop.
  assert (Hlen : Z.of_nat (length (ilustracje a')) = n - 1).
  { rewrite Hil length_delete; [unfold n; lia|].
    apply lookup_lt_is_Some. lia. }
  assert (Hlook : ∀ j, opisy_krokow a' !! j =
                       if decide (0 ≤ j < n - 1)
                       then opisy_krokow a !! zrodlo k j else None).
  { intros j. rewrite Hop przesun_opisy_lookup.
    replace (Z.of_nat (length (ilustracje a) - 1)) with (n - 1) by (unfold n; lia).
    destruct (decide (0 ≤ j < n - 1)); [|done].
    unfold zrodlo. destruct (decide (k ≤ j)); (rewrite lookup_delete_ne; [done|lia]). }
  split; [done|]. split; [done|]. split.
  { intros j Hj. split.
    - assert (Hz : 0 ≤ zrodlo k j) by (unfold zrodlo; case_decide; lia).
      unfold py_index.
      rewrite (decide_True (P := 0 ≤ j)); [|lia].
      rewrite (decide_True (P := 0 ≤ zrodlo k j)); [|done].
      rewrite Hil. unfold zrodlo. destruct (decide (k ≤ j)).
      + rewrite list_lookup_delete_ge; [|lia]. f_equal. lia.
      + rewrite list_lookup_delete_lt; [|lia]. done.
    - rewrite Hlook decide_True; [done|lia]. }
  split; [intros j; unfold zrodlo; case_decide; lia|].
  split.
  { intros i Hi. rewrite Hlook decide_True; [|lia].
    unfold zrodlo. rewrite decide_False; [done|lia]. }
  split.
  { intros i Hi. rewrite Hlook decide_True; [|lia].
    unfold zrodlo. rewrite decide_True; [|lia]. f_equal. lia. }
  intros i [v Hv]. rewrite Hlook in Hv. rewrite Hlen.
  by destruct (decide (0 ≤ i < n - 1)).
Qed.

Lemma usun_ilustracje_przenumerowuje_witness :
  let a := a_trzy in
  let k := currentRow (steps_list a) in
  let n := Z.of_nat (length (ilustracje a)) in
  let a' := usun_ilustracje a in
  0 ≤ k < n ∧
  ilustracje a' = delete (Z.to_nat k) (ilustracje a) ∧
  Z.of_nat (length (ilustracje a')) = n - 1 ∧
  (∀ j, 0 ≤ j < n - 1 →
        py_index (ilustracje a') j = py_index (ilustracje a) (zrodlo k j) ∧
        opisy_krokow a' !! j = opisy_krokow a !! zrodlo k j) ∧
  (∀ j, zrodlo k j ≠ k) ∧
  (∀ i, 0 ≤ i < k → opisy_krokow a' !! i = opisy_krokow a !! i) ∧
  (∀ i, k < i < n → opisy_krokow a' !! (i - 1) = opisy_krokow a !! i) ∧
  (∀ i, is_Some (opisy_krokow a' !! i) → 0 ≤ i < Z.of_nat (length (ilustracje a'))).
Proof.
  intros a k n a'.
  assert (Hk : 0 ≤ k < n) by (vm_compute; split; by intros).
  split; [exact Hk|].
  exact (usun_ilustracje_przenumerowuje a_trzy Hk).
Defined.

Example usun_ilustracje_a_trzy :
  ilustracje (usun_ilustracje a_trzy) = ["/home/ola/a.png"; "/home/ola/c.png"] ∧
  map_to_list (opisy_krokow (usun_ilustracje a_trzy))
    ≡ₚ [(0, Krok "Start" "Wlacz maszyne"); (1, Krok "Koniec" "Wylacz maszyne")] ∧
  aktualny_wybrany_krok (usun_ilustracje a_trzy) = Some 1.
Proof.
  split; [by vm_compute|]. split; [|by vm_compute].
  vm_compute. apply perm_swap || reflexivity.
Qed.

(** ** The worker thread *)

Section Watek.
Variable resize : nat → string → pliki → option wynik.

Local Abbreviation petla_r := (petla resize).
Local Abbreviation element_r := (element resize).

Lemma petla_snoc (total : Z) (paths : list string) (p : string) (f : pliki) :
  petla_r total (paths ++ [p]) f
    = run_krok resize total (petla_r total paths f) (length paths, p).
Proof.
  unfold petla. rewrite imap_app foldl_app /=. by rewrite Nat.add_0_r.
Qed.

Lemma petla_total (t1 t2 : Z) (paths : list string) (f : pliki) :
  processed_paths (petla_r t1 paths f) = processed_paths (petla_r t2 paths f) ∧
  p_pliki (petla_r t1 paths f) = p_pliki (petla_r t2 paths f) ∧
  p_konsola (petla_r t1 paths f) = p_konsola (petla_r t2 paths f).
Proof.
  induction paths as [|p paths IH] using rev_ind; [done|].
  rewrite !petla_snoc. destruct IH as (IH1 & IH2 & IH3).
  unfold run_krok. rewrite -IH1 -IH2 -IH3.
  by destruct (resize _ _ _).
Qed.

Lemma petla_spec (total : Z) (paths : list string) (f : pliki) :
  length (processed_paths (petla_r total paths f)) = length paths ∧
  p_sygnaly (petla_r total paths f)
    = imap (λ i p, Progress (Z.of_nat i + 1) total (basename p)) paths ∧
  ∀ i p, paths !! i = Some p →
         processed_paths (petla_r total paths f) !! i
           = Some (element_r i p (p_pliki (petla_r total (take i paths) f))).
Proof.
  induction paths as [|q paths IH] using rev_ind; [done|].
  destruct IH as (IHlen & IHsig & IHel).
  rewrite petla_snoc.
  assert (Hpp : processed_paths (run_krok resize total (petla_r total paths f) (length paths, q))
                = processed_paths (petla_r total paths f)
                    ++ [element_r (length paths) q (p_pliki (petla_r total paths f))]).
  { unfold run_krok, element. by destruct (resize _ _ _). }
  assert (Hsg : p_sygnaly (run_krok resize total (petla_r total paths f) (length paths, q))
                = p_sygnaly (petla_r total paths f)
                    ++ [Progress (Z.of_nat (length paths) + 1) total (basename q)]).
  { unfold run_krok. by destruct (resize _ _ _). }
  split; [|split].
  - rewrite Hpp !length_app IHlen. done.
  - rewrite Hsg IHsig imap_app /=. by rewrite Nat.add_0_r.
  - intros i p Hi. rewrite Hpp.
    destruct (decide (i < length paths)%nat) as [Hlt|Hge].
    + rewrite lookup_app_l; [|lia].
      rewrite lookup_app_l in Hi; [|done].
      rewrite take_app_le; [|lia]. by apply IHel.
    + rewrite lookup_app_r in Hi; [|lia].
      assert (i = length paths) as ->.
      { apply lookup_lt_Some in Hi. simpl in Hi. lia. }
      rewrite Nat.sub_diag /= in Hi. injection Hi as ->.
      rewrite lookup_app_r; [|lia].
      rewrite IHlen Nat.sub_diag /=.
      by rewrite take_app_length.
Qed.

Lemma run_z_spec (paths : list string) (f : pliki) :
  let r := run_z resize paths f in
  let n := Z.of_nat (length paths) in
  length (processed_paths r) = length paths ∧
  p_sygnaly r
    = imap (λ i p, Progress (Z.of_nat i + 1) n (basename p)) paths
        ++ [Finished (processed_paths r)] ∧
  ∀ i p, paths !! i = Some p →
         processed_paths r !! i
           = Some (element_r i p (p_pliki (run_z resize (take i paths) f))).
Proof.
  intros r n. unfold r, run_z. cbv zeta. fold n.
  destruct (petla_spec n paths f) as (Hlen & Hsig & Hel).
  cbn [processed_paths p_sygnaly p_pliki].
  split; [done|]. split; [by rewrite Hsig|].
  intros i p Hi. rewrite (Hel i p Hi).
  by destruct (petla_total n (Z.of_nat (length (take i paths))) (take i paths) f)
    as (_ & -> & _).
Qed.
End Watek.

(** C7.  For [n] input paths [run] emits [progress] once per path, with the
    counters 1 to [n] in this order, and then [finished] once, with a list
    of [n] paths whose [i]-th element is what [resize_image] returned for
    the [i]-th input path (called on the files as the earlier calls left
    them). *)
Theorem run_w_kolejnosci `{Biblioteki} (tmp : string) (zegar : nat → Z)
    (image_paths : list string) (f : pliki) :
  let r := run tmp zegar image_paths f in
  let n := Z.of_nat (length image_paths) in
  p_sygnaly r
    = imap (λ i p, Progress (Z.of_nat i + 1) n (basename p)) image_paths
        ++ [Finished (processed_paths r)] ∧
  length (processed_paths r) = length image_paths ∧
  ∀ i p, image_paths !! i = Some p →
         processed_paths r !! i
           = Some (zwrot (resize_image tmp (zegar i) p
                            (p_pliki (run tmp zegar (take i image_paths) f)))).
Proof.
  intros r n.
  destruct (run_z_spec (λ i path f, Some (resize_image tmp (zegar i) path f))
              image_paths f) as (Hlen & Hsig & Hel).
  split; [exact Hsig|]. split; [exact Hlen|].
  intros i p Hi. exact (Hel i p Hi).
Qed.

(** C6.  Whatever the resizing method does, the list handed to [finished]
    has one entry per input path: the input path itself where the method
    raised, the returned path where it returned.  And [resize_image] returns
    its input path, with the files untouched, whenever an exception is
    raised inside it. *)
Theorem nieudane_przetwarzanie `{Biblioteki}
    (resize : nat → string → pliki → option wynik)
    (image_paths : list string) (f : pliki) :
  let r := run_z resize image_paths f in
  let f_przed := λ i, p_pliki (run_z resize (take i image_paths) f) in
  length (processed_paths r) = length image_paths ∧
  (∀ i p, image_paths !! i = Some p → resize i p (f_przed i) = None →
          processed_paths r !! i = Some p) ∧
  (∀ i p w, image_paths !! i = Some p → resize i p (f_przed i) = Some w →
            processed_paths r !! i = Some (zwrot w)) ∧
  (∀ tmp teraz_ms input_path f0,
     resize_image_try tmp teraz_ms input_path f0 = None →
     resize_image tmp teraz_ms input_path f0
       = Wynik input_path f0 [BladResize input_path]).
Proof.
  intros r f_przed.
  destruct (run_z_spec resize image_paths f) as (Hlen & _ & Hel).
  split; [exact Hlen|]. split; [|split].
  - intros i p Hi Hr. rewrite (Hel i p Hi). unfold element.
    unfold f_przed in Hr. by rewrite Hr.
  - intros i p w Hi Hr. rewrite (Hel i p Hi). unfold element.
    unfold f_przed in Hr. by rewrite Hr.
  - intros tmp t p f0 Hnone. unfold resize_image. by rewrite Hnone.
Qed.

Lemma nieudane_przetwarzanie_witness :
  let paths := ["/home/ola/a.png"; "/home/ola/zly.png"; "/home/ola/c.png"] in
  let r := run_z resize_zawodny paths pliki_probne in
  (paths !! 1%nat = Some "/home/ola/zly.png" ∧
   resize_zawodny 1 "/home/ola/zly.png"
     (p_pliki (run_z resize_zawodny (take 1 paths) pliki_probne)) = None) ∧
  processed_paths r !! 1%nat = Some "/home/ola/zly.png" ∧
  length (processed_paths r) = 3%nat ∧
  (@resize_image_try bib_probna "/tmp/t" 1714981000123 "/home/ola/brak.png" pliki_probne = None ∧
   @resize_image bib_probna "/tmp/t" 1714981000123 "/home/ola/brak.png" pliki_probne
     = Wynik "/home/ola/brak.png" pliki_probne [BladResize "/home/ola/brak.png"]).
Proof.
  intros paths r.
  destruct (@nieudane_przetwarzanie bib_probna resize_zawodny paths pliki_probne)
    as (Hlen & Hnone & _ & Hres).
  assert (H1 : paths !! 1%nat = Some "/home/ola/zly.png") by reflexivity.
  assert (H2 : resize_zawodny 1 "/home/ola/zly.png"
     (p_pliki (run_z resize_zawodny (take 1 paths) pliki_probne)) = None)
    by reflexivity.
  assert (H3 : @resize_image_try bib_probna "/tmp/t" 1714981000123
                 "/home/ola/brak.png" pliki_probne = None) by (by vm_compute).
  split; [by split|]. split; [exact (Hnone 1%nat _ H1 H2)|].
  split; [exact Hlen|]. split; [exact H3|].
  exact (Hres "/tmp/t" 1714981000123 "/home/ola/brak.png" pliki_probne H3).
Defined.

(** ** Image resizing *)

(** What [resize_image] does, case by case.  When the input file has at
    most 800 * 1024 bytes, it returns the input path and writes nothing.  When
    it has more, the new size is [int(width * ratio)] by
    [int(height * ratio)] with [ratio = min(0.8, 800 * 1024 / file_size)];
    if both sides are at least 1 and resampling, encoding and writing
    succeed, the encoded image is written to the new temporary path and that
    path is returned; if a side is below 1 the input path is returned and
    nothing is written.  The same holds whenever an exception is raised. *)
Theorem resize_image_jeden_przebieg `{Biblioteki} (tmp : string) (teraz_ms : Z)
    (input_path : string) (f : pliki) (b : list byte) :
  read_bytes f input_path = Some b →
  let file_size := Z.of_nat (length b) in
  let r := resize_image tmp teraz_ms input_path f in
  (file_size ≤ 800 * 1024 → zwrot r = input_path ∧ w_pliki r = f) ∧
  (800 * 1024 < file_size →
   ∀ img0 img new_width new_height px out,
     Image_open b = Some img0 →
     po_konwersji img0 = Some img →
     skaluj (width img) (ratio file_size) = Some new_width →
     skaluj (height img) (ratio file_size) = Some new_height →
     (1 ≤ new_width ∧ 1 ≤ new_height →
      resample img new_width new_height = Some px →
      save_JPEG (Obraz (mode img) new_width new_height px) = Some out →
      f !! output_path tmp teraz_ms input_path ≠ Some Katalog →
      zwrot r = output_path tmp teraz_ms input_path ∧
      w_pliki r = <[output_path tmp teraz_ms input_path := Plik out]> f) ∧
     (new_width < 1 ∨ new_height < 1 → zwrot r = input_path ∧ w_pliki r = f)) ∧
  (resize_image_try tmp teraz_ms input_path f = None →
   zwrot r = input_path ∧ w_pliki r = f).
Proof.
  intros Hb file_size r. unfold r, resize_image, resize_image_try.
  rewrite Hb /=. fold file_size.
  split; [|split].
  - intros Hsmall.
    destruct (Image_open b) as [img0|]; [|done]. simpl.
    destruct (po_konwersji img0) as [img|]; [|done]. simpl.
    by rewrite decide_True.
  - intros Hbig img0 img nw nh px out H0 Hc Hw Hh.
    rewrite H0 /=.
    rewrite Hc /=. rewrite decide_False; [|lia].
    rewrite Hw /= Hh /=. unfold Image_resize. split.
    + intros Hdim Hpx Hout Hdir. rewrite decide_False; [|lia].
      rewrite Hpx /= Hout /=.
      unfold write_bytes.
      destruct (f !! output_path tmp teraz_ms input_path) as [[| |]|]; done.
    + intros Hdim. by rewrite decide_True.
  - intros Hnone. by rewrite Hnone.
Qed.

Lemma plik_waski_length : Z.of_nat (length plik_waski) = 900002.
Proof. unfold plik_waski. cbn [length]. rewrite length_replicate. lia. Qed.

Lemma plik_duzy_length : Z.of_nat (length plik_duzy) = 900002.
Proof. unfold plik_duzy. cbn [length]. rewrite length_replicate. lia. Qed.

Lemma resize_image_try_waski :
  @resize_image_try bib_probna "/tmp/doc_generator_k3x" 1714981000123
     "/home/ola/waski.bmp" pliki_waskie = None.
Proof. by vm_compute. Qed.

(** The fallback of [resize_image]: an image of 900002 bytes, one pixel
    wide and 200 pixels high.  The ratio is 0.8, the new width [int(1 * 0.8)] is 0,
    [Image.resize] raises, and [resize_image] returns the input file, which
    exceeds the budget. *)
Lemma resize_image_waski_obraz :
  ¬ @budzet_dotrzymany bib_probna "/tmp/doc_generator_k3x" 1714981000123
      "/home/ola/waski.bmp" pliki_waskie.
Proof.
  intros Hb.
  assert (Hr : @read_bytes bib_probna pliki_waskie "/home/ola/waski.bmp"
               = Some plik_waski).
  { unfold read_bytes, pliki_waskie. by rewrite lookup_singleton_eq. }
  destruct (Hb plik_waski Hr) as (b' & Hb' & Hle).
  { rewrite plik_waski_length. lia. }
  unfold resize_image in Hb'. rewrite resize_image_try_waski /= in Hb'.
  rewrite Hr in Hb'. injection Hb' as <-.
  rewrite plik_waski_length in Hle. lia.
Qed.

Example ratio_900002 : ratio 900002 = f0_8 ∧ skaluj 100 (ratio 900002) = Some 80
  ∧ skaluj 1 (ratio 900002) = Some 0
  ∧ skaluj 4000 (ratio 3276800) = Some 1000.
Proof. repeat split; by vm_compute. Qed.

Lemma resize_image_jeden_przebieg_witness :
  let tmp := "/tmp/doc_generator_k3x" in
  let teraz_ms := 1714981000123 in
  let p := "/home/ola/duzy.png" in
  let r := @resize_image bib_probna tmp teraz_ms p pliki_probne in
  let img := Obraz "RGB" 100 100 (replicate (Z.to_nat 900000) x7f) in
  let px := take (Z.to_nat (80 * 80)) (piksele img) in
  @read_bytes bib_probna pliki_probne p = Some plik_duzy ∧
  800 * 1024 < Z.of_nat (length plik_duzy) ∧
  @Image_open bib_probna plik_duzy = Some img ∧
  @po_konwersji bib_probna img = Some img ∧
  skaluj (width img) (ratio (Z.of_nat (length plik_duzy))) = Some 80 ∧
  skaluj (height img) (ratio (Z.of_nat (length plik_duzy))) = Some 80 ∧
  zwrot r = @output_path bib_probna tmp teraz_ms p ∧
  w_pliki r = <[@output_path bib_probna tmp teraz_ms p := Plik px]> pliki_probne.
Proof.
  intros tmp teraz_ms p r img px.
  assert (Hr : @read_bytes bib_probna pliki_probne p = Some plik_duzy).
  { unfold read_bytes, pliki_probne, p.
    rewrite lookup_insert_ne; [|done]. by rewrite lookup_insert_eq. }
  assert (Hbig : 800 * 1024 < Z.of_nat (length plik_duzy)).
  { rewrite plik_duzy_length. lia. }
  assert (Ho : @Image_open bib_probna plik_duzy = Some img) by (reflexivity).
  assert (Hc : @po_konwersji bib_probna img = Some img) by (reflexivity).
  assert (Hw : skaluj (width img) (ratio (Z.of_nat (length plik_duzy))) = Some 80).
  { rewrite plik_duzy_length. by vm_compute. }
  assert (Hh : skaluj (height img) (ratio (Z.of_nat (length plik_duzy))) = Some 80).
  { rewrite plik_duzy_length. by vm_compute. }
  destruct (@resize_image_jeden_przebieg bib_probna tmp teraz_ms p pliki_probne
              plik_duzy Hr) as (_ & Hduzy & _).
  destruct (Hduzy Hbig img img 80 80 px px Ho Hc Hw Hh) as (Hok & _).
  destruct Hok as [Hz Hf].
  - lia.
  - reflexivity.
  - reflexivity.
  - by vm_compute.
  - exact (conj Hr (conj Hbig (conj Ho (conj Hc (conj Hw (conj Hh (conj Hz Hf))))))).
Defined.

(** ** Base64 round trip *)

(** A property of all numbers below a bound, checked by running through
    them. *)
Lemma forall_N_lt (P : N → bool) (n : nat) :
  forallb P (N.of_nat <$> seq 0 n) = true →
  ∀ k, (k < N.of_nat n)%N → P k = true.
Proof.
  intros Hall k Hk. rewrite forallb_forall in Hall.
  apply Hall. apply list_elem_of_In.
  apply (list_elem_of_fmap_2' N.of_nat _ (N.to_nat k)); [|lia].
  apply elem_of_seq. lia.
Qed.

Lemma forall_N_lt2 (P : N → N → bool) (n m : nat) :
  forallb (λ x, forallb (P x) (N.of_nat <$> seq 0 m)) (N.of_nat <$> seq 0 n) = true →
  ∀ x y, (x < N.of_nat n)%N → (y < N.of_nat m)%N → P x y = true.
Proof.
  intros Hall x y Hx Hy.
  apply (forall_N_lt (P x) m); [|done].
  by apply (forall_N_lt (λ x, forallb (P x) (N.of_nat <$> seq 0 m)) n).
Qed.

Lemma to_N_lt (b : byte) : (Byte.to_N b < N.of_nat 256)%N.
Proof. pose proof (Byte.to_N_bounded b). lia. Qed.

Lemma bajt_to_N (n : N) (b : byte) : (n mod 256 = Byte.to_N b)%N → bajt n = b.
Proof. intros Hn. unfold bajt. by rewrite Hn Byte.of_to_N. Qed.

(** The alphabet: decoding a character gives its group back; no character
    is the padding character; all are ASCII. *)
Lemma alfabet_ok (s : N) :
  (s < 64)%N →
  b2a s ≠ "="%char ∧ a2b (b2a s) = Some s ∧ (N_of_ascii (b2a s) < 128)%N.
Proof.
  intros Hs.
  pose proof (forall_N_lt
    (λ s, bool_decide (b2a s ≠ "="%char ∧ a2b (b2a s) = Some s
                       ∧ (N_of_ascii (b2a s) < 128)%N)) 64) as Hall.
  eapply bool_decide_eq_true_1. apply Hall; [by vm_compute|]. lia.
Qed.

Lemma grupy_lt (x y : N) :
  (x < 256)%N → (y < 256)%N →
  (grupa0 x < 64 ∧ grupa1 x y < 64 ∧ grupa2 x y < 64 ∧ grupa3 x < 64)%N.
Proof.
  intros Hx Hy.
  pose proof (forall_N_lt2
    (λ x y, bool_decide (grupa0 x < 64 ∧ grupa1 x y < 64
                         ∧ grupa2 x y < 64 ∧ grupa3 x < 64)%N) 256 256) as Hall.
  eapply bool_decide_eq_true_1. apply Hall; [by vm_compute|lia|lia].
Qed.

(** The three bytes come back from the four groups. *)
Lemma bajty_z_grup (x y : N) :
  (x < 256)%N → (y < 256)%N →
  (N.lor (N.shiftl (grupa0 x) 2) (N.shiftr (grupa1 x y) 4) mod 256 = x ∧
   N.land (grupa1 x y) 15 = N.shiftr y 4 ∧
   N.lor (N.shiftl (N.shiftr x 4) 4) (N.shiftr (grupa2 x y) 2) mod 256 = x ∧
   N.land (grupa2 x y) 3 = N.shiftr y 6 ∧
   N.lor (N.shiftl (N.shiftr x 6) 6) (grupa3 x) mod 256 = x)%N.
Proof.
  intros Hx Hy.
  pose proof (forall_N_lt2
    (λ x y, bool_decide
       (N.lor (N.shiftl (grupa0 x) 2) (N.shiftr (grupa1 x y) 4) mod 256 = x ∧
        N.land (grupa1 x y) 15 = N.shiftr y 4 ∧
        N.lor (N.shiftl (N.shiftr x 4) 4) (N.shiftr (grupa2 x y) 2) mod 256 = x ∧
        N.land (grupa2 x y) 3 = N.shiftr y 6 ∧
        N.lor (N.shiftl (N.shiftr x 6) 6) (grupa3 x) mod 256 = x)%N) 256 256) as Hall.
  eapply bool_decide_eq_true_1. apply Hall; [by vm_compute|lia|lia].
Qed.

(** One step of the decoder on a character of the alphabet. *)
Lemma a2b_base64_znak (g : N) (s : string) (quad_pos : nat) (leftchar : N)
    (pads : nat) (out : list byte) :
  (g < 64)%N →
  a2b_base64 (String (b2a g) s) quad_pos leftchar pads out =
    match quad_pos with
    | 0%nat => a2b_base64 s 1 g 0 out
    | 1%nat =>
        a2b_base64 s 2 (N.land g 15) 0
          (out ++ [bajt (N.lor (N.shiftl leftchar 2) (N.shiftr g 4))])
    | 2%nat =>
        a2b_base64 s 3 (N.land g 3) 0
          (out ++ [bajt (N.lor (N.shiftl leftchar 4) (N.shiftr g 2))])
    | _ => a2b_base64 s 0 0 0 (out ++ [bajt (N.lor (N.shiftl leftchar 6) g)])
    end.
Proof.
  intros Hg. destruct (alfabet_ok g Hg) as (Hne & Ha & _).
  cbn [a2b_base64]. rewrite decide_False; [|done]. by rewrite Ha.
Qed.

(** The first two characters of a group give the first byte. *)
Lemma a2b_base64_dwa (x y : byte) (s : string) (leftchar : N) (pads : nat)
    (out : list byte) :
  a2b_base64 (String (b2a (grupa0 (Byte.to_N x)))
                (String (b2a (grupa1 (Byte.to_N x) (Byte.to_N y))) s))
             0 leftchar pads out
  = a2b_base64 s 2 (N.shiftr (Byte.to_N y) 4) 0 (out ++ [x]).
Proof.
  pose proof (to_N_lt x) as Hx. pose proof (to_N_lt y) as Hy.
  destruct (grupy_lt (Byte.to_N x) (Byte.to_N y)) as (H0 & H1 & _); [lia..|].
  destruct (bajty_z_grup (Byte.to_N x) (Byte.to_N y)) as (B0 & L1 & _); [lia..|].
  rewrite a2b_base64_znak; [|done]. rewrite a2b_base64_znak; [|done].
  by rewrite L1 (bajt_to_N _ x B0).
Qed.

(** The third character gives the second byte. *)
Lemma a2b_base64_trzeci (y z : byte) (s : string) (out : list byte) :
  a2b_base64 (String (b2a (grupa2 (Byte.to_N y) (Byte.to_N z))) s)
             2 (N.shiftr (Byte.to_N y) 4) 0 out
  = a2b_base64 s 3 (N.shiftr (Byte.to_N z) 6) 0 (out ++ [y]).
Proof.
  pose proof (to_N_lt y) as Hy. pose proof (to_N_lt z) as Hz.
  destruct (grupy_lt (Byte.to_N y) (Byte.to_N z)) as (_ & _ & H2 & _); [lia..|].
  destruct (bajty_z_grup (Byte.to_N y) (Byte.to_N z)) as (_ & _ & B1 & L2 & _); [lia..|].
  rewrite a2b_base64_znak; [|done].
  by rewrite L2 (bajt_to_N _ y B1).
Qed.

(** The fourth character gives the third byte. *)
Lemma a2b_base64_czwarty (z : byte) (s : string) (out : list byte) :
  a2b_base64 (String (b2a (grupa3 (Byte.to_N z))) s)
             3 (N.shiftr (Byte.to_N z) 6) 0 out
  = a2b_base64 s 0 0 0 (out ++ [z]).
Proof.
  pose proof (to_N_lt z) as Hz.
  destruct (grupy_lt (Byte.to_N z) 0) as (_ & _ & _ & H3); [lia..|].
  destruct (bajty_z_grup (Byte.to_N z) 0) as (_ & _ & _ & _ & B2); [lia..|].
  rewrite a2b_base64_znak; [|done].
  by rewrite (bajt_to_N _ z B2).
Qed.

(** Induction on a list of bytes, three at a time. *)
Lemma list_ind3 {A} (P : list A → Prop) :
  P [] → (∀ x, P [x]) → (∀ x y, P [x; y]) →
  (∀ x y z l, P l → P (x :: y :: z :: l)) →
  ∀ l, P l.
Proof.
  intros H0 H1 H2 H3.
  assert (Hall : ∀ l, P l ∧ (∀ x, P (x :: l)) ∧ (∀ x y, P (x :: y :: l))).
  { induction l as [|a l (IH0 & IH1 & IH2)]; [by auto|].
    split; [done|]. split; [done|]. intros x y. by apply H3. }
  intros l. apply Hall.
Qed.

Lemma a2b_base64_b64encode (b out : list byte) :
  a2b_base64 (b64encode b) 0 0 0 out = Some (out ++ b).
Proof.
  revert out. induction b as [|x|x y|x y z b IH] using list_ind3; intros out.
  - by rewrite app_nil_r.
  - cbn [b64encode]. by rewrite (a2b_base64_dwa x x00).
  - cbn [b64encode]. rewrite a2b_base64_dwa (a2b_base64_trzeci y x00).
    cbn. by rewrite -app_assoc.
  - cbn [b64encode].
    rewrite a2b_base64_dwa a2b_base64_trzeci a2b_base64_czwarty IH.
    by rewrite -!app_assoc.
Qed.

Lemma czy_ascii_b64encode (b : list byte) : czy_ascii (b64encode b) = true.
Proof.
  assert (Hg : ∀ g, (g < 64)%N → bool_decide (N_of_ascii (b2a g) < 128)%N = true).
  { intros g Hg. apply bool_decide_eq_true. by apply alfabet_ok. }
  induction b as [|x|x y|x y z b IH] using list_ind3; [done|..];
    pose proof (to_N_lt x) as Hx.
  - destruct (grupy_lt (Byte.to_N x) 0) as (H0 & H1 & _); [lia..|].
    cbn [b64encode czy_ascii]. by rewrite !Hg.
  - pose proof (to_N_lt y) as Hy.
    destruct (grupy_lt (Byte.to_N x) (Byte.to_N y)) as (H0 & H1 & _); [lia..|].
    destruct (grupy_lt (Byte.to_N y) 0) as (_ & _ & H2 & _); [lia..|].
    cbn [b64encode czy_ascii]. by rewrite !Hg.
  - pose proof (to_N_lt y) as Hy. pose proof (to_N_lt z) as Hz.
    destruct (grupy_lt (Byte.to_N x) (Byte.to_N y)) as (H0 & H1 & _); [lia..|].
    destruct (grupy_lt (Byte.to_N y) (Byte.to_N z)) as (_ & _ & H2 & _); [lia..|].
    destruct (grupy_lt (Byte.to_N z) 0) as (_ & _ & _ & H3); [lia..|].
    cbn [b64encode czy_ascii]. by rewrite !Hg // IH.
Qed.

(** Decoding what was encoded gives the bytes back. *)
Lemma b64decode_b64encode (b : list byte) : b64decode (b64encode b) = Some b.
Proof.
  unfold b64decode. by rewrite czy_ascii_b64encode a2b_base64_b64encode.
Qed.

(** ** Integers as text *)

Lemma cyfra_pretty_N_char (d : N) :
  (d < 10)%N → cyfra (pretty_N_char d) = Some (Z.of_N d).
Proof.
  intros Hd.
  assert (d = 0 ∨ d = 1 ∨ d = 2 ∨ d = 3 ∨ d = 4 ∨ d = 5 ∨ d = 6 ∨ d = 7
          ∨ d = 8 ∨ d = 9)%N as Hcases by lia.
  repeat (destruct Hcases as [->|Hcases]; [reflexivity|]). by subst.
Qed.

(** The digits of [x] in front of [s] read as [x] appended to what was
    read before. *)
Lemma int_cyfry_pretty_N_go (x : N) :
  ∃ m, ∀ s acc,
    int_cyfry (pretty_N_go x s) acc = int_cyfry s (acc * m + Z.of_N x).
Proof.
  induction (N.lt_wf_0 x) as [x _ IH].
  destruct (decide (x = 0)%N) as [->|Hx].
  - exists 1. intros s acc. rewrite pretty_N_go_0. f_equal. lia.
  - destruct (IH (x `div` 10)%N) as [m Hm].
    { apply N.div_lt; lia. }
    exists (10 * m). intros s acc.
    rewrite pretty_N_go_step; [|lia]. rewrite Hm.
    cbn [int_cyfry]. rewrite cyfra_pretty_N_char; [|apply N.mod_lt; lia].
    simpl. f_equal.
    pose proof (N.div_mod x 10). lia.
Qed.

(** A positive number is printed with a digit in front. *)
Lemma pretty_N_go_cyfra (x : N) (s : string) :
  (0 < x)%N →
  ∃ c s', pretty_N_go x s = String c s' ∧ is_Some (cyfra c).
Proof.
  revert s. induction (N.lt_wf_0 x) as [x _ IH]. intros s Hx.
  rewrite pretty_N_go_step; [|done].
  destruct (decide (x `div` 10 = 0)%N) as [->|Hd].
  - rewrite pretty_N_go_0. eexists _, _. split; [done|].
    rewrite cyfra_pretty_N_char; [done|apply N.mod_lt; lia].
  - apply IH; [by apply N.div_lt|by apply N.neq_0_lt_0].
Qed.

Lemma int_str_cyfra (c : ascii) (s : string) :
  is_Some (cyfra c) → int_str (String c s) = int_cyfry (String c s) 0.
Proof.
  intros [d Hd].
  destruct c as [[] [] [] [] [] [] [] []]; first [done | by vm_compute in Hd].
Qed.

(** [int(str(z))] is [z]. *)
Lemma int_str_py_str (z : Z) : int_str (py_str z) = Some z.
Proof.
  unfold py_str, pretty, pretty_Z.
  assert (Hpos : ∀ p, ∃ c s, pretty (Npos p) = String c s ∧ is_Some (cyfra c)
                      ∧ int_cyfry (String c s) 0 = Some (Z.pos p)).
  { intros p.
    assert (He : pretty (N.pos p) = pretty_N_go (N.pos p) "").
    { unfold pretty, pretty_N. by destruct (decide (N.pos p = 0%N)). }
    rewrite He.
    destruct (pretty_N_go_cyfra (Npos p) "") as (c & s & Hs & Hc); [lia|].
    exists c, s. split; [done|]. split; [done|].
    destruct (int_cyfry_pretty_N_go (Npos p)) as [m Hm].
    rewrite -Hs Hm. simpl. f_equal. }
  destruct z as [|p|p]; [done|..];
    destruct (Hpos p) as (c & s & Hs & Hc & Hv); unfold pretty, pretty_positive.
  - rewrite Hs int_str_cyfra; [|done]. by rewrite Hv.
  - rewrite Hs.
    change (int_str ("-" +:+ String c s))
      with (if decide (String c s = "") then None
            else Z.opp <$> int_cyfry (String c s) 0).
    destruct (decide (String c s = "")) as [|_]; [done|]. by rewrite Hv.
Qed.

(** ** Paths of loaded images *)

Lemma same_cyfry_pretty_N_go (x : N) (s : string) :
  same_cyfry s → same_cyfry (pretty_N_go x s).
Proof.
  revert s. induction (N.lt_wf_0 x) as [x _ IH]. intros s Hs.
  destruct (decide (x = 0)%N) as [->|Hx]; [by rewrite pretty_N_go_0|].
  rewrite pretty_N_go_step; [|by apply N.neq_0_lt_0].
  apply IH; [apply N.div_lt; [by apply N.neq_0_lt_0|done]|].
  split; [|done].
  rewrite cyfra_pretty_N_char; [done|]. by apply N.mod_lt.
Qed.

Lemma same_cyfry_py_str (i : nat) : same_cyfry (py_str (Z.of_nat i)).
Proof.
  unfold py_str, pretty, pretty_Z.
  destruct (Z.of_nat i) as [|p|p] eqn:Hi; [|clear Hi|lia].
  { vm_compute. split; [by eexists|done]. }
  unfold pretty, pretty_positive, pretty, pretty_N.
  destruct (decide (N.pos p = 0%N)); [done|].
  by apply same_cyfry_pretty_N_go.
Qed.

(** Two digit strings followed by an underscore and anything agree when
    the whole strings agree. *)
Lemma same_cyfry_podkreslenie (d1 d2 a b : string) :
  same_cyfry d1 → same_cyfry d2 →
  d1 +:+ "_" +:+ a = d2 +:+ "_" +:+ b → d1 = d2.
Proof.
  revert d2. induction d1 as [|c d1 IH]; intros [|c' d2] H1 H2 Heq; [done|..].
  - simpl in Heq. injection Heq as <- _. destruct H2 as [[d Hd] _].
    by vm_compute in Hd.
  - simpl in Heq. injection Heq as -> _. destruct H1 as [[d Hd] _].
    by vm_compute in Hd.
  - simpl in Heq. injection Heq as -> Heq. f_equal.
    destruct H1, H2. by apply IH.
Qed.

Lemma append_assoc (a b c : string) : (a +:+ b) +:+ c = a +:+ b +:+ c.
Proof.
  induction a as [|x a IH]; [done|].
  change (String x ((a +:+ b) +:+ c) = String x (a +:+ b +:+ c)).
  by rewrite IH.
Qed.

(** [join] with a relative second component is the second component behind
    a prefix that the first component fixes. *)
Lemma join_wzgledna (a : string) (c : ascii) (b : string) :
  c ≠ "/"%char →
  ∃ pre, ∀ b', join a (String c b') = pre +:+ String c b'.
Proof.
  intros Hc.
  exists (if decide (a = "") then ""
          else if ends_with_slash a then a else a +:+ "/").
  intros b'. unfold join.
  assert (Hj : (match String c b' with
                | String "/" _ => String c b'
                | _ => if decide (a = "") then String c b'
                       else if ends_with_slash a then a +:+ String c b'
                       else a +:+ "/" +:+ String c b'
                end) = (if decide (a = "") then String c b'
                        else if ends_with_slash a then a +:+ String c b'
                        else a +:+ "/" +:+ String c b')).
  { destruct c as [[] [] [] [] [] [] [] []]; done. }
  rewrite Hj. destruct (decide (a = "")); [done|].
  destruct (ends_with_slash a); [done|].
  symmetry. apply append_assoc.
Qed.

(** Distinct indices give distinct paths, whatever the file names. *)
Lemma sciezka_wczytana_inj (tmp : string) (i j : nat) (n1 n2 : string) :
  sciezka_wczytana tmp i n1 = sciezka_wczytana tmp j n2 → i = j.
Proof.
  unfold sciezka_wczytana. intros Heq.
  destruct (join_wzgledna tmp "l" "" ltac:(done)) as [pre Hpre].
  change ("loaded_" +:+ py_str (Z.of_nat i) +:+ "_" +:+ n1)
    with (String "l" ("oaded_" +:+ py_str (Z.of_nat i) +:+ "_" +:+ n1)) in Heq.
  change ("loaded_" +:+ py_str (Z.of_nat j) +:+ "_" +:+ n2)
    with (String "l" ("oaded_" +:+ py_str (Z.of_nat j) +:+ "_" +:+ n2)) in Heq.
  rewrite !Hpre in Heq.
  apply (inj (String.app pre)) in Heq.
  change (String "l" ("oaded_" +:+ py_str (Z.of_nat i) +:+ "_" +:+ n1))
    with ("loaded_" +:+ (py_str (Z.of_nat i) +:+ "_" +:+ n1)) in Heq.
  change (String "l" ("oaded_" +:+ py_str (Z.of_nat j) +:+ "_" +:+ n2))
    with ("loaded_" +:+ (py_str (Z.of_nat j) +:+ "_" +:+ n2)) in Heq.
  apply (inj (String.app "loaded_")) in Heq.
  apply same_cyfry_podkreslenie in Heq; [|apply same_cyfry_py_str..].
  apply (inj pretty) in Heq. lia.
Qed.

(** ** The saved document *)

Lemma py_str_inj_nat (i j : nat) : py_str (Z.of_nat i) = py_str (Z.of_nat j) → i = j.
Proof. intros Heq. apply (inj pretty) in Heq. lia. Qed.

Section Obrazy.
Context `{Biblioteki}.
Variable f : pliki.

Local Abbreviation wpisy_f := (wpisy f).

Lemma wpisy_cons (k : nat) (p : string) (il : list string) :
  wpisy_f k (p :: il) =
    match read_bytes f p with
    | Some b => (py_str (Z.of_nat k), obraz_json p b) :: wpisy_f (S k) il
    | None => wpisy_f (S k) il
    end.
Proof.
  unfold wpisy. cbn [imap omap list_omap].
  rewrite Nat.add_0_r.
  assert (Hext : imap ((λ j p0, b ← read_bytes f p0;
                        Some (py_str (Z.of_nat (k + j)), obraz_json p0 b)) ∘ S) il
                 = imap (λ j p0, b ← read_bytes f p0;
                        Some (py_str (Z.of_nat (S k + j)), obraz_json p0 b)) il).
  { apply imap_ext. intros j p0 _. simpl. by rewrite Nat.add_succ_r. }
  rewrite Hext. by destruct (read_bytes f p).
Qed.

Lemma jget_wpisy_mniejszy (k q : nat) (il : list string) :
  (q < k)%nat → jget (py_str (Z.of_nat q)) (wpisy_f k il) = None.
Proof.
  revert k. induction il as [|p il IH]; intros k Hq; [done|].
  rewrite wpisy_cons. destruct (read_bytes f p).
  - cbn [jget]. rewrite decide_False.
    + apply IH. lia.
    + intros Heq%py_str_inj_nat. lia.
  - apply IH. lia.
Qed.

Lemma jget_wpisy (k i : nat) (il : list string) :
  jget (py_str (Z.of_nat (k + i))) (wpisy_f k il)
    = (p ← il !! i; b ← read_bytes f p; Some (obraz_json p b)).
Proof.
  revert k i. induction il as [|p il IH]; intros k i; [done|].
  rewrite wpisy_cons. destruct i as [|i].
  - rewrite Nat.add_0_r. change ((p :: il) !! 0%nat) with (Some p).
    cbn [mbind option_bind]. destruct (read_bytes f p) as [b|].
    + cbn [jget mbind option_bind]. by rewrite decide_True.
    + apply jget_wpisy_mniejszy. lia.
  - replace (k + S i)%nat with (S k + i)%nat by lia.
    change ((p :: il) !! S i) with (il !! i).
    destruct (read_bytes f p) as [b|].
    + cbn [jget]. rewrite decide_False; [apply IH|].
      intros Heq%py_str_inj_nat. lia.
    + apply IH.
Qed.

(** The entry of the [i]-th image is there exactly when the image can be
    read. *)
Lemma jget_obrazy_base64 (il : list string) (i : nat) :
  jget (py_str (Z.of_nat i)) (obrazy_base64 f il)
    = (p ← il !! i; b ← read_bytes f p; Some (obraz_json p b)).
Proof. apply (jget_wpisy 0 i il). Qed.

Lemma length_wpisy (k : nat) (il : list string) :
  (∀ p, p ∈ il → is_Some (read_bytes f p)) →
  length (wpisy_f k il) = length il.
Proof.
  revert k. induction il as [|p il IH]; intros k Hall; [done|].
  rewrite wpisy_cons. destruct (Hall p) as [b ->]; [by left|].
  simpl. f_equal. apply IH. intros q Hq. apply Hall. by right.
Qed.

Lemma length_obrazy_base64 (il : list string) :
  (∀ p, p ∈ il → is_Some (read_bytes f p)) →
  length (obrazy_base64 f il) = length il.
Proof. apply (length_wpisy 0). Qed.

End Obrazy.

(** ** Loading the images *)

Lemma dla_kazdego_snoc {A} (g : A → M ()) (l : list A) (x : A) (s s' : app * pliki) :
  dla_kazdego g l s = (s', Some ()) →
  dla_kazdego g (l ++ [x]) s = g x s'.
Proof.
  revert s. induction l as [|y l IH]; intros s Hs.
  - simpl in Hs. injection Hs as ->. simpl.
    unfold mbind, M_bind. by destruct (g x s') as [s'' [[]|]].
  - simpl in *. unfold mbind, M_bind in *.
    destruct (g y s) as [s1 [[]|]]; [|done]. by apply IH.
Qed.

Section Wczytywanie.
Context `{Biblioteki}.
Variables (f f1 : pliki) (il : list string) (a0 : app).

Local Abbreviation obrazy := (JObj (obrazy_base64 f il)).
Local Abbreviation sciezka_i := (λ i p, sciezka_wczytana (temp_dir a0) i (basename p)).

Hypothesis czytelne : ∀ p, p ∈ il → is_Some (read_bytes f p).
Hypothesis zapisywalne :
  ∀ i p, il !! i = Some p → f1 !! sciezka_i i p ≠ Some Katalog.

(** One pass of the loop on the entry of a readable image. *)
Lemma wczytaj_obraz_ok (i : nat) (p : string) (b : list byte) (a : app) (fs : pliki) :
  il !! i = Some p → read_bytes f p = Some b →
  temp_dir a = temp_dir a0 →
  fs !! sciezka_i i p ≠ Some Katalog →
  wczytaj_obraz obrazy i (a, fs)
    = (set_ilustracje (ilustracje a ++ [sciezka_i i p]) a,
       <[sciezka_i i p := Plik b]> fs, Some ()).
Proof.
  intros Hi Hb Htmp Hdir. unfold wczytaj_obraz, py_wpis.
  rewrite jget_obrazy_base64 Hi /= Hb /=.
  unfold mbind, M_bind, lift, odczyt, zapisz_plik, zmiana, format_json. simpl.
  rewrite b64decode_b64encode Htmp. unfold write_bytes.
  by destruct (fs !! sciezka_i i p) as [[| |]|].
Qed.

Local Abbreviation po_k := (po_k_obrazach f f1 il (temp_dir a0)).

Lemma petla_obrazow (k : nat) :
  (k ≤ length il)%nat →
  ∃ fs, dla_kazdego (wczytaj_obraz obrazy) (seq 0 k) (set_ilustracje [] a0, f1)
          = (set_ilustracje (take k (sciezki_wczytane (temp_dir a0) il)) a0, fs, Some ())
        ∧ po_k k fs.
Proof.
  induction k as [|k IH]; intros Hk.
  - exists f1. split; [done|]. split; [intros; lia|done].
  - destruct IH as (fs & Hrun & Hpo1 & Hpo2); [lia|].
    assert (is_Some (il !! k)) as [p Hp] by (apply lookup_lt_is_Some; lia).
    destruct (czytelne p) as [b Hb]; [by eapply list_elem_of_lookup_2|].
    assert (Hdir : fs !! sciezka_i k p ≠ Some Katalog).
    { rewrite Hpo2; [by apply zapisywalne|].
      intros i q Hi Hq Heq%sciezka_wczytana_inj. lia. }
    exists (<[sciezka_i k p := Plik b]> fs). split.
    + rewrite seq_S. rewrite (dla_kazdego_snoc _ _ _ _ _ Hrun). simpl.
      rewrite (wczytaj_obraz_ok k p b _ fs Hp Hb); [|done|done].
      rewrite (take_S_r _ _ (sciezka_i k p)); [done|].
      unfold sciezki_wczytane. by rewrite list_lookup_imap Hp.
    + split.
      * intros i q Hi Hq. destruct (decide (i = k)) as [->|Hne].
        -- rewrite Hq in Hp. injection Hp as ->.
           by rewrite lookup_insert_eq Hb.
        -- rewrite lookup_insert_ne; [apply Hpo1; [lia|done]|].
           intros Heq%sciezka_wczytana_inj. lia.
      * intros q Hq. rewrite lookup_insert_ne.
        -- apply Hpo2. intros i r Hi Hr. apply Hq; [lia|done].
        -- intros <-. by apply (Hq k p); [lia|done|].
Qed.

(** The images phase of [wczytaj_projekt] on a document whose images were
    all readable when it was saved. *)
Lemma wczytaj_obrazy_ok (l : list (string * json)) :
  jget "obrazy" l = Some obrazy →
  ∃ fs, wczytaj_obrazy (JObj l) (a0, f1)
          = (set_ilustracje (sciezki_wczytane (temp_dir a0) il) a0, fs, Some ())
        ∧ po_k (length il) fs.
Proof.
  intros Hget.
  destruct (petla_obrazow (length il)) as (fs & Hrun & Hpo); [done|].
  exists fs. split; [|done].
  unfold wczytaj_obrazy, py_get. rewrite Hget.
  unfold mbind, M_bind, lift, zmiana. simpl.
  rewrite length_obrazy_base64; [|done].
  rewrite Hrun.
  rewrite take_ge; [done|]. unfold sciezki_wczytane. by rewrite length_imap.
Qed.

End Wczytywanie.

(** ** Step descriptions through JSON *)

Lemma krok_z_json_krok_json (k : krok) : krok_z_json (krok_json k) = Some k.
Proof. by destruct k. Qed.

Lemma opisy_krokow_int_keys_wstaw (l : list (Z * krok)) (m0 : gmap Z krok) :
  opisy_krokow_int_keys ((λ kv, (py_str kv.1, krok_json kv.2)) <$> l) m0
    = Some (foldl (λ m kv, <[kv.1 := kv.2]> m) m0 l).
Proof.
  revert m0. induction l as [|[k v] l IH]; intros m0; [done|].
  cbn [fmap list_fmap opisy_krokow_int_keys fst snd foldl].
  rewrite int_str_py_str krok_z_json_krok_json. cbn [mbind option_bind].
  apply IH.
Qed.

Lemma foldl_wstaw (l : list (Z * krok)) (m0 : gmap Z krok) :
  NoDup l.*1 →
  foldl (λ m kv, <[kv.1 := kv.2]> m) m0 l = list_to_map l ∪ m0.
Proof.
  revert m0. induction l as [|[k v] l IH]; intros m0 Hnd.
  - by rewrite /= left_id_L.
  - rewrite fmap_cons in Hnd. apply NoDup_cons in Hnd as [Hk Hnd].
    cbn [foldl fst snd]. rewrite IH; [|done].
    rewrite list_to_map_cons -insert_union_l. symmetry. apply insert_union_r.
    by apply not_elem_of_list_to_map_1.
Qed.

(** The descriptions written by a save come back as they were. *)
Lemma opisy_krokow_tam_i_z_powrotem (m : gmap Z krok) :
  opisy_krokow_int_keys (opisy_krokow_str_keys m) ∅ = Some m.
Proof.
  unfold opisy_krokow_str_keys. rewrite opisy_krokow_int_keys_wstaw.
  rewrite foldl_wstaw; [|apply NoDup_fst_map_to_list].
  by rewrite right_id_L list_to_map_to_list.
Qed.

(** ** Combo boxes *)

Lemma find_from_spec (x : string) (l : list string) (i : Z) :
  0 ≤ i →
  let r := find_from x l i in
  (r = -1 ∧ x ∉ l) ∨
  (i ≤ r < i + Z.of_nat (length l) ∧ l !! Z.to_nat (r - i) = Some x).
Proof.
  revert i. induction l as [|y l IH]; intros i Hi; simpl.
  - left. split; [done|]. apply not_elem_of_nil.
  - destruct (decide (x = y)) as [->|Hne].
    + right. split; [lia|]. by rewrite Z.sub_diag.
    + destruct (IH (i + 1)) as [[Hr Hnot]|[Hr Hl]]; [lia|..].
      * left. split; [done|]. by apply not_elem_of_cons.
      * right. split; [lia|].
        replace (Z.to_nat (find_from x l (i + 1) - i))
          with (S (Z.to_nat (find_from x l (i + 1) - (i + 1)))) by lia.
        done.
Qed.

Lemma currentData_elem (c : combo) (d : string) :
  currentData c = Some d → d ∈ items c.
Proof.
  unfold currentData. case_decide; [|done].
  intros Hd. by eapply list_elem_of_lookup_2.
Qed.

Lemma currentData_setCurrentIndex (c : combo) (i : Z) :
  0 ≤ i < Z.of_nat (length (items c)) →
  currentData (setCurrentIndex i c) = items c !! Z.to_nat i.
Proof.
  intros Hi. unfold currentData, setCurrentIndex. simpl.
  rewrite (decide_True (P := 0 ≤ i < Z.of_nat (length (items c)))); [|done].
  rewrite decide_True; [done|lia].
Qed.

(** Looking up the data of an item that exists selects an item with that
    data. *)
Lemma findData_wybiera (c : combo) (d : string) :
  d ∈ items c →
  0 ≤ findData d c ∧ currentData (setCurrentIndex (findData d c) c) = Some d.
Proof.
  intros Hd. unfold findData.
  destruct (find_from_spec d (items c) 0) as [[_ Hnot]|[Hr Hl]]; [done|done|].
  split; [lia|]. rewrite currentData_setCurrentIndex; [|lia].
  by rewrite Z.sub_0_r in Hl.
Qed.

Lemma findData_znaleziony (c : combo) (d : string) :
  0 ≤ findData d c →
  currentData (setCurrentIndex (findData d c) c) = Some d.
Proof.
  intros Hd. unfold findData in *.
  destruct (find_from_spec d (items c) 0) as [[Hm _]|[Hr Hl]]; [done|lia|].
  rewrite currentData_setCurrentIndex; [|lia].
  by rewrite Z.sub_0_r in Hl.
Qed.

(** [setCurrentText] with the text of an item selects an item with that
    text. *)
Lemma currentText_setCurrentText (c : combo) (d : string) :
  d ∈ items c → currentText (setCurrentText d c) = d.
Proof.
  intros Hd. destruct (findData_wybiera c d Hd) as [Hi Hc].
  unfold setCurrentText, currentText. rewrite decide_True; [|done].
  by rewrite Hc.
Qed.

(** After [self.jezyk = j] and the selection of [j] in the language combo
    box the language is [j]. *)
Lemma jezyk_po_wyborze (j : string) (o : opcje) :
  let o1 := set_jezyk j o in
  let index := findData j (lang_combo o1) in
  jezyk (if decide (0 ≤ index) then lang_setCurrentIndex index o1 else o1) = j.
Proof.
  intros o1 index. case_decide as Hi; [|done].
  unfold lang_setCurrentIndex. case_decide; [done|].
  unfold zmien_jezyk. cbn [lang_combo set_lang_combo].
  unfold index, o1 in *. cbn [lang_combo set_jezyk] in *.
  by rewrite (findData_znaleziony _ _ Hi).
Qed.

(** ** Options through JSON *)

Section Ustawienia.
Context `{Biblioteki}.

(** What the option steps leave alone. *)
Lemma ustaw_jezyk_spec (j : string) (o : opcje) :
  jezyk (ustaw_jezyk j o) = j ∧
  layout_combo (ustaw_jezyk j o) = layout_combo o ∧
  size_combo (ustaw_jezyk j o) = size_combo o ∧
  font_combo (ustaw_jezyk j o) = font_combo o ∧
  font_size_combo (ustaw_jezyk j o) = font_size_combo o ∧
  dark_theme (ustaw_jezyk j o) = dark_theme o ∧
  tlumaczenia (ustaw_jezyk j o) = tlumaczenia o.
Proof.
  split; [apply jezyk_po_wyborze|].
  unfold ustaw_jezyk, lang_setCurrentIndex, zmien_jezyk. cbv zeta.
  repeat case_decide; try done.
  cbn [lang_combo set_lang_combo].
  by destruct (currentData _).
Qed.

Lemma wczytaj_ustawienia_eq (a b1 : app) (f fs : pliki) :
  wczytaj_ustawienia (JObj (projekt_pola a f)) (b1, fs)
    = (set_opc (opcje_po_wczytaniu (opc a) (opc b1)) b1, fs, Some ()).
Proof. reflexivity. Qed.

Lemma opcje_po_wczytaniu_spec (oa ob : opcje) :
  opcje_wybrane oa → te_same_pozycje oa ob →
  let o' := opcje_po_wczytaniu oa ob in
  currentData (layout_combo o') = currentData (layout_combo oa) ∧
  currentText (size_combo o') = currentText (size_combo oa) ∧
  currentText (font_combo o') = currentText (font_combo oa) ∧
  currentText (font_size_combo o') = currentText (font_size_combo oa) ∧
  jezyk o' = jezyk oa ∧
  dark_theme o' = dark_theme oa ∧
  tlumaczenia o' = tlumaczenia oa.
Proof.
  intros ([dl Hdl] & [ds Hds] & [df Hdf] & [dfs Hdfs]) (Il & Is & If & Ifs) o'.
  unfold o', opcje_po_wczytaniu.
  cbn [layout_combo size_combo font_combo font_size_combo jezyk dark_theme
       tlumaczenia set_tlumaczenia set_dark_theme].
  set (o4 := ustaw_rozmiar_czcionki _ _).
  destruct (ustaw_jezyk_spec (jezyk oa) o4) as (-> & -> & -> & -> & -> & _ & _).
  unfold o4, ustaw_rozmiar_czcionki, ustaw_czcionke, ustaw_rozmiar.
  cbn [layout_combo size_combo font_combo font_size_combo set_combo].
  set (o1 := ustaw_uklad _ ob).
  assert (H1 : currentData (layout_combo o1) = Some dl ∧
               size_combo o1 = size_combo ob ∧ font_combo o1 = font_combo ob ∧
               font_size_combo o1 = font_size_combo ob).
  { unfold o1, ustaw_uklad. rewrite Hdl. cbn [data_json findData_json].
    destruct (findData_wybiera (layout_combo ob) dl) as [Hi Hc].
    { rewrite -Il. by apply currentData_elem. }
    by rewrite decide_True. }
  destruct H1 as (-> & -> & -> & ->).
  assert (Hs : currentText (size_combo oa) = ds) by (unfold currentText; by rewrite Hds).
  assert (Hf : currentText (font_combo oa) = df) by (unfold currentText; by rewrite Hdf).
  assert (Hfs : currentText (font_size_combo oa) = dfs)
    by (unfold currentText; by rewrite Hdfs).
  rewrite Hs Hf Hfs Hdl.
  repeat split; try done.
  - apply currentText_setCurrentText. rewrite -Is. by apply currentData_elem.
  - apply currentText_setCurrentText. rewrite -If. by apply currentData_elem.
  - apply currentText_setCurrentText. rewrite -Ifs. by apply currentData_elem.
Qed.
End Ustawienia.

(** ** Saving and loading *)

Lemma bind_ok {A B} (c : M A) (k : A → M B) (s s' : app * pliki) (x : A) :
  c s = (s', Some x) → (c ≫= k) s = k x s'.
Proof. intros Hc. unfold mbind, M_bind. by rewrite Hc. Qed.

Section ZapisOdczyt.
Context `{Biblioteki}.
Variables (a b : app) (f : pliki) (sciezka : string).

Hypothesis sa_kroki : ilustracje a ≠ [].
Hypothesis wybrano : sciezka ≠ "".
Hypothesis plik : f !! sciezka ≠ Some Katalog.

Lemma zapisz_projekt_ok :
  zapisz_projekt sciezka a f = <[sciezka := Dokument (JObj (projekt_pola a f))]> f.
Proof.
  unfold zapisz_projekt. rewrite decide_False; [|done].
  rewrite decide_False; [|done]. unfold write_json.
  by destruct (f !! sciezka) as [[| |]|].
Qed.

Hypothesis czytelne : ∀ p, p ∈ ilustracje a → is_Some (read_bytes f p).
Hypothesis zapisywalne :
  ∀ i p, ilustracje a !! i = Some p →
         zapisz_projekt sciezka a f !! sciezka_wczytana (temp_dir b) i (basename p)
           ≠ Some Katalog.

(** The controller after the phases of [wczytaj_projekt] that restore the
    project; what follows only rebuilds the step list and the history. *)
Lemma wczytaj_projekt_fazy :
  ∃ fs b',
    wczytaj_projekt sciezka b (zapisz_projekt sciezka a f) = (b', fs) ∧
    po_k_obrazach f (zapisz_projekt sciezka a f) (ilustracje a) (temp_dir b)
      (length (ilustracje a)) fs ∧
    dok b' = Pola (kod_edit (dok a)) (nazwa_edit (dok a)) (data_edit (dok a))
                  (autor_edit (dok a)) ∧
    ilustracje b' = sciezki_wczytane (temp_dir b) (ilustracje a) ∧
    opisy_krokow b' = opisy_krokow a ∧
    opc b' = opcje_po_wczytaniu (opc a) (opc b).
Proof.
  set (f1 := zapisz_projekt sciezka a f) in *.
  set (D := JObj (projekt_pola a f)).
  assert (Hjson : wczytaj_json sciezka (b, f1) = (b, f1, Some D)).
  { unfold wczytaj_json, read_json, f1. rewrite zapisz_projekt_ok.
    by rewrite /= lookup_insert_eq. }
  set (b1 := set_dok (Pola (kod_edit (dok a)) (nazwa_edit (dok a))
                           (data_edit (dok a)) (autor_edit (dok a))) b).
  assert (Hpola : wczytaj_pola D (b, f1) = (b1, f1, Some ())) by reflexivity.
  destruct (wczytaj_obrazy_ok f f1 (ilustracje a) b1 czytelne zapisywalne
              (projekt_pola a f) eq_refl) as (fs & Hobr & Hpo).
  change (temp_dir b1) with (temp_dir b) in Hobr, Hpo.
  set (b2 := set_ilustracje (sciezki_wczytane (temp_dir b) (ilustracje a)) b1) in *.
  set (b3 := set_opisy_krokow (opisy_krokow a) b2).
  assert (Hop : wczytaj_opisy D (b2, fs) = (b3, fs, Some ())).
  { unfold wczytaj_opisy.
    change (py_get "opisy_krokow" (JObj []) D ≫= py_items)
      with (Some (opisy_krokow_str_keys (opisy_krokow a))).
    rewrite (bind_ok _ _ _ (b2, fs) _ eq_refl).
    rewrite opisy_krokow_tam_i_z_powrotem.
    by rewrite (bind_ok _ _ _ (b2, fs) _ eq_refl). }
  set (b4 := set_opc (opcje_po_wczytaniu (opc a) (opc b3)) b3).
  assert (Hust : wczytaj_ustawienia D (b3, fs) = (b4, fs, Some ()))
    by apply wczytaj_ustawienia_eq.
  unfold wczytaj_projekt. rewrite decide_False; [|done].
  unfold wczytaj_projekt_try.
  rewrite (bind_ok _ _ _ _ _ Hjson) (bind_ok _ _ _ _ _ Hpola)
          (bind_ok _ _ _ _ _ Hobr) (bind_ok _ _ _ _ _ Hop)
          (bind_ok _ _ _ _ _ Hust).
  rewrite (bind_ok (zmiana odswiez_liste) _ (b4, fs) (odswiez_liste b4, fs) () eq_refl).
  unfold odswiez_interfejs, mbind, M_bind.
  change ((odswiez_liste b4, fs).1) with (odswiez_liste b4).
  destruct (odswiez_interfejs_raises (odswiez_liste b4)).
  - eexists fs, _. split; [reflexivity|]. by split.
  - exists fs, (zapisz_stan (set_historia [] (-1) (odswiez_liste b4))).
    split; [reflexivity|]. split; [done|].
    destruct (zapisz_stan_zywe (set_historia [] (-1) (odswiez_liste b4)))
      as (-> & -> & _ & -> & _ & ->).
    done.
Qed.
End ZapisOdczyt.

(** C1, for projects whose images can all be read.  Let [a] have at least
    one step, let every image file of [a] be readable, and let the chosen
    path and the temporary paths be writable.  Saving [a] and loading the
    written file into a controller [b] that offers the same combo box items
    gives a controller with the code, name, date and author of [a], the
    step names and descriptions of [a] under the same integer keys, one
    path per image of [a] in the original order, each a file in the
    temporary directory of [b] that holds the bytes of that image, and the
    layout, size, font, font size, language, theme and translations of
    [a]. *)
Theorem zapis_i_odczyt `{Biblioteki} (a b : app) (f : pliki) (sciezka : string) :
  ilustracje a ≠ [] →
  sciezka ≠ "" →
  f !! sciezka ≠ Some Katalog →
  (∀ p, p ∈ ilustracje a → is_Some (read_bytes f p)) →
  opcje_wybrane (opc a) →
  te_same_pozycje (opc a) (opc b) →
  (∀ i p, ilustracje a !! i = Some p →
          zapisz_projekt sciezka a f !! sciezka_wczytana (temp_dir b) i (basename p)
            ≠ Some Katalog) →
  let w := wczytaj_projekt sciezka b (zapisz_projekt sciezka a f) in
  dok w.1 = dok a ∧
  opisy_krokow w.1 = opisy_krokow a ∧
  ilustracje w.1 = sciezki_wczytane (temp_dir b) (ilustracje a) ∧
  (∀ i p, ilustracje a !! i = Some p →
          ∃ dane, ilustracje w.1 !! i
                    = Some (sciezka_wczytana (temp_dir b) i (basename p)) ∧
                  read_bytes f p = Some dane ∧
                  read_bytes w.2 (sciezka_wczytana (temp_dir b) i (basename p))
                    = Some dane) ∧
  currentData (layout_combo (opc w.1)) = currentData (layout_combo (opc a)) ∧
  currentText (size_combo (opc w.1)) = currentText (size_combo (opc a)) ∧
  currentText (font_combo (opc w.1)) = currentText (font_combo (opc a)) ∧
  currentText (font_size_combo (opc w.1)) = currentText (font_size_combo (opc a)) ∧
  jezyk (opc w.1) = jezyk (opc a) ∧
  dark_theme (opc w.1) = dark_theme (opc a) ∧
  tlumaczenia (opc w.1) = tlumaczenia (opc a).
Proof.
  intros Hkroki Hsciezka Hplik Hczyt Hwyb Hpoz Hzap w.
  destruct (wczytaj_projekt_fazy a b f sciezka Hkroki Hsciezka Hplik Hczyt Hzap)
    as (fs & b' & Hw & [Hpo _] & Hdok & Hil & Hop & Hopc).
  unfold w. rewrite Hw. cbn [fst snd].
  split; [rewrite Hdok; by destruct (dok a)|].
  split; [done|]. split; [done|]. split.
  { intros i p Hi. destruct (Hczyt p) as [dane Hd]; [by eapply list_elem_of_lookup_2|].
    exists dane. split; [|split; [done|]].
    - rewrite Hil. unfold sciezki_wczytane. by rewrite list_lookup_imap Hi.
    - unfold read_bytes at 1. rewrite (Hpo i p).
      + by rewrite Hd.
      + by apply lookup_lt_Some in Hi.
      + done. }
  rewrite Hopc. by apply opcje_po_wczytaniu_spec.
Qed.

(** C1 as stated fails.  The first of three images is missing when the
    project is saved: [zapisz_projekt] skips it, the saved entries carry
    the keys 1 and 2, and the loader, counting from 0 up to the number of
    entries, finds no entry 0 and restores the second image only. *)
Lemma zapis_bez_pierwszego_obrazu :
  ¬ @obrazy_odtworzone bib_probna a_trzy a_start pliki_bez_a
      "/home/ola/projekt.json".
Proof.
  intros Ho.
  destruct (Ho 1%nat "/home/ola/b.png" eq_refl) as (p' & Hp' & _).
  vm_compute in Hp'. discriminate Hp'.
Qed.

Example wczytaj_bez_pierwszego_obrazu :
  ilustracje (@wczytaj_projekt bib_probna "/home/ola/projekt.json" a_start
                (@zapisz_projekt bib_probna "/home/ola/projekt.json" a_trzy
                   pliki_bez_a)).1
    = ["/tmp/doc_generator_k3x/loaded_1_b.png"].
Proof. by vm_compute. Qed.

Lemma zapis_i_odczyt_witness :
  let w := @wczytaj_projekt bib_probna "/home/ola/projekt.json" a_start
             (@zapisz_projekt bib_probna "/home/ola/projekt.json" a_trzy
                pliki_trzy) in
  dok w.1 = dok a_trzy ∧
  opisy_krokow w.1 = opisy_krokow a_trzy ∧
  ilustracje w.1 = sciezki_wczytane (temp_dir a_start) (ilustracje a_trzy) ∧
  (∀ i p, ilustracje a_trzy !! i = Some p →
          ∃ dane, ilustracje w.1 !! i
                    = Some (sciezka_wczytana (temp_dir a_start) i (basename p)) ∧
                  @read_bytes bib_probna pliki_trzy p = Some dane ∧
                  @read_bytes bib_probna w.2
                    (sciezka_wczytana (temp_dir a_start) i (basename p))
                    = Some dane) ∧
  currentData (layout_combo (opc w.1)) = currentData (layout_combo (opc a_trzy)) ∧
  currentText (size_combo (opc w.1)) = currentText (size_combo (opc a_trzy)) ∧
  currentText (font_combo (opc w.1)) = currentText (font_combo (opc a_trzy)) ∧
  currentText (font_size_combo (opc w.1))
    = currentText (font_size_combo (opc a_trzy)) ∧
  jezyk (opc w.1) = jezyk (opc a_trzy) ∧
  dark_theme (opc w.1) = dark_theme (opc a_trzy) ∧
  tlumaczenia (opc w.1) = tlumaczenia (opc a_trzy).
Proof.
  apply (@zapis_i_odczyt bib_probna a_trzy a_start pliki_trzy
           "/home/ola/projekt.json").
  - discriminate.
  - discriminate.
  - by vm_compute.
  - intros p Hp. vm_compute in Hp.
    repeat (apply elem_of_cons in Hp as [->|Hp]); [by vm_compute; eexists..|].
    by apply elem_of_nil in Hp.
  - by vm_compute; eauto 10.
  - by vm_compute.
  - intros [|[|[|i]]] p Hi; try discriminate Hi;
      injection Hi as <-; by vm_compute.
Defined.

(** ** Autosave *)

Lemma jget_opisy_lista (l : list (Z * krok)) (k : Z) :
  jget (py_str k) ((λ kv, (py_str kv.1, krok_json kv.2)) <$> l)
    = krok_json <$> (list_to_map l : gmap Z krok) !! k.
Proof.
  induction l as [|[k0 v0] l IH]; [done|].
  cbn [fmap list_fmap jget fst snd list_to_map foldr].
  destruct (decide (py_str k = py_str k0)) as [Heq|Hne].
  - apply (inj pretty) in Heq as ->. by rewrite (lookup_insert_eq (M := gmap Z)).
  - rewrite (lookup_insert_ne (M := gmap Z)); [done|]. by intros ->.
Qed.

Lemma jget_opisy_krokow_str_keys (m : gmap Z krok) (k : Z) :
  jget (py_str k) (opisy_krokow_str_keys m) = krok_json <$> m !! k.
Proof.
  unfold opisy_krokow_str_keys. by rewrite jget_opisy_lista list_to_map_to_list.
Qed.

(** C9, as the code has it.  With at least one step and autosave enabled,
    the document of the autosave holds the code, name, date and author, an
    entry under [str(i)] for the image [i] exactly when that image can be
    read (then its file name and its bytes in base64), every step
    description under [str(key)], the settings, the translations and the
    time stamp.  When the path of the autosave can be written, the document
    is written there whatever images could not be read, the old autosaves
    are pruned, and the only line the method itself prints is the success
    line: an image that cannot be read is passed over without a line.  When
    the path cannot be written, the files stay as they were and the one line
    printed is the autosave error. *)
Theorem autozapis_pomija_nieczytelne `{Biblioteki} (znacznik iso : string)
    (a : app) (f : pliki) :
  ilustracje a ≠ [] →
  autosave_enabled a = true →
  let sciezka := sciezka_autozapisu znacznik a in
  let obrazy := obrazy_base64 f (ilustracje a) in
  let opisy := opisy_krokow_str_keys (opisy_krokow a) in
  let projekt :=
    JObj [("kod", JStr (kod_edit (dok a)));
          ("nazwa", JStr (nazwa_edit (dok a)));
          ("data", JStr (data_edit (dok a)));
          ("autor", JStr (autor_edit (dok a)));
          ("obrazy", JObj obrazy);
          ("opisy_krokow", JObj opisy);
          ("ustawienia", ustawienia_json (opc a));
          ("tlumaczenia", tlumaczenia (opc a));
          ("timestamp_autosave", JStr iso)] in
  (∀ i p, ilustracje a !! i = Some p → read_bytes f p = None →
          jget (py_str (Z.of_nat i)) obrazy = None) ∧
  (∀ i p dane, ilustracje a !! i = Some p → read_bytes f p = Some dane →
               ∃ s, jget (py_str (Z.of_nat i)) obrazy
                      = Some (JObj [("nazwa", JStr (basename p)); ("dane", JStr s)]) ∧
                    b64decode s = Some dane) ∧
  (∀ k, jget (py_str k) opisy = krok_json <$> opisy_krokow a !! k) ∧
  (f !! sciezka ≠ Some Katalog →
   autozapisz_projekt znacznik iso a f
     = ((oczysc_stare_autozapisy (autosave_dir a)
           (<[sciezka := Dokument projekt]> f)).1,
        (oczysc_stare_autozapisy (autosave_dir a)
           (<[sciezka := Dokument projekt]> f)).2 ++ [Autozapisano sciezka])) ∧
  (f !! sciezka = Some Katalog →
   autozapisz_projekt znacznik iso a f = (f, [BladAutozapisu])).
Proof.
  intros Hkroki Hauto sciezka obrazy opisy projekt.
  split; [|split; [|split; [|split]]].
  - intros i p Hi Hr. unfold obrazy. by rewrite jget_obrazy_base64 Hi /= Hr.
  - intros i p dane Hi Hr. exists (b64encode dane).
    split; [|apply b64decode_b64encode].
    unfold obrazy. by rewrite jget_obrazy_base64 Hi /= Hr.
  - intros k. apply jget_opisy_krokow_str_keys.
  - intros Hplik. unfold autozapisz_projekt.
    rewrite bool_decide_eq_false_2; [|done]. rewrite Hauto /=.
    unfold write_json. fold sciezka.
    change (JObj (projekt_pola a f ++ [("timestamp_autosave", JStr iso)]))
      with projekt.
    destruct (f !! sciezka) as [[| |]|] eqn:Hf; try done;
      by destruct (oczysc_stare_autozapisy _ _).
  - intros Hplik. unfold autozapisz_projekt.
    rewrite bool_decide_eq_false_2; [|done]. rewrite Hauto /=.
    unfold write_json. fold sciezka. by rewrite Hplik.
Qed.

(** C9 as stated fails in its last part.  The path of the first of three
    images is a directory, so reading it raises; the exception is passed
    over, the autosave is written without that image and the console shows
    the success line only. *)
Lemma autozapis_bez_komunikatu :
  ¬ @bledy_zgloszone bib_probna "20240506_101500" "2024-05-06T10:15:00.123456"
      a_trzy pliki_a_katalog.
Proof.
  intros Hb. destruct Hb as (w & Hw & He).
  - exists "/home/ola/a.png". split; [by left|reflexivity].
  - vm_compute in Hw. apply list_elem_of_singleton in Hw as ->. exact He.
Qed.

Example autozapis_bez_pierwszego_obrazu :
  (@autozapisz_projekt bib_probna "20240506_101500" "2024-05-06T10:15:00.123456"
     a_trzy pliki_a_katalog).2
    = [Autozapisano "/home/ola/Piorun_autosave/bez_kodu_20240506_101500.json"].
Proof. by vm_compute. Qed.

Lemma autozapis_pomija_nieczytelne_witness :
  let znacznik := "20240506_101500" in
  let iso := "2024-05-06T10:15:00.123456" in
  let a := a_trzy in
  let f := pliki_a_katalog in
  let sciezka := @sciezka_autozapisu bib_probna znacznik a in
  let obrazy := @obrazy_base64 bib_probna f (ilustracje a) in
  let opisy := opisy_krokow_str_keys (opisy_krokow a) in
  let projekt :=
    JObj [("kod", JStr (kod_edit (dok a)));
          ("nazwa", JStr (nazwa_edit (dok a)));
          ("data", JStr (data_edit (dok a)));
          ("autor", JStr (autor_edit (dok a)));
          ("obrazy", JObj obrazy);
          ("opisy_krokow", JObj opisy);
          ("ustawienia", ustawienia_json (opc a));
          ("tlumaczenia", tlumaczenia (opc a));
          ("timestamp_autosave", JStr iso)] in
  (∀ i p, ilustracje a !! i = Some p → @read_bytes bib_probna f p = None →
          jget (py_str (Z.of_nat i)) obrazy = None) ∧
  (∀ i p dane, ilustracje a !! i = Some p → @read_bytes bib_probna f p = Some dane →
               ∃ s, jget (py_str (Z.of_nat i)) obrazy
                      = Some (JObj [("nazwa", JStr (basename p)); ("dane", JStr s)]) ∧
                    b64decode s = Some dane) ∧
  (∀ k, jget (py_str k) opisy = krok_json <$> opisy_krokow a !! k) ∧
  (f !! sciezka ≠ Some Katalog →
   @autozapisz_projekt bib_probna znacznik iso a f
     = ((@oczysc_stare_autozapisy bib_probna (autosave_dir a)
           (<[sciezka := Dokument projekt]> f)).1,
        (@oczysc_stare_autozapisy bib_probna (autosave_dir a)
           (<[sciezka := Dokument projekt]> f)).2 ++ [Autozapisano sciezka])) ∧
  (f !! sciezka = Some Katalog →
   @autozapisz_projekt bib_probna znacznik iso a f = (f, [BladAutozapisu])).
Proof.
  apply (@autozapis_pomija_nieczytelne bib_probna "20240506_101500"
           "2024-05-06T10:15:00.123456" a_trzy pliki_a_katalog).
  - discriminate.
  - reflexivity.
Defined.

(** ** Objects: allocation and reading *)

Lemma przydziel_swiezy (o : Obiekty.obiekt) (h : Obiekty.sterta) :
  ((Obiekty.przydziel o h).2 ∉ dom h) ∧
  h ⊆ (Obiekty.przydziel o h).1 ∧
  (Obiekty.przydziel o h).1 !! (Obiekty.przydziel o h).2 = Some o ∧
  dom (Obiekty.przydziel o h).1 = {[(Obiekty.przydziel o h).2]} ∪ dom h.
Proof.
  unfold Obiekty.przydziel. cbn [fst snd].
  pose proof (is_fresh (dom h)) as Hf.
  split; [done|]. split; [|split].
  - apply insert_subseteq. by apply not_elem_of_dom.
  - by rewrite lookup_insert_eq.
  - by rewrite dom_insert_L.
Qed.

Lemma jest_lista_dom (h : Obiekty.sterta) (l : Obiekty.adres) :
  Obiekty.jest_lista h l → l ∈ dom h.
Proof. intros [xs Hxs]. by apply elem_of_dom. Qed.

Lemma zasieg_dom (h : Obiekty.sterta) (il op : Obiekty.adres) :
  Obiekty.jest_lista h il → Obiekty.jest_slownikiem h op →
  Obiekty.zasieg h il op ⊆ dom h.
Proof.
  intros Hil (d & Hd & Hv) l. unfold Obiekty.zasieg, Obiekty.slownik.
  rewrite Hd !elem_of_union elem_of_singleton elem_of_singleton elem_of_map_img.
  intros [[-> | ->] | [k Hk]].
  - by apply jest_lista_dom.
  - by apply elem_of_dom.
  - destruct (Hv k l Hk) as [v Hl]. by apply elem_of_dom.
Qed.

(** Reading through a list reference and a dictionary reference depends on
    the objects in reach only. *)
Lemma czytanie_zgodne (h h' : Obiekty.sterta) (il op : Obiekty.adres) :
  (∀ l, l ∈ Obiekty.zasieg h il op → h' !! l = h !! l) →
  Obiekty.czytaj_liste h' il = Obiekty.czytaj_liste h il ∧
  Obiekty.slownik h' op = Obiekty.slownik h op ∧
  Obiekty.czytaj_opisy h' op = Obiekty.czytaj_opisy h op ∧
  Obiekty.zasieg h' il op = Obiekty.zasieg h il op ∧
  (Obiekty.jest_lista h il → Obiekty.jest_lista h' il) ∧
  (Obiekty.jest_slownikiem h op → Obiekty.jest_slownikiem h' op).
Proof.
  intros Hz.
  assert (Hil : h' !! il = h !! il).
  { apply Hz. unfold Obiekty.zasieg. set_solver. }
  assert (Hop : h' !! op = h !! op).
  { apply Hz. unfold Obiekty.zasieg. set_solver. }
  assert (Hs : Obiekty.slownik h' op = Obiekty.slownik h op).
  { unfold Obiekty.slownik. by rewrite Hop. }
  assert (Hv : ∀ k l, Obiekty.slownik h op !! k = Some l → h' !! l = h !! l).
  { intros k l Hk. apply Hz. unfold Obiekty.zasieg.
    apply elem_of_union_r, elem_of_map_img. by exists k. }
  split; [unfold Obiekty.czytaj_liste; by rewrite Hil|].
  split; [done|]. split; [|split; [|split]].
  - unfold Obiekty.czytaj_opisy. rewrite Hs. apply map_eq. intros k.
    rewrite !lookup_omap.
    destruct (Obiekty.slownik h op !! k) as [l|] eqn:Hk; [|done].
    cbn. unfold Obiekty.czytaj_krok. by rewrite (Hv k l Hk).
  - unfold Obiekty.zasieg. by rewrite Hs.
  - intros [xs Hxs]. exists xs. by rewrite Hil.
  - intros (d & Hd & Hvd). exists d. split; [by rewrite Hop|].
    intros k l Hk. destruct (Hvd k l Hk) as [v Hl]. exists v.
    rewrite (Hv k l); [done|]. unfold Obiekty.slownik. by rewrite Hd.
Qed.

Lemma czytanie_subseteq (h h' : Obiekty.sterta) (il op : Obiekty.adres) :
  h ⊆ h' → Obiekty.jest_lista h il → Obiekty.jest_slownikiem h op →
  ∀ l, l ∈ Obiekty.zasieg h il op → h' !! l = h !! l.
Proof.
  intros Hsub Hil Hop l Hl.
  apply (zasieg_dom h il op Hil Hop), elem_of_dom in Hl as [o Ho].
  rewrite Ho. by eapply lookup_weaken.
Qed.

Lemma elem_of_zasieg (h : Obiekty.sterta) (il op l : Obiekty.adres) :
  l ∈ Obiekty.zasieg h il op
  ↔ l = il ∨ l = op ∨ ∃ k, Obiekty.slownik h op !! k = Some l.
Proof.
  unfold Obiekty.zasieg.
  rewrite !elem_of_union !elem_of_singleton elem_of_map_img. tauto.
Qed.

(** ** Copies *)

Lemma list_copy_spec (h : Obiekty.sterta) (l : Obiekty.adres) :
  Obiekty.jest_lista h l →
  ∃ h' l', Obiekty.list_copy h l = Some (h', l') ∧ h ⊆ h' ∧ (l' ∉ dom h) ∧
           dom h' = {[l']} ∪ dom h ∧
           h' !! l' = Some (Obiekty.OLista (Obiekty.czytaj_liste h l)).
Proof.
  intros [xs Hxs]. unfold Obiekty.list_copy, Obiekty.czytaj_liste. rewrite Hxs.
  destruct (przydziel_swiezy (Obiekty.OLista xs) h) as (Hf & Hsub & Hl & Hd).
  destruct (Obiekty.przydziel (Obiekty.OLista xs) h) as [h' l'].
  by exists h', l'.
Qed.

(** What the item loop of [deepcopy] guarantees for one entry [x] of the
    dictionary and its copy [y]. *)
Lemma kopiuj_wpisy_spec (h0 : Obiekty.sterta) (wpisy : list (Z * Obiekty.adres)) :
  ∀ (memo : gmap Obiekty.adres Obiekty.adres) (h : Obiekty.sterta),
  h0 ⊆ h →
  (∀ l l', memo !! l = Some l' →
           (l' ∉ dom h0) ∧ ∃ v, h0 !! l = Some (Obiekty.OKrok v) ∧
                              h !! l' = Some (Obiekty.OKrok v)) →
  (∀ x, x ∈ wpisy → ∃ v, h0 !! x.2 = Some (Obiekty.OKrok v)) →
  ∃ h' w, Obiekty.kopiuj_wpisy memo h wpisy = Some (h', w) ∧ h ⊆ h' ∧
          Forall2 (λ x y, x.1 = y.1 ∧ (y.2 ∉ dom h0) ∧
                          ∃ v, h0 !! x.2 = Some (Obiekty.OKrok v) ∧
                               h' !! y.2 = Some (Obiekty.OKrok v)) wpisy w.
Proof.
  induction wpisy as [|[k l] wpisy IH]; intros memo h Hsub Hmemo Hw.
  { exists h, []. by repeat split. }
  cbn [Obiekty.kopiuj_wpisy].
  assert (Hw' : ∀ x, x ∈ wpisy → ∃ v, h0 !! x.2 = Some (Obiekty.OKrok v)).
  { intros x Hx. apply Hw. by right. }
  destruct (memo !! l) as [l'|] eqn:Hl.
  - destruct (IH memo h Hsub Hmemo Hw') as (h' & w & -> & Hsub' & Hall).
    exists h', ((k, l') :: w). split; [done|]. split; [done|].
    constructor; [|done]. cbn [fst snd].
    destruct (Hmemo l l' Hl) as (Hf & v & Hv & Hv').
    split; [done|]. split; [done|]. exists v. split; [done|].
    by eapply lookup_weaken.
  - destruct (Hw (k, l)) as [v Hv]; [by left|]. cbn [snd] in Hv.
    rewrite (lookup_weaken h0 h l _ Hv Hsub).
    destruct (przydziel_swiezy (Obiekty.OKrok v) h) as (Hf & Hsub1 & Hl1 & _).
    destruct (Obiekty.przydziel (Obiekty.OKrok v) h) as [h1 l'].
    cbn [fst snd] in Hf, Hsub1, Hl1.
    assert (Hf0 : l' ∉ dom h0).
    { intros Hin. apply Hf. by apply (subseteq_dom h0 h). }
    destruct (IH (<[l := l']> memo) h1) as (h' & w & -> & Hsub' & Hall).
    + by etrans.
    + intros x x' Hx. destruct (decide (x = l)) as [->|Hne].
      * rewrite lookup_insert_eq in Hx. injection Hx as <-.
        split; [done|]. by exists v.
      * rewrite lookup_insert_ne in Hx; [|done].
        destruct (Hmemo x x' Hx) as (Hfx & vx & Hvx & Hvx').
        split; [done|]. exists vx. split; [done|]. by eapply lookup_weaken.
    + done.
    + exists h', ((k, l') :: w). split; [done|]. split; [by etrans|].
      constructor; [|done]. cbn [fst snd]. split; [done|]. split; [done|].
      exists v. split; [done|]. by eapply lookup_weaken.
Qed.

(** The copied entries read as the original ones. *)
Lemma omap_list_to_map_kopia (h0 h' : Obiekty.sterta)
    (wpisy w : list (Z * Obiekty.adres)) :
  Forall2 (λ x y, x.1 = y.1 ∧
                  Obiekty.czytaj_krok h' y.2 = Obiekty.czytaj_krok h0 x.2 ∧
                  is_Some (Obiekty.czytaj_krok h0 x.2)) wpisy w →
  omap (Obiekty.czytaj_krok h') (list_to_map w : gmap Z Obiekty.adres)
    = omap (Obiekty.czytaj_krok h0) (list_to_map wpisy : gmap Z Obiekty.adres).
Proof.
  induction 1 as [|[k l] [k' l'] wpisy w (Hk & Hr & [v Hv]) _ IH]; [done|].
  cbn [fst snd] in Hk, Hr, Hv. subst k'. cbn [list_to_map foldr uncurry].
  rewrite Hv in Hr.
  rewrite (omap_insert_Some _ _ _ _ v); [|done].
  rewrite (omap_insert_Some _ _ _ _ v); [|done].
  by rewrite IH.
Qed.

Lemma deepcopy_spec (h : Obiekty.sterta) (l : Obiekty.adres) :
  Obiekty.jest_slownikiem h l →
  ∃ h' l', Obiekty.deepcopy h l = Some (h', l') ∧ h ⊆ h' ∧
           Obiekty.jest_slownikiem h' l' ∧
           Obiekty.czytaj_opisy h' l' = Obiekty.czytaj_opisy h l ∧
           (l' ∉ dom h) ∧
           (∀ x, x ∈ (map_img (Obiekty.slownik h' l') : gset Obiekty.adres) →
                 x ∉ dom h).
Proof.
  intros (d & Hd & Hv). unfold Obiekty.deepcopy. rewrite Hd.
  destruct (kopiuj_wpisy_spec h (map_to_list d) ∅ h) as (h1 & w & -> & Hsub & Hall).
  - done.
  - intros x x' Hx. by rewrite lookup_empty in Hx.
  - intros [k x] Hx. apply elem_of_map_to_list in Hx. by apply (Hv k).
  - destruct (przydziel_swiezy (Obiekty.OSlownik (list_to_map w)) h1)
      as (Hf & Hsub2 & Hl2 & _).
    destruct (Obiekty.przydziel (Obiekty.OSlownik (list_to_map w)) h1) as [h2 l2].
    cbn [fst snd] in Hf, Hsub2, Hl2.
    assert (Hs2 : Obiekty.slownik h2 l2 = list_to_map w).
    { unfold Obiekty.slownik. by rewrite Hl2. }
    exists h2, l2. split; [done|]. split; [by etrans|].
    assert (Hw : ∀ k x, (list_to_map w : gmap Z Obiekty.adres) !! k = Some x →
                        (x ∉ dom h) ∧ ∃ v, h1 !! x = Some (Obiekty.OKrok v)).
    { intros k x Hk. apply elem_of_list_to_map_2 in Hk.
      apply list_elem_of_lookup in Hk as [i Hi].
      destruct (Forall2_lookup_r _ _ _ _ _ Hall Hi) as ([k0 x0] & _ & _ & Hfx & v & _ & Hvx).
      cbn [snd] in Hfx, Hvx. split; [done|]. by exists v. }
    split; [|split; [|split]].
    + exists (list_to_map w). split; [done|].
      intros k x Hk. destruct (Hw k x Hk) as (_ & v & Hx). exists v.
      by eapply lookup_weaken.
    + unfold Obiekty.czytaj_opisy. rewrite Hs2.
      assert (Hsl : Obiekty.slownik h l = list_to_map (map_to_list d)).
      { unfold Obiekty.slownik. by rewrite Hd list_to_map_to_list. }
      rewrite Hsl. apply omap_list_to_map_kopia.
      eapply Forall2_impl; [exact Hall|].
      intros x y (Hk & _ & v & Hx & Hy). split; [done|].
      unfold Obiekty.czytaj_krok. rewrite Hx (lookup_weaken h1 h2 y.2 _ Hy Hsub2).
      by split; [|eexists].
    + intros Hin. apply Hf. by apply (subseteq_dom h h1).
    + intros x Hx. rewrite Hs2 in Hx. apply elem_of_map_img in Hx as [k Hk].
      by destruct (Hw k x Hk).
Qed.

(** The two copies that [zapisz_stan], [cofnij] and [przywroc] make: new
    objects, none of them known before, that read as the originals. *)
Lemma kopie_spec (h : Obiekty.sterta) (il op : Obiekty.adres) :
  Obiekty.jest_lista h il → Obiekty.jest_slownikiem h op →
  ∃ h1 il' h2 op',
    Obiekty.list_copy h il = Some (h1, il') ∧
    Obiekty.deepcopy h1 op = Some (h2, op') ∧
    h ⊆ h2 ∧
    Obiekty.jest_lista h2 il' ∧ Obiekty.jest_slownikiem h2 op' ∧
    Obiekty.czytaj_liste h2 il' = Obiekty.czytaj_liste h il ∧
    Obiekty.czytaj_opisy h2 op' = Obiekty.czytaj_opisy h op ∧
    Obiekty.zasieg h2 il' op' ## dom h.
Proof.
  intros Hil Hop.
  destruct (list_copy_spec h il Hil) as (h1 & il' & Hc1 & Hsub1 & Hf1 & Hd1 & Hl1).
  assert (Hop1 : Obiekty.jest_slownikiem h1 op).
  { destruct Hop as (d & Hd & Hv). exists d. split; [by eapply lookup_weaken|].
    intros k x Hk. destruct (Hv k x Hk) as [v Hx]. exists v.
    by eapply lookup_weaken. }
  destruct (deepcopy_spec h1 op Hop1)
    as (h2 & op' & Hc2 & Hsub2 & Hop2 & Hr2 & Hf2 & Hf2').
  exists h1, il', h2, op'. split; [done|]. split; [done|].
  split; [by etrans|].
  assert (Hl2 : h2 !! il' = Some (Obiekty.OLista (Obiekty.czytaj_liste h il)))
    by (by eapply lookup_weaken).
  split; [by eexists|]. split; [done|].
  split; [unfold Obiekty.czytaj_liste at 1; by rewrite Hl2|].
  split.
  - rewrite Hr2. apply czytanie_zgodne with (il := il).
    by apply czytanie_subseteq.
  - intros x Hx Hdom. unfold Obiekty.zasieg in Hx.
    rewrite !elem_of_union !elem_of_singleton in Hx.
    destruct Hx as [[-> | ->] | Hx].
    + done.
    + apply Hf2. by apply (subseteq_dom h h1).
    + apply (Hf2' x Hx). by apply (subseteq_dom h h1).
Qed.

(** ** Steps of the live state leave the history alone *)

Lemma nastepuje_dobre (c c' : Obiekty.okno) :
  Obiekty.dobre c → Obiekty.nastepuje c c' →
  Obiekty.dobre c' ∧ Obiekty.wartosci_historii c' = Obiekty.wartosci_historii c.
Proof.
  intros (Hil & Hop & Hh & Hi) (Hhist & Hpoza & Hz & Hil' & Hop' & Hi').
  assert (Hm : ∀ s, s ∈ Obiekty.o_stan_historia c →
    ∀ l, l ∈ Obiekty.zasieg_migawki (Obiekty.pamiec c) s →
         Obiekty.pamiec c' !! l = Obiekty.pamiec c !! l).
  { intros s Hs l Hl. rewrite Forall_forall in Hh.
    destruct (Hh s Hs) as (Hsl & Hsd & Hdis).
    apply Hpoza; [by apply (zasieg_dom _ _ _ Hsl Hsd)|].
    intros Hl'. by apply (Hdis l). }
  split.
  - split; [done|]. split; [done|]. split; [|done].
    rewrite Hhist. rewrite Forall_forall in Hh. apply Forall_forall.
    intros s Hs. destruct (Hh s Hs) as (Hsl & Hsd & Hdis).
    destruct (czytanie_zgodne _ _ _ _ (Hm s Hs)) as (_ & _ & _ & Hzs & Hl & Hd).
    split; [by apply Hl|]. split; [by apply Hd|].
    unfold Obiekty.zasieg_migawki. rewrite Hzs.
    intros l Hl1 Hl2. apply Hz in Hl2. apply elem_of_union in Hl2 as [Hl2|Hl2].
    + by apply (Hdis l).
    + apply elem_of_difference in Hl2 as [_ Hl2]. apply Hl2.
      by apply (zasieg_dom _ _ _ Hsl Hsd).
  - unfold Obiekty.wartosci_historii. rewrite Hhist.
    apply list_fmap_ext. intros i s Hs. apply list_elem_of_lookup_2 in Hs.
    destruct (czytanie_zgodne _ _ _ _ (Hm s Hs)) as (Hrl & _ & Hro & _).
    unfold Obiekty.wartosc_migawki. by rewrite Hrl Hro.
Qed.

Lemma nastepuje_refl (c : Obiekty.okno) : Obiekty.dobre c → Obiekty.nastepuje c c.
Proof.
  intros (Hil & Hop & Hh & Hi). split; [done|]. split; [done|].
  split; [|done]. intros l Hl. by apply elem_of_union_l.
Qed.

(** A change of widgets and scalar attributes. *)
Lemma nastepuje_atrybuty (c c' : Obiekty.okno) :
  Obiekty.dobre c →
  Obiekty.pamiec c' = Obiekty.pamiec c →
  Obiekty.o_ilustracje c' = Obiekty.o_ilustracje c →
  Obiekty.o_opisy_krokow c' = Obiekty.o_opisy_krokow c →
  Obiekty.o_stan_historia c' = Obiekty.o_stan_historia c →
  Obiekty.o_aktualny_stan_index c' = Obiekty.o_aktualny_stan_index c →
  Obiekty.nastepuje c c'.
Proof.
  intros (Hil & Hop & Hh & Hi) Hp H1 H2 H3 H4.
  unfold Obiekty.nastepuje, Obiekty.zasieg_zywy. rewrite Hp H1 H2 H3 H4.
  split; [done|]. split; [done|]. split; [|done].
  intros l Hl. by apply elem_of_union_l.
Qed.

(** A write into the list object of the live state. *)
Lemma zmien_liste_nastepuje (f : list string → option (list string))
    (c c' : Obiekty.okno) :
  Obiekty.dobre c → Obiekty.zmien_liste f c = Some c' → Obiekty.nastepuje c c'.
Proof.
  intros (Hil & Hop & Hh & Hi) Hz. unfold Obiekty.zmien_liste in Hz.
  destruct Hil as [xs Hxs]. rewrite Hxs in Hz.
  destruct (f xs) as [xs'|]; [|done]. injection Hz as <-.
  assert (Hne : Obiekty.o_opisy_krokow c ≠ Obiekty.o_ilustracje c).
  { intros Heq. destruct Hop as (d & Hd & _). congruence. }
  assert (Hs : Obiekty.slownik (<[Obiekty.o_ilustracje c := Obiekty.OLista xs']>
                                  (Obiekty.pamiec c)) (Obiekty.o_opisy_krokow c)
               = Obiekty.slownik (Obiekty.pamiec c) (Obiekty.o_opisy_krokow c)).
  { unfold Obiekty.slownik. by rewrite lookup_insert_ne. }
  split; [done|]. split; [|split; [|split; [|split]]]; cbn.
  - intros l _ Hl. rewrite lookup_insert_ne; [done|].
    intros <-. apply Hl. apply elem_of_zasieg. by left.
  - intros l Hl. apply elem_of_union_l. unfold Obiekty.zasieg_zywy in Hl |- *.
    cbn in Hl. apply elem_of_zasieg in Hl. rewrite Hs in Hl.
    by apply elem_of_zasieg.
  - exists xs'. by rewrite lookup_insert_eq.
  - destruct Hop as (d & Hd & Hv). exists d.
    split; [by rewrite lookup_insert_ne|].
    intros k l Hk. destruct (Hv k l Hk) as [v Hl]. exists v.
    rewrite lookup_insert_ne; [done|]. congruence.
  - done.
Qed.

(** The dictionary of the live state is replaced by [d'], in a store [h]
    that extends the old one: the step dictionaries of [d'] are those the
    live state reached before, or new ones. *)
Lemma zapis_slownika_nastepuje (c : Obiekty.okno) (h : Obiekty.sterta)
    (d' : gmap Z Obiekty.adres) :
  Obiekty.dobre c → Obiekty.pamiec c ⊆ h →
  (∀ k l, d' !! k = Some l → ∃ v, h !! l = Some (Obiekty.OKrok v)) →
  (∀ k l, d' !! k = Some l →
          l ∈ Obiekty.zasieg_zywy c ∨ l ∉ dom (Obiekty.pamiec c)) →
  Obiekty.nastepuje c
    (Obiekty.zapisz (Obiekty.o_opisy_krokow c) (Obiekty.OSlownik d')
       (Obiekty.set_pamiec h c)).
Proof.
  intros (Hil & Hop & Hh & Hi) Hsub Hv Hz.
  destruct Hil as [xs Hxs]. destruct Hop as (d & Hd & Hvd).
  assert (Hne : Obiekty.o_ilustracje c ≠ Obiekty.o_opisy_krokow c) by congruence.
  split; [done|]. split; [|split; [|split; [|split]]]; cbn.
  - intros l Hl Hl'. apply elem_of_dom in Hl as [o Ho].
    rewrite lookup_insert_ne.
    + rewrite Ho. by eapply lookup_weaken.
    + intros <-. apply Hl'. apply elem_of_zasieg. right. by left.
  - intros l Hl. unfold Obiekty.zasieg_zywy in Hl. cbn in Hl.
    apply elem_of_zasieg in Hl. unfold Obiekty.slownik in Hl.
    rewrite lookup_insert_eq in Hl. apply elem_of_union.
    destruct Hl as [-> | [-> | [k Hk]]].
    + left. apply elem_of_zasieg. by left.
    + left. apply elem_of_zasieg. right. by left.
    + destruct (Hz k l Hk) as [Hl|Hl]; [by left|]. right.
      apply elem_of_difference. split; [|done].
      destruct (Hv k l Hk) as [v Hlv]. apply elem_of_dom.
      rewrite lookup_insert_ne; [by eexists|]. intros <-.
      rewrite (lookup_weaken _ _ _ _ Hd Hsub) in Hlv. discriminate Hlv.
  - exists xs. rewrite lookup_insert_ne; [|done]. by eapply lookup_weaken.
  - exists d'. split; [by rewrite lookup_insert_eq|].
    intros k l Hk. destruct (Hv k l Hk) as [v Hlv]. exists v.
    rewrite lookup_insert_ne; [done|]. intros <-.
    rewrite (lookup_weaken _ _ _ _ Hd Hsub) in Hlv. discriminate Hlv.
  - done.
Qed.

Lemma zasieg_zywy_wartosc (c : Obiekty.okno) (d : gmap Z Obiekty.adres)
    (k : Z) (l : Obiekty.adres) :
  Obiekty.pamiec c !! Obiekty.o_opisy_krokow c = Some (Obiekty.OSlownik d) →
  d !! k = Some l → l ∈ Obiekty.zasieg_zywy c.
Proof.
  intros Hd Hk. apply elem_of_zasieg. right. right. exists k.
  unfold Obiekty.slownik. by rewrite Hd.
Qed.

(** A write into the dictionary object of the live state whose entries are
    entries of the dictionary before. *)
Lemma zmien_slownik_nastepuje (f : gmap Z Obiekty.adres → option (gmap Z Obiekty.adres))
    (c c' : Obiekty.okno) :
  (∀ d d' k l, f d = Some d' → d' !! k = Some l → ∃ k', d !! k' = Some l) →
  Obiekty.dobre c → Obiekty.zmien_slownik f c = Some c' → Obiekty.nastepuje c c'.
Proof.
  intros Hf Hd Hz. unfold Obiekty.zmien_slownik in Hz.
  pose proof Hd as (_ & (d & Hdd & Hv) & _).
  rewrite Hdd in Hz. destruct (f d) as [d'|] eqn:Hfd; [|done]. injection Hz as <-.
  assert (Hc : Obiekty.zapisz (Obiekty.o_opisy_krokow c) (Obiekty.OSlownik d') c
               = Obiekty.zapisz (Obiekty.o_opisy_krokow c) (Obiekty.OSlownik d')
                   (Obiekty.set_pamiec (Obiekty.pamiec c) c)) by (by destruct c).
  rewrite Hc. apply zapis_slownika_nastepuje; [done..| |].
  - intros k l Hk. destruct (Hf d d' k l Hfd Hk) as [k' Hk']. by apply (Hv k').
  - intros k l Hk. destruct (Hf d d' k l Hfd Hk) as [k' Hk']. left.
    by apply (zasieg_zywy_wartosc c d k').
Qed.

Lemma wykonaj_zmiane_nastepuje (z : Obiekty.zmiana) (c c' : Obiekty.okno) :
  Obiekty.dobre c → Obiekty.wykonaj_zmiane z c = Some c' → Obiekty.nastepuje c c'.
Proof.
  intros Hd Hz. pose proof Hd as ([xs Hxs] & (d & Hdd & Hv) & Hh & Hi).
  assert (Hne : Obiekty.o_ilustracje c ≠ Obiekty.o_opisy_krokow c) by congruence.
  destruct z; cbn [Obiekty.wykonaj_zmiane] in Hz;
    try (by eapply zmien_liste_nastepuje);
    try (injection Hz as <-; by apply nastepuje_atrybuty).
  - (* NowaLista *)
    destruct (przydziel_swiezy (Obiekty.OLista []) (Obiekty.pamiec c))
      as (Hf & Hsub & Hl & Hdom).
    destruct (Obiekty.przydziel (Obiekty.OLista []) (Obiekty.pamiec c)) as [h l].
    cbn [fst snd] in Hf, Hsub, Hl, Hdom. injection Hz as <-.
    assert (Hs : Obiekty.slownik h (Obiekty.o_opisy_krokow c)
                 = Obiekty.slownik (Obiekty.pamiec c) (Obiekty.o_opisy_krokow c)).
    { unfold Obiekty.slownik. by rewrite (lookup_weaken _ _ _ _ Hdd Hsub) Hdd. }
    split; [done|]. split; [|split; [|split; [|split]]]; cbn.
    + intros x Hx _. apply elem_of_dom in Hx as [o Ho]. rewrite Ho.
      by eapply lookup_weaken.
    + intros x Hx. unfold Obiekty.zasieg_zywy in Hx. cbn in Hx.
      apply elem_of_zasieg in Hx. rewrite Hs in Hx. apply elem_of_union.
      destruct Hx as [-> | Hx].
      * right. apply elem_of_difference. split; [|done]. rewrite Hdom.
        by apply elem_of_union_l, elem_of_singleton.
      * left. apply elem_of_zasieg. by right.
    + by exists [].
    + exists d. split; [by eapply lookup_weaken|].
      intros k x Hk. destruct (Hv k x Hk) as [v Hx]. exists v.
      by eapply lookup_weaken.
    + done.
  - (* SetKrok *)
    destruct (przydziel_swiezy (Obiekty.OKrok v) (Obiekty.pamiec c))
      as (Hf & Hsub & Hl & Hdom).
    destruct (Obiekty.przydziel (Obiekty.OKrok v) (Obiekty.pamiec c)) as [h l].
    cbn [fst snd] in Hf, Hsub, Hl, Hdom.
    unfold Obiekty.zmien_slownik in Hz. cbn in Hz.
    rewrite (lookup_weaken _ _ _ _ Hdd Hsub) in Hz. cbn in Hz. injection Hz as <-.
    apply (zapis_slownika_nastepuje c h (<[k := l]> d) Hd Hsub).
    + intros k0 x Hk0. destruct (decide (k0 = k)) as [->|Hk].
      * rewrite lookup_insert_eq in Hk0. injection Hk0 as <-. by exists v.
      * rewrite lookup_insert_ne in Hk0; [|done].
        destruct (Hv k0 x Hk0) as [v0 Hx]. exists v0. by eapply lookup_weaken.
    + intros k0 x Hk0. destruct (decide (k0 = k)) as [->|Hk].
      * rewrite lookup_insert_eq in Hk0. injection Hk0 as <-. by right.
      * rewrite lookup_insert_ne in Hk0; [|done]. left.
        by apply (zasieg_zywy_wartosc c d k0).
  - (* SetNazwa *)
    unfold Obiekty.slownik in Hz. rewrite Hdd in Hz.
    destruct (d !! k) as [l|] eqn:Hk; [|done]. cbn in Hz.
    destruct (Hv k l Hk) as [v Hl]. unfold Obiekty.czytaj_krok in Hz.
    rewrite Hl in Hz. cbn in Hz. injection Hz as <-.
    assert (Hl1 : l ≠ Obiekty.o_ilustracje c) by congruence.
    assert (Hl2 : l ≠ Obiekty.o_opisy_krokow c) by congruence.
    assert (Hs : Obiekty.slownik
                   (<[l := Obiekty.OKrok (Krok n (k_opis v))]> (Obiekty.pamiec c))
                   (Obiekty.o_opisy_krokow c)
                 = Obiekty.slownik (Obiekty.pamiec c) (Obiekty.o_opisy_krokow c)).
    { unfold Obiekty.slownik. by rewrite lookup_insert_ne. }
    split; [done|]. split; [|split; [|split; [|split]]]; cbn.
    + intros x _ Hx. rewrite lookup_insert_ne; [done|]. intros <-.
      apply Hx. by apply (zasieg_zywy_wartosc c d k).
    + intros x Hx. unfold Obiekty.zasieg_zywy in Hx. cbn in Hx.
      apply elem_of_zasieg in Hx. rewrite Hs in Hx.
      by apply elem_of_union_l, elem_of_zasieg.
    + exists xs. by rewrite lookup_insert_ne.
    + exists d. split; [by rewrite lookup_insert_ne|].
      intros k0 x Hk0. destruct (decide (x = l)) as [->|Hx].
      * rewrite lookup_insert_eq. by eexists.
      * rewrite lookup_insert_ne; [by apply (Hv k0)|done].
    + done.
  - (* Del *)
    eapply zmien_slownik_nastepuje; [|done..].
    intros d0 d' k0 l Hf Hk0. cbn beta in Hf.
    destruct (d0 !! k); cbn in Hf; [|done].
    injection Hf as <-.
    exists k0. by apply lookup_delete_Some in Hk0 as [_ ?].
  - (* Zamien *)
    eapply zmien_slownik_nastepuje; [|done..].
    intros d0 d' k0 l Hf Hk0. cbn beta in Hf.
    destruct (d0 !! k) as [l1|] eqn:H1; cbn in Hf; [|done].
    destruct (d0 !! k') as [l2|] eqn:H2; cbn in Hf; [|done]. injection Hf as <-.
    destruct (decide (k0 = k')) as [->|Hne1].
    { rewrite lookup_insert_eq in Hk0. injection Hk0 as <-. by exists k. }
    rewrite lookup_insert_ne in Hk0; [|done].
    destruct (decide (k0 = k)) as [->|Hne2].
    { rewrite lookup_insert_eq in Hk0. injection Hk0 as <-. by exists k'. }
    rewrite lookup_insert_ne in Hk0; [|done]. by exists k0.
  - (* ClearSlownik *)
    eapply zmien_slownik_nastepuje; [|done..].
    intros d0 d' k0 l Hf Hk0. cbn beta in Hf. injection Hf as <-.
    by rewrite lookup_empty in Hk0.
  - (* NowySlownik *)
    destruct (przydziel_swiezy
                (Obiekty.OSlownik
                   (omap (λ j, Obiekty.slownik (Obiekty.pamiec c)
                                 (Obiekty.o_opisy_krokow c) !! j) zr))
                (Obiekty.pamiec c)) as (Hf & Hsub & Hl & Hdom).
    destruct (Obiekty.przydziel _ (Obiekty.pamiec c)) as [h l].
    cbn [fst snd] in Hf, Hsub, Hl, Hdom. injection Hz as <-.
    assert (Hw : ∀ k x,
      omap (λ j, Obiekty.slownik (Obiekty.pamiec c) (Obiekty.o_opisy_krokow c) !! j)
           zr !! k = Some x → ∃ j, d !! j = Some x).
    { intros k x Hk. rewrite lookup_omap in Hk.
      destruct (zr !! k) as [j|]; [|done]. cbn in Hk.
      unfold Obiekty.slownik in Hk. rewrite Hdd in Hk. by exists j. }
    split; [done|]. split; [|split; [|split; [|split]]]; cbn.
    + intros x Hx _. apply elem_of_dom in Hx as [o Ho]. rewrite Ho.
      by eapply lookup_weaken.
    + intros x Hx. unfold Obiekty.zasieg_zywy in Hx. cbn in Hx.
      apply elem_of_zasieg in Hx. unfold Obiekty.slownik in Hx at 1.
      rewrite Hl in Hx. apply elem_of_union.
      destruct Hx as [-> | [-> | [k Hk]]].
      * left. apply elem_of_zasieg. by left.
      * right. apply elem_of_difference. split; [|done]. rewrite Hdom.
        by apply elem_of_union_l, elem_of_singleton.
      * left. destruct (Hw k x Hk) as [j Hj]. by apply (zasieg_zywy_wartosc c d j).
    + exists xs. by eapply lookup_weaken.
    + eexists. split; [exact Hl|].
      intros k x Hk. destruct (Hw k x Hk) as [j Hj].
      destruct (Hv j x Hj) as [v Hx]. exists v. by eapply lookup_weaken.
    + done.
Qed.

(** ** Snapshots, undo and redo on objects *)

(** New objects change nothing for the references that exist. *)
Lemma rama (h h' : Obiekty.sterta) (il op : Obiekty.adres) :
  h ⊆ h' → Obiekty.jest_lista h il → Obiekty.jest_slownikiem h op →
  Obiekty.czytaj_liste h' il = Obiekty.czytaj_liste h il ∧
  Obiekty.czytaj_opisy h' op = Obiekty.czytaj_opisy h op ∧
  Obiekty.zasieg h' il op = Obiekty.zasieg h il op ∧
  Obiekty.jest_lista h' il ∧ Obiekty.jest_slownikiem h' op.
Proof.
  intros Hsub Hil Hop.
  destruct (czytanie_zgodne h h' il op (czytanie_subseteq h h' il op Hsub Hil Hop))
    as (H1 & _ & H2 & H3 & H4 & H5).
  split; [done|]. split; [done|]. split; [done|]. split; [by apply H4|by apply H5].
Qed.

Lemma rama_migawki (h h' : Obiekty.sterta) (s : Obiekty.migawka) :
  h ⊆ h' → Obiekty.jest_lista h (Obiekty.m_ilustracje s) →
  Obiekty.jest_slownikiem h (Obiekty.m_opisy_krokow s) →
  Obiekty.wartosc_migawki h' s = Obiekty.wartosc_migawki h s.
Proof.
  intros Hsub Hil Hop. destruct (rama h h' _ _ Hsub Hil Hop) as (H1 & H2 & _).
  unfold Obiekty.wartosc_migawki. by rewrite H1 H2.
Qed.

(** The row that is current after [setCurrentRow(k)] on a refilled list
    is [k] or none, and the selected step stays [k]. *)
Lemma wybrany_po_odswiezeniu (k : Z) (n : nat) :
  (if decide (0 ≤ currentRow (setCurrentRow k (Lista n (-1)))
              ∧ currentRow (setCurrentRow k (Lista n (-1))) < Z.of_nat n)
   then Some (currentRow (setCurrentRow k (Lista n (-1)))) else Some k) = Some k.
Proof.
  unfold setCurrentRow. cbn [currentRow count].
  destruct (decide (0 ≤ k < Z.of_nat n)) as [Hk|Hk].
  - by destruct (decide _).
  - destruct (decide (0 ≤ -1 ∧ -1 < Z.of_nat n)) as [Hm|Hm]; [lia|done].
Qed.

Lemma przywroc_stan_spec (c : Obiekty.okno) (s : Obiekty.migawka) (i : Z) :
  Obiekty.dobre c → s ∈ Obiekty.o_stan_historia c →
  -1 ≤ i < Z.of_nat (length (Obiekty.o_stan_historia c)) →
  ∃ c', Obiekty.przywroc_stan s
          (Obiekty.set_historia (Obiekty.o_stan_historia c) i c) = Some c' ∧
        Obiekty.nastepuje c c' ∧
        Obiekty.czytaj_liste (Obiekty.pamiec c') (Obiekty.o_ilustracje c')
          = Obiekty.czytaj_liste (Obiekty.pamiec c) (Obiekty.m_ilustracje s) ∧
        Obiekty.czytaj_opisy (Obiekty.pamiec c') (Obiekty.o_opisy_krokow c')
          = Obiekty.czytaj_opisy (Obiekty.pamiec c) (Obiekty.m_opisy_krokow s) ∧
        Obiekty.o_dok c'
          = Pola (Obiekty.m_kod s) (Obiekty.m_nazwa s) (Obiekty.m_data s)
                 (Obiekty.m_autor s) ∧
        Obiekty.o_aktualny_wybrany_krok c' = Obiekty.m_aktualny_wybrany_krok s ∧
        Obiekty.o_steps_list c'
          = (let w := Lista (length (Obiekty.czytaj_liste (Obiekty.pamiec c)
                                       (Obiekty.m_ilustracje s))) (-1) in
             match Obiekty.m_aktualny_wybrany_krok s with
             | Some k => setCurrentRow k w
             | None => w
             end) ∧
        Obiekty.o_opc c' = Obiekty.o_opc c ∧
        Obiekty.o_aktualny_stan_index c' = i.
Proof.
  intros Hd Hs Hi. pose proof Hd as (Hil & Hop & Hh & _).
  rewrite Forall_forall in Hh. destruct (Hh s Hs) as (Hsl & Hsd & _).
  destruct (kopie_spec (Obiekty.pamiec c) _ _ Hsl Hsd)
    as (h1 & il' & h2 & op' & Hc1 & Hc2 & Hsub & Hl2 & Hd2 & Hr1 & Hr2 & Hfr).
  unfold Obiekty.przywroc_stan. cbn [Obiekty.pamiec Obiekty.set_historia].
  rewrite Hc1. cbn. rewrite Hc2. cbn.
  assert (Hn : ∀ c', Obiekty.pamiec c' = h2 → Obiekty.o_ilustracje c' = il' →
                     Obiekty.o_opisy_krokow c' = op' →
                     Obiekty.o_stan_historia c' = Obiekty.o_stan_historia c →
                     Obiekty.o_aktualny_stan_index c' = i →
                     Obiekty.nastepuje c c').
  { intros c' E1 E2 E3 E4 E5. unfold Obiekty.nastepuje, Obiekty.zasieg_zywy.
    rewrite E1 E2 E3 E4 E5. split; [done|]. split; [|split; [|done]].
    - intros l Hl _. apply elem_of_dom in Hl as [o Ho]. rewrite Ho.
      by eapply lookup_weaken.
    - intros l Hl. apply elem_of_union_r, elem_of_difference. split.
      + by apply (zasieg_dom h2 il' op').
      + intros Hin. by apply (Hfr l). }
  rewrite Hr1.
  destruct (Obiekty.m_aktualny_wybrany_krok s) as [k|] eqn:Hk.
  - eexists. split; [reflexivity|]. cbn.
    split; [by apply Hn|]. rewrite wybrany_po_odswiezeniu. done.
  - eexists. split; [reflexivity|]. cbn. split; [by apply Hn|]. done.
Qed.

Lemma py_index_elem_of {A} (l : list A) (i : Z) (x : A) :
  py_index l i = Some x → x ∈ l.
Proof.
  unfold py_index. repeat case_decide; try done; apply list_elem_of_lookup_2.
Qed.

Lemma cofnij_nastepuje (c c' : Obiekty.okno) :
  Obiekty.dobre c → Obiekty.cofnij c = Some c' → Obiekty.nastepuje c c'.
Proof.
  intros Hd Hc. unfold Obiekty.cofnij in Hc.
  destruct (decide (0 < Obiekty.o_aktualny_stan_index c)) as [Hi|Hi].
  - destruct (py_index _ _) as [s|] eqn:Hs; [|done]. cbn in Hc.
    apply py_index_elem_of in Hs.
    destruct (przywroc_stan_spec c s (Obiekty.o_aktualny_stan_index c - 1) Hd Hs)
      as (c1 & Hc1 & Hn & _).
    { destruct Hd as (_ & _ & _ & ?). lia. }
    rewrite Hc1 in Hc. by injection Hc as <-.
  - injection Hc as <-. by apply nastepuje_refl.
Qed.

Lemma przywroc_nastepuje (c c' : Obiekty.okno) :
  Obiekty.dobre c → Obiekty.przywroc c = Some c' → Obiekty.nastepuje c c'.
Proof.
  intros Hd Hc. unfold Obiekty.przywroc in Hc.
  destruct (decide _) as [Hi|Hi].
  - destruct (py_index _ _) as [s|] eqn:Hs; [|done]. cbn in Hc.
    apply py_index_elem_of in Hs.
    destruct (przywroc_stan_spec c s (Obiekty.o_aktualny_stan_index c + 1) Hd Hs)
      as (c1 & Hc1 & Hn & _).
    { destruct Hd as (_ & _ & _ & ?). lia. }
    rewrite Hc1 in Hc. by injection Hc as <-.
  - injection Hc as <-. by apply nastepuje_refl.
Qed.

(** Whatever happens after a snapshot was taken, the history reads as
    before. *)
Lemma wykonaj_historia (zs : list Obiekty.zdarzenie) (c c' : Obiekty.okno) :
  Obiekty.dobre c → Obiekty.wykonaj zs c = Some c' →
  Obiekty.dobre c' ∧ Obiekty.wartosci_historii c' = Obiekty.wartosci_historii c.
Proof.
  revert c. induction zs as [|z zs IH]; intros c Hd Hw.
  { injection Hw as <-. done. }
  cbn [Obiekty.wykonaj] in Hw.
  destruct (Obiekty.krok_zdarzenia z c) as [c1|] eqn:Hz; [|done]. cbn in Hw.
  assert (Hn : Obiekty.nastepuje c c1).
  { destruct z; cbn in Hz.
    - by eapply wykonaj_zmiane_nastepuje.
    - by apply cofnij_nastepuje.
    - by apply przywroc_nastepuje. }
  destruct (nastepuje_dobre c c1 Hd Hn) as [Hd1 Hh1].
  destruct (IH c1 Hd1 Hw) as [Hd' Hh']. split; [done|]. by rewrite Hh'.
Qed.

(** ** The two models agree *)

Lemma wartosci_rama (h h' : Obiekty.sterta) (hist : list Obiekty.migawka) :
  h ⊆ h' →
  Forall (λ s, Obiekty.jest_lista h (Obiekty.m_ilustracje s) ∧
               Obiekty.jest_slownikiem h (Obiekty.m_opisy_krokow s)) hist →
  Obiekty.wartosc_migawki h' <$> hist = Obiekty.wartosc_migawki h <$> hist.
Proof.
  intros Hsub Hall. apply list_fmap_ext. intros i s Hs.
  rewrite Forall_forall in Hall.
  destruct (Hall s (list_elem_of_lookup_2 _ _ _ Hs)) as [Hl Hd].
  by apply rama_migawki.
Qed.

(** [zapisz_stan] on objects returns, keeps the store well formed, makes
    its snapshot of objects that did not exist before, and is [zapisz_stan]
    on values. *)
Lemma zapisz_stan_obiekty (r : app) (c : Obiekty.okno) :
  Obiekty.dobre c →
  ∃ c' s, Obiekty.zapisz_stan c = Some c' ∧ Obiekty.dobre c' ∧
          last (Obiekty.o_stan_historia c') = Some s ∧
          Obiekty.wartosc_migawki (Obiekty.pamiec c') s
            = biezacy_stan (Obiekty.wartosc r c) ∧
          Obiekty.zasieg_migawki (Obiekty.pamiec c') s ## dom (Obiekty.pamiec c) ∧
          Obiekty.pamiec c ⊆ Obiekty.pamiec c' ∧
          Obiekty.wartosc r c' = zapisz_stan (Obiekty.wartosc r c).
Proof.
  intros (Hil & Hop & Hh & Hi).
  destruct (kopie_spec (Obiekty.pamiec c) _ _ Hil Hop)
    as (h1 & il' & h2 & op' & Hc1 & Hc2 & Hsub & Hl2 & Hd2 & Hr1 & Hr2 & Hfr).
  unfold Obiekty.zapisz_stan. rewrite Hc1. cbn. rewrite Hc2. cbn.
  set (stan := Obiekty.Migawka il' op' _ _ _ _ _).
  destruct (rama _ _ _ _ Hsub Hil Hop) as (Hf1 & Hf2 & Hf3 & Hf4 & Hf5).
  assert (Hwf : Forall (λ s, Obiekty.jest_lista (Obiekty.pamiec c)
                               (Obiekty.m_ilustracje s) ∧
                             Obiekty.jest_slownikiem (Obiekty.pamiec c)
                               (Obiekty.m_opisy_krokow s))
                       (Obiekty.o_stan_historia c)).
  { eapply Forall_impl; [exact Hh|]. by intros s (? & ? & _). }
  assert (Hstan : Obiekty.wartosc_migawki h2 stan
                  = biezacy_stan (Obiekty.wartosc r c)).
  { unfold Obiekty.wartosc_migawki, biezacy_stan. cbn. by rewrite Hr1 Hr2. }
  assert (Hnowa : Obiekty.jest_lista h2 (Obiekty.m_ilustracje stan) ∧
                  Obiekty.jest_slownikiem h2 (Obiekty.m_opisy_krokow stan) ∧
                  Obiekty.zasieg_migawki h2 stan
                    ## Obiekty.zasieg h2 (Obiekty.o_ilustracje c)
                         (Obiekty.o_opisy_krokow c)).
  { split; [done|]. split; [done|]. rewrite Hf3. intros l Hx1 Hx2.
    apply (Hfr l Hx1). by apply (zasieg_dom _ _ _ Hil Hop). }
  assert (Hstare : ∀ hist, Forall (λ s,
      Obiekty.jest_lista (Obiekty.pamiec c) (Obiekty.m_ilustracje s) ∧
      Obiekty.jest_slownikiem (Obiekty.pamiec c) (Obiekty.m_opisy_krokow s) ∧
      Obiekty.zasieg_migawki (Obiekty.pamiec c) s ## Obiekty.zasieg_zywy c) hist →
    Forall (λ s,
      Obiekty.jest_lista h2 (Obiekty.m_ilustracje s) ∧
      Obiekty.jest_slownikiem h2 (Obiekty.m_opisy_krokow s) ∧
      Obiekty.zasieg_migawki h2 s
        ## Obiekty.zasieg h2 (Obiekty.o_ilustracje c) (Obiekty.o_opisy_krokow c))
      (hist ++ [stan])).
  { intros hist Hall. apply Forall_app. split; [|by constructor].
    eapply Forall_impl; [exact Hall|]. intros s (Hsl & Hsd & Hdis).
    destruct (rama _ _ _ _ Hsub Hsl Hsd) as (_ & _ & Hz & Hl' & Hd').
    split; [done|]. split; [done|].
    unfold Obiekty.zasieg_migawki. by rewrite Hz Hf3. }
  destruct (decide (maks_historia ≤ Z.of_nat (length (Obiekty.o_stan_historia c))))
    as [Hpelna|Hpelna].
  - eexists _, stan. split; [reflexivity|].
    split; [|split; [|split; [|split; [|split]]]].
    + split; [done|]. split; [done|]. split.
      * apply Hstare. by apply Forall_drop.
      * cbn. rewrite length_app /=. lia.
    + cbn. by rewrite last_snoc.
    + done.
    + done.
    + done.
    + unfold Obiekty.wartosc, zapisz_stan, Obiekty.wartosci_historii. cbn.
      rewrite length_fmap. rewrite decide_True; [|done].
      rewrite fmap_app fmap_drop /= Hstan Hf1 Hf2.
      rewrite !length_app !length_drop !length_fmap /=.
      rewrite (wartosci_rama _ _ _ Hsub Hwf).
      rewrite /set_historia /=. done.
  - eexists _, stan. split; [reflexivity|].
    split; [|split; [|split; [|split; [|split]]]].
    + split; [done|]. split; [done|]. split.
      * by apply Hstare.
      * cbn. rewrite length_app /=. lia.
    + cbn. by rewrite last_snoc.
    + done.
    + done.
    + done.
    + unfold Obiekty.wartosc, zapisz_stan, Obiekty.wartosci_historii. cbn.
      rewrite length_fmap. rewrite decide_False; [|done].
      rewrite fmap_app /= Hstan Hf1 Hf2.
      rewrite !length_app !length_fmap /=.
      rewrite (wartosci_rama _ _ _ Hsub Hwf).
      rewrite /set_historia /=. done.
Qed.

Lemma py_index_fmap {A B} (f : A → B) (l : list A) (i : Z) :
  py_index (f <$> l) i = f <$> py_index l i.
Proof.
  unfold py_index. rewrite length_fmap.
  repeat case_decide; by rewrite ?list_lookup_fmap.
Qed.

(** The value of the window after [przywroc_stan] on objects is
    [przywroc_stan] on values. *)
Lemma przywroc_stan_obiekty (r : app) (c : Obiekty.okno) (s : Obiekty.migawka)
    (i : Z) :
  Obiekty.dobre c → s ∈ Obiekty.o_stan_historia c →
  -1 ≤ i < Z.of_nat (length (Obiekty.o_stan_historia c)) →
  ∃ c', Obiekty.przywroc_stan s
          (Obiekty.set_historia (Obiekty.o_stan_historia c) i c) = Some c' ∧
        Obiekty.dobre c' ∧
        Obiekty.wartosc r c'
          = przywroc_stan (Obiekty.wartosc_migawki (Obiekty.pamiec c) s)
              (set_historia (Obiekty.wartosci_historii c) i (Obiekty.wartosc r c)).
Proof.
  intros Hd Hs Hi.
  destruct (przywroc_stan_spec c s i Hd Hs Hi)
    as (c' & Hc' & Hn & Hr1 & Hr2 & Hdok & Hwyb & Hsl & Hopc & Hidx).
  destruct (nastepuje_dobre c c' Hd Hn) as [Hd' Hh'].
  exists c'. split; [done|]. split; [done|].
  unfold Obiekty.wartosc. rewrite Hr1 Hr2 Hdok Hwyb Hsl Hopc Hidx Hh'.
  unfold przywroc_stan, odswiez_liste, pokaz_podglad. cbn.
  destruct (Obiekty.m_aktualny_wybrany_krok s) as [k|]; [|done].
  unfold setCurrentRow. cbn.
  destruct (decide (0 ≤ k < Z.of_nat (length _))) as [Hk|Hk]; cbn.
  - destruct (decide _) as [?|?]; [done|lia].
  - destruct (decide _) as [?|?]; [lia|done].
Qed.

Lemma cofnij_obiekty (r : app) (c : Obiekty.okno) :
  Obiekty.dobre c →
  ∃ c', Obiekty.cofnij c = Some c' ∧ Obiekty.dobre c' ∧
        cofnij (Obiekty.wartosc r c) = Some (Obiekty.wartosc r c').
Proof.
  intros Hd. pose proof Hd as (_ & _ & _ & Hi).
  unfold Obiekty.cofnij, cofnij. cbn [Obiekty.wartosc aktualny_stan_index stan_historia].
  destruct (decide (0 < Obiekty.o_aktualny_stan_index c)) as [Hpos|Hpos].
  - unfold Obiekty.wartosci_historii at 1. rewrite py_index_fmap.
    destruct (py_index_is_Some (Obiekty.o_stan_historia c)
                (Obiekty.o_aktualny_stan_index c - 1)) as [s Hs]; [lia|].
    rewrite Hs. cbn.
    destruct (przywroc_stan_obiekty r c s (Obiekty.o_aktualny_stan_index c - 1) Hd)
      as (c' & Hc' & Hd' & Hw); [by eapply py_index_elem_of|lia|].
    exists c'. split; [done|]. split; [done|]. by rewrite Hw.
  - by exists c.
Qed.

Lemma przywroc_obiekty (r : app) (c : Obiekty.okno) :
  Obiekty.dobre c →
  ∃ c', Obiekty.przywroc c = Some c' ∧ Obiekty.dobre c' ∧
        przywroc (Obiekty.wartosc r c) = Some (Obiekty.wartosc r c').
Proof.
  intros Hd. pose proof Hd as (_ & _ & _ & Hi).
  unfold Obiekty.przywroc, przywroc.
  cbn [Obiekty.wartosc aktualny_stan_index stan_historia].
  unfold Obiekty.wartosci_historii at 1. rewrite length_fmap.
  destruct (decide (Obiekty.o_aktualny_stan_index c
                    < Z.of_nat (length (Obiekty.o_stan_historia c)) - 1))
    as [Hpos|Hpos].
  - unfold Obiekty.wartosci_historii at 1. rewrite py_index_fmap.
    destruct (py_index_is_Some (Obiekty.o_stan_historia c)
                (Obiekty.o_aktualny_stan_index c + 1)) as [s Hs]; [lia|].
    rewrite Hs. cbn.
    destruct (przywroc_stan_obiekty r c s (Obiekty.o_aktualny_stan_index c + 1) Hd)
      as (c' & Hc' & Hd' & Hw); [by eapply py_index_elem_of|lia|].
    exists c'. split; [done|]. split; [done|]. by rewrite Hw.
  - by exists c.
Qed.

(** ** What a snapshot holds and what undo puts back *)

(** After [przywroc_stan] the seven recorded components are those of the
    snapshot; the options, the language and the history are untouched. *)
Lemma przywroc_stan_biezacy (s : stan) (a : app) :
  biezacy_stan (przywroc_stan s a) = s ∧
  opc (przywroc_stan s a) = opc a ∧
  stan_historia (przywroc_stan s a) = stan_historia a ∧
  aktualny_stan_index (przywroc_stan s a) = aktualny_stan_index a.
Proof.
  destruct s as [il op [k|] kod nazwa data autor];
    unfold przywroc_stan, odswiez_liste, pokaz_podglad, biezacy_stan; cbn;
    [|done].
  unfold setCurrentRow. cbn.
  destruct (decide (0 ≤ k < Z.of_nat (length il))) as [Hk|Hk]; cbn.
  - by destruct (decide _) as [?|?].
  - destruct (decide _) as [?|?]; [lia|done].
Qed.

Lemma cofnij_biezacy_stan (a a' : app) :
  cofnij a = Some a' →
  opc a' = opc a ∧ stan_historia a' = stan_historia a ∧
  (0 < aktualny_stan_index a →
   aktualny_stan_index a' = aktualny_stan_index a - 1 ∧
   py_index (stan_historia a) (aktualny_stan_index a - 1)
     = Some (biezacy_stan a')).
Proof.
  unfold cofnij. intros Hc.
  destruct (decide (0 < aktualny_stan_index a)) as [Hi|Hi].
  - cbn in Hc. destruct (py_index _ _) as [s|] eqn:Hs; [|done]. cbn in Hc.
    injection Hc as <-.
    destruct (przywroc_stan_biezacy s
                (set_historia (stan_historia a) (aktualny_stan_index a - 1) a))
      as (-> & -> & -> & ->).
    done.
  - injection Hc as <-. split; [done|]. split; [done|]. lia.
Qed.

(** C4, as the code has it.  A snapshot is a deep copy of the list of
    images, of the step names and descriptions, of the selected step and of
    the code, name, date and author; it holds neither the layout, size and
    font options nor the language.  In a well-formed store [zapisz_stan]
    returns; the snapshot it appends reads as these seven components of the
    live state, and its objects did not exist before.  Whatever changes of
    the live lists, dictionaries, fields and options, undos and redos
    follow, every stored snapshot reads as it did.  Undo then returns: it
    leaves the options and the language as they are, and with a positive
    cursor it puts back the seven components of the snapshot before the
    cursor. *)
Theorem migawka_gleboka_kopia (r : app) (c : Obiekty.okno) :
  Obiekty.dobre c →
  ∃ c1 s,
    Obiekty.zapisz_stan c = Some c1 ∧
    Obiekty.wartosc r c1 = zapisz_stan (Obiekty.wartosc r c) ∧
    last (Obiekty.o_stan_historia c1) = Some s ∧
    Obiekty.wartosc_migawki (Obiekty.pamiec c1) s
      = biezacy_stan (Obiekty.wartosc r c) ∧
    Obiekty.zasieg_migawki (Obiekty.pamiec c1) s ## dom (Obiekty.pamiec c) ∧
    ∀ zs c2,
      Obiekty.wykonaj zs c1 = Some c2 →
      Obiekty.wartosci_historii c2 = Obiekty.wartosci_historii c1 ∧
      ∃ c3,
        Obiekty.cofnij c2 = Some c3 ∧
        cofnij (Obiekty.wartosc r c2) = Some (Obiekty.wartosc r c3) ∧
        Obiekty.wartosci_historii c3 = Obiekty.wartosci_historii c1 ∧
        Obiekty.o_opc c3 = Obiekty.o_opc c2 ∧
        (0 < Obiekty.o_aktualny_stan_index c2 →
         py_index (Obiekty.wartosci_historii c1)
                  (Obiekty.o_aktualny_stan_index c2 - 1)
           = Some (biezacy_stan (Obiekty.wartosc r c3))).
Proof.
  intros Hd.
  destruct (zapisz_stan_obiekty r c Hd)
    as (c1 & s & Hz & Hd1 & Hlast & Hval & Hnew & _ & Hw).
  exists c1, s. do 5 (split; [done|]).
  intros zs c2 Hzs.
  destruct (wykonaj_historia zs c1 c2 Hd1 Hzs) as [Hd2 Hh2].
  split; [done|].
  destruct (cofnij_obiekty r c2 Hd2) as (c3 & Hc3 & Hd3 & Hp3).
  exists c3. split; [done|]. split; [done|].
  destruct (cofnij_biezacy_stan _ _ Hp3) as (Hopc & Hhist & Hidx).
  cbn in Hopc, Hhist, Hidx.
  split; [by rewrite Hhist|]. split; [done|].
  intros Hpos. destruct (Hidx Hpos) as [_ Hpy]. by rewrite -Hh2.
Qed.

Lemma o_puste_dobre : Obiekty.dobre Obiekty.o_puste.
Proof.
  split; [by exists []|]. split; [|split; [by constructor|done]].
  exists ∅. split; [done|]. intros k l Hk. by rewrite lookup_empty in Hk.
Qed.

Lemma o_trzy_dobre : Obiekty.dobre Obiekty.o_trzy.
Proof.
  apply (wykonaj_historia (Obiekty.Zmien <$> Obiekty.dodaj_trzy) Obiekty.o_puste).
  - apply o_puste_dobre.
  - by vm_compute.
Qed.

Lemma migawka_gleboka_kopia_witness :
  ∃ c1 s,
    Obiekty.zapisz_stan Obiekty.o_trzy = Some c1 ∧
    Obiekty.wartosc a_start c1 = zapisz_stan (Obiekty.wartosc a_start Obiekty.o_trzy) ∧
    last (Obiekty.o_stan_historia c1) = Some s ∧
    Obiekty.wartosc_migawki (Obiekty.pamiec c1) s
      = biezacy_stan (Obiekty.wartosc a_start Obiekty.o_trzy) ∧
    Obiekty.zasieg_migawki (Obiekty.pamiec c1) s
      ## dom (Obiekty.pamiec Obiekty.o_trzy) ∧
    ∀ zs c2,
      Obiekty.wykonaj zs c1 = Some c2 →
      Obiekty.wartosci_historii c2 = Obiekty.wartosci_historii c1 ∧
      ∃ c3,
        Obiekty.cofnij c2 = Some c3 ∧
        cofnij (Obiekty.wartosc a_start c2) = Some (Obiekty.wartosc a_start c3) ∧
        Obiekty.wartosci_historii c3 = Obiekty.wartosci_historii c1 ∧
        Obiekty.o_opc c3 = Obiekty.o_opc c2 ∧
        (0 < Obiekty.o_aktualny_stan_index c2 →
         py_index (Obiekty.wartosci_historii c1)
                  (Obiekty.o_aktualny_stan_index c2 - 1)
           = Some (biezacy_stan (Obiekty.wartosc a_start c3))).
Proof.
  apply (migawka_gleboka_kopia a_start Obiekty.o_trzy).
  split; [by eexists|]. split; [|split; [by constructor|done]].
  eexists. split; [reflexivity|].
  intros k l Hk.
  destruct (decide (k = 0)) as [->|?]; [injection Hk as <-; by eexists|].
  destruct (decide (k = 1)) as [->|?]; [injection Hk as <-; by eexists|].
  destruct (decide (k = 2)) as [->|?]; [injection Hk as <-; by eexists|].
  exfalso. revert Hk. rewrite !lookup_insert_ne; [|done..]. by rewrite lookup_empty.
Defined.

(** The snapshot of the three steps after the second step was renamed in
    place, the first image replaced and the third step removed: the stored
    names and paths are the old ones. *)
Example migawka_po_zmianach :
  (c1 ← Obiekty.zapisz_stan Obiekty.o_trzy;
   c2 ← Obiekty.wykonaj Obiekty.po_migawce c1;
   Some (Obiekty.czytaj_liste (Obiekty.pamiec c2) (Obiekty.o_ilustracje c2),
         k_nazwa <$> Obiekty.czytaj_opisy (Obiekty.pamiec c2)
                       (Obiekty.o_opisy_krokow c2) !! 1,
         (λ v, (s_ilustracje v, k_nazwa <$> s_opisy_krokow v !! 1))
           <$> Obiekty.wartosci_historii c2))
  = Some (["/home/ola/nowy.png"; "/home/ola/b.png"], Some "Kontrola",
          [(["/home/ola/a.png"; "/home/ola/b.png"; "/home/ola/c.png"],
            Some "Pomiar")]).
Proof. by vm_compute. Qed.

(** C4 as stated fails.  The language is switched to English after
    start-up, a snapshot is recorded and the code is typed: undo puts back
    the code of the snapshot taken at start-up, and the language stays
    English. *)
Lemma cofniecie_bez_jezyka : ¬ cofniecie_do a_start a_po_angielsku.
Proof.
  intros (a' & Hc & _ & _ & _ & _ & _ & Hopc).
  vm_compute in Hc. injection Hc as <-. vm_compute in Hopc. discriminate Hopc.
Qed.

Example cofniecie_po_angielsku :
  (a' ← cofnij a_po_angielsku;
   Some (kod_edit (dok a'), jezyk (opc a'), jezyk (opc a_start)))
  = Some ("xxx-xxxx-xxx", "angielski", "polski").
Proof. by vm_compute. Qed.

(** * Further properties of the code *)

(** ** Loading: what is touched and what is left *)

Lemma slad_refl (s : app * pliki) : slad_wczytania s s.
Proof. by repeat split. Qed.

Lemma slad_trans (s1 s2 s3 : app * pliki) :
  slad_wczytania s1 s2 → slad_wczytania s2 s3 → slad_wczytania s1 s3.
Proof.
  intros (H1 & H2 & H3 & H4 & H5) (G1 & G2 & G3 & G4 & G5).
  split; [congruence|]. split; [congruence|]. split; [congruence|].
  split; [congruence|]. intros q Hq. rewrite G5; [by apply H5|].
  rewrite H1. exact Hq.
Qed.

Lemma slad_bind {A B} (c : M A) (k : A → M B) (s : app * pliki) :
  slad_wczytania s (c s).1 →
  (∀ x, (c s).2 = Some x → slad_wczytania (c s).1 (k x (c s).1).1) →
  slad_wczytania s ((c ≫= k) s).1.
Proof.
  intros Hc Hk. unfold mbind, M_bind.
  destruct (c s) as [s1 [x|]]; [|done].
  eapply slad_trans; [exact Hc|]. by apply Hk.
Qed.

Lemma slad_lift {A} (o : option A) (s : app * pliki) :
  slad_wczytania s (lift o s).1.
Proof. apply slad_refl. Qed.

Lemma slad_zmiana (g : app → app) (s : app * pliki) :
  temp_dir (g s.1) = temp_dir s.1 →
  autosave_dir (g s.1) = autosave_dir s.1 →
  autosave_enabled (g s.1) = autosave_enabled s.1 →
  aktualny_wybrany_krok (g s.1) = aktualny_wybrany_krok s.1 →
  slad_wczytania s (zmiana g s).1.
Proof. intros H1 H2 H3 H4. by repeat split. Qed.

Lemma slad_zmiana_opc (g : opcje → opcje) (s : app * pliki) :
  slad_wczytania s (zmiana_opc g s).1.
Proof. by apply slad_zmiana. Qed.

Ltac slad_krok :=
  first
    [ apply slad_lift
    | apply slad_zmiana_opc
    | apply slad_zmiana; reflexivity
    | apply slad_refl ].

Lemma slad_wczytaj_pola (projekt : json) (s : app * pliki) :
  slad_wczytania s (wczytaj_pola projekt s).1.
Proof.
  unfold wczytaj_pola.
  repeat (apply slad_bind; [slad_krok|intros ? _]). slad_krok.
Qed.

Lemma slad_wczytaj_ustawienia (projekt : json) (s : app * pliki) :
  slad_wczytania s (wczytaj_ustawienia projekt s).1.
Proof.
  unfold wczytaj_ustawienia.
  repeat (apply slad_bind; [slad_krok|intros ? _]).
  destruct projekt as [| | | | |l]; try apply slad_refl.
  destruct (jget "tlumaczenia" l); [apply slad_zmiana_opc|apply slad_refl].
Qed.

Lemma slad_wczytaj_opisy (projekt : json) (s : app * pliki) :
  slad_wczytania s (wczytaj_opisy projekt s).1.
Proof.
  unfold wczytaj_opisy.
  repeat (apply slad_bind; [slad_krok|intros ? _]). slad_krok.
Qed.

Lemma slad_zapisz_plik (i : nat) (n : string) (b : list byte) (s : app * pliki) :
  slad_wczytania s (zapisz_plik (sciezka_wczytana (temp_dir s.1) i n) b s).1.
Proof.
  unfold zapisz_plik, write_bytes.
  destruct (s.2 !! _) as [[| |]|]; try apply slad_refl;
    (do 4 (split; [done|]); intros q Hq; cbn;
     rewrite lookup_insert_ne; [done|]; intros Heq; by apply (Hq i n)).
Qed.

Lemma slad_wczytaj_obraz `{Biblioteki} (obrazy : json) (i : nat) (s : app * pliki) :
  slad_wczytania s (wczytaj_obraz obrazy i s).1.
Proof.
  unfold wczytaj_obraz.
  apply slad_bind; [slad_krok|]. intros [obraz_data|] _; [|apply slad_refl].
  apply slad_bind; [slad_krok|]. intros nazwa_pliku _.
  apply slad_bind; [slad_krok|]. intros dane_base64 _.
  apply slad_bind; [slad_krok|]. intros dane _.
  apply slad_bind; [slad_krok|]. intros obraz_binary _.
  apply slad_bind; [apply slad_refl|]. intros tmp Htmp.
  cbn in Htmp. injection Htmp as <-. cbn [fst odczyt].
  apply slad_bind; [apply slad_zapisz_plik|]. intros [] _.
  by apply slad_zmiana.
Qed.

Lemma slad_dla_kazdego {A} (g : A → M ()) (l : list A) :
  (∀ x s, slad_wczytania s (g x s).1) →
  ∀ s, slad_wczytania s (dla_kazdego g l s).1.
Proof.
  intros Hg. induction l as [|x l IH]; intros s; [apply slad_refl|].
  cbn [dla_kazdego]. apply slad_bind; [apply Hg|]. intros [] _. apply IH.
Qed.

Lemma slad_wczytaj_obrazy `{Biblioteki} (projekt : json) (s : app * pliki) :
  slad_wczytania s (wczytaj_obrazy projekt s).1.
Proof.
  unfold wczytaj_obrazy.
  apply slad_bind; [by apply slad_zmiana|]. intros [] _.
  apply slad_bind; [slad_krok|]. intros obrazy _.
  apply slad_bind; [slad_krok|]. intros n _.
  apply slad_dla_kazdego. intros i s'. apply slad_wczytaj_obraz.
Qed.

Lemma slad_zapisz_stan (a : app) :
  temp_dir (zapisz_stan a) = temp_dir a ∧
  autosave_dir (zapisz_stan a) = autosave_dir a ∧
  autosave_enabled (zapisz_stan a) = autosave_enabled a.
Proof. unfold zapisz_stan. by case_decide. Qed.

Lemma slad_wczytaj_projekt_try `{Biblioteki} (sciezka : string) (s : app * pliki) :
  slad_wczytania s (wczytaj_projekt_try sciezka s).1.
Proof.
  unfold wczytaj_projekt_try.
  apply slad_bind; [apply slad_refl|]. intros projekt _.
  apply slad_bind; [apply slad_wczytaj_pola|]. intros [] _.
  apply slad_bind; [apply slad_wczytaj_obrazy|]. intros [] _.
  apply slad_bind; [apply slad_wczytaj_opisy|]. intros [] _.
  apply slad_bind; [apply slad_wczytaj_ustawienia|]. intros [] _.
  apply slad_bind; [by apply slad_zmiana|]. intros [] _.
  apply slad_bind; [apply slad_refl|]. intros [] _.
  set (s7 := (odswiez_interfejs _).1).
  destruct (slad_zapisz_stan (set_historia [] (-1) s7.1)) as (H1 & H2 & H3).
  destruct (zapisz_stan_zywe (set_historia [] (-1) s7.1)) as (_ & _ & _ & _ & H4 & _).
  apply slad_zmiana; [by rewrite H1|by rewrite H2|by rewrite H3|by rewrite H4].
Qed.

Lemma sciezka_wczytana_poczatek (tmp : string) (i : nat) (n : string) :
  tmp ≠ "" → ends_with_slash tmp = false →
  sciezka_wczytana tmp i n
    = tmp +:+ "/" +:+ "loaded_" +:+ py_str (Z.of_nat i) +:+ "_" +:+ n.
Proof.
  intros Hne Hsl. unfold sciezka_wczytana, join.
  change ("loaded_" +:+ py_str (Z.of_nat i) +:+ "_" +:+ n)
    with (String "l" ("oaded_" +:+ py_str (Z.of_nat i) +:+ "_" +:+ n)).
  cbv iota beta. rewrite decide_False; [|done]. by rewrite Hsl.
Qed.


Lemma bind_inv {A B} (c : M A) (k : A → M B) (s : app * pliki) (y : B) :
  ((c ≫= k) s).2 = Some y →
  ∃ x, (c s).2 = Some x ∧ (c ≫= k) s = k x (c s).1.
Proof.
  unfold mbind, M_bind. destruct (c s) as [s1 [x|]]; [|done].
  intros _. by exists x.
Qed.

Ltac odwin Hr :=
  let x := fresh "x" in
  let Heq := fresh "Heq" in
  let H1 := fresh "H" in
  pose proof (bind_inv _ _ _ _ Hr) as H1;
  destruct H1 as (x & _ & Heq);
  rewrite Heq in Hr |- *; clear Heq; cbv beta in Hr |- *.

(** The last state of a loading that ran to its end. *)
Lemma wczytaj_projekt_try_koniec `{Biblioteki} (sciezka : string)
    (s : app * pliki) :
  (wczytaj_projekt_try sciezka s).2 = Some () →
  ∃ b fs, (wczytaj_projekt_try sciezka s).1
          = (zapisz_stan (set_historia [] (-1) (odswiez_liste b)), fs).
Proof.
  intros Hr. unfold wczytaj_projekt_try in *.
  do 7 odwin Hr.
  by eexists _, _.
Qed.

(** X2.  When [wczytaj_projekt] runs to its end, the history holds exactly
    one snapshot, that of the loaded state, with the cursor on it, so that
    nothing from before the loading can be undone; the step list is
    refilled and has no current row; and the selected step is the one that
    was selected before the loading, whatever the loaded project holds. *)
Theorem wczytaj_projekt_po_sukcesie `{Biblioteki} (sciezka : string)
    (a : app) (f : pliki) :
  let r := wczytaj_projekt_try sciezka (a, f) in
  r.2 = Some () →
  stan_historia r.1.1 = [biezacy_stan r.1.1] ∧
  aktualny_stan_index r.1.1 = 0 ∧
  steps_list r.1.1 = Lista (length (ilustracje r.1.1)) (-1) ∧
  aktualny_wybrany_krok r.1.1 = aktualny_wybrany_krok a.
Proof.
  intros r Hr.
  destruct (slad_wczytaj_projekt_try sciezka (a, f)) as (_ & _ & _ & Hw & _).
  fold r in Hw. cbn [fst] in Hw.
  destruct (wczytaj_projekt_try_koniec sciezka (a, f) Hr) as (b & fs & Hk).
  fold r in Hk. rewrite Hk in Hw |- *. cbn [fst] in Hw |- *.
  split; [|split; [|split; [|exact Hw]]]; by vm_compute.
Qed.

Lemma wczytaj_projekt_po_sukcesie_witness :
  let r := @wczytaj_projekt_try bib_probna "/home/ola/projekt.json"
             (a_trzy,
              @zapisz_projekt bib_probna "/home/ola/projekt.json"
                (set_ilustracje ["/home/ola/a.png"] a_start) pliki_trzy) in
  stan_historia r.1.1 = [biezacy_stan r.1.1] ∧
  aktualny_stan_index r.1.1 = 0 ∧
  steps_list r.1.1 = Lista (length (ilustracje r.1.1)) (-1) ∧
  aktualny_wybrany_krok r.1.1 = aktualny_wybrany_krok a_trzy.
Proof.
  apply (@wczytaj_projekt_po_sukcesie bib_probna). by vm_compute.
Defined.

(** A project with three steps, the second one selected, loads a project
    with one step: the selection stays on the second step. *)
Example wczytaj_projekt_stary_wybor :
  let r := @wczytaj_projekt bib_probna "/home/ola/projekt.json" a_trzy
             (@zapisz_projekt bib_probna "/home/ola/projekt.json"
                (set_ilustracje ["/home/ola/a.png"] a_start) pliki_trzy) in
  (length (ilustracje r.1), aktualny_wybrany_krok r.1) = (1%nat, Some 1).
Proof. by vm_compute. Qed.

(** X3.  Loading is not atomic.  When the project file holds the four
    fields, no images, and descriptions whose first key is not an integer,
    [int(key)] raises after the fields were overwritten and the image list
    emptied: the controller is left with the new fields, no images, and the
    descriptions, step list, selection, options and history it had; no file
    is written. *)
Theorem wczytaj_projekt_niepelne `{Biblioteki} (sciezka : string) (a : app)
    (f : pliki) (l : list (string * json)) (kod nazwa data autor : string)
    (c : ascii) (klucz : string) (wartosc : json) (reszta : list (string * json)) :
  sciezka ≠ "" →
  read_json f sciezka = Some (JObj l) →
  jget "kod" l = Some (JStr kod) →
  jget "nazwa" l = Some (JStr nazwa) →
  jget "data" l = Some (JStr data) →
  jget "autor" l = Some (JStr autor) →
  jget "obrazy" l = None →
  jget "opisy_krokow" l = Some (JObj ((String c klucz, wartosc) :: reszta)) →
  65 ≤ Z.of_N (N_of_ascii c) ≤ 90 ∨ 97 ≤ Z.of_N (N_of_ascii c) ≤ 122 →
  wczytaj_projekt sciezka a f
    = (set_ilustracje [] (set_dok (Pola kod nazwa data autor) a), f).
Proof.
  intros Hs Hr Hkod Hnazwa Hdata Hautor Hobrazy Hopisy Hc.
  assert (Hk : int_str (String c klucz) = None).
  { assert (Hcyfra : cyfra c = None).
    { unfold cyfra. rewrite decide_False; [done|lia]. }
    unfold int_str.
    destruct c as [[] [] [] [] [] [] [] []]; try discriminate Hcyfra;
      try (by cbn [int_cyfry]; rewrite Hcyfra); cbn in Hc; lia. }
  unfold wczytaj_projekt. rewrite decide_False; [|done].
  unfold wczytaj_projekt_try.
  rewrite (bind_ok _ _ (a, f) (a, f) (JObj l));
    [|unfold wczytaj_json; by rewrite Hr].
  rewrite (bind_ok _ _ (a, f) (set_dok (Pola kod nazwa data autor) a, f) ()).
  2:{ unfold wczytaj_pola, py_get. by rewrite Hkod Hnazwa Hdata Hautor. }
  rewrite (bind_ok _ _ _
             (set_ilustracje [] (set_dok (Pola kod nazwa data autor) a), f) ()).
  2:{ unfold wczytaj_obrazy, py_get. by rewrite Hobrazy. }
  assert (Ho : ∀ s, wczytaj_opisy (JObj l) s = (s, None)).
  { intros s. unfold wczytaj_opisy, py_get. rewrite Hopisy.
    rewrite (bind_ok _ _ s s ((String c klucz, wartosc) :: reszta)); [|done].
    assert (Hnone : opisy_krokow_int_keys ((String c klucz, wartosc) :: reszta) ∅
                    = None).
    { cbn [opisy_krokow_int_keys]. by rewrite Hk. }
    unfold mbind, M_bind, lift. by rewrite Hnone. }
  unfold mbind at 1, M_bind at 1. by rewrite Ho.
Qed.

Lemma wczytaj_projekt_niepelne_witness :
  let l := [("kod", JStr "K-7"); ("nazwa", JStr "Prasa"); ("data", JStr "2024-05-06");
            ("autor", JStr "Ola");
            ("opisy_krokow", JObj [("pierwszy", JObj [("nazwa", JStr "Start");
                                                      ("opis", JStr "Wlacz")])])] in
  @wczytaj_projekt bib_probna "/home/ola/zly.json" a_trzy
    (<["/home/ola/zly.json" := Dokument (JObj l)]> pliki_trzy)
  = (set_ilustracje [] (set_dok (Pola "K-7" "Prasa" "2024-05-06" "Ola") a_trzy),
     <["/home/ola/zly.json" := Dokument (JObj l)]> pliki_trzy).
Proof.
  intros l.
  apply (@wczytaj_projekt_niepelne bib_probna "/home/ola/zly.json" a_trzy _ l
           "K-7" "Prasa" "2024-05-06" "Ola" "p" "ierwszy"
           (JObj [("nazwa", JStr "Start"); ("opis", JStr "Wlacz")]) []);
    try reflexivity.
  - discriminate.
  - right. by vm_compute.
Defined.

(** ** The name of the autosave file *)

Lemma bez_znaku_app (c : ascii) (s1 s2 : string) :
  bez_znaku c (s1 +:+ s2) ↔ bez_znaku c s1 ∧ bez_znaku c s2.
Proof.
  induction s1 as [|x s1 IH].
  - change ("" +:+ s2) with s2. cbn. tauto.
  - change (String x s1 +:+ s2) with (String x (s1 +:+ s2)). cbn. tauto.
Qed.

Lemma bez_znaku_bezpieczne_znaki `{Biblioteki} (s : string) :
  isalnum "/" = false → bez_znaku "/" (bezpieczne_znaki s).
Proof.
  intros Hal. induction s as [|c s IH]; [done|]. cbn [bezpieczne_znaki].
  destruct (isalnum c || bool_decide (c = "-"%char) || bool_decide (c = "_"%char))
    eqn:Hc; [|done].
  split; [|done]. intros ->. rewrite Hal in Hc. discriminate Hc.
Qed.

Lemma po_ostatnim_bez_znaku (c : ascii) (s : string) :
  bez_znaku c s → po_ostatnim c s = None.
Proof.
  induction s as [|x s IH]; [done|]. intros [Hx Hs]. cbn [po_ostatnim].
  rewrite IH; [|done]. by rewrite decide_False.
Qed.

Lemma po_ostatnim_app (c : ascii) (s1 s2 : string) :
  bez_znaku c s2 → po_ostatnim c (s1 +:+ String c s2) = Some s2.
Proof.
  intros Hs2. induction s1 as [|x s1 IH].
  - change ("" +:+ String c s2) with (String c s2). cbn [po_ostatnim].
    rewrite po_ostatnim_bez_znaku; [|done]. by rewrite decide_True.
  - change (String x s1 +:+ String c s2) with (String x (s1 +:+ String c s2)).
    cbn [po_ostatnim]. by rewrite IH.
Qed.

Lemma ends_with_slash_app (s : string) :
  ends_with_slash s = true → ∃ s', s = s' +:+ "/".
Proof.
  induction s as [|x s IH]; [done|]. destruct s as [|y s].
  - cbn. intros Hx. apply bool_decide_eq_true_1 in Hx as ->. by exists "".
  - intros Hs. destruct IH as [s' Hs']; [exact Hs|]. exists (String x s').
    change (String x s' +:+ "/") with (String x (s' +:+ "/")). by rewrite -Hs'.
Qed.

Lemma basename_join (d n : string) :
  bez_znaku "/" n → basename (join d n) = n.
Proof.
  intros Hn. unfold basename.
  assert (Hj : join d n = if decide (d = "") then n
                          else if ends_with_slash d then d +:+ n
                          else d +:+ "/" +:+ n).
  { unfold join. destruct n as [|x n]; [done|]. destruct Hn as [Hx _].
    destruct x as [[] [] [] [] [] [] [] []]; try done. }
  rewrite Hj. destruct (decide (d = "")) as [->|Hd].
  { by rewrite po_ostatnim_bez_znaku. }
  destruct (ends_with_slash d) eqn:Hsl.
  - destruct (ends_with_slash_app d Hsl) as [d' ->].
    replace ((d' +:+ "/") +:+ n) with (d' +:+ String "/" n);
      [by rewrite po_ostatnim_app|].
    clear. induction d' as [|x d' IH]; [done|].
    change (String x d' +:+ String "/" n) with (String x (d' +:+ String "/" n)).
    rewrite IH. done.
  - change ("/" +:+ n) with (String "/" n). by rewrite po_ostatnim_app.
Qed.

(** X4.  The autosave file lies directly in the autosave directory, whatever
    the product code holds: when [/] is not alphanumeric and the time stamp
    has no [/], the name of the file has no [/] either, and it is the last
    component of the path. *)
Theorem sciezka_autozapisu_w_katalogu `{Biblioteki} (znacznik : string) (a : app) :
  isalnum "/" = false →
  bez_znaku "/" znacznik →
  ∃ nazwa_pliku,
    sciezka_autozapisu znacznik a = join (autosave_dir a) nazwa_pliku ∧
    bez_znaku "/" nazwa_pliku ∧
    basename (sciezka_autozapisu znacznik a) = nazwa_pliku.
Proof.
  intros Hal Hz. unfold sciezka_autozapisu.
  set (kod := if decide _ then "bez_kodu" else bezpieczne_znaki _).
  assert (Hkod : bez_znaku "/" kod).
  { unfold kod. case_decide; [by vm_compute|by apply bez_znaku_bezpieczne_znaki]. }
  assert (Hn : bez_znaku "/" (kod +:+ "_" +:+ znacznik +:+ ".json")).
  { rewrite !bez_znaku_app. split; [done|]. split; [by vm_compute|].
    split; [done|by vm_compute]. }
  eexists. split; [reflexivity|]. split; [done|]. by apply basename_join.
Qed.

Lemma sciezka_autozapisu_w_katalogu_witness :
  ∃ nazwa_pliku,
    @sciezka_autozapisu bib_probna "20240506_101500" (wpisz_kod "../../etc/x" a_start)
      = join (autosave_dir (wpisz_kod "../../etc/x" a_start)) nazwa_pliku ∧
    bez_znaku "/" nazwa_pliku ∧
    basename (@sciezka_autozapisu bib_probna "20240506_101500"
                (wpisz_kod "../../etc/x" a_start)) = nazwa_pliku.
Proof.
  apply (@sciezka_autozapisu_w_katalogu bib_probna "20240506_101500"
           (wpisz_kod "../../etc/x" a_start)).
  - reflexivity.
  - by vm_compute.
Defined.

Example sciezka_autozapisu_kropki :
  @sciezka_autozapisu bib_probna "20240506_101500" (wpisz_kod "../../etc/x" a_start)
  = "/home/ola/Piorun_autosave/etcx_20240506_101500.json".
Proof. by vm_compute. Qed.

(** ** The language and the texts *)

Lemma zmien_jezyk_combo_pola (j : string) (o : opcje) :
  let o' := zmien_jezyk_combo j o in
  jezyk o' = j ∧
  lang_combo o' = (if decide (0 ≤ findData j (lang_combo o))
                   then setCurrentIndex (findData j (lang_combo o)) (lang_combo o)
                   else lang_combo o) ∧
  layout_combo o' = layout_combo o ∧ size_combo o' = size_combo o ∧
  font_combo o' = font_combo o ∧ font_size_combo o' = font_size_combo o ∧
  dark_theme o' = dark_theme o ∧ tlumaczenia o' = tlumaczenia o.
Proof.
  intros o'. split; [apply jezyk_po_wyborze|].
  unfold o', zmien_jezyk_combo. cbn [lang_combo set_jezyk].
  destruct (decide (0 ≤ findData j (lang_combo o))) as [Hi|Hi]; [|done].
  unfold lang_setCurrentIndex. cbn [lang_combo set_jezyk set_lang_combo].
  destruct (decide _) as [?|?]; [done|].
  unfold zmien_jezyk. cbn [lang_combo set_lang_combo].
  by destruct (currentData _).
Qed.

(** X5.  After [zmien_jezyk_combo] the language attribute is the language
    asked for, whether the combo box offers it or not; when the box offers
    it, its current item is that language, and when it does not, the box is
    as before, so that attribute and box disagree.  The other options are
    untouched. *)
Theorem zmien_jezyk_combo_zgodnosc (j : string) (o : opcje) :
  let o' := zmien_jezyk_combo j o in
  jezyk o' = j ∧
  (j ∈ items (lang_combo o) → currentData (lang_combo o') = Some j) ∧
  (j ∉ items (lang_combo o) → lang_combo o' = lang_combo o) ∧
  layout_combo o' = layout_combo o ∧ size_combo o' = size_combo o ∧
  font_combo o' = font_combo o ∧ font_size_combo o' = font_size_combo o ∧
  dark_theme o' = dark_theme o ∧ tlumaczenia o' = tlumaczenia o.
Proof.
  intros o'. destruct (zmien_jezyk_combo_pola j o) as (Hj & Hc & Hreszta).
  fold o' in Hj, Hc, Hreszta. split; [done|]. split; [|split; [|done]].
  - intros Hin. destruct (findData_wybiera (lang_combo o) j Hin) as [Hi Hd].
    rewrite Hc. by rewrite decide_True.
  - intros Hnin. rewrite Hc. unfold findData.
    destruct (find_from_spec j (items (lang_combo o)) 0) as [[-> _]|[_ Hl]]; [done|done|].
    rewrite Z.sub_0_r in Hl. by apply list_elem_of_lookup_2 in Hl.
Qed.

(** X6.  When the translations have no entry for the language asked for,
    every text is its key in brackets after the language is set, by the
    menu ([zmien_jezyk_combo]) or by a loaded project ([ustaw_jezyk]). *)
Theorem t_bez_tlumaczen (j : string) (o : opcje) (tl : list (string * json)) :
  tlumaczenia o = JObj tl →
  jget j tl = None →
  ∀ klucz,
    t klucz (zmien_jezyk_combo j o) = Some (JStr ("[" +:+ klucz +:+ "]")) ∧
    t klucz (ustaw_jezyk j o) = Some (JStr ("[" +:+ klucz +:+ "]")).
Proof.
  intros Htl Hj klucz.
  destruct (zmien_jezyk_combo_pola j o) as (Hjez & _ & _ & _ & _ & _ & _ & Ht).
  assert (Hu : ustaw_jezyk j o = zmien_jezyk_combo j o) by reflexivity.
  rewrite Hu. split; unfold t; rewrite Hjez Ht Htl /py_get Hj; reflexivity.
Qed.

Lemma t_bez_tlumaczen_witness :
  let o := set_tlumaczenia (JObj [("polski", JObj [("sukces", JStr "Sukces")])])
             (opc a_start) in
  t "sukces" (zmien_jezyk_combo "niemiecki" o) = Some (JStr ("[" +:+ "sukces" +:+ "]")) ∧
  t "sukces" (ustaw_jezyk "niemiecki" o) = Some (JStr ("[" +:+ "sukces" +:+ "]")).
Proof.
  intros o.
  apply (t_bez_tlumaczen "niemiecki" o [("polski", JObj [("sukces", JStr "Sukces")])]
           eq_refl eq_refl "sukces").
Defined.

(** ** The handlers keep the list, the descriptions and the widget aligned *)

Lemma spojny_intro (a : app) :
  count (steps_list a) = length (ilustracje a) →
  -1 ≤ currentRow (steps_list a) < Z.of_nat (count (steps_list a)) →
  (∀ k, is_Some (opisy_krokow a !! k) → 0 ≤ k < Z.of_nat (length (ilustracje a))) →
  (∀ k, aktualny_wybrany_krok a = Some k → 0 ≤ k < Z.of_nat (length (ilustracje a))) →
  Forall spojna_migawka (stan_historia a) →
  hist_inv a →
  spojny a.
Proof.
  intros H1 H2 H3 H4 H5 H6.
  split; [done|]. split; [done|]. split; [by split|]. by split.
Qed.

Lemma spojny_elim (a : app) :
  spojny a →
  count (steps_list a) = length (ilustracje a) ∧
  -1 ≤ currentRow (steps_list a) < Z.of_nat (count (steps_list a)) ∧
  (∀ k, is_Some (opisy_krokow a !! k) → 0 ≤ k < Z.of_nat (length (ilustracje a))) ∧
  (∀ k, aktualny_wybrany_krok a = Some k → 0 ≤ k < Z.of_nat (length (ilustracje a))) ∧
  Forall spojna_migawka (stan_historia a) ∧
  hist_inv a.
Proof. by intros (H1 & H2 & [H3 H4] & H5 & H6). Qed.

(** A snapshot of an aligned state keeps it aligned. *)
Lemma zapisz_stan_spojny (a : app) : spojny a → spojny (zapisz_stan a).
Proof.
  intros Ha. pose proof (spojny_elim a Ha) as (H1 & H2 & H3 & H4 & H5 & H6).
  destruct (zapisz_stan_zywe a) as (Eil & Eop & Esl & _ & Ewyb & _).
  apply spojny_intro; rewrite ?Eil ?Eop ?Esl ?Ewyb; try done.
  - rewrite zapisz_stan_historia. apply Forall_app. split.
    + case_decide; [by apply Forall_drop|done].
    + constructor; [|done]. by split.
  - by apply zapisz_stan_inv.
Qed.

(** The fields after a row is made current and shown. *)
Lemma wybierz_krok_pola (r : Z) (a : app) :
  let a' := wybierz_krok r a in
  ilustracje a' = ilustracje a ∧ opisy_krokow a' = opisy_krokow a ∧
  dok a' = dok a ∧ opc a' = opc a ∧
  stan_historia a' = stan_historia a ∧
  aktualny_stan_index a' = aktualny_stan_index a ∧
  steps_list a' = setCurrentRow r (steps_list a) ∧
  aktualny_wybrany_krok a'
    = (if decide (0 ≤ r < Z.of_nat (count (steps_list a))
                  ∧ r < Z.of_nat (length (ilustracje a)))
       then Some r else aktualny_wybrany_krok a).
Proof.
  unfold wybierz_krok, pokaz_podglad, setCurrentRow. cbn.
  destruct (decide (0 ≤ r < Z.of_nat (count (steps_list a)))) as [Hr|Hr]; cbn.
  - destruct (decide (0 ≤ r ∧ r < Z.of_nat (length (ilustracje a)))) as [Hl|Hl]; cbn.
    + rewrite decide_True; [|lia]. done.
    + rewrite decide_False; [|lia]. done.
  - case_decide as Hm; [lia|]. cbn. rewrite decide_False; [|lia]. done.
Qed.

(** Showing a row of an aligned list: the selection may be stale before,
    when the row is an item. *)
Lemma wybierz_krok_spojny (r : Z) (a : app) :
  count (steps_list a) = length (ilustracje a) →
  (∀ k, is_Some (opisy_krokow a !! k) → 0 ≤ k < Z.of_nat (length (ilustracje a))) →
  (0 ≤ r < Z.of_nat (length (ilustracje a))
   ∨ ∀ k, aktualny_wybrany_krok a = Some k → 0 ≤ k < Z.of_nat (length (ilustracje a))) →
  Forall spojna_migawka (stan_historia a) →
  hist_inv a →
  spojny (wybierz_krok r a).
Proof.
  intros H1 H3 H4 H5 H6.
  destruct (wybierz_krok_pola r a) as (Eil & Eop & _ & _ & Eh & Ei & Esl & Ew).
  apply spojny_intro; rewrite ?Eil ?Eop ?Esl ?Eh.
  - done.
  - unfold setCurrentRow. cbn.
    destruct (decide (0 ≤ r < Z.of_nat (count (steps_list a)))); lia.
  - done.
  - intros k. rewrite Ew. case_decide as Hr.
    + intros [= <-]. lia.
    + destruct H4 as [H4|H4]; [lia|]. apply H4.
  - done.
  - unfold hist_inv. rewrite Eh Ei. exact H6.
Qed.

(** ** Adding steps *)

Lemma dodaj_krok_pola (plik s : string) (a : app) :
  t "domyslny_szablon" (opc a) = Some (JStr s) →
  ∃ a', dodaj_krok plik a = Some a' ∧
        ilustracje a' = ilustracje a ++ [plik] ∧
        opisy_krokow a'
          = <[Z.of_nat (length (ilustracje a)) := Krok (splitext (basename plik)).1 s]>
              (opisy_krokow a) ∧
        steps_list a' = add_image_item (steps_list a) ∧
        aktualny_wybrany_krok a' = aktualny_wybrany_krok a ∧
        dok a' = dok a ∧ opc a' = opc a ∧
        stan_historia a' = stan_historia a ∧
        aktualny_stan_index a' = aktualny_stan_index a.
Proof.
  intros Ht. unfold dodaj_krok. cbn [opc set_ilustracje]. rewrite Ht. cbn.
  eexists. split; [reflexivity|]. cbn. rewrite length_app /=.
  replace (Z.of_nat (length (ilustracje a) + 1) - 1)
    with (Z.of_nat (length (ilustracje a))) by lia.
  done.
Qed.

Lemma dodaj_krok_spojny (plik s : string) (a : app) :
  t "domyslny_szablon" (opc a) = Some (JStr s) → spojny a →
  ∃ a', dodaj_krok plik a = Some a' ∧ spojny a'.
Proof.
  intros Ht Ha. pose proof (spojny_elim a Ha) as (H1 & H2 & H3 & H4 & H5 & H6).
  destruct (dodaj_krok_pola plik s a Ht)
    as (a' & Hd & Eil & Eop & Esl & Ew & _ & _ & Eh & Ei).
  exists a'. split; [done|].
  apply spojny_intro; rewrite ?Eil ?Eop ?Esl ?Ew ?Eh ?length_app /=.
  - lia.
  - lia.
  - intros k Hk. destruct (decide (k = Z.of_nat (length (ilustracje a)))) as [->|Hne];
      [lia|]. rewrite lookup_insert_ne in Hk; [|done]. specialize (H3 k Hk). lia.
  - intros k Hk. specialize (H4 k Hk). lia.
  - done.
  - unfold hist_inv. by rewrite Eh Ei.
Qed.

(** The loop of [on_images_processed]. *)
Lemma dodaj_kroki_pola (paths : list string) (s : string) :
  ∀ a, t "domyslny_szablon" (opc a) = Some (JStr s) → spojny a →
  ∃ a', dodaj_kroki paths a = Some a' ∧ spojny a' ∧
        ilustracje a' = ilustracje a ++ paths ∧
        (∀ i p, paths !! i = Some p →
                opisy_krokow a' !! (Z.of_nat (length (ilustracje a)) + Z.of_nat i)
                  = Some (Krok (splitext (basename p)).1 s)) ∧
        (∀ k, k < Z.of_nat (length (ilustracje a)) →
              opisy_krokow a' !! k = opisy_krokow a !! k) ∧
        aktualny_wybrany_krok a' = aktualny_wybrany_krok a ∧
        dok a' = dok a ∧ opc a' = opc a ∧
        stan_historia a' = stan_historia a ∧
        aktualny_stan_index a' = aktualny_stan_index a.
Proof.
  induction paths as [|plik paths IH]; intros a Ht Ha.
  { exists a. split; [done|]. split; [done|]. rewrite app_nil_r.
    split; [done|]. split; [by intros i p Hi|]. done. }
  cbn [dodaj_kroki].
  destruct (dodaj_krok_pola plik s a Ht)
    as (a1 & Hd & Eil & Eop & Esl & Ew & Edok & Eopc & Eh & Ei).
  destruct (dodaj_krok_spojny plik s a Ht Ha) as (a1' & Hd' & Ha1).
  rewrite Hd in Hd'. injection Hd' as <-. rewrite Hd. cbn.
  destruct (IH a1) as (a' & Hk & Ha' & Fil & Fop & Fst & Fw & Fdok & Fopc & Fh & Fi);
    [by rewrite Eopc|done|].
  exists a'. split; [done|]. split; [done|].
  rewrite Eil in Fil, Fop, Fst. rewrite length_app /= in Fop, Fst.
  split; [by rewrite Fil -assoc|]. split; [|split].
  - intros [|i] p Hi.
    + injection Hi as <-. rewrite Fst; [|lia]. rewrite Eop.
      rewrite Z.add_0_r. by rewrite lookup_insert_eq.
    + rewrite -(Fop i p Hi). f_equal. lia.
  - intros k Hk'. rewrite Fst; [|lia]. rewrite Eop lookup_insert_ne; [done|lia].
  - rewrite Fw Fdok Fopc Fh Fi. done.
Qed.

(** The slot as a whole. *)
Lemma on_images_processed_pola (processed_paths : list string) (s : string)
    (a : app) :
  t "domyslny_szablon" (opc a) = Some (JStr s) →
  spojny a →
  ∃ a', on_images_processed processed_paths a = Some a' ∧
        spojny a' ∧
        ilustracje a' = ilustracje a ++ processed_paths ∧
        (∀ i p, processed_paths !! i = Some p →
                opisy_krokow a' !! (Z.of_nat (length (ilustracje a)) + Z.of_nat i)
                  = Some (Krok (splitext (basename p)).1 s)) ∧
        (∀ k, k < Z.of_nat (length (ilustracje a)) →
              opisy_krokow a' !! k = opisy_krokow a !! k) ∧
        (processed_paths ≠ [] →
         aktualny_wybrany_krok a' = Some (Z.of_nat (length (ilustracje a'))  - 1)) ∧
        dok a' = dok a ∧ opc a' = opc a ∧
        stan_historia a' = stan_historia a ∧
        aktualny_stan_index a' = aktualny_stan_index a.
Proof.
  intros Ht Ha. unfold on_images_processed.
  destruct (dodaj_kroki_pola processed_paths s a Ht Ha)
    as (a1 & Hk & Ha1 & Fil & Fop & Fst & Fw & Fdok & Fopc & Fh & Fi).
  rewrite Hk. cbn. destruct (decide (processed_paths = [])) as [->|Hne].
  { exists a1. split; [done|]. split; [done|]. split; [done|].
    split; [done|]. split; [done|]. split; [done|]. done. }
  change (pokaz_podglad _)
    with (wybierz_krok (Z.of_nat (length (ilustracje a1)) - 1) a1).
  pose proof (spojny_elim a1 Ha1) as (H1 & H2 & H3 & H4 & H5 & H6).
  assert (Hlen : (0 < length (ilustracje a1))%nat).
  { rewrite Fil length_app. destruct processed_paths; [done|]. cbn. lia. }
  destruct (wybierz_krok_pola (Z.of_nat (length (ilustracje a1)) - 1) a1)
    as (Eil & Eop & Edok & Eopc & Eh & Ei & Esl & Ew).
  eexists. split; [reflexivity|].
  split; [apply wybierz_krok_spojny; try done; left; lia|].
  rewrite Eil Eop Edok Eopc Eh Ei Ew.
  split; [done|]. split; [done|]. split; [done|].
  split; [|done]. intros _. rewrite decide_True; [done|]. rewrite H1. lia.
Qed.

(** X7.  [on_images_processed] appends the processed paths in their order;
    each new step gets the file name without its extension as its name and
    the template as its description; the steps that were there keep their
    descriptions; the last new step is selected; the document fields, the
    options and the history are untouched; and the list, the descriptions
    and the widget stay aligned. *)
Theorem on_images_processed_dodaje (processed_paths : list string) (s : string)
    (a : app) :
  t "domyslny_szablon" (opc a) = Some (JStr s) →
  spojny a →
  ∃ a', on_images_processed processed_paths a = Some a' ∧
        spojny a' ∧
        ilustracje a' = ilustracje a ++ processed_paths ∧
        (∀ i p, processed_paths !! i = Some p →
                opisy_krokow a' !! (Z.of_nat (length (ilustracje a)) + Z.of_nat i)
                  = Some (Krok (splitext (basename p)).1 s)) ∧
        (∀ k, k < Z.of_nat (length (ilustracje a)) →
              opisy_krokow a' !! k = opisy_krokow a !! k) ∧
        (processed_paths ≠ [] →
         aktualny_wybrany_krok a' = Some (Z.of_nat (length (ilustracje a'))  - 1)) ∧
        dok a' = dok a ∧ opc a' = opc a ∧
        stan_historia a' = stan_historia a ∧
        aktualny_stan_index a' = aktualny_stan_index a.
Proof. apply on_images_processed_pola. Qed.

Lemma a_start_spojny : spojny a_start.
Proof.
  apply spojny_intro.
  - reflexivity.
  - by vm_compute.
  - intros k [v Hk]. by vm_compute in Hk.
  - intros k Hk. by vm_compute in Hk.
  - constructor; [|done]. split.
    + intros k [v Hk]. by vm_compute in Hk.
    + intros k Hk. by vm_compute in Hk.
  - apply a_start_inv.
Qed.

Lemma on_images_processed_dodaje_witness :
  ∃ a', on_images_processed ["/home/ola/a.png"; "/home/ola/b.tar.gz"] a_start = Some a' ∧
        spojny a' ∧
        ilustracje a' = ilustracje a_start ++ ["/home/ola/a.png"; "/home/ola/b.tar.gz"] ∧
        (∀ i p, ["/home/ola/a.png"; "/home/ola/b.tar.gz"] !! i = Some p →
                opisy_krokow a' !! (Z.of_nat (length (ilustracje a_start)) + Z.of_nat i)
                  = Some (Krok (splitext (basename p)).1 "[domyslny_szablon]")) ∧
        (∀ k, k < Z.of_nat (length (ilustracje a_start)) →
              opisy_krokow a' !! k = opisy_krokow a_start !! k) ∧
        (["/home/ola/a.png"; "/home/ola/b.tar.gz"] ≠ [] →
         aktualny_wybrany_krok a' = Some (Z.of_nat (length (ilustracje a'))  - 1)) ∧
        dok a' = dok a_start ∧ opc a' = opc a_start ∧
        stan_historia a' = stan_historia a_start ∧
        aktualny_stan_index a' = aktualny_stan_index a_start.
Proof.
  apply (on_images_processed_dodaje ["/home/ola/a.png"; "/home/ola/b.tar.gz"]
           "[domyslny_szablon]" a_start).
  - reflexivity.
  - apply a_start_spojny.
Defined.

Example on_images_processed_nazwy :
  (a' ← on_images_processed ["/home/ola/a.png"; "/home/ola/b.tar.gz"; "/home/ola/.ukryty"]
         a_start;
   Some (ilustracje a', k_nazwa <$> opisy_krokow a' !! 0,
         k_nazwa <$> opisy_krokow a' !! 1, k_nazwa <$> opisy_krokow a' !! 2,
         aktualny_wybrany_krok a', steps_list a'))
  = Some (["/home/ola/a.png"; "/home/ola/b.tar.gz"; "/home/ola/.ukryty"],
          Some "a", Some "b.tar", Some ".ukryty", Some 2, Lista 3 2).
Proof. by vm_compute. Qed.

(** ** Moving a step *)

Lemma py_index_nat {A} (l : list A) (i : Z) :
  0 ≤ i → py_index l i = l !! Z.to_nat i.
Proof. intros Hi. unfold py_index. by rewrite decide_True. Qed.

Lemma py_setitem_nat {A} (l : list A) (i : Z) (x : A) :
  0 ≤ i < Z.of_nat (length l) → py_setitem l i x = Some (<[Z.to_nat i := x]> l).
Proof.
  intros Hi. unfold py_setitem. rewrite decide_True; [|lia].
  by rewrite decide_True; [|lia].
Qed.

Lemma py_zamien_ok {A} (l : list A) (i j : Z) (x y : A) :
  0 ≤ i → 0 ≤ j →
  l !! Z.to_nat i = Some x → l !! Z.to_nat j = Some y →
  py_zamien l i j = Some (<[Z.to_nat j := x]> (<[Z.to_nat i := y]> l)).
Proof.
  intros Hi Hj Hx Hy. unfold py_zamien.
  rewrite !py_index_nat; [|done..]. rewrite Hy Hx /=.
  pose proof (lookup_lt_Some _ _ _ Hx). pose proof (lookup_lt_Some _ _ _ Hy).
  rewrite py_setitem_nat; [|lia]. cbn.
  rewrite py_setitem_nat; [done|]. rewrite length_insert. lia.
Qed.

(** Swapping back gives the list back. *)
Lemma zamiana_tam_i_z_powrotem {A} (l : list A) (i j : nat) (x y : A) :
  l !! i = Some x → l !! j = Some y →
  <[i := x]> (<[j := y]> (<[j := x]> (<[i := y]> l))) = l.
Proof.
  intros Hx Hy. apply list_eq. intros k.
  destruct (decide (k = i)) as [->|Hki].
  { rewrite list_lookup_insert_eq; [done|].
    rewrite !length_insert. by eapply lookup_lt_Some. }
  rewrite list_lookup_insert_ne; [|done].
  destruct (decide (k = j)) as [->|Hkj].
  { rewrite list_lookup_insert_eq; [done|].
    rewrite !length_insert. by eapply lookup_lt_Some. }
  rewrite list_lookup_insert_ne; [|done].
  rewrite list_lookup_insert_ne; [|done].
  by rewrite list_lookup_insert_ne.
Qed.

Lemma zamien_opisy_tam_i_z_powrotem (i j : Z) (d : gmap Z krok) :
  i ≠ j → zamien_opisy j i (zamien_opisy i j d) = d.
Proof.
  intros Hij. unfold zamien_opisy at 2.
  destruct (d !! i) as [vi|] eqn:Hi; [|by unfold zamien_opisy; rewrite Hi;
                                         destruct (d !! j)].
  destruct (d !! j) as [vj|] eqn:Hj; [|by unfold zamien_opisy; rewrite Hj].
  unfold zamien_opisy.
  rewrite lookup_insert_eq. rewrite lookup_insert_ne; [|done].
  rewrite lookup_insert_eq.
  apply map_eq. intros k.
  destruct (decide (k = i)) as [->|Hki]; [by rewrite lookup_insert_eq|].
  rewrite lookup_insert_ne; [|done].
  destruct (decide (k = j)) as [->|Hkj]; [by rewrite lookup_insert_eq|].
  rewrite lookup_insert_ne; [|done].
  rewrite lookup_insert_ne; [|done]. by rewrite lookup_insert_ne.
Qed.

Lemma zamien_opisy_dom (i j k : Z) (d : gmap Z krok) :
  is_Some (zamien_opisy i j d !! k) ↔ is_Some (d !! k).
Proof.
  unfold zamien_opisy.
  destruct (d !! i) as [vi|] eqn:Hi; [|done].
  destruct (d !! j) as [vj|] eqn:Hj; [|done].
  destruct (decide (k = j)) as [->|Hkj].
  { rewrite lookup_insert_eq Hj. split; by eexists. }
  rewrite lookup_insert_ne; [|done].
  destruct (decide (k = i)) as [->|Hki].
  { rewrite lookup_insert_eq Hi. split; by eexists. }
  by rewrite lookup_insert_ne.
Qed.

(** The fields after the common body of the two moves. *)
Lemma przenies_pola (index nowy : Z) (a : app) (x y : string) :
  0 ≤ index → 0 ≤ nowy →
  ilustracje a !! Z.to_nat index = Some x →
  ilustracje a !! Z.to_nat nowy = Some y →
  ∃ a', przenies index nowy a = Some a' ∧
        ilustracje a'
          = <[Z.to_nat nowy := x]> (<[Z.to_nat index := y]> (ilustracje a)) ∧
        opisy_krokow a' = zamien_opisy index nowy (opisy_krokow a) ∧
        steps_list a' = Lista (length (ilustracje a)) nowy ∧
        aktualny_wybrany_krok a' = Some nowy ∧
        dok a' = dok a ∧ opc a' = opc a ∧
        stan_historia a' = stan_historia a ∧
        aktualny_stan_index a' = aktualny_stan_index a.
Proof.
  intros Hi Hn Hx Hy. unfold przenies.
  rewrite (py_zamien_ok _ _ _ x y); [|done..]. cbn [mbind option_bind].
  set (il := <[Z.to_nat nowy := x]> (<[Z.to_nat index := y]> (ilustracje a))).
  assert (Hlen : length il = length (ilustracje a)).
  { unfold il. by rewrite !length_insert. }
  pose proof (lookup_lt_Some _ _ _ Hy) as Hlt.
  eexists. split; [reflexivity|].
  change (pokaz_podglad _) with
    (wybierz_krok nowy
       (odswiez_liste
          (set_opisy_krokow (zamien_opisy index nowy (opisy_krokow a))
             (set_ilustracje il a)))).
  match goal with |- context [wybierz_krok nowy ?b] =>
    destruct (wybierz_krok_pola nowy b) as (Eil & Eop & Edok & Eopc & Eh & Ei & Esl & Ew)
  end.
  rewrite Eil Eop Edok Eopc Eh Ei Esl Ew. cbn. rewrite Hlen.
  unfold setCurrentRow. cbn.
  rewrite !decide_True; [done|lia..].
Qed.

(** The state after [przenies] on an aligned state whose two rows are
    items. *)
Lemma przenies_spojny (index nowy : Z) (a : app) :
  spojny a →
  0 ≤ index < Z.of_nat (length (ilustracje a)) →
  0 ≤ nowy < Z.of_nat (length (ilustracje a)) →
  ∃ a' x y, przenies index nowy a = Some a' ∧ spojny a' ∧
        ilustracje a !! Z.to_nat index = Some x ∧
        ilustracje a !! Z.to_nat nowy = Some y ∧
        ilustracje a'
          = <[Z.to_nat nowy := x]> (<[Z.to_nat index := y]> (ilustracje a)) ∧
        opisy_krokow a' = zamien_opisy index nowy (opisy_krokow a) ∧
        steps_list a' = Lista (length (ilustracje a)) nowy ∧
        aktualny_wybrany_krok a' = Some nowy ∧
        dok a' = dok a ∧ opc a' = opc a ∧
        stan_historia a' = stan_historia a ∧
        aktualny_stan_index a' = aktualny_stan_index a.
Proof.
  intros Ha Hi Hn.
  pose proof (spojny_elim a Ha) as (H1 & H2 & H3 & H4 & H5 & H6).
  destruct (lookup_lt_is_Some_2 (ilustracje a) (Z.to_nat index)) as [x Hx]; [lia|].
  destruct (lookup_lt_is_Some_2 (ilustracje a) (Z.to_nat nowy)) as [y Hy]; [lia|].
  destruct (przenies_pola index nowy a x y) as
    (a' & Hp & Eil & Eop & Esl & Ew & Edok & Eopc & Eh & Ei); [lia|lia|done|done|].
  exists a', x, y. split; [done|]. split; [|done].
  apply spojny_intro; rewrite ?Eil ?Eop ?Esl ?Ew ?Eh ?length_insert; cbn.
  - done.
  - lia.
  - intros k Hk. apply zamien_opisy_dom in Hk. by apply H3.
  - intros k [= <-]. lia.
  - done.
  - unfold hist_inv. by rewrite Eh Ei.
Qed.

(** X8.  With a row [r] above the first one current in an aligned state,
    [przenies_w_gore] returns: it takes a snapshot, the images of the rows
    [r] and [r - 1] change places, and the row [r - 1] is current and
    selected.  [przenies_w_dol] right after it puts the images and the
    descriptions back as they were, with row [r] current and selected
    again; the fields and the options are untouched. *)
Theorem przenies_w_gore_i_w_dol (a : app) :
  let r := currentRow (steps_list a) in
  spojny a → 0 < r →
  ∃ a1 a2 x y,
    przenies_w_gore a = Some a1 ∧ spojny a1 ∧
    ilustracje a !! Z.to_nat r = Some x ∧
    ilustracje a !! Z.to_nat (r - 1) = Some y ∧
    ilustracje a1 = <[Z.to_nat (r - 1) := x]> (<[Z.to_nat r := y]> (ilustracje a)) ∧
    aktualny_wybrany_krok a1 = Some (r - 1) ∧
    currentRow (steps_list a1) = r - 1 ∧
    stan_historia a1 = stan_historia (zapisz_stan a) ∧
    przenies_w_dol a1 = Some a2 ∧ spojny a2 ∧
    ilustracje a2 = ilustracje a ∧
    opisy_krokow a2 = opisy_krokow a ∧
    aktualny_wybrany_krok a2 = Some r ∧
    currentRow (steps_list a2) = r ∧
    dok a2 = dok a ∧ opc a2 = opc a.
Proof.
  intros r Ha Hr.
  pose proof (spojny_elim a Ha) as (H1 & H2 & H3 & H4 & H5 & H6). fold r in H2.
  pose proof (zapisz_stan_spojny a Ha) as Hz.
  destruct (zapisz_stan_zywe a) as (Zil & Zop & Zsl & Zdok & Zw & Zopc).
  destruct (przenies_spojny r (r - 1) (zapisz_stan a) Hz)
    as (a1 & x & y & Hp & Ha1 & Hx & Hy & Eil & Eop & Esl & Ew & Edok & Eopc & Eh & Ei);
    [rewrite Zil; lia..|].
  rewrite Zil in Hx, Hy, Eil, Esl. rewrite Zop in Eop.
  assert (Hg : przenies_w_gore a = Some a1).
  { unfold przenies_w_gore. fold r. by rewrite decide_False; [|lia]. }
  assert (Hl1 : length (ilustracje a1) = length (ilustracje a)).
  { by rewrite Eil !length_insert. }
  pose proof (zapisz_stan_spojny a1 Ha1) as Hz1.
  destruct (zapisz_stan_zywe a1) as (Yil & Yop & Ysl & Ydok & Yw & Yopc).
  destruct (przenies_spojny (r - 1) (r - 1 + 1) (zapisz_stan a1) Hz1)
    as (a2 & x' & y' & Hp2 & Ha2 & Hx' & Hy' & Fil & Fop & Fsl & Fw & Fdok & Fopc & _);
    [rewrite Yil Hl1; lia..|].
  rewrite Yil in Hx', Hy', Fil, Fsl. rewrite Yop in Fop.
  assert (Hd : przenies_w_dol a1 = Some a2).
  { unfold przenies_w_dol. rewrite Esl. cbn [currentRow].
    rewrite decide_False; [done|]. rewrite Hl1. lia. }
  replace (r - 1 + 1) with r in * by lia.
  assert (Hne : Z.to_nat (r - 1) ≠ Z.to_nat r) by lia.
  assert (Hx2 : x' = x).
  { rewrite Eil in Hx'. rewrite list_lookup_insert_eq in Hx'; [congruence|].
    rewrite length_insert. by eapply lookup_lt_Some. }
  assert (Hy2 : y' = y).
  { rewrite Eil in Hy'. rewrite list_lookup_insert_ne in Hy'; [|done].
    rewrite list_lookup_insert_eq in Hy'; [congruence|].
    by eapply lookup_lt_Some. }
  exists a1, a2, x, y.
  split; [done|]. split; [done|]. split; [done|]. split; [done|].
  split; [done|]. split; [done|]. split; [by rewrite Esl|]. split; [done|].
  split; [done|]. split; [done|].
  split; [|split; [|split; [done|]]].
  - rewrite Fil Eil Hx2 Hy2. by apply zamiana_tam_i_z_powrotem.
  - rewrite Fop Eop. apply zamien_opisy_tam_i_z_powrotem. lia.
  - split; [by rewrite Fsl|]. by rewrite Fdok Ydok Edok Zdok Fopc Yopc Eopc Zopc.
Qed.

Lemma a_trzy_spojny : spojny a_trzy.
Proof.
  assert (Hk : ∀ k, is_Some (opisy_krokow a_trzy !! k) → 0 ≤ k < 3).
  { intros k [v Hv].
    destruct (decide (k = 0)) as [->|?]; [lia|].
    destruct (decide (k = 1)) as [->|?]; [lia|].
    destruct (decide (k = 2)) as [->|?]; [lia|].
    exfalso. revert Hv. cbn. rewrite !lookup_insert_ne; [|done..].
    by rewrite lookup_empty. }
  apply spojny_intro.
  - reflexivity.
  - by vm_compute.
  - exact Hk.
  - intros k [= <-]. by vm_compute.
  - constructor; [|done]. split.
    + intros k [v Hv]. by vm_compute in Hv.
    + intros k Hv. by vm_compute in Hv.
  - apply a_start_inv.
Qed.

Lemma przenies_w_gore_i_w_dol_witness :
  ∃ a1 a2 x y,
    przenies_w_gore a_trzy = Some a1 ∧ spojny a1 ∧
    ilustracje a_trzy !! Z.to_nat (currentRow (steps_list a_trzy)) = Some x ∧
    ilustracje a_trzy !! Z.to_nat (currentRow (steps_list a_trzy) - 1) = Some y ∧
    ilustracje a1
      = <[Z.to_nat (currentRow (steps_list a_trzy) - 1) := x]>
          (<[Z.to_nat (currentRow (steps_list a_trzy)) := y]> (ilustracje a_trzy)) ∧
    aktualny_wybrany_krok a1 = Some (currentRow (steps_list a_trzy) - 1) ∧
    currentRow (steps_list a1) = currentRow (steps_list a_trzy) - 1 ∧
    stan_historia a1 = stan_historia (zapisz_stan a_trzy) ∧
    przenies_w_dol a1 = Some a2 ∧ spojny a2 ∧
    ilustracje a2 = ilustracje a_trzy ∧
    opisy_krokow a2 = opisy_krokow a_trzy ∧
    aktualny_wybrany_krok a2 = Some (currentRow (steps_list a_trzy)) ∧
    currentRow (steps_list a2) = currentRow (steps_list a_trzy) ∧
    dok a2 = dok a_trzy ∧ opc a2 = opc a_trzy.
Proof.
  apply (przenies_w_gore_i_w_dol a_trzy).
  - apply a_trzy_spojny.
  - by vm_compute.
Defined.

(** X9.  What [przenies_w_gore] does to the descriptions.  With row [r]
    above the first one current in an aligned state, the images of the rows
    [r] and [r - 1] change places.  When both rows have a description, the
    two descriptions change places with them.  When one of them has none,
    the descriptions stay where they are, so that the description of row
    [r] now stands beside the image that came from row [r - 1]. *)
Theorem przenies_w_gore_opisy (a : app) :
  let r := currentRow (steps_list a) in
  spojny a → 0 < r →
  ∃ a1,
    przenies_w_gore a = Some a1 ∧
    ilustracje a1 !! Z.to_nat (r - 1) = ilustracje a !! Z.to_nat r ∧
    ilustracje a1 !! Z.to_nat r = ilustracje a !! Z.to_nat (r - 1) ∧
    (∀ k, k ≠ Z.to_nat r → k ≠ Z.to_nat (r - 1) →
          ilustracje a1 !! k = ilustracje a !! k) ∧
    (is_Some (opisy_krokow a !! r) → is_Some (opisy_krokow a !! (r - 1)) →
     opisy_krokow a1 !! (r - 1) = opisy_krokow a !! r ∧
     opisy_krokow a1 !! r = opisy_krokow a !! (r - 1) ∧
     ∀ k, k ≠ r → k ≠ r - 1 → opisy_krokow a1 !! k = opisy_krokow a !! k) ∧
    (opisy_krokow a !! r = None ∨ opisy_krokow a !! (r - 1) = None →
     opisy_krokow a1 = opisy_krokow a).
Proof.
  intros r Ha Hr.
  pose proof (spojny_elim a Ha) as (H1 & H2 & H3 & H4 & H5 & H6). fold r in H2.
  pose proof (zapisz_stan_spojny a Ha) as Hz.
  destruct (zapisz_stan_zywe a) as (Zil & Zop & _).
  destruct (przenies_spojny r (r - 1) (zapisz_stan a) Hz)
    as (a1 & x & y & Hp & Ha1 & Hx & Hy & Eil & Eop & _);
    [rewrite Zil; lia..|].
  rewrite Zil in Hx, Hy, Eil. rewrite Zop in Eop.
  exists a1. split.
  { unfold przenies_w_gore. fold r. by rewrite decide_False; [|lia]. }
  pose proof (lookup_lt_Some _ _ _ Hx) as Hlx.
  pose proof (lookup_lt_Some _ _ _ Hy) as Hly.
  assert (Hne : Z.to_nat (r - 1) ≠ Z.to_nat r) by lia.
  split; [|split; [|split; [|split]]].
  - rewrite Eil Hx. rewrite list_lookup_insert_eq; [done|].
    by rewrite length_insert.
  - rewrite Eil Hy. rewrite list_lookup_insert_ne; [|done].
    by rewrite list_lookup_insert_eq.
  - intros k Hk1 Hk2. rewrite Eil.
    rewrite list_lookup_insert_ne; [|done]. by rewrite list_lookup_insert_ne.
  - intros [vr Hvr] [vp Hvp]. rewrite Eop. unfold zamien_opisy. rewrite Hvr Hvp.
    split; [by rewrite lookup_insert_eq|]. split.
    + rewrite lookup_insert_ne; [|lia]. by rewrite lookup_insert_eq.
    + intros k Hk1 Hk2. rewrite lookup_insert_ne; [|done].
      by rewrite lookup_insert_ne.
  - intros [Hn|Hn]; rewrite Eop; unfold zamien_opisy; rewrite Hn; [done|].
    by destruct (opisy_krokow a !! r).
Qed.

Lemma przenies_w_gore_opisy_witness :
  let a := set_opisy_krokow (delete 0 (opisy_krokow a_trzy)) a_trzy in
  ∃ a1,
    przenies_w_gore a = Some a1 ∧
    ilustracje a1 !! Z.to_nat (currentRow (steps_list a) - 1)
      = ilustracje a !! Z.to_nat (currentRow (steps_list a)) ∧
    ilustracje a1 !! Z.to_nat (currentRow (steps_list a))
      = ilustracje a !! Z.to_nat (currentRow (steps_list a) - 1) ∧
    (∀ k, k ≠ Z.to_nat (currentRow (steps_list a)) →
          k ≠ Z.to_nat (currentRow (steps_list a) - 1) →
          ilustracje a1 !! k = ilustracje a !! k) ∧
    (is_Some (opisy_krokow a !! currentRow (steps_list a)) →
     is_Some (opisy_krokow a !! (currentRow (steps_list a) - 1)) →
     opisy_krokow a1 !! (currentRow (steps_list a) - 1)
       = opisy_krokow a !! currentRow (steps_list a) ∧
     opisy_krokow a1 !! currentRow (steps_list a)
       = opisy_krokow a !! (currentRow (steps_list a) - 1) ∧
     ∀ k, k ≠ currentRow (steps_list a) → k ≠ currentRow (steps_list a) - 1 →
          opisy_krokow a1 !! k = opisy_krokow a !! k) ∧
    (opisy_krokow a !! currentRow (steps_list a) = None
     ∨ opisy_krokow a !! (currentRow (steps_list a) - 1) = None →
     opisy_krokow a1 = opisy_krokow a).
Proof.
  intros a. apply (przenies_w_gore_opisy a).
  - pose proof (spojny_elim _ a_trzy_spojny) as (H1 & H2 & H3 & H4 & H5 & H6).
    subst a. apply spojny_intro; try done.
    intros k [v Hk]. cbn in Hk. apply lookup_delete_Some in Hk as [_ Hk].
    apply H3. by exists v.
  - by vm_compute.
Defined.

(** Three steps, the first one without a description; the second step is
    moved up: its image is first now and its description is still the
    second one. *)
Example przenies_w_gore_bez_opisu :
  (a1 ← przenies_w_gore (set_opisy_krokow (delete 0 (opisy_krokow a_trzy)) a_trzy);
   Some (ilustracje a1, k_nazwa <$> opisy_krokow a1 !! 0,
         k_nazwa <$> opisy_krokow a1 !! 1))
  = Some (["/home/ola/b.png"; "/home/ola/a.png"; "/home/ola/c.png"],
          None, Some "Pomiar").
Proof. by vm_compute. Qed.

(** ** Every handler keeps the alignment *)

Lemma usun_z_list_reszta (k : Z) (a : app) :
  aktualny_stan_index (usun_z_list k a) = aktualny_stan_index a ∧
  opc (usun_z_list k a) = opc a.
Proof. unfold usun_z_list. cbv zeta. cbn. by destruct (decide _). Qed.

Lemma pokaz_po_usunieciu_opc (k : Z) (a : app) :
  opc (pokaz_po_usunieciu k a) = opc a.
Proof.
  unfold pokaz_po_usunieciu. cbv zeta.
  destruct (decide (0 < count (steps_list (odswiez_liste a)))%nat); [|done].
  unfold pokaz_podglad. cbv zeta. by destruct (decide _).
Qed.

Lemma pokaz_po_usunieciu_spojny (k : Z) (c : app) :
  0 ≤ k →
  (∀ j, is_Some (opisy_krokow c !! j) → 0 ≤ j < Z.of_nat (length (ilustracje c))) →
  Forall spojna_migawka (stan_historia c) →
  hist_inv c →
  spojny (pokaz_po_usunieciu k c).
Proof.
  intros Hk Hkeys Hh Hi. unfold pokaz_po_usunieciu. cbv zeta.
  destruct (decide (0 < count (steps_list (odswiez_liste c)))%nat) as [Hc|Hc].
  - cbn in Hc.
    change (spojny (wybierz_krok
                      (if decide (Z.of_nat (count (steps_list (odswiez_liste c))) ≤ k)
                       then Z.of_nat (count (steps_list (odswiez_liste c))) - 1 else k)
                      (odswiez_liste c))).
    apply wybierz_krok_spojny; [reflexivity|exact Hkeys| |exact Hh|exact Hi].
    left. cbn. destruct (decide (Z.of_nat (length (ilustracje c)) ≤ k)); lia.
  - cbn in Hc. apply spojny_intro; cbn.
    + reflexivity.
    + lia.
    + exact Hkeys.
    + by intros j [=].
    + exact Hh.
    + exact Hi.
Qed.

Lemma usun_ilustracje_spojny (a : app) :
  spojny a → spojny (usun_ilustracje a) ∧ opc (usun_ilustracje a) = opc a.
Proof.
  intros Ha. pose proof (spojny_elim a Ha) as (H1 & H2 & H3 & H4 & H5 & H6).
  unfold usun_ilustracje. cbv zeta.
  destruct (decide (currentRow (steps_list a) < 0)) as [Hr|Hr]; [done|].
  set (r := currentRow (steps_list a)) in *.
  pose proof (zapisz_stan_spojny a Ha) as Hb.
  pose proof (spojny_elim _ Hb) as (B1 & B2 & B3 & B4 & B5 & B6).
  destruct (zapisz_stan_zywe a) as (Zil & Zop & Zsl & _ & _ & Zopc).
  destruct (usun_z_list_eq r (zapisz_stan a)) as (Eil & Eop & Eh); [rewrite Zil; lia|].
  destruct (usun_z_list_reszta r (zapisz_stan a)) as (Ei & Eopc).
  split.
  - apply pokaz_po_usunieciu_spojny.
    + lia.
    + intros j Hj. rewrite Eop przesun_opisy_lookup in Hj.
      rewrite Eil length_delete; [|apply lookup_lt_is_Some; rewrite Zil; lia].
      destruct (decide (0 ≤ j < Z.of_nat (length (ilustracje (zapisz_stan a)) - 1)));
        [done|]. by destruct Hj.
    + by rewrite Eh.
    + unfold hist_inv. by rewrite Eh Ei.
  - by rewrite pokaz_po_usunieciu_opc Eopc.
Qed.

Lemma przywroc_stan_spojny (s : stan) (a : app) :
  spojna_migawka s →
  Forall spojna_migawka (stan_historia a) →
  hist_inv a →
  spojny (przywroc_stan s a).
Proof.
  intros [Hk Hw] Hh Hi. unfold przywroc_stan. cbv zeta.
  cbn [aktualny_wybrany_krok odswiez_liste set_steps_list set_dok
       set_aktualny_wybrany_krok].
  destruct (s_aktualny_wybrany_krok s) as [k|] eqn:Hs.
  - match goal with |- spojny (pokaz_podglad (set_steps_list _ ?b)) =>
      change (spojny (wybierz_krok k b))
    end.
    apply wybierz_krok_spojny; cbn.
    + reflexivity.
    + exact Hk.
    + right. intros j [= <-]. by apply Hw.
    + exact Hh.
    + exact Hi.
  - apply spojny_intro; cbn.
    + reflexivity.
    + lia.
    + exact Hk.
    + by intros j [=].
    + exact Hh.
    + exact Hi.
Qed.

Lemma cofnij_spojny (a : app) :
  spojny a → ∃ a', cofnij a = Some a' ∧ spojny a' ∧ opc a' = opc a.
Proof.
  intros Ha. pose proof (spojny_elim a Ha) as (H1 & H2 & H3 & H4 & H5 & [H6 H7]).
  unfold cofnij. destruct (decide (0 < aktualny_stan_index a)) as [Hi|Hi];
    [|by exists a].
  destruct (py_index_is_Some (stan_historia a) (aktualny_stan_index a - 1))
    as [s Hs]; [lia|].
  cbn. rewrite Hs. cbn. eexists. split; [reflexivity|].
  split.
  - apply przywroc_stan_spojny.
    + rewrite Forall_forall in H5. apply H5. by eapply py_index_elem_of.
    + exact H5.
    + unfold hist_inv. cbn. lia.
  - by destruct (przywroc_stan_biezacy s
                   (set_historia (stan_historia a) (aktualny_stan_index a - 1) a))
      as (_ & -> & _).
Qed.

Lemma przywroc_spojny (a : app) :
  spojny a → ∃ a', przywroc a = Some a' ∧ spojny a' ∧ opc a' = opc a.
Proof.
  intros Ha. pose proof (spojny_elim a Ha) as (H1 & H2 & H3 & H4 & H5 & [H6 H7]).
  unfold przywroc.
  destruct (decide (aktualny_stan_index a < Z.of_nat (length (stan_historia a)) - 1))
    as [Hi|Hi]; [|by exists a].
  destruct (py_index_is_Some (stan_historia a) (aktualny_stan_index a + 1))
    as [s Hs]; [lia|].
  cbn. rewrite Hs. cbn. eexists. split; [reflexivity|].
  split.
  - apply przywroc_stan_spojny.
    + rewrite Forall_forall in H5. apply H5. by eapply py_index_elem_of.
    + exact H5.
    + unfold hist_inv. cbn. lia.
  - by destruct (przywroc_stan_biezacy s
                   (set_historia (stan_historia a) (aktualny_stan_index a + 1) a))
      as (_ & -> & _).
Qed.

Lemma wyczysc_wszystko_spojny (dzis : string) (a : app) :
  spojny a → spojny (wyczysc_wszystko dzis a) ∧ opc (wyczysc_wszystko dzis a) = opc a.
Proof.
  intros Ha. pose proof (zapisz_stan_spojny a Ha) as Hb.
  pose proof (spojny_elim _ Hb) as (B1 & B2 & B3 & B4 & B5 & B6).
  destruct (zapisz_stan_zywe a) as (_ & _ & _ & _ & _ & Zopc).
  unfold wyczysc_wszystko. cbv zeta. split; [|exact Zopc].
  apply spojny_intro; cbn.
  - reflexivity.
  - lia.
  - intros k [v Hk]. by rewrite lookup_empty in Hk.
  - by intros k [=].
  - exact B5.
  - exact B6.
Qed.

(** The fields after [zapisz_opis_kroku] with a step selected. *)
Lemma zapisz_opis_kroku_pola `{Biblioteki} (step_name step_desc : string)
    (a : app) (index : Z) :
  spojny a → aktualny_wybrany_krok a = Some index →
  ∃ a', zapisz_opis_kroku step_name step_desc a = Some a' ∧ spojny a' ∧
        opisy_krokow a'
          = <[index := Krok (if decide (strip step_name = "")
                             then "Krok " +:+ py_str (index + 1)
                             else strip step_name)
                            (strip step_desc)]> (opisy_krokow a) ∧
        ilustracje a' = ilustracje a ∧
        aktualny_wybrany_krok a' = Some index ∧
        steps_list a' = steps_list a ∧
        dok a' = dok a ∧ opc a' = opc a ∧
        stan_historia a' = stan_historia (zapisz_stan a) ∧
        aktualny_stan_index a' = aktualny_stan_index (zapisz_stan a).
Proof.
  intros Ha Hw. pose proof (spojny_elim a Ha) as (H1 & H2 & H3 & H4 & H5 & H6).
  pose proof (zapisz_stan_spojny a Ha) as Hb.
  pose proof (spojny_elim _ Hb) as (B1 & B2 & B3 & B4 & B5 & B6).
  destruct (zapisz_stan_zywe a) as (Zil & Zop & Zsl & Zdok & Zw & Zopc).
  pose proof (H4 index Hw) as Hidx.
  unfold zapisz_opis_kroku. rewrite Hw. cbv zeta.
  cbn [steps_list set_opisy_krokow ilustracje].
  rewrite decide_True; [|rewrite Zsl H1; lia].
  destruct (py_index_is_Some (ilustracje (zapisz_stan a)) index) as [p Hp];
    [rewrite Zil; lia|].
  rewrite Hp. cbn [mbind option_bind].
  eexists. split; [reflexivity|]. cbn. rewrite Zil Zop Zsl Zdok Zw Zopc.
  split; [|done].
  apply spojny_intro; cbn; rewrite ?Zil ?Zop ?Zsl ?Zw.
  - done.
  - done.
  - intros k Hk. destruct (decide (k = index)) as [->|Hne]; [done|].
    rewrite lookup_insert_ne in Hk; [|done]. by apply H3.
  - intros k Hk. apply H4. by rewrite -Hk.
  - exact B5.
  - exact B6.
Qed.

Lemma zapisz_opis_kroku_spojny `{Biblioteki} (step_name step_desc : string) (a : app) :
  spojny a →
  ∃ a', zapisz_opis_kroku step_name step_desc a = Some a' ∧ spojny a' ∧ opc a' = opc a.
Proof.
  intros Ha. destruct (aktualny_wybrany_krok a) as [index|] eqn:Hw.
  - destruct (zapisz_opis_kroku_pola step_name step_desc a index Ha Hw)
      as (a' & Hz & Ha' & _ & _ & _ & _ & _ & Hopc & _).
    by exists a'.
  - exists a. unfold zapisz_opis_kroku. by rewrite Hw.
Qed.

Lemma przenies_w_gore_spojny (a : app) :
  spojny a → ∃ a', przenies_w_gore a = Some a' ∧ spojny a' ∧ opc a' = opc a.
Proof.
  intros Ha. pose proof (spojny_elim a Ha) as (H1 & H2 & _).
  unfold przenies_w_gore. cbv zeta.
  destruct (decide (currentRow (steps_list a) ≤ 0)) as [Hr|Hr]; [by exists a|].
  destruct (zapisz_stan_zywe a) as (Zil & _ & _ & _ & _ & Zopc).
  destruct (przenies_spojny (currentRow (steps_list a)) (currentRow (steps_list a) - 1)
              (zapisz_stan a) (zapisz_stan_spojny a Ha))
    as (a' & x & y & Hp & Ha' & _ & _ & _ & _ & _ & _ & _ & Hopc & _);
    [rewrite Zil; lia..|].
  exists a'. split; [done|]. split; [done|]. by rewrite Hopc.
Qed.

Lemma przenies_w_dol_spojny (a : app) :
  spojny a → ∃ a', przenies_w_dol a = Some a' ∧ spojny a' ∧ opc a' = opc a.
Proof.
  intros Ha. pose proof (spojny_elim a Ha) as (H1 & H2 & _).
  unfold przenies_w_dol. cbv zeta.
  destruct (decide (currentRow (steps_list a) < 0
                    ∨ Z.of_nat (length (ilustracje a)) - 1 ≤ currentRow (steps_list a)))
    as [Hr|Hr]; [by exists a|].
  destruct (zapisz_stan_zywe a) as (Zil & _ & _ & _ & _ & Zopc).
  destruct (przenies_spojny (currentRow (steps_list a)) (currentRow (steps_list a) + 1)
              (zapisz_stan a) (zapisz_stan_spojny a Ha))
    as (a' & x & y & Hp & Ha' & _ & _ & _ & _ & _ & _ & _ & Hopc & _);
    [rewrite Zil; lia..|].
  exists a'. split; [done|]. split; [done|]. by rewrite Hopc.
Qed.

Lemma dodaj_ilustracje_spojny (processed_paths : list string) (a : app) :
  spojny a → jest_szablon a →
  ∃ a', dodaj_ilustracje processed_paths a = Some a' ∧ spojny a' ∧ opc a' = opc a.
Proof.
  intros Ha [s Hs]. unfold dodaj_ilustracje.
  destruct (decide (processed_paths = [])) as [_|_]; [by exists a|].
  destruct (zapisz_stan_zywe a) as (_ & _ & _ & _ & _ & Zopc).
  destruct (on_images_processed_pola processed_paths s (zapisz_stan a))
    as (a' & Ho & Ha' & _ & _ & _ & _ & _ & Hopc & _);
    [by rewrite Zopc|by apply zapisz_stan_spojny|].
  exists a'. split; [done|]. split; [done|]. by rewrite Hopc.
Qed.

Lemma obsluz_spojny `{Biblioteki} (o : obsluga) (a : app) :
  spojny a → jest_szablon a →
  ∃ a', obsluz o a = Some a' ∧ spojny a' ∧ opc a' = opc a.
Proof.
  intros Ha Hs. destruct o; cbn [obsluz].
  - by apply dodaj_ilustracje_spojny.
  - eexists. split; [reflexivity|]. by apply usun_ilustracje_spojny.
  - by apply przenies_w_gore_spojny.
  - by apply przenies_w_dol_spojny.
  - by apply zapisz_opis_kroku_spojny.
  - eexists. split; [reflexivity|]. by apply wyczysc_wszystko_spojny.
  - eexists. split; [reflexivity|].
    pose proof (spojny_elim a Ha) as (H1 & H2 & H3 & H4 & H5 & H6).
    split; [apply wybierz_krok_spojny; try done; by right|].
    by destruct (wybierz_krok_pola r a) as (_ & _ & _ & -> & _).
  - by apply cofnij_spojny.
  - by apply przywroc_spojny.
Qed.

(** X10.  From an aligned state with a description template, every
    sequence of handlers (adding, deleting and moving steps, saving a
    description, clearing, clicking, undo and redo) runs without an
    [IndexError] or a [KeyError], and leaves the state aligned: the widget
    has one item per image, every description key and the selected step are
    indices into the list of images, in the live state and in every
    snapshot, and the history stays within its bounds.  The options are
    untouched. *)
Theorem obsluga_zachowuje_spojnosc `{Biblioteki} (l : list obsluga) (a : app) :
  spojny a → jest_szablon a →
  ∃ a', obsluz_wszystkie l a = Some a' ∧ spojny a' ∧ opc a' = opc a.
Proof.
  revert a. induction l as [|o l IH]; intros a Ha Hs; [by exists a|].
  cbn [obsluz_wszystkie].
  destruct (obsluz_spojny o a Ha Hs) as (a1 & Ho & Ha1 & Hopc).
  rewrite Ho. cbn.
  destruct (IH a1 Ha1) as (a' & Hl & Ha' & Hopc').
  { destruct Hs as [s Hs]. exists s. by rewrite Hopc. }
  exists a'. split; [done|]. split; [done|]. by rewrite Hopc'.
Qed.

Lemma obsluga_zachowuje_spojnosc_witness :
  ∃ a', @obsluz_wszystkie bib_probna
          [Dodaj ["/home/ola/a.png"; "/home/ola/b.png"; "/home/ola/c.png"];
           Wybierz 1; WGore; ZapiszOpis "  " "Zmierz detal"; WDol; WDol; Usun;
           Cofniecie; Cofniecie; Przywrocenie; Wyczysc "2024-05-07"; Usun; WGore]
          a_start = Some a' ∧
        spojny a' ∧ opc a' = opc a_start.
Proof.
  apply (@obsluga_zachowuje_spojnosc bib_probna).
  - apply a_start_spojny.
  - by exists "[domyslny_szablon]".
Defined.

(** X11.  [zapisz_opis_kroku] with a step selected takes a snapshot and
    stores the stripped name and description under the selected index; an
    empty name becomes [Krok <index + 1>]; the other descriptions, the
    images and the selection are untouched. *)
Theorem zapisz_opis_kroku_zapisuje `{Biblioteki} (step_name step_desc : string)
    (a : app) (index : Z) :
  spojny a → aktualny_wybrany_krok a = Some index →
  ∃ a', zapisz_opis_kroku step_name step_desc a = Some a' ∧
        opisy_krokow a' !! index
          = Some (Krok (if decide (strip step_name = "")
                        then "Krok " +:+ py_str (index + 1)
                        else strip step_name)
                       (strip step_desc)) ∧
        (∀ k, k ≠ index → opisy_krokow a' !! k = opisy_krokow a !! k) ∧
        ilustracje a' = ilustracje a ∧
        aktualny_wybrany_krok a' = Some index ∧
        last (stan_historia a') = Some (biezacy_stan a).
Proof.
  intros Ha Hw.
  destruct (zapisz_opis_kroku_pola step_name step_desc a index Ha Hw)
    as (a' & Hz & _ & Eop & Eil & Ew & _ & _ & _ & Eh & _).
  exists a'. split; [done|]. rewrite Eop.
  split; [by rewrite lookup_insert_eq|].
  split; [by intros k Hk; rewrite lookup_insert_ne|].
  split; [done|]. split; [done|]. rewrite Eh. apply zapisz_stan_last.
Qed.

Lemma zapisz_opis_kroku_zapisuje_witness :
  ∃ a', @zapisz_opis_kroku bib_probna "   " " Zmierz detal suwmiarka " a_trzy = Some a' ∧
        opisy_krokow a' !! 1
          = Some (Krok (if decide (@strip bib_probna "   " = "")
                        then "Krok " +:+ py_str (1 + 1)
                        else @strip bib_probna "   ")
                       (@strip bib_probna " Zmierz detal suwmiarka ")) ∧
        (∀ k, k ≠ 1 → opisy_krokow a' !! k = opisy_krokow a_trzy !! k) ∧
        ilustracje a' = ilustracje a_trzy ∧
        aktualny_wybrany_krok a' = Some 1 ∧
        last (stan_historia a') = Some (biezacy_stan a_trzy).
Proof.
  apply (@zapisz_opis_kroku_zapisuje bib_probna "   " " Zmierz detal suwmiarka "
           a_trzy 1).
  - apply a_trzy_spojny.
  - reflexivity.
Defined.

Example zapisz_opis_kroku_pusta_nazwa :
  (a' ← @zapisz_opis_kroku bib_probna "   " " Zmierz detal suwmiarka " a_trzy;
   opisy_krokow a' !! 1)
  = Some (Krok "Krok 2" "Zmierz detal suwmiarka").
Proof. by vm_compute. Qed.

(** ** Replacing an image *)

(** X12.  [wymien_ilustracje] with a row [r] current in an aligned state
    and a file chosen: a snapshot is taken, the image of row [r] becomes
    the path [resize_image] returns for the chosen file, and the files are
    as [resize_image] leaves them.  A description with a name is kept as it
    is; a description with an empty name gets the file name without its
    extension as its name and keeps its text; a step without a description
    gets that name and the template.  The other images and descriptions
    are untouched, row [r] is selected, and the state stays aligned. *)
Theorem wymien_ilustracje_zachowuje_opis `{Biblioteki} (teraz_ms : Z)
    (plik s : string) (a : app) (f : pliki) :
  let r := currentRow (steps_list a) in
  let w := resize_image (temp_dir a) teraz_ms plik f in
  spojny a → t "domyslny_szablon" (opc a) = Some (JStr s) →
  0 ≤ r → plik ≠ "" →
  ∃ a', wymien_ilustracje teraz_ms plik a f = Some (a', w_pliki w) ∧
        spojny a' ∧
        ilustracje a' = <[Z.to_nat r := zwrot w]> (ilustracje a) ∧
        opisy_krokow a' !! r
          = Some (match opisy_krokow a !! r with
                  | Some v => if decide (k_nazwa v = "")
                              then Krok (splitext (basename plik)).1 (k_opis v)
                              else v
                  | None => Krok (splitext (basename plik)).1 s
                  end) ∧
        (∀ k, k ≠ r → opisy_krokow a' !! k = opisy_krokow a !! k) ∧
        aktualny_wybrany_krok a' = Some r ∧
        last (stan_historia a') = Some (biezacy_stan a).
Proof.
  intros r w Ha Hs Hr Hplik.
  pose proof (spojny_elim a Ha) as (H1 & H2 & H3 & H4 & H5 & H6). fold r in H2.
  pose proof (zapisz_stan_spojny a Ha) as Hb.
  pose proof (spojny_elim _ Hb) as (B1 & B2 & B3 & B4 & B5 & B6).
  destruct (zapisz_stan_zywe a) as (Zil & Zop & Zsl & Zdok & Zw & Zopc).
  assert (Ztmp : temp_dir (zapisz_stan a) = temp_dir a).
  { unfold zapisz_stan. by case_decide. }
  unfold wymien_ilustracje. cbv zeta. fold r.
  rewrite decide_False; [|lia]. rewrite decide_False; [|done].
  rewrite Ztmp. fold w.
  rewrite py_setitem_nat; [|rewrite Zil; lia]. cbn [mbind option_bind].
  cbn [opisy_krokow set_ilustracje opc]. rewrite Zop Zopc Hs. cbn [mbind option_bind jako_str].
  set (nazwa := match opisy_krokow a !! r with
                | Some v => if decide (k_nazwa v = "")
                            then (splitext (basename plik)).1 else k_nazwa v
                | None => (splitext (basename plik)).1
                end).
  set (opisy := match opisy_krokow a !! r with
                | Some v => <[r := Krok nazwa (k_opis v)]> (opisy_krokow a)
                | None => <[r := Krok nazwa s]> (opisy_krokow a)
                end).
  assert (Hopisy : match opisy_krokow a !! r with
                   | Some v => Some (<[r := Krok nazwa (k_opis v)]> (opisy_krokow a))
                   | None => Some (<[r := Krok nazwa s]> (opisy_krokow a))
                   end = Some opisy).
  { unfold opisy. by destruct (opisy_krokow a !! r). }
  rewrite Hopisy. cbn [mbind option_bind].
  match goal with |- context [pokaz_podglad (set_steps_list _ ?b)] =>
    change (pokaz_podglad (set_steps_list (setCurrentRow r (steps_list b)) b))
      with (wybierz_krok r b);
    destruct (wybierz_krok_pola r b) as (Eil & Eop & Edok & Eopc & Eh & Ei & Esl & Ew);
    assert (Hsp : spojny (wybierz_krok r b))
  end.
  { apply wybierz_krok_spojny; cbn; rewrite ?Zil ?Zsl ?length_insert.
    - done.
    - intros k Hk. unfold opisy in Hk.
      destruct (decide (k = r)) as [->|Hne]; [lia|].
      destruct (opisy_krokow a !! r);
        rewrite lookup_insert_ne in Hk; try done; by apply H3.
    - left. lia.
    - exact B5.
    - exact B6. }
  eexists. split; [reflexivity|]. split; [exact Hsp|].
  rewrite Eil Eop Eh Ew. cbn. rewrite Zil Zsl length_insert.
  split; [done|]. split; [|split; [|split]].
  - unfold opisy, nazwa. destruct (opisy_krokow a !! r) as [v|];
      rewrite lookup_insert_eq; [|done].
    destruct (decide (k_nazwa v = "")); [done|]. by destruct v.
  - intros k Hk. unfold opisy.
    by destruct (opisy_krokow a !! r); rewrite lookup_insert_ne.
  - rewrite decide_True; [done|lia].
  - apply zapisz_stan_last.
Qed.

Lemma wymien_ilustracje_zachowuje_opis_witness :
  let r := currentRow (steps_list a_trzy) in
  let w := @resize_image bib_probna (temp_dir a_trzy) 1714981000123
             "/home/ola/maly.png" pliki_probne in
  ∃ a', @wymien_ilustracje bib_probna 1714981000123 "/home/ola/maly.png" a_trzy
          pliki_probne = Some (a', w_pliki w) ∧
        spojny a' ∧
        ilustracje a' = <[Z.to_nat r := zwrot w]> (ilustracje a_trzy) ∧
        opisy_krokow a' !! r
          = Some (match opisy_krokow a_trzy !! r with
                  | Some v => if decide (k_nazwa v = "")
                              then Krok (splitext (basename "/home/ola/maly.png")).1
                                        (k_opis v)
                              else v
                  | None => Krok (splitext (basename "/home/ola/maly.png")).1
                                 "[domyslny_szablon]"
                  end) ∧
        (∀ k, k ≠ r → opisy_krokow a' !! k = opisy_krokow a_trzy !! k) ∧
        aktualny_wybrany_krok a' = Some r ∧
        last (stan_historia a') = Some (biezacy_stan a_trzy).
Proof.
  apply (@wymien_ilustracje_zachowuje_opis bib_probna 1714981000123
           "/home/ola/maly.png" "[domyslny_szablon]" a_trzy pliki_probne).
  - apply a_trzy_spojny.
  - reflexivity.
  - by vm_compute.
  - discriminate.
Defined.

(** ** Pruning the autosave directory *)

Lemma wstaw_Permutation (x : Katalog.pozycja) (l : list Katalog.pozycja) :
  Katalog.wstaw x l ≡ₚ x :: l.
Proof.
  induction l as [|y l IH]; [done|]. cbn [Katalog.wstaw].
  destruct (decide _); [done|]. rewrite IH. apply Permutation_swap.
Qed.

Lemma sortuj_Permutation (l : list Katalog.pozycja) : Katalog.sortuj l ≡ₚ l.
Proof.
  induction l as [|x l IH]; [done|]. cbn [Katalog.sortuj foldr].
  rewrite wstaw_Permutation. by f_equiv.
Qed.

Lemma wstaw_StronglySorted (x : Katalog.pozycja) (l : list Katalog.pozycja) :
  StronglySorted (λ p q, Katalog.p_mtime p ≤ Katalog.p_mtime q) l →
  StronglySorted (λ p q, Katalog.p_mtime p ≤ Katalog.p_mtime q) (Katalog.wstaw x l).
Proof.
  induction 1 as [|y l Hs IH Hy]; [repeat constructor|].
  cbn [Katalog.wstaw]. destruct (decide _) as [Hle|Hgt].
  - constructor; [by constructor|]. constructor; [done|].
    eapply Forall_impl; [exact Hy|]. intros q Hq. cbn in *. lia.
  - constructor; [done|]. rewrite wstaw_Permutation.
    constructor; [lia|done].
Qed.

Lemma sortuj_StronglySorted (l : list Katalog.pozycja) :
  StronglySorted (λ p q, Katalog.p_mtime p ≤ Katalog.p_mtime q) (Katalog.sortuj l).
Proof.
  induction l as [|x l IH]; [constructor|]. by apply wstaw_StronglySorted.
Qed.

(** The sort is stable: it is the listing order among equal stamps. *)
Lemma wstaw_filter (P : Katalog.pozycja → Prop) `{∀ p, Decision (P p)}
    (x : Katalog.pozycja) (l : list Katalog.pozycja) :
  (∀ p q, P p → P q → Katalog.p_mtime p = Katalog.p_mtime q) →
  filter P (Katalog.wstaw x l) = filter P (x :: l).
Proof.
  intros Heq. induction l as [|y l IH]; [done|]. cbn [Katalog.wstaw].
  destruct (decide (Katalog.p_mtime x ≤ Katalog.p_mtime y)) as [Hle|Hgt]; [done|].
  rewrite filter_cons IH !filter_cons.
  destruct (decide (P y)) as [Hy|Hy]; [|done].
  destruct (decide (P x)) as [Hx|Hx]; [|done].
  specialize (Heq x y Hx Hy). lia.
Qed.

Lemma stare_najnowsze (l : list Katalog.pozycja) :
  Katalog.stare l ++ Katalog.najnowsze l ≡ₚ Katalog.kandydaci l.
Proof.
  unfold Katalog.stare, Katalog.najnowsze. rewrite take_drop.
  apply sortuj_Permutation.
Qed.

Lemma length_sortuj (l : list Katalog.pozycja) :
  length (Katalog.sortuj l) = length l.
Proof. by rewrite sortuj_Permutation. Qed.

(** X13.  [oczysc_stare_autozapisy] keeps the ten newest autosaves.  The
    matching files of the listing split into the ones taken from the front
    of the sorted list and the ones left in it: at most ten are left, all
    of them when there are no more than ten; every file taken is at most as
    new as every file left; the files removed are the taken ones that can
    be removed, in the order of their age; and one line is printed for
    each file removed, none for a file that could not be removed. *)
Theorem oczysc_zostawia_najnowsze (autosave_dir : string)
    (l : list Katalog.pozycja) :
  let wynik := Katalog.oczysc_stare_autozapisy autosave_dir (Some l) in
  Katalog.stare l ++ Katalog.najnowsze l ≡ₚ Katalog.kandydaci l ∧
  length (Katalog.najnowsze l) = (length (Katalog.kandydaci l) `min` 10)%nat ∧
  (∀ x y, x ∈ Katalog.stare l → y ∈ Katalog.najnowsze l →
          Katalog.p_mtime x ≤ Katalog.p_mtime y) ∧
  StronglySorted (λ p q, Katalog.p_mtime p ≤ Katalog.p_mtime q) (Katalog.stare l) ∧
  wynik.1 = (λ p, join autosave_dir (Katalog.p_nazwa p))
              <$> filter (λ p, Katalog.p_usuwalny p = true) (Katalog.stare l) ∧
  wynik.2 = Katalog.Usunieto <$> wynik.1 ∧
  ((length (Katalog.kandydaci l) ≤ 10)%nat → wynik = ([], [])).
Proof.
  intros wynik.
  pose proof (sortuj_StronglySorted (Katalog.kandydaci l)) as Hs.
  rewrite -(take_drop (length (Katalog.kandydaci l) - 10)
              (Katalog.sortuj (Katalog.kandydaci l))) in Hs.
  split; [apply stare_najnowsze|]. split; [|split; [|split; [|split; [|split]]]].
  - unfold Katalog.najnowsze. rewrite length_drop length_sortuj. lia.
  - intros x y Hx Hy. by eapply (StronglySorted_app_1_elem_of _ _ _ x y Hs).
  - by apply StronglySorted_app_1_l in Hs.
  - done.
  - done.
  - intros Hle. unfold wynik, Katalog.oczysc_stare_autozapisy, Katalog.stare.
    replace (length (Katalog.kandydaci l) - 10)%nat with 0%nat by lia. done.
Qed.

Lemma prefix_zawiera (c : ascii) (pre s : string) :
  String.prefix pre s = true → Katalog.zawiera c pre = true →
  Katalog.zawiera c s = true.
Proof.
  revert s. induction pre as [|x pre IH]; intros s Hp Hz; [done|].
  destruct s as [|y s]; [done|]. cbn in Hp.
  destruct (Ascii.ascii_dec x y) as [->|]; [|done].
  cbn in Hz |- *. apply orb_true_iff in Hz as [Hz|Hz]; apply orb_true_iff.
  - by left.
  - right. by apply IH.
Qed.

Lemma pasuje_json_podkreslenie (plik : string) :
  Katalog.pasuje plik
  = Katalog.endswith ".json" plik && Katalog.zawiera "_" plik.
Proof.
  unfold Katalog.pasuje, Katalog.startswith. f_equal.
  destruct (Katalog.zawiera "_" plik) eqn:Hz; [by rewrite !orb_true_r|].
  rewrite orb_false_r.
  destruct (String.prefix "bez_kodu_" plik) eqn:H1.
  { by rewrite (prefix_zawiera "_" "bez_kodu_" plik H1) in Hz. }
  destruct (String.prefix "xxx-xxxx-xxx_" plik) eqn:H2; [|done].
  by rewrite (prefix_zawiera "_" "xxx-xxxx-xxx_" plik H2) in Hz.
Qed.

(** X14.  What [oczysc_stare_autozapisy] may remove.  The two prefixes in
    its test add nothing: a name matches exactly when it ends with [.json]
    and holds a [_], whoever wrote the file.  Every path removed is a
    regular file of the listing with such a name; a file with another name
    and a directory are never removed. *)
Theorem oczysc_usuwa_tylko_pasujace (autosave_dir : string)
    (l : list Katalog.pozycja) :
  (∀ plik, Katalog.pasuje plik
           = Katalog.endswith ".json" plik && Katalog.zawiera "_" plik) ∧
  ∀ q, q ∈ (Katalog.oczysc_stare_autozapisy autosave_dir (Some l)).1 →
       ∃ p, p ∈ l ∧ q = join autosave_dir (Katalog.p_nazwa p) ∧
            Katalog.endswith ".json" (Katalog.p_nazwa p) = true ∧
            Katalog.zawiera "_" (Katalog.p_nazwa p) = true ∧
            Katalog.p_isfile p = true ∧ Katalog.p_usuwalny p = true.
Proof.
  split; [apply pasuje_json_podkreslenie|].
  intros q Hq. cbn in Hq. apply list_elem_of_fmap in Hq as (p & -> & Hp).
  apply list_elem_of_filter in Hp as [Hu Hp].
  assert (Hk : p ∈ Katalog.kandydaci l).
  { rewrite -stare_najnowsze. apply elem_of_app. by left. }
  apply list_elem_of_filter in Hk as [Hk Hl].
  apply andb_true_iff in Hk as [Hpas Hf].
  rewrite pasuje_json_podkreslenie in Hpas. apply andb_true_iff in Hpas as [He Hz].
  by exists p.
Qed.

(** Twelve autosaves, one of which cannot be removed, and a file of the
    user with an underscore in its name: the user's file and the oldest
    autosave are removed. *)
Example oczysc_katalog_probny :
  Katalog.oczysc_stare_autozapisy "/home/ola/Piorun_autosave"
    (Some Katalog.katalog_probny)
  = (["/home/ola/Piorun_autosave/moje_dane.json";
      "/home/ola/Piorun_autosave/K-1_20240506_100000.json"],
     [Katalog.Usunieto "/home/ola/Piorun_autosave/moje_dane.json";
      Katalog.Usunieto "/home/ola/Piorun_autosave/K-1_20240506_100000.json"]).
Proof. by vm_compute. Qed.

(** ** Backup copies *)

Lemma length_append (a b : string) :
  String.length (a +:+ b) = (String.length a + String.length b)%nat.
Proof.
  induction a as [|x a IH]; [done|].
  change (String x a +:+ b) with (String x (a +:+ b)). cbn. by rewrite IH.
Qed.

(** [join] with a name without [/] is the name behind a prefix that the
    directory fixes. *)
Lemma join_bez_znaku (d : string) :
  ∃ pre, (d = "" ∧ pre = "" ∨ d ≠ "" ∧ (pre = d ∨ pre = d +:+ "/")) ∧
         ∀ n, bez_znaku "/" n → join d n = pre +:+ n.
Proof.
  exists (if decide (d = "") then ""
          else if ends_with_slash d then d else d +:+ "/").
  split.
  { destruct (decide (d = "")); [by left|]. right. split; [done|].
    destruct (ends_with_slash d); by [left|right]. }
  intros n Hn.
  assert (Hj : join d n = if decide (d = "") then n
                          else if ends_with_slash d then d +:+ n
                          else d +:+ "/" +:+ n).
  { unfold join. destruct n as [|x n]; [done|]. destruct Hn as [Hx _].
    destruct x as [[] [] [] [] [] [] [] []]; try done. }
  rewrite Hj. destruct (decide (d = "")); [done|].
  destruct (ends_with_slash d); [done|]. symmetry. apply append_assoc.
Qed.

Lemma join_inj (d n1 n2 : string) :
  bez_znaku "/" n1 → bez_znaku "/" n2 → join d n1 = join d n2 → n1 = n2.
Proof.
  intros H1 H2 Heq. destruct (join_bez_znaku d) as (pre & _ & Hpre).
  rewrite !Hpre in Heq; [|done..]. by apply (inj (String.app pre)) in Heq.
Qed.

Lemma join_ne (d n : string) : bez_znaku "/" n → n ≠ "" → join d n ≠ d.
Proof.
  intros Hn Hne Heq. destruct (join_bez_znaku d) as (pre & Hd & Hpre).
  rewrite Hpre in Heq; [|done]. apply (f_equal String.length) in Heq.
  rewrite length_append in Heq.
  assert (0 < String.length n)%nat by (destruct n; [done|cbn; lia]).
  destruct Hd as [[-> ->]|[_ [->| ->]]]; [cbn in Heq; lia|lia|].
  rewrite length_append in Heq. lia.
Qed.

Lemma bez_znaku_po_ostatnim (c : ascii) (p r : string) :
  po_ostatnim c p = Some r → bez_znaku c r.
Proof.
  revert r. induction p as [|x p IH]; intros r; [done|]. cbn [po_ostatnim].
  destruct (po_ostatnim c p) as [r'|] eqn:Hp.
  - intros [= <-]. by apply IH.
  - destruct (decide (x = c)); [|done]. intros [= <-]. clear IH.
    induction p as [|y p IH]; [done|]. cbn [po_ostatnim] in Hp.
    destruct (po_ostatnim c p); [done|].
    destruct (decide (y = c)); [done|]. split; [done|]. by apply IH.
Qed.

Lemma po_ostatnim_None (c : ascii) (p : string) :
  po_ostatnim c p = None → bez_znaku c p.
Proof.
  induction p as [|y p IH]; [done|]. cbn [po_ostatnim].
  destruct (po_ostatnim c p); [done|].
  destruct (decide (y = c)); [done|]. intros _. split; [done|]. by apply IH.
Qed.

Lemma bez_znaku_basename (p : string) : bez_znaku "/" (basename p).
Proof.
  unfold basename. destruct (po_ostatnim "/" p) as [r|] eqn:Hp; cbn.
  - by eapply bez_znaku_po_ostatnim.
  - by apply po_ostatnim_None.
Qed.

Lemma bez_znaku_same_cyfry (s : string) : same_cyfry s → bez_znaku "/" s.
Proof.
  induction s as [|x s IH]; [done|]. intros [[d Hd] Hs]. split; [|by apply IH].
  intros ->. by vm_compute in Hd.
Qed.

Lemma py_str_nastepny (i : nat) : py_str (Z.of_nat i + 1) = py_str (Z.of_nat (S i)).
Proof. f_equal. lia. Qed.

Lemma bez_znaku_nazwa_kopii (i : nat) (p : string) :
  bez_znaku "/" (nazwa_kopii i p) ∧ nazwa_kopii i p ≠ "".
Proof.
  split; [|done]. unfold nazwa_kopii. rewrite !bez_znaku_app.
  split; [by vm_compute|]. split; [|split; [by vm_compute|apply bez_znaku_basename]].
  rewrite py_str_nastepny. apply bez_znaku_same_cyfry, same_cyfry_py_str.
Qed.

Lemma nazwa_kopii_inj (i j : nat) (p q : string) :
  nazwa_kopii i p = nazwa_kopii j q → i = j.
Proof.
  unfold nazwa_kopii. intros Heq. apply (inj (String.app "krok_")) in Heq.
  rewrite !py_str_nastepny in Heq.
  apply same_cyfry_podkreslenie in Heq; [|apply same_cyfry_py_str..].
  apply py_str_inj_nat in Heq. lia.
Qed.

Lemma w_katalogu_kopia (d : string) (i : nat) (p : string) :
  w_katalogu d (join d (nazwa_kopii i p)).
Proof. right. exists (nazwa_kopii i p). split; [apply bez_znaku_nazwa_kopii|done]. Qed.

Lemma copy2_ok (src dst : string) (f : pliki) (w : wezel) :
  f !! src = Some w → w ≠ Katalog → f !! dst = None →
  copy2 src dst f = Some (<[dst := w]> f).
Proof.
  intros Hs Hw Hd. unfold copy2. rewrite Hd. cbv zeta.
  rewrite decide_False; [|by intros ->; rewrite Hs in Hd].
  rewrite Hs Hd. by destruct w.
Qed.

(** The loop over the images, run on files in which no image is a
    directory or lies in the backup directory, and no copy exists yet. *)
Lemma kopiuj_obrazy_ok (bd : string) (il : list string) :
  ∀ (i : nat) (f1 : pliki),
    (∀ p, p ∈ il → f1 !! p ≠ Some Katalog ∧ ¬ w_katalogu bd p) →
    (∀ j p, il !! j = Some p → f1 !! join bd (nazwa_kopii (i + j) p) = None) →
    ∃ f2, kopiuj_obrazy bd i il f1 = (f2, true) ∧
          (∀ j p, il !! j = Some p →
                  f2 !! join bd (nazwa_kopii (i + j) p) = f1 !! p) ∧
          (∀ q, (∀ j p, il !! j = Some p → q ≠ join bd (nazwa_kopii (i + j) p)) →
                f2 !! q = f1 !! q).
Proof.
  induction il as [|p il IH]; intros i f1 HA HB.
  { exists f1. split; [done|]. split; [by intros j p Hj|done]. }
  cbn [kopiuj_obrazy].
  assert (Hinne : ∀ j p', il !! j = Some p' →
            join bd (nazwa_kopii (S i + j) p') ≠ join bd (nazwa_kopii i p)).
  { intros j p' _ Heq. apply join_inj in Heq; [|apply bez_znaku_nazwa_kopii..].
    apply nazwa_kopii_inj in Heq. lia. }
  assert (HB0 : f1 !! join bd (nazwa_kopii i p) = None).
  { specialize (HB 0%nat p eq_refl). by rewrite Nat.add_0_r in HB. }
  assert (Hkrok : ∃ f1',
            (if exists_path f1 p
             then match copy2 p (join bd (nazwa_kopii i p)) f1 with
                  | Some f' => kopiuj_obrazy bd (S i) il f'
                  | None => (f1, false)
                  end
             else kopiuj_obrazy bd (S i) il f1) = kopiuj_obrazy bd (S i) il f1' ∧
            f1' !! join bd (nazwa_kopii i p) = f1 !! p ∧
            (∀ q, q ≠ join bd (nazwa_kopii i p) → f1' !! q = f1 !! q)).
  { unfold exists_path. destruct (f1 !! p) as [w|] eqn:Hp.
    - rewrite bool_decide_eq_true_2; [|done].
      rewrite (copy2_ok p _ f1 w Hp);
        [|intros ->; by destruct (HA p) as [HK _]; [left|]|done].
      eexists. split; [reflexivity|]. split; [by rewrite lookup_insert_eq|].
      intros q Hq. by rewrite lookup_insert_ne.
    - rewrite bool_decide_eq_false_2; [|by intros [? ?]].
      exists f1. split; [done|]. split; [by rewrite HB0|done]. }
  destruct Hkrok as (f1' & -> & Hkopia & Hreszta).
  destruct (IH (S i) f1') as (f2 & Hk & Hkopie & Hrama).
  { intros p' Hp'. destruct (HA p') as [HK Hw]; [by right|]. split; [|done].
    rewrite Hreszta; [done|]. intros ->. apply Hw, w_katalogu_kopia. }
  { intros j p' Hj. rewrite Hreszta; [|by apply Hinne].
    specialize (HB (S j) p' Hj). by rewrite Nat.add_succ_r in HB. }
  exists f2. split; [done|]. split.
  - intros [|j] p' Hj.
    + injection Hj as <-. rewrite Nat.add_0_r Hrama; [done|].
      intros j p' Hj Heq. by eapply Hinne.
    + cbn in Hj. rewrite Nat.add_succ_r. rewrite (Hkopie j p' Hj).
      apply Hreszta. intros Heq. destruct (HA p') as [_ Hw].
      * right. by eapply list_elem_of_lookup_2.
      * apply Hw. rewrite Heq. apply w_katalogu_kopia.
  - intros q Hq. rewrite Hrama.
    + apply Hreszta. specialize (Hq 0%nat p eq_refl). by rewrite Nat.add_0_r in Hq.
    + intros j p' Hj. specialize (Hq (S j) p' Hj). by rewrite Nat.add_succ_r in Hq.
Qed.

Lemma bez_znaku_dane_projektu : bez_znaku "/" "dane_projektu.json".
Proof. by vm_compute. Qed.

Lemma dane_projektu_inne (bd : string) (i : nat) (p : string) :
  join bd "dane_projektu.json" ≠ join bd (nazwa_kopii i p).
Proof.
  intros Heq. apply join_inj in Heq;
    [done|apply bez_znaku_dane_projektu|apply bez_znaku_nazwa_kopii].
Qed.

(** What a backup holds when the backup directory is new and no image path
    is a directory. *)
Lemma utworz_kopie_zapasowa_ok (katalog znacznik iso : string) (a : app) (f : pliki) :
  let bd := join katalog ("backup_dokumentacji_" +:+ znacznik) in
  ilustracje a ≠ [] → katalog ≠ "" →
  (∀ q, w_katalogu bd q → f !! q = None) →
  (∀ p, p ∈ ilustracje a → f !! p ≠ Some Katalog ∧ ¬ w_katalogu bd p) →
  ∃ f', utworz_kopie_zapasowa katalog znacznik iso a f
          = (f', Some (KopiaUtworzona bd)) ∧
        f' !! bd = Some Katalog ∧
        f' !! join bd "dane_projektu.json" = Some (Dokument (dane_projektu iso a)) ∧
        (∀ i p, ilustracje a !! i = Some p →
                f' !! join bd (nazwa_kopii i p) = f !! p) ∧
        (∀ q, ¬ w_katalogu bd q → f' !! q = f !! q).
Proof.
  intros bd Hil Hkat Hnowy Hobrazy.
  unfold utworz_kopie_zapasowa. rewrite decide_False; [|done].
  rewrite decide_False; [|done]. fold bd. cbv zeta.
  unfold makedirs. rewrite Hnowy; [|by left].
  assert (Hbd : ∀ n, bez_znaku "/" n → n ≠ "" →
            (<[bd := Katalog]> f : pliki) !! join bd n = None).
  { intros n Hn Hne. rewrite lookup_insert_ne.
    - apply Hnowy. right. by exists n.
    - intros Heq. symmetry in Heq. revert Heq. by apply join_ne. }
  destruct (kopiuj_obrazy_ok bd (ilustracje a) 0 (<[bd := Katalog]> f))
    as (f2 & -> & Hkopie & Hrama).
  { intros p Hp. destruct (Hobrazy p Hp) as [HK Hw]. split; [|done].
    rewrite lookup_insert_ne; [done|]. intros ->. apply Hw. by left. }
  { intros j p _. apply Hbd; apply bez_znaku_nazwa_kopii. }
  assert (Hdane : f2 !! join bd "dane_projektu.json" = None).
  { rewrite Hrama; [|intros j p _; apply dane_projektu_inne].
    by apply Hbd; [apply bez_znaku_dane_projektu|]. }
  unfold write_json. rewrite Hdane.
  eexists. split; [reflexivity|]. split; [|split; [|split]].
  - rewrite lookup_insert_ne;
      [|apply join_ne; [apply bez_znaku_dane_projektu|done]].
    rewrite Hrama; [by rewrite lookup_insert_eq|].
    intros j p _ Heq. symmetry in Heq. revert Heq.
    apply join_ne; apply bez_znaku_nazwa_kopii.
  - by rewrite lookup_insert_eq.
  - intros i p Hi. rewrite lookup_insert_ne; [|apply dane_projektu_inne].
    rewrite (Hkopie i p Hi). rewrite lookup_insert_ne; [done|].
    intros ->. destruct (Hobrazy p) as [_ Hw]; [by eapply list_elem_of_lookup_2|].
    apply Hw. by left.
  - intros q Hq. rewrite lookup_insert_ne.
    2:{ intros <-. apply Hq. right. exists "dane_projektu.json".
        split; [apply bez_znaku_dane_projektu|done]. }
    rewrite Hrama.
    2:{ intros j p _ ->. apply Hq, w_katalogu_kopia. }
    rewrite lookup_insert_ne; [done|]. intros <-. apply Hq. by left.
Qed.

(** X15.  A backup into a new directory.  When the backup directory does
    not exist yet and no image path is a directory or lies in it,
    [utworz_kopie_zapasowa] reports success: the directory exists, it holds
    [dane_projektu.json] with the fields and the descriptions, and under
    [krok_<i+1>_<name>] it holds what the path of image [i] holds.  An image
    whose file is missing has no copy, and the success is reported all the
    same.  Nothing outside the backup directory is touched. *)
Theorem utworz_kopie_zapasowa_kompletna (katalog znacznik iso : string) (a : app)
    (f : pliki) :
  let bd := join katalog ("backup_dokumentacji_" +:+ znacznik) in
  ilustracje a ≠ [] → katalog ≠ "" →
  (∀ q, w_katalogu bd q → f !! q = None) →
  (∀ p, p ∈ ilustracje a → f !! p ≠ Some Katalog ∧ ¬ w_katalogu bd p) →
  ∃ f', utworz_kopie_zapasowa katalog znacznik iso a f
          = (f', Some (KopiaUtworzona bd)) ∧
        f' !! bd = Some Katalog ∧
        f' !! join bd "dane_projektu.json" = Some (Dokument (dane_projektu iso a)) ∧
        (∀ i p, ilustracje a !! i = Some p →
                f' !! join bd (nazwa_kopii i p) = f !! p) ∧
        (∀ q, ¬ w_katalogu bd q → f' !! q = f !! q).
Proof. apply utworz_kopie_zapasowa_ok. Qed.

Lemma append_nil_r (s : string) : s +:+ "" = s.
Proof.
  induction s as [|x s IH]; [done|].
  change (String x s +:+ "") with (String x (s +:+ "")). by rewrite IH.
Qed.

(** A path in a directory with a name begins with the name of the
    directory. *)
Lemma w_katalogu_prefiks (d q : string) :
  d ≠ "" → w_katalogu d q → ∃ r, q = d +:+ r.
Proof.
  intros Hd [->|(n & Hn & ->)]; [exists ""; by rewrite append_nil_r|].
  destruct (join_bez_znaku d) as (pre & Hpre & Hj). rewrite Hj; [|done].
  destruct Hpre as [[-> _]|[_ [->| ->]]]; [done|by exists n|].
  exists ("/" +:+ n). apply append_assoc.
Qed.

(** The files of [pliki_bez_a] lie outside the sample backup directory. *)
Lemma kopia_probna_poza (q : string) :
  w_katalogu (join "/home/ola/kopie" ("backup_dokumentacji_" +:+ "20240506_101500")) q →
  q ≠ "/home/ola/a.png" ∧ q ≠ "/home/ola/b.png" ∧ q ≠ "/home/ola/c.png".
Proof.
  intros Hq. apply w_katalogu_prefiks in Hq as [r ->]; [|done].
  by vm_compute.
Qed.

Lemma kopia_probna_nowa (q : string) :
  w_katalogu (join "/home/ola/kopie" ("backup_dokumentacji_" +:+ "20240506_101500")) q →
  pliki_bez_a !! q = None.
Proof.
  intros Hq. destruct (kopia_probna_poza q Hq) as (Ha & Hb & Hc).
  unfold pliki_bez_a, pliki_trzy.
  rewrite lookup_delete_ne; [|done]. by rewrite !lookup_insert_ne.
Qed.

Lemma kopia_probna_obrazy (p : string) :
  p ∈ ilustracje a_trzy →
  pliki_bez_a !! p ≠ Some Katalog ∧
  ¬ w_katalogu (join "/home/ola/kopie" ("backup_dokumentacji_" +:+ "20240506_101500")) p.
Proof.
  intros Hp. split.
  - change (ilustracje a_trzy)
      with ["/home/ola/a.png"; "/home/ola/b.png"; "/home/ola/c.png"] in Hp.
    rewrite !elem_of_cons in Hp. destruct Hp as [->|[->|[->|Hp]]]; [by vm_compute..|].
    by apply elem_of_nil in Hp.
  - intros Hw. destruct (kopia_probna_poza p Hw) as (Ha & Hb & Hc).
    change (ilustracje a_trzy)
      with ["/home/ola/a.png"; "/home/ola/b.png"; "/home/ola/c.png"] in Hp.
    rewrite !elem_of_cons in Hp. destruct Hp as [->|[->|[->|Hp]]]; [done..|].
    by apply elem_of_nil in Hp.
Qed.

Lemma utworz_kopie_zapasowa_kompletna_witness :
  let bd := join "/home/ola/kopie" ("backup_dokumentacji_" +:+ "20240506_101500") in
  ∃ f', utworz_kopie_zapasowa "/home/ola/kopie" "20240506_101500"
          "2024-05-06T10:15:00.123456" a_trzy pliki_bez_a
          = (f', Some (KopiaUtworzona bd)) ∧
        f' !! bd = Some Katalog ∧
        f' !! join bd "dane_projektu.json"
          = Some (Dokument (dane_projektu "2024-05-06T10:15:00.123456" a_trzy)) ∧
        (∀ i p, ilustracje a_trzy !! i = Some p →
                f' !! join bd (nazwa_kopii i p) = pliki_bez_a !! p) ∧
        (∀ q, ¬ w_katalogu bd q → f' !! q = pliki_bez_a !! q).
Proof.
  apply (utworz_kopie_zapasowa_kompletna "/home/ola/kopie" "20240506_101500"
           "2024-05-06T10:15:00.123456" a_trzy pliki_bez_a).
  - discriminate.
  - discriminate.
  - apply kopia_probna_nowa.
  - apply kopia_probna_obrazy.
Defined.

(** The first image is missing: the backup holds the second and the third
    under their step numbers, and the data file. *)
Example kopia_bez_pierwszego_obrazu :
  let w := utworz_kopie_zapasowa "/home/ola/kopie" "20240506_101500"
             "2024-05-06T10:15:00.123456" a_trzy pliki_bez_a in
  w.2 = Some (KopiaUtworzona "/home/ola/kopie/backup_dokumentacji_20240506_101500") ∧
  w.1 !! "/home/ola/kopie/backup_dokumentacji_20240506_101500/krok_1_a.png" = None ∧
  w.1 !! "/home/ola/kopie/backup_dokumentacji_20240506_101500/krok_2_b.png"
    = Some (Plik [x64; x40; x04; x05]) ∧
  w.1 !! "/home/ola/kopie/backup_dokumentacji_20240506_101500/krok_3_c.png"
    = Some (Plik [x64; x40; x06]).
Proof. by vm_compute. Qed.

(** ** Loading the data file of a backup *)

Lemma opcje_domyslne_pola (o : opcje) :
  let o' := set_dark_theme false
              (ustaw_jezyk "polski"
                 (ustaw_rozmiar_czcionki "11"
                    (ustaw_czcionke "Arial"
                       (ustaw_rozmiar "8" (ustaw_uklad (JStr "lewo_prawo") o))))) in
  jezyk o' = "polski" ∧ dark_theme o' = false ∧ tlumaczenia o' = tlumaczenia o.
Proof.
  intros o'. unfold o'. cbn [set_dark_theme jezyk dark_theme tlumaczenia].
  set (o4 := ustaw_rozmiar_czcionki _ _).
  destruct (ustaw_jezyk_spec "polski" o4) as (-> & _ & _ & _ & _ & _ & ->).
  split; [done|]. split; [done|].
  unfold o4, ustaw_rozmiar_czcionki, ustaw_czcionke, ustaw_rozmiar, ustaw_uklad.
  cbn. by case_decide.
Qed.

Lemma wczytaj_dane_projektu `{Biblioteki} (sciezka iso : string) (a b : app)
    (f : pliki) :
  sciezka ≠ "" →
  f !! sciezka = Some (Dokument (dane_projektu iso a)) →
  let w := wczytaj_projekt sciezka b f in
  dok w.1 = dok a ∧ ilustracje w.1 = [] ∧ opisy_krokow w.1 = opisy_krokow a ∧
  w.2 = f ∧
  jezyk (opc w.1) = "polski" ∧ dark_theme (opc w.1) = false ∧
  tlumaczenia (opc w.1) = tlumaczenia (opc b).
Proof.
  intros Hs Hf w.
  set (D := dane_projektu iso a).
  assert (Hjson : wczytaj_json sciezka (b, f) = (b, f, Some D)).
  { unfold wczytaj_json, read_json. by rewrite /= Hf. }
  set (b1 := set_dok (Pola (kod_edit (dok a)) (nazwa_edit (dok a))
                           (data_edit (dok a)) (autor_edit (dok a))) b).
  assert (Hpola : wczytaj_pola D (b, f) = (b1, f, Some ())) by reflexivity.
  set (b2 := set_ilustracje [] b1).
  assert (Hobr : wczytaj_obrazy D (b1, f) = (b2, f, Some ())) by reflexivity.
  set (b3 := set_opisy_krokow (opisy_krokow a) b2).
  assert (Hop : wczytaj_opisy D (b2, f) = (b3, f, Some ())).
  { unfold wczytaj_opisy.
    change (py_get "opisy_krokow" (JObj []) D ≫= py_items)
      with (Some (opisy_krokow_str_keys (opisy_krokow a))).
    rewrite (bind_ok _ _ _ (b2, f) _ eq_refl).
    rewrite opisy_krokow_tam_i_z_powrotem.
    by rewrite (bind_ok _ _ _ (b2, f) _ eq_refl). }
  set (o' := set_dark_theme false
               (ustaw_jezyk "polski"
                  (ustaw_rozmiar_czcionki "11"
                     (ustaw_czcionke "Arial"
                        (ustaw_rozmiar "8"
                           (ustaw_uklad (JStr "lewo_prawo") (opc b))))))).
  set (b4 := set_opc o' b3).
  assert (Hust : wczytaj_ustawienia D (b3, f) = (b4, f, Some ())) by reflexivity.
  destruct (opcje_domyslne_pola (opc b)) as (Hj & Hd & Ht). fold o' in Hj, Hd, Ht.
  unfold w, wczytaj_projekt. rewrite decide_False; [|done].
  unfold wczytaj_projekt_try.
  rewrite (bind_ok _ _ _ _ _ Hjson) (bind_ok _ _ _ _ _ Hpola)
          (bind_ok _ _ _ _ _ Hobr) (bind_ok _ _ _ _ _ Hop)
          (bind_ok _ _ _ _ _ Hust).
  rewrite (bind_ok (zmiana odswiez_liste) _ (b4, f) (odswiez_liste b4, f) () eq_refl).
  unfold odswiez_interfejs, mbind, M_bind.
  change ((odswiez_liste b4, f).1) with (odswiez_liste b4).
  destruct (odswiez_interfejs_raises (odswiez_liste b4)).
  - cbn [fst snd]. split; [cbn; by destruct (dok a)|]. by repeat split.
  - cbn [fst snd zmiana].
    destruct (zapisz_stan_zywe (set_historia [] (-1) (odswiez_liste b4)))
      as (-> & -> & _ & -> & _ & ->).
    split; [cbn; by destruct (dok a)|]. by repeat split.
Qed.

(** X16.  The data file of a backup loads as a project without images.
    After a backup into a new directory, [wczytaj_projekt] on its
    [dane_projektu.json] brings back the code, name, date and author and
    the descriptions of the steps, leaves the list of images empty, and
    writes no file; the language is Polish and the theme light, whatever
    they were when the backup was made. *)
Theorem wczytaj_projekt_z_kopii `{Biblioteki} (katalog znacznik iso : string)
    (a b : app) (f : pliki) :
  let bd := join katalog ("backup_dokumentacji_" +:+ znacznik) in
  let kopia := utworz_kopie_zapasowa katalog znacznik iso a f in
  let w := wczytaj_projekt (join bd "dane_projektu.json") b kopia.1 in
  ilustracje a ≠ [] → katalog ≠ "" →
  (∀ q, w_katalogu bd q → f !! q = None) →
  (∀ p, p ∈ ilustracje a → f !! p ≠ Some Katalog ∧ ¬ w_katalogu bd p) →
  kopia.2 = Some (KopiaUtworzona bd) ∧
  dok w.1 = dok a ∧ ilustracje w.1 = [] ∧ opisy_krokow w.1 = opisy_krokow a ∧
  w.2 = kopia.1 ∧
  jezyk (opc w.1) = "polski" ∧ dark_theme (opc w.1) = false ∧
  tlumaczenia (opc w.1) = tlumaczenia (opc b).
Proof.
  intros bd kopia w Hil Hkat Hnowy Hobrazy.
  destruct (utworz_kopie_zapasowa_ok katalog znacznik iso a f Hil Hkat Hnowy Hobrazy)
    as (f' & Hk & _ & Hdane & _).
  fold bd in Hk, Hdane. unfold w, kopia. rewrite Hk. cbn [fst snd].
  split; [done|]. apply (wczytaj_dane_projektu _ iso a b f'); [|done].
  intros Heq. apply (join_ne bd "dane_projektu.json");
    [apply bez_znaku_dane_projektu|done|].
  destruct (join_bez_znaku bd) as (pre & Hpre & Hj).
  rewrite Hj in Heq; [|apply bez_znaku_dane_projektu].
  by destruct pre.
Qed.

Lemma wczytaj_projekt_z_kopii_witness :
  let bd := join "/home/ola/kopie" ("backup_dokumentacji_" +:+ "20240506_101500") in
  let kopia := utworz_kopie_zapasowa "/home/ola/kopie" "20240506_101500"
                 "2024-05-06T10:15:00.123456" a_trzy pliki_bez_a in
  let w := @wczytaj_projekt bib_probna (join bd "dane_projektu.json") a_po_angielsku
             kopia.1 in
  kopia.2 = Some (KopiaUtworzona bd) ∧
  dok w.1 = dok a_trzy ∧ ilustracje w.1 = [] ∧
  opisy_krokow w.1 = opisy_krokow a_trzy ∧
  w.2 = kopia.1 ∧
  jezyk (opc w.1) = "polski" ∧ dark_theme (opc w.1) = false ∧
  tlumaczenia (opc w.1) = tlumaczenia (opc a_po_angielsku).
Proof.
  apply (@wczytaj_projekt_z_kopii bib_probna "/home/ola/kopie" "20240506_101500"
           "2024-05-06T10:15:00.123456" a_trzy a_po_angielsku pliki_bez_a).
  - discriminate.
  - discriminate.
  - apply kopia_probna_nowa.
  - apply kopia_probna_obrazy.
Defined.

(** ** What a backup leaves alone *)

(** [copy2] writes one path: the destination, or the file of the source's
    name inside it. *)
Lemma copy2_rama (src dst : string) (f f' : pliki) (q : string) :
  copy2 src dst f = Some f' →
  q ≠ dst → q ≠ join dst (basename src) → f' !! q = f !! q.
Proof.
  unfold copy2. intros Hc H1 H2.
  set (dst' := match f !! dst with
               | Some Katalog => join dst (basename src)
               | _ => dst
               end) in Hc.
  assert (Hq : q ≠ dst').
  { unfold dst'. by destruct (f !! dst) as [[| |]|]. }
  cbv zeta in Hc. destruct (decide (src = dst')); [done|].
  destruct (f !! src) as [[b|j|]|]; try done;
    destruct (f !! dst') as [[| |]|]; try done;
    injection Hc as <-; by rewrite lookup_insert_ne.
Qed.

Lemma kopiuj_obrazy_rama (bd : string) (q : string) (il : list string) :
  ¬ w_katalogu bd q →
  (∀ n, bez_znaku "/" n → ¬ w_katalogu (join bd n) q) →
  ∀ (i : nat) (f1 : pliki), (kopiuj_obrazy bd i il f1).1 !! q = f1 !! q.
Proof.
  intros H1 H2. induction il as [|p il IH]; intros i f1; [done|].
  cbn [kopiuj_obrazy]. destruct (exists_path f1 p); [|apply IH].
  destruct (copy2 p (join bd (nazwa_kopii i p)) f1) as [f'|] eqn:Hc; [|done].
  rewrite IH. apply (copy2_rama _ _ _ _ _ Hc).
  - intros ->. apply H1, w_katalogu_kopia.
  - intros ->. apply (H2 (nazwa_kopii i p)); [apply bez_znaku_nazwa_kopii|].
    right. exists (basename p). split; [apply bez_znaku_basename|done].
Qed.

(** X17.  Whatever the state and the files, and whether it succeeds or
    fails, [utworz_kopie_zapasowa] writes only the backup directory, names
    directly in it, and names directly in a directory that stands in the
    place of a copy: every other path, the images of the project among
    them, holds afterwards what it held before. *)
Theorem utworz_kopie_zapasowa_nie_rusza (katalog znacznik iso : string) (a : app)
    (f : pliki) (q : string) :
  let bd := join katalog ("backup_dokumentacji_" +:+ znacznik) in
  ¬ w_katalogu bd q →
  (∀ n, bez_znaku "/" n → ¬ w_katalogu (join bd n) q) →
  (utworz_kopie_zapasowa katalog znacznik iso a f).1 !! q = f !! q.
Proof.
  intros bd H1 H2. unfold utworz_kopie_zapasowa.
  destruct (decide (ilustracje a = [])); [done|].
  destruct (decide (katalog = "")); [done|]. fold bd. cbv zeta.
  assert (Hm : ∀ f1, makedirs bd f = Some f1 → f1 !! q = f !! q).
  { unfold makedirs. intros f1.
    destruct (f !! bd) as [[| |]|]; try done; intros [= <-]; [done|].
    rewrite lookup_insert_ne; [done|]. intros <-. apply H1. by left. }
  destruct (makedirs bd f) as [f1|]; [|done].
  pose proof (kopiuj_obrazy_rama bd q (ilustracje a) H1 H2 0%nat f1) as Hk.
  destruct (kopiuj_obrazy bd 0 (ilustracje a) f1) as [f2 []]; cbn [fst] in Hk.
  - unfold write_json.
    assert (Hd : q ≠ join bd "dane_projektu.json").
    { intros ->. apply H1. right. exists "dane_projektu.json".
      split; [apply bez_znaku_dane_projektu|done]. }
    destruct (f2 !! join bd "dane_projektu.json") as [[| |]|]; cbn [fst];
      rewrite ?lookup_insert_ne; try done; rewrite Hk; by apply Hm.
  - cbn [fst]. rewrite Hk. by apply Hm.
Qed.

Lemma kopia_probna_glebiej (n q : string) :
  bez_znaku "/" n →
  w_katalogu
    (join (join "/home/ola/kopie" ("backup_dokumentacji_" +:+ "20240506_101500")) n) q →
  q ≠ "/home/ola/b.png".
Proof.
  intros Hn Hq.
  destruct (w_katalogu_prefiks
              (join "/home/ola/kopie" ("backup_dokumentacji_" +:+ "20240506_101500"))
              (join (join "/home/ola/kopie"
                      ("backup_dokumentacji_" +:+ "20240506_101500")) n))
    as [r Hr]; [done|right; by exists n|].
  rewrite Hr in Hq. apply w_katalogu_prefiks in Hq as [r' ->]; [|by vm_compute].
  by vm_compute.
Qed.

Lemma utworz_kopie_zapasowa_nie_rusza_witness :
  (utworz_kopie_zapasowa "/home/ola/kopie" "20240506_101500"
     "2024-05-06T10:15:00.123456" a_trzy pliki_a_katalog).1 !! "/home/ola/b.png"
  = pliki_a_katalog !! "/home/ola/b.png".
Proof.
  apply (utworz_kopie_zapasowa_nie_rusza "/home/ola/kopie" "20240506_101500"
           "2024-05-06T10:15:00.123456" a_trzy pliki_a_katalog "/home/ola/b.png").
  - intros Hq. by destruct (kopia_probna_poza _ Hq) as (_ & Hb & _).
  - intros n Hn Hq. by apply (kopia_probna_glebiej n _ Hn Hq).
Defined.

(** A directory in the place of the first image: the backup fails, and the
    new directory stays behind, empty. *)
Example kopia_nieudana :
  let w := utworz_kopie_zapasowa "/home/ola/kopie" "20240506_101500"
             "2024-05-06T10:15:00.123456" a_trzy pliki_a_katalog in
  w.2 = Some BladKopii ∧
  w.1 = <["/home/ola/kopie/backup_dokumentacji_20240506_101500" := Katalog]>
          pliki_a_katalog.
Proof. by vm_compute. Qed.

(** ** The budget of a resized image *)

Lemma plik_gesty_length : Z.of_nat (length plik_gesty) = 900004.
Proof. unfold plik_gesty. cbn [length]. rewrite length_replicate. lia. Qed.

(** A returned file over the budget refutes the claim of the budget. *)
Lemma budzet_przekroczony `{Biblioteki} (tmp : string) (teraz_ms : Z)
    (input_path : string) (f : pliki) (b : list byte) (n : Z) :
  read_bytes f input_path = Some b →
  800 * 1024 < Z.of_nat (length b) →
  ((λ b', Z.of_nat (length b'))
     <$> read_bytes (w_pliki (resize_image tmp teraz_ms input_path f))
           (zwrot (resize_image tmp teraz_ms input_path f))) = Some n →
  800 * 1024 < n →
  ¬ budzet_dotrzymany tmp teraz_ms input_path f.
Proof.
  intros Hr Hbig Hn Hlt Hb. destruct (Hb b Hr Hbig) as (b' & Hb' & Hle).
  rewrite Hb' in Hn. injection Hn as <-. lia.
Qed.

Lemma resize_image_gesty :
  w_konsola (@resize_image bib_gesta "/tmp/doc_generator_k3x" 1714981000123
               "/home/ola/plan.png" pliki_geste) = [] ∧
  zwrot (@resize_image bib_gesta "/tmp/doc_generator_k3x" 1714981000123
           "/home/ola/plan.png" pliki_geste)
    = "/tmp/doc_generator_k3x/1714981000123_d41d8cd9.jpg" ∧
  ((λ b', Z.of_nat (length b'))
     <$> @read_bytes bib_gesta
           (w_pliki (@resize_image bib_gesta "/tmp/doc_generator_k3x" 1714981000123
                       "/home/ola/plan.png" pliki_geste))
           (zwrot (@resize_image bib_gesta "/tmp/doc_generator_k3x" 1714981000123
                     "/home/ola/plan.png" pliki_geste))) = Some 2304000 ∧
  skaluj 2000 (ratio 900004) = Some 1600 ∧
  skaluj 1800 (ratio 900004) = Some 1440.
Proof. vm_compute. by repeat split. Qed.

(** C5 fails where the resizing succeeds.  A palette image of 2000 x 1800
    pixels in a file of 900004 bytes is over the budget of 800 * 1024
    bytes.  The ratio is 0.8, the image is resized once to 1600 x 1440, and
    the encoder, which writes a byte for each pixel, produces 2304000
    bytes.  [resize_image] prints nothing, writes that file and returns its
    path: the file returned is larger than the budget, and larger than the
    input. *)
Lemma resize_image_ponad_budzet :
  let r := @resize_image bib_gesta "/tmp/doc_generator_k3x" 1714981000123
             "/home/ola/plan.png" pliki_geste in
  @read_bytes bib_gesta pliki_geste "/home/ola/plan.png" = Some plik_gesty ∧
  Z.of_nat (length plik_gesty) = 900004 ∧
  skaluj 2000 (ratio 900004) = Some 1600 ∧
  skaluj 1800 (ratio 900004) = Some 1440 ∧
  w_konsola r = [] ∧
  zwrot r = "/tmp/doc_generator_k3x/1714981000123_d41d8cd9.jpg" ∧
  ((λ b', Z.of_nat (length b')) <$> @read_bytes bib_gesta (w_pliki r) (zwrot r))
    = Some 2304000 ∧
  ¬ @budzet_dotrzymany bib_gesta "/tmp/doc_generator_k3x" 1714981000123
      "/home/ola/plan.png" pliki_geste.
Proof.
  assert (Hr : @read_bytes bib_gesta pliki_geste "/home/ola/plan.png"
               = Some plik_gesty).
  { unfold read_bytes, pliki_geste. by rewrite lookup_singleton_eq. }
  destruct resize_image_gesty as (Hk & Hz & Hl & Hw & Hh).
  refine (conj Hr (conj plik_gesty_length (conj Hw (conj Hh (conj Hk (conj Hz
            (conj Hl _))))))).
  refine (budzet_przekroczony _ _ _ _ plik_gesty 2304000 Hr _ Hl _).
  - rewrite plik_gesty_length. lia.
  - lia.
Qed.

(** ** Where loading writes *)

Lemma jget_elem_of (k : string) (l : list (string * json)) (v : json) :
  jget k l = Some v → (k, v) ∈ l.
Proof.
  induction l as [|[k' v'] l IH]; [done|]. cbn [jget].
  destruct (decide (k = k')) as [->|_].
  - intros [= ->]. by left.
  - intros Hj. right. by apply IH.
Qed.

Section Nazwy.
Context `{Biblioteki} (P : string → Prop).

Lemma slad_nazw_refl (s : app * pliki) : slad_nazw P s s.
Proof. by split. Qed.

Lemma slad_nazw_trans (s1 s2 s3 : app * pliki) :
  slad_nazw P s1 s2 → slad_nazw P s2 s3 → slad_nazw P s1 s3.
Proof.
  intros [H1 H2] [G1 G2]. split; [congruence|].
  intros q Hq. rewrite G2; [by apply H2|]. by rewrite H1.
Qed.

Lemma slad_nazw_bind {A B} (c : M A) (k : A → M B) (s : app * pliki) :
  slad_nazw P s (c s).1 →
  (∀ x, (c s).2 = Some x → slad_nazw P (c s).1 (k x (c s).1).1) →
  slad_nazw P s ((c ≫= k) s).1.
Proof.
  intros Hc Hk. unfold mbind, M_bind.
  destruct (c s) as [s1 [x|]]; [|done].
  eapply slad_nazw_trans; [exact Hc|]. by apply Hk.
Qed.

Lemma slad_nazw_lift {A} (o : option A) (s : app * pliki) :
  slad_nazw P s (lift o s).1.
Proof. apply slad_nazw_refl. Qed.

Lemma slad_nazw_zmiana (g : app → app) (s : app * pliki) :
  temp_dir (g s.1) = temp_dir s.1 → slad_nazw P s (zmiana g s).1.
Proof. intros Hg. by split. Qed.

Lemma slad_nazw_zmiana_opc (g : opcje → opcje) (s : app * pliki) :
  slad_nazw P s (zmiana_opc g s).1.
Proof. by apply slad_nazw_zmiana. Qed.

Ltac nazw_krok :=
  first
    [ apply slad_nazw_lift
    | apply slad_nazw_zmiana_opc
    | apply slad_nazw_zmiana; reflexivity
    | apply slad_nazw_refl ].

Lemma slad_nazw_wczytaj_pola (projekt : json) (s : app * pliki) :
  slad_nazw P s (wczytaj_pola projekt s).1.
Proof.
  unfold wczytaj_pola.
  repeat (apply slad_nazw_bind; [nazw_krok|intros ? _]). nazw_krok.
Qed.

Lemma slad_nazw_wczytaj_ustawienia (projekt : json) (s : app * pliki) :
  slad_nazw P s (wczytaj_ustawienia projekt s).1.
Proof.
  unfold wczytaj_ustawienia.
  repeat (apply slad_nazw_bind; [nazw_krok|intros ? _]).
  destruct projekt as [|b|z|t|l|l]; try apply slad_nazw_refl.
  destruct (jget "tlumaczenia" l); [apply slad_nazw_zmiana_opc|apply slad_nazw_refl].
Qed.

Lemma slad_nazw_wczytaj_opisy (projekt : json) (s : app * pliki) :
  slad_nazw P s (wczytaj_opisy projekt s).1.
Proof.
  unfold wczytaj_opisy.
  repeat (apply slad_nazw_bind; [nazw_krok|intros ? _]). nazw_krok.
Qed.

Lemma slad_nazw_zapisz_plik (i : nat) (n : string) (b : list byte)
    (s : app * pliki) :
  P n → slad_nazw P s (zapisz_plik (sciezka_wczytana (temp_dir s.1) i n) b s).1.
Proof.
  intros Hn. unfold zapisz_plik, write_bytes.
  destruct (s.2 !! _) as [[| |]|]; try apply slad_nazw_refl;
    (split; [done|]; intros q Hq; cbn;
     rewrite lookup_insert_ne; [done|]; intros Heq; by apply (Hq i n)).
Qed.

Lemma slad_nazw_wczytaj_obraz (obrazy : json) (i : nat) (s : app * pliki) :
  (∀ obraz_data nazwa,
     py_wpis (py_str (Z.of_nat i)) obrazy = Some (Some obraz_data) →
     py_item "nazwa" obraz_data = Some nazwa → P (format_json nazwa)) →
  slad_nazw P s (wczytaj_obraz obrazy i s).1.
Proof.
  intros HP. unfold wczytaj_obraz.
  apply slad_nazw_bind; [nazw_krok|]. intros [obraz_data|] Hw;
    [|apply slad_nazw_refl].
  apply slad_nazw_bind; [nazw_krok|]. intros nazwa_pliku Hn.
  apply slad_nazw_bind; [nazw_krok|]. intros dane_base64 _.
  apply slad_nazw_bind; [nazw_krok|]. intros dane _.
  apply slad_nazw_bind; [nazw_krok|]. intros obraz_binary _.
  apply slad_nazw_bind; [apply slad_nazw_refl|]. intros tmp Htmp.
  cbn in Htmp. injection Htmp as <-. cbn [fst odczyt].
  apply slad_nazw_bind; [apply slad_nazw_zapisz_plik; by apply (HP obraz_data)|].
  intros [] _. by apply slad_nazw_zmiana.
Qed.

Lemma slad_nazw_dla_kazdego {A} (g : A → M ()) (l : list A) :
  (∀ x s, slad_nazw P s (g x s).1) →
  ∀ s, slad_nazw P s (dla_kazdego g l s).1.
Proof.
  intros Hg. induction l as [|x l IH]; intros s; [apply slad_nazw_refl|].
  cbn [dla_kazdego]. apply slad_nazw_bind; [apply Hg|]. intros [] _. apply IH.
Qed.

Lemma nazwy_obrazow_wpis (projekt obrazy : json) (k : string)
    (obraz_data nazwa : json) :
  py_get "obrazy" (JObj []) projekt = Some obrazy →
  py_wpis k obrazy = Some (Some obraz_data) →
  py_item "nazwa" obraz_data = Some nazwa →
  format_json nazwa ∈ nazwy_obrazow projekt.
Proof.
  intros Hg Hw Hn. unfold nazwy_obrazow. rewrite Hg.
  destruct obrazy as [|b|z|t|l|l]; try done.
  - cbn in Hw. by destruct (String.index 0 k t).
  - cbn in Hw. by destruct (existsb _ l).
  - cbn in Hw. injection Hw as Hw. apply jget_elem_of in Hw.
    apply list_elem_of_omap. exists (k, obraz_data). split; [done|].
    cbn. by rewrite Hn.
Qed.

Lemma slad_nazw_wczytaj_obrazy (projekt : json) (s : app * pliki) :
  (∀ n, n ∈ nazwy_obrazow projekt → P n) →
  slad_nazw P s (wczytaj_obrazy projekt s).1.
Proof.
  intros HP. unfold wczytaj_obrazy.
  apply slad_nazw_bind; [by apply slad_nazw_zmiana|]. intros [] _.
  apply slad_nazw_bind; [nazw_krok|]. intros obrazy Ho.
  apply slad_nazw_bind; [nazw_krok|]. intros n _.
  apply slad_nazw_dla_kazdego. intros i s'. apply slad_nazw_wczytaj_obraz.
  intros obraz_data nazwa Hw Hn. apply HP.
  by eapply nazwy_obrazow_wpis.
Qed.

Lemma slad_nazw_wczytaj_projekt_try (sciezka : string) (s : app * pliki) :
  (∀ projekt n, read_json s.2 sciezka = Some projekt →
                n ∈ nazwy_obrazow projekt → P n) →
  slad_nazw P s (wczytaj_projekt_try sciezka s).1.
Proof.
  intros HP. unfold wczytaj_projekt_try.
  apply slad_nazw_bind; [apply slad_nazw_refl|]. intros projekt Hp.
  apply slad_nazw_bind; [apply slad_nazw_wczytaj_pola|]. intros [] _.
  apply slad_nazw_bind;
    [apply slad_nazw_wczytaj_obrazy; intros n Hn; by apply (HP projekt n)|].
  intros [] _.
  apply slad_nazw_bind; [apply slad_nazw_wczytaj_opisy|]. intros [] _.
  apply slad_nazw_bind; [apply slad_nazw_wczytaj_ustawienia|]. intros [] _.
  apply slad_nazw_bind; [by apply slad_nazw_zmiana|]. intros [] _.
  apply slad_nazw_bind; [apply slad_nazw_refl|]. intros [] _.
  set (s7 := (odswiez_interfejs _).1).
  destruct (slad_zapisz_stan (set_historia [] (-1) s7.1)) as (H1 & _).
  apply slad_nazw_zmiana. by rewrite H1.
Qed.
End Nazwy.

(** A file [loaded_<i>_<name>] with a name without [/] lies directly in the
    temporary directory. *)
Lemma sciezka_wczytana_w_katalogu (tmp : string) (i : nat) (n : string) :
  bez_znaku "/" n →
  w_katalogu tmp (sciezka_wczytana tmp i n) ∧
  basename (sciezka_wczytana tmp i n)
    = "loaded_" +:+ py_str (Z.of_nat i) +:+ "_" +:+ n.
Proof.
  intros Hn.
  assert (Hb : bez_znaku "/" ("loaded_" +:+ py_str (Z.of_nat i) +:+ "_" +:+ n)).
  { rewrite !bez_znaku_app. split; [by vm_compute|].
    split; [apply bez_znaku_same_cyfry, same_cyfry_py_str|].
    split; [by vm_compute|done]. }
  split; [|by apply basename_join]. right. by eexists.
Qed.

(** X1.  When no image name stored in the project file holds a path
    separator, [wczytaj_projekt] writes only files [loaded_<i>_<name>]
    that lie directly in the temporary directory of the controller,
    whatever else the file holds and however far the loading gets: every
    other path holds afterwards what it held before.  The names are used
    as the file gives them, so the condition on them is needed. *)
Theorem wczytaj_projekt_pisze_tylko_wczytane `{Biblioteki} (sciezka : string)
    (a : app) (f : pliki) (q : string) :
  (∀ projekt n, read_json f sciezka = Some projekt →
                n ∈ nazwy_obrazow projekt → nazwa_prosta n) →
  ((∀ i n, nazwa_prosta n → q ≠ sciezka_wczytana (temp_dir a) i n) →
   (wczytaj_projekt sciezka a f).2 !! q = f !! q) ∧
  (∀ i n, nazwa_prosta n →
          w_katalogu (temp_dir a) (sciezka_wczytana (temp_dir a) i n) ∧
          basename (sciezka_wczytana (temp_dir a) i n)
            = "loaded_" +:+ py_str (Z.of_nat i) +:+ "_" +:+ n).
Proof.
  intros Hnazwy. split.
  - intros Hq. unfold wczytaj_projekt. case_decide; [done|].
    destruct (slad_nazw_wczytaj_projekt_try nazwa_prosta sciezka (a, f) Hnazwy)
      as [_ Hf].
    by apply Hf.
  - intros i n [Hn _]. by apply sciezka_wczytana_w_katalogu.
Qed.

Lemma projekt_probny_nazwy (projekt : json) (n : string) :
  @read_json bib_probna
    (@zapisz_projekt bib_probna "/home/ola/projekt.json" a_trzy pliki_trzy)
    "/home/ola/projekt.json" = Some projekt →
  n ∈ @nazwy_obrazow bib_probna projekt → nazwa_prosta n.
Proof.
  intros Hr Hn.
  assert (Hp : @read_json bib_probna
                 (@zapisz_projekt bib_probna "/home/ola/projekt.json" a_trzy
                    pliki_trzy) "/home/ola/projekt.json"
               = Some (JObj (@projekt_pola bib_probna a_trzy pliki_trzy)))
    by (by vm_compute).
  rewrite Hp in Hr. injection Hr as <-.
  assert (Hl : @nazwy_obrazow bib_probna
                 (JObj (@projekt_pola bib_probna a_trzy pliki_trzy))
               = ["a.png"; "b.png"; "c.png"]) by (by vm_compute).
  rewrite Hl in Hn. rewrite !elem_of_cons in Hn.
  destruct Hn as [->|[->|[->|Hn]]];
    [clear; unfold nazwa_prosta; cbn; repeat split; discriminate..
    |by apply elem_of_nil in Hn].
Qed.

Lemma wczytaj_projekt_pisze_tylko_wczytane_witness :
  ((@wczytaj_projekt bib_probna "/home/ola/projekt.json" a_start
      (@zapisz_projekt bib_probna "/home/ola/projekt.json" a_trzy pliki_trzy)).2
     !! "/home/ola/a.png"
   = @zapisz_projekt bib_probna "/home/ola/projekt.json" a_trzy pliki_trzy
       !! "/home/ola/a.png") ∧
  (w_katalogu (temp_dir a_start) (sciezka_wczytana (temp_dir a_start) 0 "a.png") ∧
   basename (sciezka_wczytana (temp_dir a_start) 0 "a.png")
     = "loaded_" +:+ py_str (Z.of_nat 0) +:+ "_" +:+ "a.png").
Proof.
  pose proof (@wczytaj_projekt_pisze_tylko_wczytane bib_probna
                "/home/ola/projekt.json" a_start
                (@zapisz_projekt bib_probna "/home/ola/projekt.json" a_trzy
                   pliki_trzy)
                "/home/ola/a.png" projekt_probny_nazwy) as H12.
  split.
  - apply (proj1 H12). intros i n _ Heq.
    rewrite sciezka_wczytana_poczatek in Heq; [|done|done].
    discriminate Heq.
  - apply (proj2 H12 0%nat "a.png"). clear.
    unfold nazwa_prosta; cbn; repeat split; discriminate.
Defined.

(** A name with [/] is joined to the temporary directory as it is: the
    path recorded for the image leads out of the directory. *)
Example wczytaj_projekt_nazwa_z_ukosnikiem :
  let w := @wczytaj_projekt bib_probna "/home/ola/obcy.json" a_start
             {[ "/home/ola/obcy.json" := Dokument projekt_z_ukosnikiem ]} in
  ilustracje w.1
    = ["/tmp/doc_generator_k3x/loaded_0_x/../../../home/ola/.profile"] ∧
  is_Some (w.2 !! "/tmp/doc_generator_k3x/loaded_0_x/../../../home/ola/.profile").
Proof. split; [by vm_compute|]. vm_compute. by eexists. Qed.
